(* ===== verification/_CoqProject ===== *)
-Q . S2P
Prelude.v
Segmenter.v
Sha256.v
Path.v
FileIo.v
Finalize.v
Bandwidth.v
QueueManager.v
Pool.v
PoolInv.v
PoolLive.v
PoolMirror.v
PoolStatic.v
Db.v
Engine.v
EngineResume.v
Config.v
Scheduler.v
Wire.v
Commands.v
Offers.v
Ipc.v
IpcClient.v
OfferRpc.v
Daemon.v
Outcome.v
GuiClient.v
GuiView.v
Autostart.v
Cli.v
Toml.v
GuiWindow.v
GuiRpc.v
Log.v
Lifecycle.v
Thread.v
Notify.v
Popup.v
Floats.v
Labels.v
Launch.v
Process.v
Spawn.v
DataDir.v
OneDaemon.v
BrowserInstall.v
CurlClient.v
NativeHost.v
