(* ===== verification/Prelude.v ===== *)
(** * cdm verification library: overview and prelude

    cdm is a download manager written in C.  A daemon keeps a queue of downloads,
    runs each in several connections that steal work from one another, records
    everything in a SQLite database so that a crash loses nothing, and talks to
    its clients (command line, GUI, browser extension) over a Unix socket.  This
    library is a shallow embedding of the C code under src/src and the theorems
    about it; a definition has the name of the function it translates.

    ** The parts and how they interact

    <<
      clients                       daemon
      GuiWindow -> GuiView ->       OneDaemon, DataDir (start, lock, stop)
       GuiClient              ---   Ipc -> Commands, Offers ----+
      Cli, NativeHost, Popup  Wire                              v
       (through IpcClient)          Scheduler -> Engine -> Pool (threads)
                                       |           |         |
                                    QueueManager   Db     FileIo, Bandwidth
      Launch, Process, Spawn (main, starting the others)     CurlClient (requests)
    >>

    The main loop of the daemon ticks the scheduler, reports progress, refills
    the bandwidth bucket and polls the socket.  A tick starts queued downloads,
    each on a thread that runs the engine; the engine asks the server for the
    size, plans the ranges, preallocates the file, persists the chunks and runs
    the worker pool; the workers write the file, and an idle one splits the
    range of another, which the engine records in the queue entry and in the
    database.  The end of the thread decides the fate of the download (done,
    paused, canceled, retried, failed).  The extension of a browser offers a
    download through the native host; the host starts the popup, in which the
    user confirms or dismisses the offer.

    ** Files, and the code they model

    - Prelude.v: machine integers, byte strings as lists of [Z] in [0, 256)
      (C strings without their NUL), libc string functions, list lemmas.
    - Segmenter.v: src/engine/segmenter.c.  Sha256.v: src/platform/sha256.c.
      Path.v: src/utils/path.c and dirname/basename.  FileIo.v:
      src/platform/file_io.c over a map from path to node with sparse files.
      Finalize.v: src/engine/finalize.c.
    - Bandwidth.v: src/platform/bandwidth.c, cut at its atomic accesses.
    - QueueManager.v: src/core/queue_manager.c, one transition per function
      (each runs under the queue mutex).
    - Pool.v: src/engine/worker_pool.c, every thread cut at its accesses to
      shared memory; PoolInv.v, PoolLive.v, PoolStatic.v (no memory for the
      rebalance pool) and PoolMirror.v are its theory, the last through the class
      [PoolMirror], which the engine instantiates.
    - CurlClient.v: src/platform/curl_client.c and the options a worker sets.
    - Engine.v, EngineResume.v: src/engine/engine_runner.c.
    - Db.v: src/persistence/db.c, its statements on two tables of rows.
    - Config.v: src/utils/config.c.  Toml.v: what its parser has to read back, and
      a small parser that does.  Log.v: src/utils/log.c.
    - Scheduler.v: src/core/scheduler.c; Daemon.v: the loop and the start-up of
      src/daemon/daemon.c, with crashes; Outcome.v: the thread of a download from
      end to end, the engine and the scheduler together.
    - OneDaemon.v: the paths, the lock, the probes and the listening socket of
      src/platform/ipc_socket.c and the steps of run_daemon before and after the
      loop, for any number of processes; DataDir.v: the data directory and its
      migration.
    - Wire.v, Commands.v, Offers.v, Ipc.v, IpcClient.v: the rest of ipc_socket.c
      (bytes on a socket; effects of the commands; browser offers; the server;
      the client); OfferRpc.v: its browser requests end to end.
    - GuiClient.v, GuiView.v: src/gui/gui_client.c, gui_model.c,
      gui_controller.c and the event loop of gui_nuklear.c; GuiWindow.v: a frame
      of gui_nuklear.c, and src/platform/diskspace.c; GuiRpc.v: a click from the
      window to the daemon and back; Lifecycle.v: src/gui/gui_backend_sdl.c and
      run_gui, as what they acquire and release.
    - Popup.v: src/gui/browser_popup.c.  Labels.v: the numbers, texts and bars that
      the popup and the main window show, on the floating point and printf of
      Floats.v.
    - Launch.v: src/main.c, what is executed and
      with which handshake.
    - Process.v: processes, descriptors and generations of a kernel, and programs
      as trees of system calls; Spawn.v: src/platform/spawn.c, open_path.c and
      daemonize of daemon.c as such programs.
    - Thread.v: src/platform/thread.c.  Notify.v: src/utils/notify.c.
    - Cli.v: src/cli/cli.c.  NativeHost.v: src/native_host/main_host.c.
      BrowserInstall.v: src/native_host/browser_install.c.
    - Autostart.v: src/platform/daemon_autostart.c.

    State: the queue is [QueueManager.QM] (the list and the id counter), a
    download [Download]; the database is [option Tables] ([None]: not open); the
    file system a [gmap] from paths; [Scheduler.SState] puts them together with
    the status events sent; a thread pool is a list of [Worker]s and a [Shared];
    processes that start the daemon share an [OneDaemon.Machine]; those that fork
    and execute, a [Process.Sys]; the window is a [GuiWindow.Window] on a
    [GuiWindow.Desk].

    ** What the theorems show

    Each theorem names its conditions in its comment; the groups are:

    - A download is right: [PoolInv.pool_download_correct] (in every interleaving
      of workers and splits, success means every byte is the server's),
      [PoolLive.single_download_correct], [Engine.engine_success_correct],
      [Finalize.engine_finalize_correct] and [Outcome.row_tells_truth] (a row that
      says DONE has the server's file, with the requested digest, which
      [Sha256.sha256_stream_correct] ties to SHA-256),
      [Segmenter.segmenter_plan_tiles], [Engine.engine_confined] and
      [FileIo.file_preallocate_spec] (no other file is touched);
      [CurlClient.cli_headers_reach_curl], [CurlClient.range_header_asks] and
      [CurlClient.curl_client_head_spec] (what is asked of the server, and what
      its answer to the probe is taken for).
    - Nothing is lost: [EngineResume.killed_download_resumable] (a fresh download
      can be killed between any two steps of its workers and resumed from what is
      stored; between the two database statements of a split exactly the tail
      split off is lost), [Daemon.restart_keeps_downloads], [Db.restore_roundtrip],
      [Db.restart_ids_fresh], [Db.db_init_schema], [DataDir.data_dir_migrated],
      [Log.log_keeps_latest].
    - The daemon schedules correctly: [Scheduler.scheduler_exclusive],
      [Scheduler.download_end_spec], [Scheduler.retry_backoff_bounds],
      [PoolLive.pool_no_deadlock], [Bandwidth.bandwidth_respects_cap],
      the theorems on the queue, [Commands.reserve_download_spec],
      [QueueManager.is_safe_dest_path_spec], [Path.path_make_unique_succeeds];
      [Thread.join_returns_result], [Notify.notice_matches_status];
      and there is one of it: [OneDaemon.one_daemon].
    - Processes start each other safely: [Spawn.spawn_detached] (at most
      once, detached, with the right arguments, and the caller is never stuck),
      [Spawn.popup_spawned] (only the popup can report that it is ready),
      [Spawn.daemonize_detaches].
    - Clients and server understand each other: [Wire.string_transfer],
      [IpcClient.command_rpc], [IpcClient.list_all_rpc], [OfferRpc.browser_rpc],
      [Cli.cli_command_effect], [NativeHost.native_stream_roundtrip],
      [NativeHost.poll_offers_informs], [Ipc.server_tables_sound],
      [Ipc.broadcast_delivers], the theorems on offers,
      [Popup.popup_receives], [Popup.popup_decides], [Launch.popup_handshake].
    - The window shows and does the right thing: [GuiView.gui_shows_verdict],
      [GuiClient.gui_rings_are_bounded_queues], [GuiWindow.gui_frame_sound],
      [GuiRpc.toolbar_command_rpc], [GuiWindow.open_path_uri],
      [GuiWindow.label_text_fits], [Labels.popup_labels_true] (texts fit their
      buffers and amounts are those of the daemon), [Labels.window_texts_fit],
      [GuiWindow.diskspace_exact], [Lifecycle.run_gui_releases] and
      [Lifecycle.backend_all_or_nothing] (whatever fails, what was acquired is
      released).
    - Settings: [Config.config_init_sane], [Config.config_save_reload],
      [GuiWindow.settings_dialog_saves], [Autostart.autostart_effect],
      [Autostart.toggle_hidden_spec], [BrowserInstall.browser_install_effect].

    Behaviour of the code that differs from its intent or its comments is shown
    by closed [Example]s next to the component (for instance
    [Scheduler.backoff_overflows], [Db.max_id_signed],
    [QueueManager.root_slash_rejects], [Daemon.pause_overlaps_end],
    [GuiView.dequeued_options_alias], [Cli.negative_id_accepted],
    [NativeHost.repeated_dismissed_offer_dropped],
    [OneDaemon.two_daemons_one_database], [OneDaemon.long_socket_path],
    [Popup.popup_drops_healthy], [CurlClient.ranges_misread],
    [GuiWindow.settings_not_faithful], [GuiWindow.details_dropped],
    [Log.forged_line], [Spawn.daemon_not_started], [Spawn.exe_path_cut],
    [Scheduler.second_thread_while_ending], [EngineResume.killed_between_statements],
    [EngineResume.killed_while_planning], [Thread.failed_join_stores_zero]), and theorems state the hypothesis that
    excludes it.

    ** Conventions, bounds and fuel

    Integers have their C width ([wrap], [sext]) wherever the code can leave the
    range.  Loops over data are structural.  Fuel appears where a loop consumes
    something else and is the measure of it: bytes still in a connection for the
    exact reads and the draining, entries of a ring for the event loops, the
    length of a text for a label, 40 symbolic links as in the kernel.  A process
    has 1024 descriptors ([Process.fd_max]).  The 999999
    candidate names of [path_make_unique] and the million attempts of
    [reserve_download] are the bounds of the code itself.  Theorems say what the
    function returns, not what it returns if the fuel suffices.

    Outside decisions are arguments: what the HTTP server answers, which system
    calls fail ([IoEnv], [sql_ok], [OneDaemon.Oracle]), how the kernel cuts the
    data of a socket ([Conn]), the time, random ids, which thread or process
    moves next, what the user does in a window (the [..Input] records).  cJSON
    and tomlc17 (vendored) are parameters, with the documented behaviour a
    theorem needs as a named hypothesis and a concrete instance in its witness.

    Simplifications: in [Daemon.daemon_step] the end of a thread and a client
    command are one step each (their overlaps are the subject of
    [Daemon.pause_overlaps_end] and [Daemon.cancel_overlaps_end]), while
    [Scheduler.sched_step] takes the calls of an ending thread one by one;
    a run of the engine that uses an uninitialised progress pointer goes on as if
    nothing was written, with a mark ([e_ub]) that the theorems on success exclude;
    in [OneDaemon.machine_step] a step of [run_daemon] is one of its calls, except
    that it leaves from [ipc_server_stop] to the release of the lock in one step,
    and one bit decides both socket() calls of its start;
    a write that fails leaves the file as it was (the kernel may have written a
    part of it, which nothing accounts for);
    rename of a finished temporary file is one step with the writing of it;
    hard links and dot components of paths are not interpreted; the floating
    point numbers of the protocol are carried as their bits, and the progress
    ratio and the numbers of the windows are computed in the IEEE formats of the
    code (Wire.v, Floats.v), a NaN being printed as the C library chooses; widths of
    texts are predicates (GuiWindow.v).

    ** Not modelled

    Drawing: the colours, icons, positions and fonts of gui_nuklear.c,
    browser_popup.c and gui_backend_sdl.c; the installation of the signal
    handlers of the daemon (a signal is the request to stop); the branches for
    Windows and macOS; and the vendored libraries.  They are output or
    third-party code without decisions of their own. *)

From Stdlib Require Export ZArith Lia Bool.
From Stdlib Require Import String Ascii.
From stdpp Require Export base numbers list option gmap pretty.
From stdpp Require Import strings.

#[global] Open Scope Z_scope.

(** ** Notations *)

Declare Scope cdm_scope.
Delimit Scope cdm_scope with cdm.

(** ** Machine integers

    A C unsigned integer of [w] bits is a [Z] in [0, 2^w).  [wrap w] is the
    reduction the hardware (and ISO C, for unsigned types) applies; [sext w]
    is the conversion to the signed type of the same width on a two's
    complement target. *)

Definition wrap (w z : Z) : Z := z mod 2 ^ w.

Definition sext (w z : Z) : Z :=
  let m := z mod 2 ^ w in if m <? 2 ^ (w - 1) then m else m - 2 ^ w.

Abbreviation u8 := (wrap 8).
Abbreviation u32 := (wrap 32).
Abbreviation u64 := (wrap 64).
Abbreviation i32 := (sext 32).
Abbreviation i64 := (sext 64).

Definition is_u (w z : Z) : Prop := 0 <= z < 2 ^ w.

Abbreviation is_u8 := (is_u 8).
Abbreviation is_u32 := (is_u 32).
Abbreviation is_u64 := (is_u 64).

Notation "x +64 y" := (u64 (x + y)) (at level 50, left associativity) : cdm_scope.
Notation "x -64 y" := (u64 (x - y)) (at level 50, left associativity) : cdm_scope.
Notation "x +32 y" := (u32 (x + y)) (at level 50, left associativity) : cdm_scope.

(** Powers of two that appear in side conditions, as numerals for [lia]. *)
Lemma pow2_8 : 2 ^ 8 = 256. Proof. reflexivity. Qed.
Lemma pow2_31 : 2 ^ 31 = 2147483648. Proof. reflexivity. Qed.
Lemma pow2_32 : 2 ^ 32 = 4294967296. Proof. reflexivity. Qed.
Lemma pow2_63 : 2 ^ 63 = 9223372036854775808. Proof. reflexivity. Qed.
Lemma pow2_64 : 2 ^ 64 = 18446744073709551616. Proof. reflexivity. Qed.

(** [zlia] is [lia] after unfolding the width predicates and turning the
    powers of two into numerals. *)
Ltac zpow :=
  unfold is_u in *;
  rewrite ?pow2_8, ?pow2_31, ?pow2_32, ?pow2_63, ?pow2_64 in *.
Ltac zlia := zpow; lia.

Lemma wrap_small w z : 0 <= z < 2 ^ w -> wrap w z = z.
Proof. intros H. unfold wrap. by apply Z.mod_small. Qed.

Lemma wrap_range w z : 0 <= w -> 0 <= wrap w z < 2 ^ w.
Proof. intros H. apply Z.mod_pos_bound. by apply Z.pow_pos_nonneg. Qed.

Lemma u64_small z : 0 <= z < 2 ^ 64 -> u64 z = z.
Proof. apply wrap_small. Qed.

Lemma u32_small z : 0 <= z < 2 ^ 32 -> u32 z = z.
Proof. apply wrap_small. Qed.

Lemma u64_range z : 0 <= u64 z < 2 ^ 64.
Proof. by apply wrap_range. Qed.

Lemma u32_range z : 0 <= u32 z < 2 ^ 32.
Proof. by apply wrap_range. Qed.

Lemma sext_small w z : 0 < w -> - 2 ^ (w - 1) <= z < 2 ^ (w - 1) -> sext w z = z.
Proof.
  intros Hw Hz. unfold sext.
  assert (2 ^ w = 2 * 2 ^ (w - 1)) as Hp.
  { rewrite <- Z.pow_succ_r by lia. f_equal; lia. }
  destruct (Z.le_gt_cases 0 z) as [H0|H0].
  - rewrite Z.mod_small by lia. destruct (Z.ltb_spec z (2 ^ (w - 1))); lia.
  - assert (z mod 2 ^ w = z + 2 ^ w) as ->.
    { symmetry. apply Z.mod_unique_pos with (q := -1); lia. }
    destruct (Z.ltb_spec (z + 2 ^ w) (2 ^ (w - 1))); lia.
Qed.

Lemma i64_small z : - 2 ^ 63 <= z < 2 ^ 63 -> i64 z = z.
Proof. intros H. by apply (sext_small 64). Qed.

Lemma i32_small z : - 2 ^ 31 <= z < 2 ^ 31 -> i32 z = z.
Proof. intros H. by apply (sext_small 32). Qed.

(** Storing an unsigned value through the signed type of the same width and
    reading it back is the identity: the bit pattern is kept. *)
Lemma wrap_sext w z : 0 < w -> wrap w (sext w z) = wrap w z.
Proof.
  intros Hw. unfold wrap, sext.
  assert (0 < 2 ^ w) by (apply Z.pow_pos_nonneg; lia).
  destruct (Z.ltb_spec (z mod 2 ^ w) (2 ^ (w - 1))).
  - by rewrite Zmod_mod.
  - replace (z mod 2 ^ w - 2 ^ w) with (z mod 2 ^ w + (-1) * 2 ^ w) by lia.
    rewrite Z_mod_plus_full. by rewrite Zmod_mod.
Qed.

Lemma u64_i64 z : is_u64 z -> u64 (i64 z) = z.
Proof. intros H. rewrite wrap_sext by lia. by apply wrap_small. Qed.

Lemma u32_i32 z : is_u32 z -> u32 (i32 z) = z.
Proof. intros H. rewrite wrap_sext by lia. by apply wrap_small. Qed.

(** ** Bytes and C strings

    A buffer is a list of character codes; a C string is such a list without
    its terminating NUL.  [str] turns a literal into that form. *)

Abbreviation bytes := (list Z).

Definition str (s : string) : bytes :=
  map (fun c => Z.of_N (N_of_ascii c)) (list_ascii_of_string s).

Export String.StringSyntax.
Arguments str s%_string_scope.

(** No embedded NUL and every element a byte: what a [char *] denotes. *)
Definition cstring (s : bytes) : Prop := Forall (fun c => 0 < c < 256) s.

#[global] Instance cstring_dec s : Decision (cstring s).
Proof. unfold cstring. apply _. Defined.

Abbreviation CH_NUL := 0 (only parsing).
Abbreviation CH_NL := 10 (only parsing).
Abbreviation CH_CR := 13 (only parsing).
Abbreviation CH_DOT := 46 (only parsing).
Abbreviation CH_SLASH := 47 (only parsing).
Abbreviation CH_COLON := 58 (only parsing).
Abbreviation CH_QUESTION := 63 (only parsing).
Abbreviation CH_BACKSLASH := 92 (only parsing).

(** [strlen] as a machine-independent integer. *)
Definition strlen (s : bytes) : Z := Z.of_nat (length s).

(** [strncpy (dst, src, n - 1); dst[n - 1] = 0]: the copy a C buffer of [n]
    bytes receives. *)
Definition strlcpy (n : Z) (s : bytes) : bytes := take (Z.to_nat (n - 1)) s.

(** [strcmp (a, b) == 0]. *)
Definition streq (a b : bytes) : bool := bool_decide (a = b).

(** [strncmp (s, p, strlen (p)) == 0]. *)
Definition strprefix (p s : bytes) : bool := bool_decide (take (length p) s = p).

(** [strchr] and [strrchr] for a character other than NUL, as the index of the match. *)
Fixpoint strchr (s : bytes) (c : Z) : option nat :=
  match s with
  | [] => None
  | x :: s' => if x =? c then Some O else S <$> strchr s' c
  end.

Fixpoint strrchr (s : bytes) (c : Z) : option nat :=
  match s with
  | [] => None
  | x :: s' =>
      match strrchr s' c with
      | Some i => Some (S i)
      | None => if x =? c then Some O else None
      end
  end.

Lemma streq_true a b : streq a b = true <-> a = b.
Proof. unfold streq. apply bool_decide_eq_true. Qed.

Lemma streq_false a b : streq a b = false <-> a <> b.
Proof. unfold streq. apply bool_decide_eq_false. Qed.

Lemma streq_refl a : streq a a = true.
Proof. by apply streq_true. Qed.

Lemma strprefix_spec p s : strprefix p s = true <-> exists t, s = p ++ t.
Proof.
  unfold strprefix. rewrite bool_decide_eq_true. split.
  - intros H. exists (drop (length p) s). rewrite <- H at 1. by rewrite take_drop.
  - intros [t ->]. by rewrite take_app_length.
Qed.

Lemma strlen_nonneg s : 0 <= strlen s.
Proof. unfold strlen. lia. Qed.

Lemma to_nat_strlen s : Z.to_nat (strlen s) = length s.
Proof. unfold strlen. lia. Qed.

Lemma strlen_app a b : strlen (a ++ b) = strlen a + strlen b.
Proof. unfold strlen. rewrite length_app. lia. Qed.

Lemma strlcpy_length n s : 0 < n -> strlen (strlcpy n s) <= n - 1.
Proof. intros H. unfold strlen, strlcpy. rewrite length_take. lia. Qed.

Lemma strlcpy_id n s : strlen s < n -> strlcpy n s = s.
Proof. intros H. unfold strlen, strlcpy in *. apply take_ge. lia. Qed.

Lemma strlcpy_idemp n s : strlcpy n (strlcpy n s) = strlcpy n s.
Proof. unfold strlcpy. rewrite take_take. by rewrite Nat.min_id. Qed.

Lemma strchr_None s c : strchr s c = None <-> c ∉ s.
Proof.
  induction s as [|x s IH]; simpl.
  - split; [intros _; apply not_elem_of_nil|done].
  - rewrite not_elem_of_cons. destruct (Z.eqb_spec x c) as [->|Hne].
    + split; [done|tauto].
    + rewrite fmap_None, IH. split; [intros ?; split; [congruence|done]|tauto].
Qed.

Lemma strchr_Some s c i :
  strchr s c = Some i -> s !! i = Some c /\ c ∉ take i s.
Proof.
  revert i. induction s as [|x s IH]; intros i; simpl; [done|].
  destruct (Z.eqb_spec x c) as [->|Hne].
  - intros [= <-]. split; [done|apply not_elem_of_nil].
  - intros (j & Hj & ->)%fmap_Some. destruct (IH _ Hj) as [? ?]. simpl. split; [done|].
    rewrite not_elem_of_cons. split; [congruence|done].
Qed.

Lemma strrchr_None s c : strrchr s c = None <-> c ∉ s.
Proof.
  induction s as [|x s IH]; simpl.
  - split; [intros _; apply not_elem_of_nil|done].
  - rewrite not_elem_of_cons, <- IH. destruct (strrchr s c).
    + split; [done|]. by intros [_ ?].
    + destruct (Z.eqb_spec x c) as [->|]; split; [done| |done|done]. by intros [? _].
Qed.

Lemma strrchr_Some s c i :
  strrchr s c = Some i -> s !! i = Some c /\ c ∉ drop (S i) s.
Proof.
  revert i. induction s as [|x s IH]; intros i; simpl; [done|].
  destruct (strrchr s c) as [j|] eqn:E.
  - intros [= <-]. by destruct (IH _ eq_refl).
  - destruct (Z.eqb_spec x c) as [->|]; [|done]. intros [= <-].
    split; [done|]. simpl. by apply strrchr_None.
Qed.

(** ** Lists *)

Lemma Forall_take_Z {A} (P : A -> Prop) n (l : list A) : Forall P l -> Forall P (take n l).
Proof. apply Forall_take. Qed.

Lemma cstring_app a b : cstring (a ++ b) <-> cstring a /\ cstring b.
Proof. apply Forall_app. Qed.

Lemma cstring_take n s : cstring s -> cstring (take n s).
Proof. apply Forall_take. Qed.

Lemma cstring_drop n s : cstring s -> cstring (drop n s).
Proof. apply Forall_drop. Qed.

Lemma filter_all {A} (P : A -> Prop) `{!∀ x, Decision (P x)} (l : list A) : Forall P l -> filter P l = l.
Proof. induction 1 as [|x l Hx _ IH]; [done|]. by rewrite filter_cons_True, IH. Qed.

(** First element of a list satisfying a test, with what precedes it. *)
Lemma list_find_exists {A} (P : A -> Prop) `{!∀ x, Decision (P x)} l :
  Exists P l -> exists i x, list_find P l = Some (i, x).
Proof.
  intros [x [Hx HP]]%Exists_exists.
  destruct (list_find P l) as [[i y]|] eqn:E; [eauto|].
  exfalso. apply list_find_None in E. rewrite Forall_forall in E. by apply (E x).
Qed.

(** Sum of a measure over a list, and its value after an update. *)
Definition sumZ {A} (f : A -> Z) (l : list A) : Z := foldr (fun x a => f x + a) 0 l.

Lemma sumZ_app {A} (f : A -> Z) l k : sumZ f (l ++ k) = sumZ f l + sumZ f k.
Proof. induction l as [|x l IH]; simpl; lia. Qed.

Lemma sumZ_insert {A} (f : A -> Z) l i x y :
  l !! i = Some x -> sumZ f (<[i := y]> l) = sumZ f l - f x + f y.
Proof.
  revert i. induction l as [|z l IH]; intros [|i] H; simpl in *; try done.
  - injection H as ->. lia.
  - rewrite (IH _ H). lia.
Qed.

Lemma sumZ_nonneg {A} (f : A -> Z) l : Forall (fun x => 0 <= f x) l -> 0 <= sumZ f l.
Proof. induction 1; simpl; lia. Qed.

Lemma sumZ_elem_le {A} (f : A -> Z) l x : Forall (fun x => 0 <= f x) l -> x ∈ l -> f x <= sumZ f l.
Proof.
  induction 1 as [|y l Hy Hl IH]; [by intros ?%not_elem_of_nil|].
  pose proof (sumZ_nonneg f l Hl). intros [->|Hx]%elem_of_cons; simpl; [lia|].
  specialize (IH Hx). lia.
Qed.

Lemma sumZ_ext {A} (f g : A -> Z) l : Forall (fun x => f x = g x) l -> sumZ f l = sumZ g l.
Proof. induction 1; simpl; lia. Qed.

(** ** Reflexive transitive closure of a step relation *)

Lemma rtc_invariant {A} (R : relation A) (Inv : A -> Prop) x y :
  (forall a b, Inv a -> R a b -> Inv b) -> Inv x -> rtc R x y -> Inv y.
Proof. intros Hpres Hx Hr. induction Hr; eauto. Qed.

(** ** Automation *)

Create HintDb cdm.
Create Rewrite HintDb cdm.
#[export] Hint Resolve strlen_nonneg u64_range u32_range cstring_take cstring_drop : cdm.
#[export] Hint Rewrite strlen_app streq_refl : cdm.

(** Case analysis on the boolean tests of the code. *)
Ltac case_bool :=
  match goal with
  | |- context [if ?b then _ else _] => destruct b eqn:?
  | H : context [if ?b then _ else _] |- _ => destruct b eqn:?
  end.

(** Turn boolean hypotheses into propositions. *)
Ltac breflect :=
  repeat match goal with
  | H : _ && _ = true |- _ => apply andb_true_iff in H; destruct H
  | H : _ || _ = false |- _ => apply orb_false_iff in H; destruct H
  | H : negb _ = true |- _ => apply negb_true_iff in H
  | H : negb _ = false |- _ => apply negb_false_iff in H
  | H : (_ <? _) = true |- _ => apply Z.ltb_lt in H
  | H : (_ <? _) = false |- _ => apply Z.ltb_ge in H
  | H : (_ <=? _) = true |- _ => apply Z.leb_le in H
  | H : (_ <=? _) = false |- _ => apply Z.leb_gt in H
  | H : (_ =? _) = true |- _ => apply Z.eqb_eq in H
  | H : (_ =? _) = false |- _ => apply Z.eqb_neq in H
  | H : bool_decide _ = true |- _ => apply bool_decide_eq_true in H
  | H : bool_decide _ = false |- _ => apply bool_decide_eq_false in H
  | H : streq _ _ = true |- _ => apply streq_true in H
  | H : streq _ _ = false |- _ => apply streq_false in H
  end.
