(* ===== verification/Segmenter.v ===== *)
(** * Range planning ([src/engine/segmenter.c], [segmenter.h])

    [segmenter_plan] cuts a file of known size into inclusive byte ranges, one
    per worker; [choose_worker_count] is the heuristic that picks the number of
    workers.  The specification of a plan is [tiles]: the ranges are
    consecutive, non-empty and cover exactly [0 .. total_size - 1]. *)

From S2P Require Import Prelude.

#[local] Open Scope cdm_scope.

Definition MAX_WORKERS : Z := 8.

Record Range := mkRange {
  rg_start : Z;
  rg_end : Z;           (* inclusive *)
  rg_resume_offset : Z;
  rg_whole_file : bool;
}.

#[global] Instance Range_eq_dec : EqDecision Range.
Proof. solve_decision. Defined.

(** Body of the loop over [i]. *)
Definition plan_range (total_size n_workers chunk : Z) (i : nat) : Range :=
  mkRange (u64 (Z.of_nat i * chunk))
          (if Z.of_nat i =? n_workers - 1 then total_size -64 1
           else u64 (u64 ((Z.of_nat i + 1) * chunk) - 1))
          0 false.

(** The ranges written to [out]; their number is the C return value. *)
Definition segmenter_plan (total_size n_workers : Z) : list Range :=
  if (total_size =? 0) || (n_workers <=? 0) then []
  else
    let n := if total_size <? u64 n_workers then i32 total_size else n_workers in
    let chunk := total_size / u64 n in
    map (plan_range total_size n chunk) (seq 0 (Z.to_nat n)).

Definition choose_worker_count (total_size : Z) : Z :=
  let ONE_MB := 1024 * 1024 in
  if total_size =? 0 then 1
  else if total_size <? ONE_MB then 1
  else if total_size <? 20 * ONE_MB then 4
  else 8.

(** ** Specification *)

(** [tiles a b rs]: the ranges [rs] are non-empty, in order, without gap or
    overlap, and cover exactly the bytes [a .. b - 1]. *)
Fixpoint tiles (a b : Z) (rs : list Range) : Prop :=
  match rs with
  | [] => a = b
  | r :: rs' => rg_start r = a /\ a <= rg_end r /\ tiles (rg_end r + 1) b rs'
  end.

Definition fresh_range (r : Range) : Prop :=
  rg_resume_offset r = 0 /\ rg_whole_file r = false.

Definition in_range (b : Z) (r : Range) : Prop := rg_start r <= b <= rg_end r.

(** ** Lemmas *)

Lemma tiles_bounds a b rs : tiles a b rs -> a <= b.
Proof.
  revert a. induction rs as [|r rs IH]; simpl; intros a H; [lia|].
  destruct H as (Hs & Hle & Ht). apply IH in Ht. lia.
Qed.

Lemma tiles_app a b rs1 rs2 :
  tiles a b (rs1 ++ rs2) <-> exists m, tiles a m rs1 /\ tiles m b rs2.
Proof.
  revert a. induction rs1 as [|r rs1 IH]; simpl; intros a.
  - split; [by eauto|]. by intros (m & -> & ?).
  - rewrite IH. split.
    + intros (? & ? & m & ? & ?). by eauto.
    + intros (m & (? & ? & ?) & ?). by eauto.
Qed.

(** Every byte of a tiled interval lies in exactly one range of the list. *)
Lemma tiles_unique a b rs x :
  tiles a b rs -> a <= x < b ->
  exists i r, rs !! i = Some r /\ in_range x r /\
    forall j r', rs !! j = Some r' -> in_range x r' -> j = i.
Proof.
  unfold in_range. revert a.
  induction rs as [|r rs IH]; simpl; intros a H Hx; [lia|].
  destruct H as (Hs & Hle & Ht).
  destruct (Z.le_gt_cases x (rg_end r)) as [Hin|Hout].
  - exists O, r. split; [done|]. split; [lia|].
    intros [|j] r' Hj Hr'; [done|]. simpl in Hj. exfalso.
    assert (forall rs a, tiles a b rs -> forall j r', rs !! j = Some r' -> a <= rg_start r') as Hlow.
    { clear. induction rs as [|q rs IH]; simpl; intros a Ht j r' Hj; [done|].
      destruct Ht as (? & ? & Ht). destruct j; simplify_eq/=; [lia|].
      pose proof (IH _ Ht _ _ Hj). lia. }
    specialize (Hlow _ _ Ht _ _ Hj). lia.
  - destruct (IH _ Ht ltac:(lia)) as (i & r' & Hi & Hr' & Hu).
    exists (S i), r'. split; [done|]. split; [done|].
    intros [|j] q Hj Hq; simplify_eq/=; [lia|]. f_equal. by eapply Hu.
Qed.

Lemma tiles_in_range a b rs r : tiles a b rs -> r ∈ rs -> a <= rg_start r <= rg_end r /\ rg_end r < b.
Proof.
  revert a. induction rs as [|q rs IH]; intros a Ht Hr; [by apply elem_of_nil in Hr|].
  destruct Ht as (Hs & Hle & Ht). pose proof (tiles_bounds _ _ _ Ht).
  apply elem_of_cons in Hr as [->|Hr]; [lia|]. specialize (IH _ Ht Hr). lia.
Qed.

Lemma tiles_disjoint a b rs j k r r' :
  tiles a b rs -> rs !! j = Some r -> rs !! k = Some r' -> j <> k ->
  rg_end r + 1 <= rg_start r' \/ rg_end r' + 1 <= rg_start r.
Proof.
  revert a j k. induction rs as [|q rs IH]; intros a j k Ht Hj Hk Hne; [done|].
  destruct Ht as (Hs & Hle & Ht). destruct j as [|j], k as [|k]; simpl in *; [done|..].
  - injection Hj as ->. left. apply list_elem_of_lookup_2 in Hk.
    pose proof (tiles_in_range _ _ _ _ Ht Hk). lia.
  - injection Hk as ->. right. apply list_elem_of_lookup_2 in Hj.
    pose proof (tiles_in_range _ _ _ _ Ht Hj). lia.
  - eapply IH; eauto.
Qed.

Section Plan.
Context (total n : Z).
Hypothesis Htotal : 0 < total < 2 ^ 64.
Hypothesis Hn : 0 < n < 2 ^ 31.
Hypothesis Hle : n <= total.

Let chunk := total / n.

Lemma plan_chunk_bounds : 0 < chunk /\ n * chunk <= total.
Proof.
  unfold chunk. split; [apply Z.div_str_pos; lia|apply Z.mul_div_le; lia].
Qed.

(** Inside these bounds the 64-bit operations are the integer ones. *)
Lemma plan_range_exact (k : nat) :
  Z.of_nat k < n ->
  plan_range total n chunk k =
    mkRange (Z.of_nat k * chunk)
      (if Z.of_nat k =? n - 1 then total - 1 else (Z.of_nat k + 1) * chunk - 1) 0 false.
Proof using Htotal Hn Hle.
  intros Hk. destruct plan_chunk_bounds as [Hc Hnc]. unfold plan_range.
  rewrite (u64_small (Z.of_nat k * chunk)) by nia.
  destruct (Z.eqb_spec (Z.of_nat k) (n - 1)); [by rewrite u64_small by lia|].
  rewrite (u64_small ((Z.of_nat k + 1) * chunk)) by nia.
  by rewrite u64_small by nia.
Qed.

(** The ranges of index [k .. n-1] tile the file from the [k]-th start. *)
Lemma plan_tiles_from (k : nat) (m : nat) :
  Z.of_nat k + Z.of_nat m = n -> (0 < m)%nat ->
  tiles (Z.of_nat k * chunk) total (map (plan_range total n chunk) (seq k m)).
Proof using Htotal Hn Hle.
  destruct plan_chunk_bounds as [Hc Hnc].
  revert k. induction m as [|m IH]; intros k Hk Hm; [lia|].
  cbn [seq map tiles]. rewrite plan_range_exact by lia. cbn [rg_start rg_end].
  split; [done|]. destruct (Z.eqb_spec (Z.of_nat k) (n - 1)) as [Hlast|Hnl].
  - assert (m = O) as -> by lia. simpl. nia.
  - split; [nia|].
    replace ((Z.of_nat k + 1) * chunk - 1 + 1) with (Z.of_nat (S k) * chunk) by lia.
    apply IH; lia.
Qed.
End Plan.

Lemma segmenter_plan_unfold total n :
  0 < total < 2 ^ 64 -> 0 < n < 2 ^ 31 ->
  exists m, m = Z.min n total /\ 0 < m < 2 ^ 31 /\
    segmenter_plan total n = map (plan_range total m (total / m)) (seq 0 (Z.to_nat m)).
Proof.
  intros Ht Hn. exists (Z.min n total). split; [done|]. split; [lia|].
  unfold segmenter_plan. rewrite (u64_small n) by zlia.
  destruct (Z.eqb_spec total 0); [lia|]. destruct (Z.leb_spec n 0); [lia|]. cbn [orb].
  destruct (Z.ltb_spec total n).
  - rewrite i32_small, u64_small by zlia. by rewrite Z.min_r by lia.
  - rewrite u64_small by zlia. by rewrite Z.min_l by lia.
Qed.

Lemma segmenter_plan_tiles_aux total n :
  0 < total < 2 ^ 64 -> 0 < n < 2 ^ 31 -> tiles 0 total (segmenter_plan total n).
Proof.
  intros Ht Hn. destruct (segmenter_plan_unfold total n Ht Hn) as (m & -> & Hm & ->).
  pose proof (plan_tiles_from total (Z.min n total) Ht ltac:(lia) ltac:(lia) 0
                (Z.to_nat (Z.min n total))) as H.
  apply H; lia.
Qed.

Lemma segmenter_plan_length total n :
  0 < total < 2 ^ 64 -> 0 < n < 2 ^ 31 ->
  Z.of_nat (length (segmenter_plan total n)) = Z.min n total.
Proof.
  intros Ht Hn. destruct (segmenter_plan_unfold total n Ht Hn) as (m & -> & Hm & ->).
  rewrite length_map, length_seq. lia.
Qed.

Lemma segmenter_plan_fresh total n : Forall fresh_range (segmenter_plan total n).
Proof.
  unfold segmenter_plan. case_bool; [constructor|].
  rewrite Forall_map. apply Forall_forall. intros i _. by split.
Qed.

Lemma choose_worker_count_range total : 1 <= choose_worker_count total <= MAX_WORKERS.
Proof. unfold choose_worker_count, MAX_WORKERS. repeat case_bool; lia. Qed.

#[export] Hint Resolve segmenter_plan_fresh choose_worker_count_range : cdm.

(** ** Properties *)

(** C34.  For every non-empty file and every positive worker count,
    [segmenter_plan] produces [min n_workers total_size] ranges that tile the
    file: consecutive, non-empty, starting at byte 0 and ending at the last
    byte, so each byte belongs to exactly one range; none is a resumed or a
    whole-file range.  64-bit arithmetic never wraps on the way. *)
Theorem segmenter_plan_tiles (total n : Z) :
  0 < total < 2 ^ 64 -> 0 < n < 2 ^ 31 ->
  Z.of_nat (length (segmenter_plan total n)) = Z.min n total /\
  tiles 0 total (segmenter_plan total n) /\
  Forall fresh_range (segmenter_plan total n) /\
  (forall x, 0 <= x < total ->
     exists i r, segmenter_plan total n !! i = Some r /\ in_range x r /\
       forall j r', segmenter_plan total n !! j = Some r' -> in_range x r' -> j = i).
Proof.
  intros Ht Hn. pose proof (segmenter_plan_tiles_aux total n Ht Hn) as Htiles.
  split; [by apply segmenter_plan_length|]. split; [done|]. split; [auto with cdm|].
  intros x Hx. by eapply tiles_unique.
Qed.

Lemma segmenter_plan_tiles_witness :
  segmenter_plan 1001 4 =
    [mkRange 0 249 0 false; mkRange 250 499 0 false;
     mkRange 500 749 0 false; mkRange 750 1000 0 false] /\
  tiles 0 1001 (segmenter_plan 1001 4).
Proof.
  split; [vm_compute; reflexivity|].
  exact (proj1 (proj2 (segmenter_plan_tiles 1001 4 ltac:(lia) ltac:(lia)))).
Defined.

Example segmenter_plan_small : length (segmenter_plan 5 8) = 5%nat.
Proof. vm_compute. reflexivity. Qed.

Example segmenter_plan_degenerate :
  segmenter_plan 0 4 = [] /\ segmenter_plan 100 (-1) = [].
Proof. split; vm_compute; reflexivity. Qed.
