(* ===== verification/Sha256.v ===== *)
(** * SHA-256 ([src/platform/sha256.c], [sha256.h])

    The incremental hash: a 64-byte buffer filled byte by byte, a transform run
    each time it is full, and the padding written by [sha256_final].  The
    specification, [sha256_spec], pads the whole message first and folds the
    compression function over its 64-byte blocks; [sha256_stream_correct] states
    that any way of feeding the message in pieces computes it. *)

From S2P Require Import Prelude.

#[local] Open Scope cdm_scope.

(** ** Round functions (macros of the source, on 32-bit words) *)

Definition ROTRIGHT (a b : Z) : Z := Z.lor (Z.shiftr a b) (u32 (Z.shiftl a (32 - b))).
Definition CH (x y z : Z) : Z := Z.lxor (Z.land x y) (Z.land (u32 (Z.lnot x)) z).
Definition MAJ (x y z : Z) : Z := Z.lxor (Z.lxor (Z.land x y) (Z.land x z)) (Z.land y z).
Definition EP0 (x : Z) : Z := Z.lxor (Z.lxor (ROTRIGHT x 2) (ROTRIGHT x 13)) (ROTRIGHT x 22).
Definition EP1 (x : Z) : Z := Z.lxor (Z.lxor (ROTRIGHT x 6) (ROTRIGHT x 11)) (ROTRIGHT x 25).
Definition SIG0 (x : Z) : Z := Z.lxor (Z.lxor (ROTRIGHT x 7) (ROTRIGHT x 18)) (Z.shiftr x 3).
Definition SIG1 (x : Z) : Z := Z.lxor (Z.lxor (ROTRIGHT x 17) (ROTRIGHT x 19)) (Z.shiftr x 10).

(** The table [k[64]], one row of eight per row pair of the source. *)
Definition k_table : list Z :=
  let r0 := [1116352408; 1899447441; 3049323471; 3921009573; 961987163; 1508970993; 2453635748; 2870763221] in
  let r1 := [3624381080; 310598401; 607225278; 1426881987; 1925078388; 2162078206; 2614888103; 3248222580] in
  let r2 := [3835390401; 4022224774; 264347078; 604807628; 770255983; 1249150122; 1555081692; 1996064986] in
  let r3 := [2554220882; 2821834349; 2952996808; 3210313671; 3336571891; 3584528711; 113926993; 338241895] in
  let r4 := [666307205; 773529912; 1294757372; 1396182291; 1695183700; 1986661051; 2177026350; 2456956037] in
  let r5 := [2730485921; 2820302411; 3259730800; 3345764771; 3516065817; 3600352804; 4094571909; 275423344] in
  let r6 := [430227734; 506948616; 659060556; 883997877; 958139571; 1322822218; 1537002063; 1747873779] in
  let r7 := [1955562222; 2024104815; 2227730452; 2361852424; 2428436474; 2756734187; 3204031479; 3329325298] in
  r0 ++ r1 ++ r2 ++ r3 ++ r4 ++ r5 ++ r6 ++ r7.

Definition nthZ (l : list Z) (i : nat) : Z := nth i l 0.

(** [m[i]] for [i < 16]: big-endian words of the block. *)
Definition load_word (data : bytes) (i : nat) : Z :=
  let j := (4 * i)%nat in
  Z.lor (Z.lor (Z.lor (u32 (Z.shiftl (nthZ data j) 24)) (u32 (Z.shiftl (nthZ data (j + 1)) 16)))
               (u32 (Z.shiftl (nthZ data (j + 2)) 8))) (nthZ data (j + 3)).

(** One iteration of the second schedule loop: append [m[i]]. *)
Definition schedule_step (m : list Z) (i : nat) : list Z :=
  m ++ [u32 (SIG1 (nthZ m (i - 2)) + nthZ m (i - 7) + SIG0 (nthZ m (i - 15)) + nthZ m (i - 16))].

Definition schedule (data : bytes) : list Z :=
  fold_left schedule_step (seq 16 48) (map (load_word data) (seq 0 16)).

Record Regs := mkRegs { ra : Z; rb : Z; rc : Z; rd : Z; re : Z; rf : Z; rg : Z; rh : Z }.

(** One iteration of the main loop. *)
Definition round_step (m : list Z) (r : Regs) (i : nat) : Regs :=
  let t1 := u32 (rh r + EP1 (re r) + CH (re r) (rf r) (rg r) + nthZ k_table i + nthZ m i) in
  let t2 := u32 (EP0 (ra r) + MAJ (ra r) (rb r) (rc r)) in
  mkRegs (t1 +32 t2) (ra r) (rb r) (rc r) (rd r +32 t1) (re r) (rf r) (rg r).

(** The effect of [sha256_transform] on [ctx->state]. *)
Definition compress (st : list Z) (data : bytes) : list Z :=
  let m := schedule data in
  let r0 := mkRegs (nthZ st 0) (nthZ st 1) (nthZ st 2) (nthZ st 3)
                   (nthZ st 4) (nthZ st 5) (nthZ st 6) (nthZ st 7) in
  let r := fold_left (round_step m) (seq 0 64) r0 in
  [nthZ st 0 +32 ra r; nthZ st 1 +32 rb r; nthZ st 2 +32 rc r; nthZ st 3 +32 rd r;
   nthZ st 4 +32 re r; nthZ st 5 +32 rf r; nthZ st 6 +32 rg r; nthZ st 7 +32 rh r].

(** ** Context and public operations *)

Record SHA256_CTX := mkCtx {
  ctx_data : bytes;       (* data[64] *)
  ctx_datalen : Z;        (* uint32_t *)
  ctx_bitlen : Z;         (* uint64_t *)
  ctx_state : list Z;     (* state[8] *)
}.

Definition sha256_transform (ctx : SHA256_CTX) (data : bytes) : SHA256_CTX :=
  mkCtx (ctx_data ctx) (ctx_datalen ctx) (ctx_bitlen ctx) (compress (ctx_state ctx) data).

Definition H0 : list Z :=
  [1779033703; 3144134277; 1013904242; 2773480762; 1359893119; 2600822924; 528734635; 1541459225].

(** [data] is uninitialised in C: the model takes its contents as an argument. *)
Definition sha256_init (garbage : bytes) : SHA256_CTX := mkCtx garbage 0 0 H0.

Definition sha256_update_byte (ctx : SHA256_CTX) (b : Z) : SHA256_CTX :=
  let data := <[Z.to_nat (ctx_datalen ctx) := b]> (ctx_data ctx) in
  let datalen := ctx_datalen ctx +32 1 in
  let ctx' := mkCtx data datalen (ctx_bitlen ctx) (ctx_state ctx) in
  if datalen =? 64 then
    let t := sha256_transform ctx' data in
    mkCtx (ctx_data t) 0 (ctx_bitlen t +64 512) (ctx_state t)
  else ctx'.

Definition sha256_update (ctx : SHA256_CTX) (data : bytes) : SHA256_CTX :=
  fold_left sha256_update_byte data ctx.

(** [while (i < stop) data[i++] = 0]. *)
Definition zero_fill (data : bytes) (i stop : nat) : bytes :=
  fold_left (fun d j => <[j := 0]> d) (seq i (stop - i)) data.

(** The eight assignments [data[63] .. data[56]]. *)
Definition put_bitlen (data : bytes) (bitlen : Z) : bytes :=
  fold_left (fun d (j : nat) => <[(63 - j)%nat := u8 (Z.shiftr bitlen (8 * Z.of_nat j))]> d)
            (seq 0 8) data.

(** The output loop: [hash[i + 4 * w]] is byte [i] (big-endian) of [state[w]]. *)
Definition hash_bytes (st : list Z) : bytes :=
  map (fun p : nat => Z.land (Z.shiftr (nthZ st (p / 4)) (24 - Z.of_nat (p mod 4) * 8)) 255)
      (seq 0 32).

Definition sha256_final (ctx : SHA256_CTX) : bytes :=
  let i := Z.to_nat (ctx_datalen ctx) in
  let d80 := <[i := 128]> (ctx_data ctx) in
  let ctx1 :=
    if ctx_datalen ctx <? 56 then
      mkCtx (zero_fill d80 (S i) 56) (ctx_datalen ctx) (ctx_bitlen ctx) (ctx_state ctx)
    else
      let d := zero_fill d80 (S i) 64 in
      let t := sha256_transform (mkCtx d (ctx_datalen ctx) (ctx_bitlen ctx) (ctx_state ctx)) d in
      mkCtx (replicate 56 0 ++ drop 56 (ctx_data t)) (ctx_datalen t) (ctx_bitlen t) (ctx_state t) in
  let bitlen := ctx_bitlen ctx1 +64 u64 (ctx_datalen ctx1 * 8) in
  let d := put_bitlen (ctx_data ctx1) bitlen in
  hash_bytes (ctx_state (sha256_transform ctx1 d)).

Definition hex_digits : bytes := [48; 49; 50; 51; 52; 53; 54; 55; 56; 57; 97; 98; 99; 100; 101; 102].

Definition sha256_to_hex (hash : bytes) : bytes :=
  flat_map (fun b => [nthZ hex_digits (Z.to_nat (Z.land (Z.shiftr b 4) 15));
                      nthZ hex_digits (Z.to_nat (Z.land b 15))]) hash.

(** ** Specification (FIPS 180-4, on whole bytes) *)

Definition be64 (n : Z) : bytes :=
  map (fun j : nat => u8 (Z.shiftr n (8 * Z.of_nat j))) (rev (seq 0 8)).

(** Number of zero bytes between the 0x80 marker and the length field. *)
Definition pad_zeros (len : Z) : nat := Z.to_nat ((55 - len) mod 64).

Definition padded (msg : bytes) : bytes :=
  msg ++ [128] ++ replicate (pad_zeros (strlen msg)) 0 ++ be64 (8 * strlen msg).

Fixpoint blocks (n : nat) (s : bytes) : list bytes :=
  match n with O => [] | S n' => take 64 s :: blocks n' (drop 64 s) end.

Definition sha256_spec (msg : bytes) : bytes :=
  let p := padded msg in
  hash_bytes (fold_left compress (blocks (length p / 64) p) H0).

(** ** Lemmas on buffers *)

Lemma take_S_insert {A} (l : list A) n x :
  (n < length l)%nat -> take (S n) (<[n := x]> l) = take n l ++ [x].
Proof.
  intros H. rewrite (take_S_r _ n x).
  - by rewrite take_insert_ge by lia.
  - by apply list_lookup_insert_eq.
Qed.

Lemma zero_fill_spec data i stop :
  (i <= stop <= length data)%nat ->
  zero_fill data i stop = take i data ++ replicate (stop - i) 0 ++ drop stop data.
Proof.
  unfold zero_fill. remember (stop - i)%nat as n eqn:Hn. revert data i Hn.
  induction n as [|n IH]; intros data i Hn H; cbn [seq fold_left].
  - assert (i = stop) as -> by lia. simpl. by rewrite take_drop.
  - rewrite IH by (rewrite ?length_insert; lia).
    rewrite take_S_insert by lia. rewrite drop_insert_lt by lia.
    by rewrite <- app_assoc.
Qed.

Lemma length_be64 n : length (be64 n) = 8%nat.
Proof. reflexivity. Qed.

Lemma put_bitlen_spec data n :
  length data = 64%nat -> put_bitlen data n = take 56 data ++ be64 n.
Proof.
  intros H. rewrite <- (take_drop 56 data) at 1.
  assert (length (take 56 data) = 56%nat) as H1 by (rewrite length_take; lia).
  assert (length (drop 56 data) = 8%nat) as H2 by (rewrite length_drop; lia).
  revert H1 H2. generalize (take 56 data) (drop 56 data). intros l r Hl Hr.
  do 8 (destruct r as [|? r]; [done|]). destruct r; [|done].
  unfold put_bitlen, be64. cbn [seq fold_left rev map app].
  repeat (rewrite insert_app_r_alt by lia; rewrite Hl; cbn [Nat.sub insert list_insert]).
  done.
Qed.

Lemma blocks_concat bs rest :
  Forall (fun b : bytes => length b = 64%nat) bs -> length rest = 64%nat ->
  blocks (S (length bs)) (concat bs ++ rest) = bs ++ [rest].
Proof.
  intros Hbs Hr. induction Hbs as [|b bs Hb Hbs IH].
  - cbn. by rewrite take_ge by lia.
  - cbn [length concat app blocks]. rewrite <- app_assoc.
    rewrite take_app_le by lia. rewrite take_ge by lia.
    f_equal. rewrite drop_app_ge by lia. rewrite Hb. cbn [Nat.sub drop]. rewrite drop_0. apply IH.
Qed.

Lemma length_concat_64 (bs : list bytes) :
  Forall (fun b : bytes => length b = 64%nat) bs -> length (concat bs) = (64 * length bs)%nat.
Proof. induction 1 as [|b bs Hb _ IH]; simpl; [done|]. rewrite length_app. lia. Qed.

(** Digest of a message that pads to whole blocks [bs ++ last]. *)
Lemma sha256_spec_blocks msg bs last :
  Forall (fun b : bytes => length b = 64%nat) bs -> length last = 64%nat ->
  padded msg = concat bs ++ last ->
  sha256_spec msg = hash_bytes (compress (fold_left compress bs H0) last).
Proof.
  intros Hbs Hl Hp. unfold sha256_spec. rewrite Hp.
  assert (length (concat bs ++ last) / 64 = S (length bs))%nat as ->.
  { rewrite length_app, length_concat_64, Hl by done.
    replace (64 * length bs + 64)%nat with ((S (length bs)) * 64)%nat by lia.
    by rewrite Nat.div_mul. }
  rewrite blocks_concat by done. by rewrite fold_left_app.
Qed.

(** ** The streaming invariant *)

(** [rep p ctx]: the context has absorbed exactly the bytes [p]. *)
Definition rep (p : bytes) (ctx : SHA256_CTX) : Prop :=
  exists bs tail,
    p = concat bs ++ tail /\ Forall (fun b : bytes => length b = 64%nat) bs /\
    (length tail < 64)%nat /\
    ctx_state ctx = fold_left compress bs H0 /\
    ctx_bitlen ctx = u64 (512 * Z.of_nat (length bs)) /\
    ctx_datalen ctx = strlen tail /\
    length (ctx_data ctx) = 64%nat /\ take (length tail) (ctx_data ctx) = tail.

Lemma rep_init garbage : length garbage = 64%nat -> rep [] (sha256_init garbage).
Proof. intros H. exists [], []. repeat split; [constructor|simpl; lia|done]. Qed.

Lemma u64_add_idemp_l a b : u64 (u64 a + b) = u64 (a + b).
Proof. unfold wrap. by rewrite Zplus_mod_idemp_l. Qed.

Lemma rep_update_byte p ctx b : rep p ctx -> rep (p ++ [b]) (sha256_update_byte ctx b).
Proof.
  intros (bs & tail & -> & Hbs & Hlt & Hst & Hbl & Hdl & Hlen & Htake).
  unfold sha256_update_byte. rewrite Hdl. unfold strlen. rewrite Nat2Z.id.
  rewrite u32_small by zlia.
  assert (take (S (length tail)) (<[length tail := b]> (ctx_data ctx)) = tail ++ [b]) as Hd.
  { rewrite take_S_insert by lia. by rewrite Htake. }
  destruct (Z.eqb_spec (Z.of_nat (length tail) + 1) 64) as [E|E].
  - assert (<[length tail := b]> (ctx_data ctx) = tail ++ [b]) as Hfull.
    { rewrite <- Hd. symmetry. apply take_ge. rewrite length_insert. lia. }
    exists (bs ++ [tail ++ [b]]), []. cbn [ctx_state ctx_bitlen ctx_datalen ctx_data sha256_transform].
    rewrite Hfull, Hst, Hbl. repeat split.
    + rewrite concat_app. cbn. by rewrite !app_nil_r, app_assoc.
    + apply Forall_app. split; [done|]. constructor; [rewrite length_app; simpl; lia|done].
    + simpl; lia.
    + by rewrite fold_left_app.
    + rewrite u64_add_idemp_l. f_equal. rewrite length_app. simpl. lia.
    + rewrite length_app; simpl; lia.
  - exists bs, (tail ++ [b]). cbn. repeat split; try done.
    + by rewrite app_assoc.
    + rewrite length_app; simpl; lia.
    + unfold strlen. rewrite length_app; simpl; lia.
    + by rewrite length_insert.
    + rewrite length_app. simpl. rewrite Nat.add_1_r. exact Hd.
Qed.

Lemma rep_update p ctx data : rep p ctx -> rep (p ++ data) (sha256_update ctx data).
Proof.
  unfold sha256_update. revert p ctx. induction data as [|b data IH]; intros p ctx H.
  - by rewrite app_nil_r.
  - cbn [fold_left]. rewrite cons_middle, app_assoc. by apply IH, rep_update_byte.
Qed.

Lemma rep_update_pieces p ctx pieces :
  rep p ctx -> rep (p ++ concat pieces) (fold_left sha256_update pieces ctx).
Proof.
  revert p ctx. induction pieces as [|d pieces IH]; intros p ctx H.
  - by rewrite app_nil_r.
  - cbn [fold_left concat]. rewrite app_assoc. by apply IH, rep_update.
Qed.

Section Final.

Context (ctx : SHA256_CTX) (bs : list bytes) (tail : bytes).
Hypothesis Hbs : Forall (fun b : bytes => length b = 64%nat) bs.
Hypothesis Hst : ctx_state ctx = fold_left compress bs H0.
Hypothesis Hbl : ctx_bitlen ctx = u64 (512 * Z.of_nat (length bs)).
Hypothesis Hdl : ctx_datalen ctx = strlen tail.
Hypothesis Hlen : length (ctx_data ctx) = 64%nat.
Hypothesis Htake : take (length tail) (ctx_data ctx) = tail.
Hypothesis Htail : (length tail < 64)%nat.
Hypothesis Hbits : 8 * strlen (concat bs ++ tail) < 2 ^ 64.

Lemma final_bitlen : u64 (ctx_bitlen ctx + u64 (strlen tail * 8)) = 8 * strlen (concat bs ++ tail).
Proof using All.
  rewrite Hbl. rewrite strlen_app in *. unfold strlen in *.
  rewrite length_concat_64 in * by done.
  rewrite (u64_small (Z.of_nat (length tail) * 8)) by zlia. rewrite u64_add_idemp_l.
  rewrite u64_small by zlia. lia.
Qed.

Lemma final_marker : take (S (length tail)) (<[length tail := 128]> (ctx_data ctx)) = tail ++ [128].
Proof using All. rewrite take_S_insert by lia. by rewrite Htake. Qed.

Lemma padded_short :
  (length tail < 56)%nat ->
  padded (concat bs ++ tail) =
    concat bs ++ (tail ++ [128] ++ replicate (55 - length tail) 0 ++
                  be64 (8 * strlen (concat bs ++ tail))).
Proof using All.
  intros H. unfold padded. rewrite <- !app_assoc. do 4 f_equal.
  unfold pad_zeros. rewrite strlen_app. unfold strlen. rewrite length_concat_64 by done.
  f_equal. replace (55 - (Z.of_nat (64 * length bs) + Z.of_nat (length tail)))
    with (55 - Z.of_nat (length tail) + (- Z.of_nat (length bs)) * 64) by lia.
  rewrite Z_mod_plus_full, Z.mod_small by lia. lia.
Qed.

Lemma padded_long :
  (56 <= length tail)%nat ->
  padded (concat bs ++ tail) =
    concat (bs ++ [tail ++ [128] ++ replicate (63 - length tail) 0]) ++
      (replicate 56 0 ++ be64 (8 * strlen (concat bs ++ tail))).
Proof using All.
  intros H. unfold padded. rewrite concat_app. cbn [concat]. rewrite app_nil_r.
  rewrite <- !app_assoc. do 3 f_equal.
  rewrite (app_assoc (replicate (63 - length tail) 0)), <- replicate_add. do 2 f_equal.
  unfold pad_zeros. rewrite strlen_app. unfold strlen. rewrite length_concat_64 by done.
  replace (55 - (Z.of_nat (64 * length bs) + Z.of_nat (length tail)))
    with (119 - Z.of_nat (length tail) + (- Z.of_nat (length bs) - 1) * 64) by lia.
  rewrite Z_mod_plus_full, Z.mod_small by lia. lia.
Qed.

Lemma final_short :
  (length tail < 56)%nat -> sha256_final ctx = sha256_spec (concat bs ++ tail).
Proof using All.
  intros H.
  rewrite (sha256_spec_blocks _ bs (tail ++ [128] ++ replicate (55 - length tail) 0 ++
             be64 (8 * strlen (concat bs ++ tail)))).
  - unfold sha256_final. rewrite Hdl. rewrite to_nat_strlen.
    destruct (Z.ltb_spec (strlen tail) 56); [|unfold strlen in *; lia].
    cbn [ctx_data ctx_datalen ctx_bitlen ctx_state sha256_transform].
    rewrite final_bitlen. rewrite zero_fill_spec by (rewrite length_insert; lia).
    rewrite final_marker, put_bitlen_spec by
      (rewrite !length_app, length_replicate, length_drop, length_insert; simpl; lia).
    rewrite Hst. do 2 f_equal.
    replace (56 - S (length tail))%nat with (55 - length tail)%nat by lia.
    rewrite (app_assoc (tail ++ [128])).
    rewrite take_app_le by (rewrite !length_app, length_replicate; simpl; lia).
    rewrite take_ge by (rewrite !length_app, length_replicate; simpl; lia).
    by rewrite <- !app_assoc.
  - done.
  - rewrite !length_app, length_replicate, length_be64. simpl. lia.
  - by apply padded_short.
Qed.

Lemma final_long :
  (56 <= length tail)%nat -> sha256_final ctx = sha256_spec (concat bs ++ tail).
Proof using All.
  intros H.
  assert (length (tail ++ [128] ++ replicate (63 - length tail) 0) = 64%nat) as Hl64.
  { rewrite !length_app, length_replicate. simpl. lia. }
  rewrite (sha256_spec_blocks _ (bs ++ [tail ++ [128] ++ replicate (63 - length tail) 0])
             (replicate 56 0 ++ be64 (8 * strlen (concat bs ++ tail)))).
  - unfold sha256_final. rewrite Hdl. rewrite to_nat_strlen.
    destruct (Z.ltb_spec (strlen tail) 56); [unfold strlen in *; lia|].
    cbn [ctx_data ctx_datalen ctx_bitlen ctx_state sha256_transform].
    rewrite final_bitlen. rewrite zero_fill_spec by (rewrite length_insert; lia).
    rewrite final_marker, drop_ge by (rewrite length_insert; lia). rewrite app_nil_r.
    rewrite <- app_assoc.
    replace (64 - S (length tail))%nat with (63 - length tail)%nat by lia.
    rewrite put_bitlen_spec by (rewrite length_app, length_drop, Hl64, length_replicate; lia).
    rewrite take_app_le by (rewrite length_replicate; lia).
    rewrite take_ge by (rewrite length_replicate; lia).
    rewrite Hst, fold_left_app. done.
  - apply Forall_app. split; [done|]. by constructor.
  - by rewrite length_app, length_replicate, length_be64.
  - by apply padded_long.
Qed.

End Final.

Lemma final_rep p ctx : rep p ctx -> 8 * strlen p < 2 ^ 64 -> sha256_final ctx = sha256_spec p.
Proof.
  intros (bs & tail & -> & Hbs & Hlt & Hst & Hbl & Hdl & Hlen & Htake) Hbits.
  destruct (Nat.lt_ge_cases (length tail) 56).
  - by apply final_short.
  - by apply final_long.
Qed.

Lemma sha256_pieces garbage pieces :
  length garbage = 64%nat -> 8 * strlen (concat pieces) < 2 ^ 64 ->
  sha256_final (fold_left sha256_update pieces (sha256_init garbage)) = sha256_spec (concat pieces).
Proof.
  intros Hg Hb. apply final_rep; [|done].
  apply (rep_update_pieces []). by apply rep_init.
Qed.

(** [hash_bytes] always has the digest length, and hexadecimal printing is
    invertible on bytes. *)
Lemma length_hash_bytes st : length (hash_bytes st) = 32%nat.
Proof. reflexivity. Qed.

Lemma length_to_hex h : length (sha256_to_hex h) = (2 * length h)%nat.
Proof. induction h as [|b h IH]; [done|]. simpl in *. lia. Qed.

Definition hex_value (c : Z) : Z := if c <? 58 then c - 48 else c - 87.

Fixpoint of_hex (s : bytes) : bytes :=
  match s with
  | hi :: lo :: s' => (16 * hex_value hi + hex_value lo) :: of_hex s'
  | _ => []
  end.

Lemma hex_value_digit n : 0 <= n < 16 -> hex_value (nthZ hex_digits (Z.to_nat n)) = n.
Proof.
  intros H. assert (Z.to_nat n < 16)%nat as Hlt by lia.
  rewrite <- (Z2Nat.id n) at 2 by lia. revert Hlt. generalize (Z.to_nat n) as m. intros m Hm.
  do 16 (destruct m as [|m]; [reflexivity|]). lia.
Qed.

Lemma of_hex_to_hex h : Forall is_u8 h -> of_hex (sha256_to_hex h) = h.
Proof.
  induction 1 as [|b h Hb Hh IH]; [done|]. cbn [sha256_to_hex flat_map app of_hex].
  change (flat_map _ h) with (sha256_to_hex h). rewrite IH. f_equal.
  change 15 with (Z.ones 4). rewrite !Z.land_ones, Z.shiftr_div_pow2 by lia.
  change (2 ^ 4) with 16. zpow.
  assert (b / 16 < 16) by (apply Z.div_lt_upper_bound; lia).
  assert (0 <= b / 16) by (apply Z.div_pos; lia).
  rewrite (Z.mod_small (b / 16)) by lia.
  rewrite !hex_value_digit by (try split; try lia; apply Z.mod_pos_bound; lia).
  symmetry. apply Z.div_mod. lia.
Qed.

Lemma hash_bytes_u8 st : Forall is_u8 (hash_bytes st).
Proof.
  unfold hash_bytes. rewrite Forall_map. apply Forall_forall. intros p _.
  unfold compose. change 255 with (Z.ones 8). rewrite Z.land_ones by lia.
  apply Z.mod_pos_bound. lia.
Qed.

Lemma sha256_final_shape ctx : exists st, sha256_final ctx = hash_bytes st.
Proof. unfold sha256_final. eauto. Qed.

(** ** The message schedule *)

(** The 64 words of a schedule satisfy the recurrence of the standard. *)
Definition schedule_ok (data : bytes) (m : list Z) : Prop :=
  (forall i, (i < 16)%nat -> (i < length m)%nat -> nthZ m i = load_word data i) /\
  (forall i, (16 <= i)%nat -> (i < length m)%nat ->
     nthZ m i = u32 (SIG1 (nthZ m (i - 2)) + nthZ m (i - 7) +
                     SIG0 (nthZ m (i - 15)) + nthZ m (i - 16))).

Lemma nthZ_app_l l x i : (i < length l)%nat -> nthZ (l ++ [x]) i = nthZ l i.
Proof. intros H. unfold nthZ. by rewrite app_nth1. Qed.

Lemma nthZ_app_r l x : nthZ (l ++ [x]) (length l) = x.
Proof. unfold nthZ. by rewrite nth_middle. Qed.

Lemma schedule_step_ok data m :
  (16 <= length m)%nat -> schedule_ok data m ->
  schedule_ok data (schedule_step m (length m)) /\ length (schedule_step m (length m)) = S (length m).
Proof.
  intros Hl [H1 H2]. unfold schedule_step, schedule_ok. rewrite length_app. simpl.
  split; [|lia]. split; intros i Hi Hi'.
  - rewrite nthZ_app_l by lia. apply H1; lia.
  - destruct (decide (i = length m)) as [->|Hne].
    + rewrite nthZ_app_r, !nthZ_app_l by lia. done.
    + rewrite !nthZ_app_l by lia. apply H2; lia.
Qed.

Lemma schedule_fold_ok data n m :
  (16 <= length m)%nat -> schedule_ok data m ->
  schedule_ok data (fold_left schedule_step (seq (length m) n) m) /\
  length (fold_left schedule_step (seq (length m) n) m) = (length m + n)%nat.
Proof.
  revert m. induction n as [|n IH]; intros m Hl Hm; cbn [seq fold_left].
  - split; [done|lia].
  - destruct (schedule_step_ok data m Hl Hm) as [Hok Hlen].
    rewrite <- Hlen. destruct (IH (schedule_step m (length m))) as [? Hlen']; [lia|done|].
    split; [done|]. lia.
Qed.

Lemma schedule_correct data : length (schedule data) = 64%nat /\ schedule_ok data (schedule data).
Proof.
  assert (length (map (load_word data) (seq 0 16)) = 16%nat) as Hl by done.
  destruct (schedule_fold_ok data 48 (map (load_word data) (seq 0 16))) as [Hok Hlen].
  - lia.
  - split; rewrite Hl; intros i Hi Hi'; [|lia]. unfold nthZ.
    rewrite (nth_indep _ 0 (load_word data O)) by (rewrite length_map, length_seq; lia).
    rewrite map_nth, seq_nth by lia. done.
  - rewrite Hl in *. done.
Qed.

(** ** Properties *)

(** C32. Feeding a message to [sha256_update] in any number of pieces of any
    size and calling [sha256_final] gives the digest the standard defines for
    their concatenation, whatever the uninitialised buffer held, as long as
    the bit count fits the 64-bit counter. *)
Theorem sha256_stream_correct (garbage : bytes) (pieces : list bytes) :
  length garbage = 64%nat -> 8 * strlen (concat pieces) < 2 ^ 64 ->
  sha256_final (fold_left sha256_update pieces (sha256_init garbage)) =
    sha256_spec (concat pieces).
Proof. apply sha256_pieces. Qed.

Lemma sha256_stream_correct_witness :
  sha256_final (fold_left sha256_update [str "ab"; []; str "c"] (sha256_init (replicate 64 7))) =
    sha256_spec (str "abc") /\
  sha256_to_hex (sha256_spec (str "abc")) =
    str "ba7816bf8f01cfea414140de5dae2223b00361a396177a9cb410ff61f20015ad".
Proof.
  split; [|vm_compute; reflexivity].
  apply (sha256_stream_correct (replicate 64 7) [str "ab"; []; str "c"]);
    [reflexivity|vm_compute; reflexivity].
Defined.

(** The message schedule computed by the two loops of
    [sha256_transform] has 64 words and satisfies the FIPS recurrence at every
    index, and the digest of any context is 32 bytes whose hexadecimal form is
    64 characters that decode back to it. *)
Theorem sha256_schedule_and_hex (data : bytes) (ctx : SHA256_CTX) :
  (length (schedule data) = 64%nat /\ schedule_ok data (schedule data)) /\
  length (sha256_final ctx) = 32%nat /\ Forall is_u8 (sha256_final ctx) /\
  length (sha256_to_hex (sha256_final ctx)) = 64%nat /\
  of_hex (sha256_to_hex (sha256_final ctx)) = sha256_final ctx.
Proof.
  split; [apply schedule_correct|]. destruct (sha256_final_shape ctx) as [st ->].
  split; [apply length_hash_bytes|]. split; [apply hash_bytes_u8|].
  split; [by rewrite length_to_hex, length_hash_bytes|].
  apply of_hex_to_hex, hash_bytes_u8.
Qed.

(** Published test vectors: the empty message and a two-block message. *)
Example sha256_vector_empty :
  sha256_to_hex (sha256_final (sha256_init (replicate 64 0))) =
    str "e3b0c44298fc1c149afbf4c8996fb92427ae41e4649b934ca495991b7852b855".
Proof. vm_compute. reflexivity. Qed.

Example sha256_vector_two_blocks :
  sha256_to_hex (sha256_final (sha256_update (sha256_init (replicate 64 0))
    (str "abcdbcdecdefdefgefghfghighijhijkijkljklmklmnlmnomnopnopq"))) =
    str "248d6a61d20638b8e5c026930c3e6039a33ce45964ff2167f6ecedd419db06c1".
Proof. vm_compute. reflexivity. Qed.
