(* ===== verification/Path.v ===== *)
(** * Paths ([src/utils/path.c]) and the libc path functions it and its callers use

    [dirname]/[basename] model glibc's <libgen.h> versions, which edit their
    argument in place: [dirname] returns both the new buffer contents and what
    the returned pointer points to.  File existence is a parameter of
    [path_make_unique], so that the theorems hold for any file system. *)

From S2P Require Import Prelude.

(** ** <libgen.h> *)

(** Remove the trailing slashes of a path. *)
Fixpoint strip_slashes_rev (r : bytes) : bytes :=
  match r with
  | c :: r' => if c =? CH_SLASH then strip_slashes_rev r' else r
  | [] => []
  end.

Definition strip_slashes (s : bytes) : bytes := rev (strip_slashes_rev (rev s)).

(** What the pointer returned by [dirname] designates: the caller's own buffer
    (glibc writes a NUL into it) or a static string. *)
Inductive dirname_ptr := InPlace | Static (s : bytes).

(** [dirname (buf)]: the new contents of [buf], and the result. *)
Definition dirname_call (buf : bytes) : bytes * dirname_ptr :=
  let s := strip_slashes buf in
  match strrchr s CH_SLASH with
  | Some i =>
      let d := strip_slashes (take i s) in
      ((if decide (d = []) then str "/" else d), InPlace)
  | None =>
      if decide (s = []) then
        (* empty or all slashes *)
        if decide (buf = []) then (buf, Static (str ".")) else (str "/", InPlace)
      else (buf, Static (str "."))
  end.

Definition deref (buf : bytes) (p : dirname_ptr) : bytes :=
  match p with InPlace => buf | Static s => s end.

Definition dirname (buf : bytes) : bytes :=
  let '(buf', p) := dirname_call buf in deref buf' p.

Definition basename (buf : bytes) : bytes :=
  let s := strip_slashes buf in
  if decide (s = []) then if decide (buf = []) then str "." else str "/"
  else match strrchr s CH_SLASH with Some i => drop (S i) s | None => s end.

(** ** path.c *)

(** [temp[512]] of the function. *)
Definition path_filename_from_url (url : bytes) (out_size : Z) : bytes :=
  let name := match strrchr url CH_SLASH with Some i => drop (S i) url | None => url end in
  let temp := strlcpy 512 name in
  let temp := match strchr temp CH_QUESTION with Some q => take q temp | None => temp end in
  let temp := if decide (temp = []) then strlcpy 512 (str "download.bin") else temp in
  strlcpy out_size temp.

Definition path_join (dir filename : bytes) (out_size : Z) : option bytes :=
  let has_separator := (0 <? strlen dir) && bool_decide (last dir = Some CH_SLASH) in
  let required := strlen dir + strlen filename + (if has_separator then 1 else 2) in
  if out_size <? required then None
  else Some ((if has_separator then dir else dir ++ [CH_SLASH]) ++ filename).

(** The three parts a numbered name is assembled from. *)
Record NameParts := mkParts { np_prefix : bytes; np_stem : bytes; np_extension : bytes }.

(** [dot] walks back from [extension] to just after the previous '.'; the
    result is the index of the extension of a tar archive, if it is one. *)
Definition tar_extension (filename : bytes) (ext : nat) : option nat :=
  let e := drop ext filename in
  if streq e (str ".gz") || streq e (str ".bz2") || streq e (str ".xz") || streq e (str ".zst")
  then
    match strrchr (take ext filename) CH_DOT with
    | Some i =>
        if streq (drop (S i) (take ext filename)) (str "tar") then Some i else None
    | None => None
    end
  else None.

Definition name_parts (path : bytes) : NameParts :=
  let start := match strrchr path CH_SLASH with Some i => S i | None => O end in
  let filename := drop start path in
  let ext := match strrchr filename CH_DOT with
             | Some (S i) => S i
             | _ => length filename
             end in
  let ext := match ext with
             | O => O
             | S _ => default ext (tar_extension filename ext)
             end in
  mkParts (take start path) (take ext filename) (drop ext filename).

Definition decimal (n : Z) : bytes := str (pretty (Z.to_N n)).

Definition numbered (p : NameParts) (suffix : Z) : bytes :=
  np_prefix p ++ np_stem p ++ str "(" ++ decimal suffix ++ str ")" ++ np_extension p.

Section MakeUnique.

(** [path_exists]: [lstat] succeeds, or fails otherwise than with ENOENT. *)
Context (path_exists : bytes -> bool) (out_size : Z).

(** The [for] loop, from [suffix] on, with [fuel] iterations left. *)
Fixpoint unique_loop (p : NameParts) (suffix : Z) (fuel : nat) : option bytes :=
  match fuel with
  | O => None
  | S fuel' =>
      let out := numbered p suffix in
      if out_size <=? strlen out then None
      else if path_exists out then unique_loop p (suffix + 1) fuel'
      else Some out
  end.

Definition path_make_unique (path : bytes) : option bytes :=
  if out_size =? 0 then None
  else if path_exists path then unique_loop (name_parts path) 1 (Z.to_nat 999999)
  else if out_size <=? strlen path then None
  else Some path.

End MakeUnique.

(** ** Lemmas *)

Lemma strip_slashes_rev_suffix r : exists k, r = replicate k CH_SLASH ++ strip_slashes_rev r.
Proof.
  induction r as [|c r IH]; [by exists O|]. simpl. destruct (Z.eqb_spec c CH_SLASH) as [->|].
  - destruct IH as [k Hk]. exists (S k). simpl. by rewrite Hk at 1.
  - by exists O.
Qed.

Lemma strip_slashes_length s : (length (strip_slashes s) <= length s)%nat.
Proof.
  unfold strip_slashes. rewrite length_rev. destruct (strip_slashes_rev_suffix (rev s)) as [k Hk].
  apply (f_equal length) in Hk. rewrite length_app, length_rev in Hk. lia.
Qed.

(** [dirname] either writes into the caller's buffer, and then the returned
    pointer aliases that buffer, or returns the static string ".". *)
Lemma dirname_aliases buf :
  let '(buf', p) := dirname_call buf in
  streq (deref buf' p) buf' || streq (deref buf' p) (str ".") = true.
Proof.
  unfold dirname_call. destruct (strrchr (strip_slashes buf) CH_SLASH).
  - cbn [deref]. by rewrite streq_refl.
  - repeat case_decide; cbn [deref]; rewrite streq_refl; by rewrite ?orb_true_r.
Qed.

Lemma basename_no_slash s i :
  strrchr (strip_slashes s) CH_SLASH = Some i -> CH_SLASH ∉ drop (S i) (strip_slashes s).
Proof. intros H. by apply strrchr_Some in H as [_ ?]. Qed.

Lemma filename_after_slash url :
  CH_SLASH ∉ match strrchr url CH_SLASH with Some i => drop (S i) url | None => url end.
Proof.
  destruct (strrchr url CH_SLASH) as [i|] eqn:E.
  - by apply strrchr_Some in E as [_ ?].
  - by apply strrchr_None.
Qed.

Lemma not_elem_take {A} (x : A) n l : x ∉ l -> x ∉ take n l.
Proof. intros H Hin. apply H. rewrite <- (take_drop n l). apply elem_of_app. by left. Qed.

Lemma not_elem_strlcpy x n l : x ∉ l -> x ∉ strlcpy n l.
Proof. apply not_elem_take. Qed.

(** The filename never contains a slash and never overflows its buffer. *)
Lemma path_filename_no_slash url n : CH_SLASH ∉ path_filename_from_url url n.
Proof.
  unfold path_filename_from_url. apply not_elem_strlcpy. case_decide as Hd.
  - vm_compute. intros H. repeat (apply elem_of_cons in H as [H|H]; [done|]). by apply elem_of_nil in H.
  - clear Hd. destruct (strchr _ CH_QUESTION); [apply not_elem_take|];
      apply not_elem_strlcpy, filename_after_slash.
Qed.

Lemma path_filename_nonempty url n : 1 < n -> path_filename_from_url url n <> [].
Proof.
  intros Hn. unfold path_filename_from_url, strlcpy at 1.
  destruct (Z.to_nat (n - 1)) as [|m] eqn:E; [lia|].
  case_decide as Hd; [vm_compute; done|]. revert Hd.
  generalize (match strchr (strlcpy 512 (match strrchr url CH_SLASH with Some i => drop (S i) url | None => url end)) CH_QUESTION with
       | Some q => take q (strlcpy 512 (match strrchr url CH_SLASH with Some i => drop (S i) url | None => url end))
       | None => strlcpy 512 (match strrchr url CH_SLASH with Some i => drop (S i) url | None => url end) end).
  intros [|c l] H; [done|]. by simpl.
Qed.

(** *** Numbered names *)

Lemma name_parts_app path :
  np_prefix (name_parts path) ++ np_stem (name_parts path) ++ np_extension (name_parts path) = path.
Proof. unfold name_parts. cbn [np_prefix np_stem np_extension]. by rewrite !take_drop. Qed.

Lemma str_inj a b : str a = str b -> a = b.
Proof.
  unfold str. revert b. induction a as [|c a IH]; intros [|d b]; simpl; try done.
  intros [= Hc Hs]. f_equal; [|by apply IH].
  apply N2Z.inj in Hc. rewrite <- (Ascii.ascii_N_embedding c), <- (Ascii.ascii_N_embedding d).
  by f_equal.
Qed.

Lemma decimal_inj a b : 0 <= a -> 0 <= b -> decimal a = decimal b -> a = b.
Proof.
  unfold decimal. intros Ha Hb H%str_inj. apply (inj pretty) in H.
  rewrite <- (Z2N.id a), <- (Z2N.id b) by done. by f_equal.
Qed.

Lemma numbered_inj p a b : 0 <= a -> 0 <= b -> numbered p a = numbered p b -> a = b.
Proof.
  unfold numbered. intros Ha Hb H. apply decimal_inj; [done|done|].
  do 3 apply (inj (app _)) in H. by apply (inj (fun l => app l _)) in H.
Qed.

Section Loop.

Context (path_exists : bytes -> bool) (out_size : Z) (p : NameParts).

(** A result is the first free name, and every smaller number was taken. *)
Lemma unique_loop_Some suffix fuel out :
  unique_loop path_exists out_size p suffix fuel = Some out ->
  exists k, suffix <= k < suffix + Z.of_nat fuel /\ out = numbered p k /\
    path_exists out = false /\ strlen out < out_size /\
    forall j, suffix <= j < k -> path_exists (numbered p j) = true.
Proof.
  revert suffix. induction fuel as [|fuel IH]; intros suffix; cbn [unique_loop]; [done|].
  destruct (Z.leb_spec out_size (strlen (numbered p suffix))); [done|].
  destruct (path_exists (numbered p suffix)) eqn:E.
  - intros H'. destruct (IH _ H') as (k & Hk & -> & He & Hs & Hall).
    exists k. split; [lia|]. do 3 (split; [done|]). intros j Hj.
    destruct (decide (j = suffix)) as [->|]; [done|]. apply Hall. lia.
  - intros [= <-]. exists suffix. split; [lia|]. do 3 (split; [done|]). lia.
Qed.

(** If every name fits the buffer, failure means every number was taken. *)
Lemma unique_loop_None suffix fuel :
  (forall k, suffix <= k < suffix + Z.of_nat fuel -> strlen (numbered p k) < out_size) ->
  unique_loop path_exists out_size p suffix fuel = None ->
  forall k, suffix <= k < suffix + Z.of_nat fuel -> path_exists (numbered p k) = true.
Proof.
  revert suffix. induction fuel as [|fuel IH]; intros suffix Hfit; cbn [unique_loop]; [lia|].
  destruct (Z.leb_spec out_size (strlen (numbered p suffix))) as [Hle|_].
  { specialize (Hfit suffix ltac:(lia)). lia. }
  destruct (path_exists (numbered p suffix)) eqn:E; [|done].
  intros H k Hk. destruct (decide (k = suffix)) as [->|]; [done|].
  apply (IH (suffix + 1)); [intros; apply Hfit; lia|done|lia].
Qed.

End Loop.

(** *** Width of the number *)

Lemma length_str s : length (str s) = String.length s.
Proof.
  unfold str. rewrite length_map. induction s as [|c s IH]; [done|]. simpl. by rewrite IH.
Qed.

Lemma pretty_N_go_length n x s :
  (x < 10 ^ N.of_nat n)%N -> (String.length (pretty_N_go x s) <= n + String.length s)%nat.
Proof.
  revert x s. induction n as [|n IH]; intros x s Hx.
  - replace x with 0%N by (simpl in Hx; lia). by rewrite pretty_N_go_0.
  - destruct (decide (x = 0%N)) as [->|Hne]; [rewrite pretty_N_go_0; lia|].
    rewrite pretty_N_go_step by lia.
    assert (x `div` 10 < 10 ^ N.of_nat n)%N as Hd.
    { apply N.Div0.div_lt_upper_bound. rewrite Nat2N.inj_succ, N.pow_succ_r' in Hx. lia. }
    specialize (IH _ (String.String (pretty_N_char (x `mod` 10)) s) Hd). simpl in IH. lia.
Qed.

Lemma decimal_width k : 0 < k < 1000000 -> strlen (decimal k) <= 6.
Proof.
  intros H. unfold decimal, strlen. rewrite length_str. unfold pretty, pretty_N. case_decide as Hz.
  { simpl. lia. }
  pose proof (pretty_N_go_length 6 (Z.to_N k) "" ltac:(simpl; lia)). simpl in *. lia.
Qed.

Lemma numbered_width p k :
  0 < k < 1000000 ->
  strlen (numbered p k) <=
    strlen (np_prefix p) + strlen (np_stem p) + strlen (np_extension p) + 8.
Proof.
  intros H. pose proof (decimal_width k H). unfold numbered. rewrite !strlen_app.
  change (strlen (str "(")) with 1. change (strlen (str ")")) with 1. lia.
Qed.

Lemma name_parts_strlen path :
  strlen (np_prefix (name_parts path)) + strlen (np_stem (name_parts path)) +
  strlen (np_extension (name_parts path)) = strlen path.
Proof. rewrite <- (name_parts_app path) at 4. rewrite !strlen_app. lia. Qed.

(** The names [numbered p 1 .. numbered p n] are pairwise distinct. *)
Lemma numbered_NoDup p n :
  NoDup (map (fun i => numbered p (Z.of_nat i)) (seq 1 n)).
Proof.
  apply NoDup_fmap_2_strong; [|apply NoDup_seq].
  intros i j _ _ H. apply numbered_inj in H; lia.
Qed.

(** Pigeonhole: not all names are taken when fewer files exist than numbers. *)
Lemma numbered_not_all_taken (path_exists : bytes -> bool) (taken : list bytes) p n :
  (forall x, path_exists x = true -> x ∈ taken) -> (length taken < n)%nat ->
  ~ (forall k, 1 <= k < 1 + Z.of_nat n -> path_exists (numbered p k) = true).
Proof.
  intros Hex Hlen Hall.
  assert (length (map (fun i => numbered p (Z.of_nat i)) (seq 1 n)) <= length taken)%nat as Hle.
  { apply submseteq_length, NoDup_submseteq; [apply numbered_NoDup|].
    intros x (i & -> & Hi)%list_elem_of_fmap. apply elem_of_seq in Hi.
    apply Hex, Hall. lia. }
  rewrite length_map, length_seq in Hle. lia.
Qed.

(** ** Properties *)

(** A path returned by [path_make_unique] does not exist, fits the
    buffer with its NUL, and is either the requested path (when that is free) or
    the requested path with "(k)" inserted before its extension, for the smallest
    [k] in 1 .. 999999 whose name is free. *)
Theorem path_make_unique_free (path_exists : bytes -> bool) (out_size : Z) (path out : bytes) :
  path_make_unique path_exists out_size path = Some out ->
  path_exists out = false /\ strlen out < out_size /\
  (if path_exists path then
     exists k, 1 <= k <= 999999 /\ out = numbered (name_parts path) k /\
       forall j, 1 <= j < k -> path_exists (numbered (name_parts path) j) = true
   else out = path).
Proof.
  unfold path_make_unique. destruct (out_size =? 0); [done|].
  destruct (path_exists path) eqn:E.
  - intros H. apply unique_loop_Some in H as (k & Hk & -> & He & Hs & Hall).
    do 2 (split; [done|]). exists k. rewrite Z2Nat.id in Hk by lia. split; [lia|]. done.
  - destruct (Z.leb_spec out_size (strlen path)); [done|]. by intros [= <-].
Qed.

Lemma path_make_unique_free_witness :
  path_make_unique (fun p => bool_decide (p ∈ [str "/d/a.tar.gz"; str "/d/a(1).tar.gz"])) 1024
    (str "/d/a.tar.gz") = Some (str "/d/a(2).tar.gz") /\
  strlen (str "/d/a(2).tar.gz") < 1024.
Proof.
  assert (path_make_unique (fun p => bool_decide (p ∈ [str "/d/a.tar.gz"; str "/d/a(1).tar.gz"])) 1024
    (str "/d/a.tar.gz") = Some (str "/d/a(2).tar.gz")) as E by (vm_compute; reflexivity).
  split; [exact E|]. exact (proj1 (proj2 (path_make_unique_free _ _ _ _ E))).
Defined.

(** C40. [path_make_unique] ends with a free name.  When the path leaves room for
    eight more characters and fewer than 999999 files exist, the numbers it tries
    give pairwise different names, so the loop cannot exhaust its bound: it
    answers the path itself when that is free, and otherwise the path with "(k)"
    before its extension, for the smallest [k] whose name is free. *)
Theorem path_make_unique_succeeds (path_exists : bytes -> bool) (taken : list bytes)
    (out_size : Z) (path : bytes) :
  (forall x, path_exists x = true -> x ∈ taken) ->
  Z.of_nat (length taken) < 999999 -> strlen path + 8 < out_size ->
  exists out, path_make_unique path_exists out_size path = Some out /\
    path_exists out = false /\ strlen out < out_size /\
    (if path_exists path then
       exists k, 1 <= k <= 999999 /\ out = numbered (name_parts path) k /\
         forall j, 1 <= j < k -> path_exists (numbered (name_parts path) j) = true
     else out = path).
Proof.
  intros Hex Hlen Hfit.
  assert (exists out, path_make_unique path_exists out_size path = Some out) as [out E].
  { unfold path_make_unique. pose proof (strlen_nonneg path).
    destruct (Z.eqb_spec out_size 0); [lia|]. destruct (path_exists path).
    - destruct (unique_loop _ _ _ _ _) as [out|] eqn:E; [by exists out|].
      exfalso. apply (numbered_not_all_taken path_exists taken (name_parts path) (Z.to_nat 999999));
        [done|lia|].
      apply (unique_loop_None path_exists out_size); [|done].
      intros k Hk. rewrite Z2Nat.id in Hk by lia.
      pose proof (numbered_width (name_parts path) k ltac:(lia)).
      pose proof (name_parts_strlen path). lia.
    - destruct (Z.leb_spec out_size (strlen path)); [lia|]. eauto. }
  exists out. split; [exact E|]. by apply path_make_unique_free.
Qed.

Lemma path_make_unique_succeeds_witness :
  exists out, path_make_unique (fun p => bool_decide (p ∈ [str "/d/x"])) 1024 (str "/d/x") = Some out /\
    out <> str "/d/x".
Proof.
  destruct (path_make_unique_succeeds (fun p => bool_decide (p ∈ [str "/d/x"])) [str "/d/x"] 1024 (str "/d/x"))
    as (out & E & Hf & _).
  - intros x H. by apply bool_decide_eq_true in H.
  - vm_compute. reflexivity.
  - vm_compute. reflexivity.
  - exists out. split; [exact E|]. intros ->. apply bool_decide_eq_false in Hf. apply Hf. by left.
Defined.

(** The filename derived from any URL has no slash, is not empty (when the
    buffer has room for one character) and fits its buffer; but it can be "..",
    so that it is not a safe file name by itself. *)
Theorem path_filename_from_url_shape (url : bytes) (out_size : Z) :
  1 < out_size ->
  (CH_SLASH ∉ path_filename_from_url url out_size) /\
  (path_filename_from_url url out_size <> []) /\
  strlen (path_filename_from_url url out_size) < out_size /\
  path_filename_from_url (str "http://h/..") 512 = str "..".
Proof.
  intros Hn. split; [apply path_filename_no_slash|]. split; [by apply path_filename_nonempty|].
  split; [|vm_compute; reflexivity].
  unfold path_filename_from_url.
  match goal with |- strlen (strlcpy _ ?s) < _ => pose proof (strlcpy_length out_size s) end. lia.
Qed.

Lemma path_filename_from_url_shape_witness :
  path_filename_from_url (str "https://example.org/a/file.zip?token=1") 512 = str "file.zip" /\
  CH_SLASH ∉ path_filename_from_url (str "https://example.org/a/file.zip?token=1") 512.
Proof.
  split; [vm_compute; reflexivity|].
  exact (proj1 (path_filename_from_url_shape (str "https://example.org/a/file.zip?token=1") 512 ltac:(lia))).
Defined.

(** [path_join] succeeds exactly when directory, separator, filename and
    NUL fit the buffer; the result then starts with the directory, and the part
    after its last slash is the filename, whenever the filename has no slash. *)
Theorem path_join_spec (dir filename : bytes) (out_size : Z) :
  CH_SLASH ∉ filename ->
  match path_join dir filename out_size with
  | Some out => strlen out < out_size /\ (exists s, out = dir ++ s) /\
      (exists i, strrchr out CH_SLASH = Some i /\ drop (S i) out = filename)
  | None => out_size < strlen dir + strlen filename + 2
  end.
Proof.
  intros Hf. unfold path_join. pose proof (strlen_nonneg dir).
  assert (forall d, strrchr (d ++ [CH_SLASH]) CH_SLASH = Some (length d)) as Hsnoc.
  { induction d as [|c d IH]; [done|]. cbn [app strrchr]. by rewrite IH. }
  assert (forall a b i, strrchr b CH_SLASH = None -> strrchr a CH_SLASH = Some i ->
            strrchr (a ++ b) CH_SLASH = Some i) as Happ.
  { induction a as [|c a IH]; intros b i Hb; [done|]. cbn [app strrchr].
    destruct (strrchr a CH_SLASH) as [j|] eqn:Ea.
    - intros [= <-]. by rewrite (IH b j).
    - destruct (c =? CH_SLASH) eqn:Ec; [|done]. intros [= <-].
      replace (strrchr (a ++ b) CH_SLASH) with (@None nat); [done|].
      symmetry. apply strrchr_None. apply strrchr_None in Hb, Ea. rewrite elem_of_app. tauto. }
  apply strrchr_None in Hf.
  destruct ((0 <? strlen dir) && bool_decide (last dir = Some CH_SLASH)) eqn:Hsep.
  - breflect. destruct (Z.ltb_spec out_size (strlen dir + strlen filename + 1)); [lia|].
    rewrite strlen_app. split; [lia|]. split; [eauto|].
    match goal with HL : last dir = Some _ |- _ => apply last_Some in HL as [d ->] end.
    exists (length d). split; [by apply Happ|].
    rewrite <- app_assoc. rewrite drop_app_ge by lia.
    replace (S (length d) - length d)%nat with 1%nat by lia. done.
  - destruct (Z.ltb_spec out_size (strlen dir + strlen filename + 2)); [lia|].
    rewrite !strlen_app. change (strlen [CH_SLASH]) with 1. split; [lia|].
    split; [exists ([CH_SLASH] ++ filename); by rewrite app_assoc|].
    exists (length dir). split; [by apply Happ|].
    rewrite <- app_assoc. rewrite drop_app_ge by lia.
    replace (S (length dir) - length dir)%nat with 1%nat by lia. done.
Qed.

Lemma path_join_spec_witness :
  path_join (str "/home/u/Downloads") (str "f.zip") 1024 = Some (str "/home/u/Downloads/f.zip") /\
  match path_join (str "/home/u/Downloads") (str "f.zip") 1024 with
  | Some out => strlen out < 1024 | None => False end.
Proof.
  assert (CH_SLASH ∉ str "f.zip") as H by (apply (bool_decide_unpack _); vm_compute; exact I).
  split; [vm_compute; reflexivity|].
  exact (proj1 (path_join_spec (str "/home/u/Downloads") (str "f.zip") 1024 H)).
Defined.
