(* ===== verification/FileIo.v ===== *)
(** * Files ([src/platform/file_io.c], POSIX branch) on a model of the POSIX calls

    The file system is a finite map from path to node; a regular file is sparse
    (a size and the bytes written, every other byte reads as 0).  Paths are the
    strings the code passes: "." and ".." components and hard links are not
    interpreted.  Permission and space failures come from [IoEnv]. *)

From S2P Require Import Prelude Path.

(** ** POSIX model *)

Record regular := mkReg { reg_size : Z; reg_data : gmap Z Z }.

Inductive node :=
| NReg (f : regular)
| NDir
| NSymlink (target : bytes)
| NOther.

#[global] Instance regular_eq_dec : EqDecision regular.
Proof. solve_decision. Defined.

#[global] Instance node_eq_dec : EqDecision node.
Proof. solve_decision. Defined.

Abbreviation filesystem := (gmap bytes node).

Inductive errno := ENOENT | EEXIST | EACCES | ENOTDIR | ELOOP | EINVAL | ENOSPC.

#[global] Instance errno_eq_dec : EqDecision errno.
Proof. solve_decision. Defined.

(** What the kernel may refuse, independently of the tree. *)
Record IoEnv := mkEnv {
  env_deny : bytes -> bool;       (* EACCES on this path *)
  env_space : Z -> bool;          (* a file may grow to this size *)
}.

Definition permissive : IoEnv := mkEnv (fun _ => false) (fun _ => true).

Definition empty_reg : regular := mkReg 0 ∅.

(** Byte [i] of a file, for [0 <= i < reg_size f]. *)
Definition reg_byte (f : regular) (i : Z) : Z := default 0 (reg_data f !! i).

Definition reg_content (f : regular) : bytes := map (reg_byte f) (seqZ 0 (reg_size f)).

Fixpoint write_bytes (d : gmap Z Z) (off : Z) (buf : bytes) : gmap Z Z :=
  match buf with
  | [] => d
  | b :: buf' => write_bytes (<[off := b]> d) (off + 1) buf'
  end.

Definition reg_pwrite (f : regular) (off : Z) (buf : bytes) : regular :=
  match buf with
  | [] => f
  | _ => mkReg (Z.max (reg_size f) (off + strlen buf)) (write_bytes (reg_data f) off buf)
  end.

(** Growing leaves a hole of zeros; shrinking drops the bytes past the end. *)
Definition reg_truncate (f : regular) (n : Z) : regular :=
  mkReg n (filter (fun p : Z * Z => p.1 < n) (reg_data f)).

Section Posix.

Context (env : IoEnv).

(** Error of resolving a path that has no entry. *)
Definition missing_errno (fs : filesystem) (p : bytes) : errno :=
  match fs !! dirname p with
  | Some NDir | None => ENOENT
  | Some _ => ENOTDIR
  end.

Definition lstat (fs : filesystem) (p : bytes) : errno + node :=
  if env_deny env p then inl EACCES
  else match fs !! p with
       | Some n => inr n
       | None => inl (missing_errno fs p)
       end.

(** [stat] follows symbolic links, at most [fuel] of them. *)
Fixpoint stat_from (fuel : nat) (fs : filesystem) (p : bytes) : errno + node :=
  match lstat fs p with
  | inr (NSymlink t) => match fuel with O => inl ELOOP | S k => stat_from k fs t end
  | r => r
  end.

Definition stat (fs : filesystem) (p : bytes) : errno + node := stat_from 40 fs p.

(** [access (p, F_OK)]. *)
Definition access_ok (fs : filesystem) (p : bytes) : bool :=
  match stat fs p with inr _ => true | inl _ => false end.

Definition parent_is_dir (fs : filesystem) (p : bytes) : bool :=
  match fs !! dirname p with Some NDir => true | _ => false end.

Definition mkdir (fs : filesystem) (p : bytes) : (option errno) * filesystem :=
  match fs !! p with
  | Some _ => (Some EEXIST, fs)
  | None =>
      if env_deny env p then (Some EACCES, fs)
      else if parent_is_dir fs p then (None, <[p := NDir]> fs)
      else (Some (missing_errno fs p), fs)
  end.

(** [open (p, O_WRONLY | O_CREAT | O_EXCL | O_NOFOLLOW)]. *)
Definition open_excl (fs : filesystem) (p : bytes) : (option errno) * filesystem :=
  match fs !! p with
  | Some _ => (Some EEXIST, fs)
  | None =>
      if env_deny env p then (Some EACCES, fs)
      else if parent_is_dir fs p then (None, <[p := NReg empty_reg]> fs)
      else (Some (missing_errno fs p), fs)
  end.

(** [open (p, O_WRONLY | O_NOFOLLOW)]. *)
Definition open_nofollow (fs : filesystem) (p : bytes) : errno + node :=
  match lstat fs p with
  | inr (NSymlink _) => inl ELOOP
  | r => r
  end.

Definition unlink (fs : filesystem) (p : bytes) : filesystem :=
  match fs !! p with
  | None | Some NDir => fs
  | Some _ => if env_deny env p then fs else delete p fs
  end.

(** ** file_io.c *)

(** The loop of [file_ensure_directory]: [done] is the part of [temp] before
    index [i], [rest] the part from [i] on. *)
Fixpoint mkdir_loop (fs : filesystem) (done rest : bytes) : bool * filesystem :=
  match rest with
  | [] => (true, fs)
  | c :: rest' =>
      if c =? CH_SLASH then
        let '(e, fs') := mkdir fs done in
        if decide (e = None \/ e = Some EEXIST) then mkdir_loop fs' (done ++ [c]) rest'
        else (false, fs')
      else mkdir_loop fs (done ++ [c]) rest'
  end.

(** 0 is [true], -1 is [false]. *)
Definition file_ensure_directory (fs : filesystem) (path : bytes) : bool * filesystem :=
  if decide (path = []) then (false, fs)
  else
    let temp := strlcpy 1024 path in
    let '(ok, fs1) := mkdir_loop fs (take 1 temp) (drop 1 temp) in
    if ok then
      let '(e, fs2) := mkdir fs1 temp in
      (bool_decide (e = None \/ e = Some EEXIST), fs2)
    else (false, fs1).

Definition ensure_parent_dirs_exist (fs : filesystem) (path : bytes) : filesystem :=
  let dir := dirname (strlcpy 1024 path) in
  if streq dir (str ".") || streq dir (str "/") then fs
  else snd (file_ensure_directory fs dir).

(** [file_preallocate]: 0, -1, or -2 when the path exists. *)
Definition file_preallocate (fs : filesystem) (path : bytes) (total_size : Z) : Z * filesystem :=
  let fs := ensure_parent_dirs_exist fs path in
  match open_excl fs path with
  | (Some e, fs) => (if decide (e = EEXIST) then -2 else -1, fs)
  | (None, fs) =>
      if total_size =? 0 then (0, fs)
      else if i64 (u64 (total_size - 1)) <? 0 then (-1, fs)      (* lseek: EINVAL *)
      else if env_space env total_size then
        (0, <[path := NReg (reg_pwrite empty_reg (total_size - 1) [0])]> fs)
      else (-1, fs)                                              (* write: ENOSPC *)
  end.

Definition file_preallocate_reserved (fs : filesystem) (path : bytes) (total_size : Z)
    : Z * filesystem :=
  match open_nofollow fs path with
  | inr (NReg f) =>
      if (reg_size f =? 0) && (0 <=? i64 total_size) && env_space env total_size then
        (0, <[path := NReg (reg_truncate f total_size)]> fs)
      else (-1, fs)
  | _ => (-1, fs)
  end.

(** [file_open_rw]: a handle is the path of a regular file. *)
Definition file_open_rw (fs : filesystem) (path : bytes) : option bytes :=
  match open_nofollow fs path with
  | inr (NReg _) => Some path
  | _ => None
  end.

(** [pwrite] on an open regular file: all or nothing here (a short write is
    the failing case); offsets are signed and a file ends before 2^63. *)
Definition OFF_MAX : Z := 2 ^ 63 - 1.

Definition reg_pwrite_checked (f : regular) (buf : bytes) (offset : Z) : option regular :=
  if (i64 offset <? 0) || (OFF_MAX <? offset + strlen buf)
     || negb (env_space env (offset + strlen buf)) then None
  else Some (reg_pwrite f offset buf).

Definition file_pwrite (fs : filesystem) (fd : bytes) (buf : bytes) (offset : Z) : Z * filesystem :=
  match fs !! fd with
  | Some (NReg f) =>
      match reg_pwrite_checked f buf offset with
      | Some f' => (0, <[fd := NReg f']> fs)
      | None => (-1, fs)
      end
  | _ => (-1, fs)
  end.

Definition node_size (n : node) : Z := match n with NReg f => reg_size f | _ => 0 end.

Definition file_get_size (fs : filesystem) (path : bytes) : Z :=
  match stat fs path with
  | inr n => node_size n
  | inl _ => 0
  end.

(** The test used by [path_make_unique]. *)
Definition path_exists (fs : filesystem) (path : bytes) : bool :=
  match lstat fs path with
  | inr _ => true
  | inl e => negb (bool_decide (e = ENOENT))
  end.

End Posix.

(** ** Lemmas *)

Lemma write_bytes_lookup d off buf i :
  write_bytes d off buf !! i =
    if decide (off <= i < off + strlen buf) then buf !! Z.to_nat (i - off) else d !! i.
Proof.
  revert d off. induction buf as [|b buf IH]; intros d off; cbn [write_bytes].
  - unfold strlen; simpl. case_decide; [lia|done].
  - rewrite IH. unfold strlen in *. cbn [length] in *.
    destruct (decide (i = off)) as [->|Hne].
    + rewrite decide_False by lia. rewrite decide_True by lia. by rewrite lookup_insert_eq, Z.sub_diag.
    + repeat case_decide; try lia.
      * replace (Z.to_nat (i - off)) with (S (Z.to_nat (i - (off + 1)))) by lia. done.
      * by rewrite lookup_insert_ne.
Qed.

Lemma reg_pwrite_byte f off buf i :
  reg_byte (reg_pwrite f off buf) i =
    if decide (off <= i < off + strlen buf) then default 0 (buf !! Z.to_nat (i - off))
    else reg_byte f i.
Proof.
  unfold reg_byte, reg_pwrite. destruct buf as [|b buf].
  - unfold strlen; simpl. case_decide; [lia|done].
  - cbn [reg_data]. rewrite write_bytes_lookup. by case_decide.
Qed.

Lemma length_reg_content f : 0 <= reg_size f -> strlen (reg_content f) = reg_size f.
Proof. intros H. unfold strlen, reg_content. rewrite length_map, length_seqZ. lia. Qed.

Lemma reg_content_lookup f i :
  0 <= i < reg_size f -> reg_content f !! Z.to_nat i = Some (reg_byte f i).
Proof.
  intros H. unfold reg_content. change (map (reg_byte f) (seqZ 0 (reg_size f)))
    with (reg_byte f <$> seqZ 0 (reg_size f)).
  replace (reg_byte f i) with (reg_byte f (0 + Z.of_nat (Z.to_nat i))) by (f_equal; lia).
  apply list_lookup_fmap_Some_2. apply lookup_seqZ_lt. lia.
Qed.

Lemma content_of_written s : reg_content (reg_pwrite empty_reg 0 s) = s.
Proof.
  assert (reg_size (reg_pwrite empty_reg 0 s) = strlen s) as Hsz.
  { destruct s; [done|]. cbn [reg_pwrite reg_size empty_reg]. unfold strlen. simpl. lia. }
  apply list_eq. intros i. destruct (decide (i < length s)%nat) as [Hi|Hi].
  - rewrite <- (Nat2Z.id i), reg_content_lookup by (rewrite Hsz; unfold strlen; lia).
    rewrite reg_pwrite_byte, decide_True by (unfold strlen; lia).
    rewrite Z.sub_0_r, Nat2Z.id. destruct (lookup_lt_is_Some_2 s i Hi) as [x ->]. done.
  - rewrite !lookup_ge_None_2; [done|lia|]. pose proof (length_reg_content (reg_pwrite empty_reg 0 s)) as Hl.
    unfold strlen in *. lia.
Qed.

Section PosixLemmas.

Context (env : IoEnv).

(** Directory creation only adds directories where nothing was. *)
Definition only_adds_dirs (fs fs' : filesystem) : Prop :=
  forall p, fs' !! p = fs !! p \/ (fs !! p = None /\ fs' !! p = Some NDir).

Lemma only_adds_dirs_refl fs : only_adds_dirs fs fs.
Proof. intros p. by left. Qed.

Lemma only_adds_dirs_trans a b c :
  only_adds_dirs a b -> only_adds_dirs b c -> only_adds_dirs a c.
Proof.
  intros H1 H2 p. destruct (H1 p) as [E1|[E1 E1']], (H2 p) as [E2|[E2 E2']]; rewrite ?E1, ?E2 in *;
    try (by left); right; split; congruence.
Qed.

Lemma mkdir_only_adds fs p : only_adds_dirs fs (snd (mkdir env fs p)).
Proof.
  unfold mkdir. destruct (fs !! p) eqn:E; [apply only_adds_dirs_refl|].
  repeat case_bool; try apply only_adds_dirs_refl. intros q. simpl.
  destruct (decide (p = q)) as [->|]; [right; by rewrite lookup_insert_eq|].
  left. by rewrite lookup_insert_ne.
Qed.

Lemma mkdir_ok_exists fs p e fs' :
  mkdir env fs p = (e, fs') -> e = None \/ e = Some EEXIST -> is_Some (fs' !! p).
Proof.
  unfold mkdir. destruct (fs !! p) eqn:E; [intros [= <- <-] _; by eexists|].
  destruct (env_deny env p); [intros [= <- <-] [?|?]; done|].
  destruct (parent_is_dir fs p).
  - intros [= <- <-] _. rewrite lookup_insert_eq. by eexists.
  - intros [= <- <-] [?|?]; [done|]. unfold missing_errno in *.
    destruct (fs !! dirname p) as [[]|]; done.
Qed.

Lemma mkdir_loop_only_adds fs done_ rest : only_adds_dirs fs (snd (mkdir_loop env fs done_ rest)).
Proof.
  revert fs done_. induction rest as [|c rest IH]; intros fs done_; cbn [mkdir_loop].
  - apply only_adds_dirs_refl.
  - destruct (c =? CH_SLASH); [|apply IH].
    destruct (mkdir env fs done_) as [e fs'] eqn:E.
    pose proof (mkdir_only_adds fs done_) as H. rewrite E in H. simpl in H.
    case_decide; [|done]. eapply only_adds_dirs_trans; [done|apply IH].
Qed.

Lemma ensure_directory_only_adds fs p : only_adds_dirs fs (snd (file_ensure_directory env fs p)).
Proof.
  unfold file_ensure_directory. case_decide; [apply only_adds_dirs_refl|].
  pose proof (mkdir_loop_only_adds fs (take 1 (strlcpy 1024 p)) (drop 1 (strlcpy 1024 p))) as H1.
  destruct (mkdir_loop _ _ _ _) as [[] fs1]; [|done].
  pose proof (mkdir_only_adds fs1 (strlcpy 1024 p)) as H2.
  destruct (mkdir env fs1 _) as [e fs2]. simpl in *. by eapply only_adds_dirs_trans.
Qed.

Lemma ensure_parent_only_adds fs p : only_adds_dirs fs (ensure_parent_dirs_exist env fs p).
Proof.
  unfold ensure_parent_dirs_exist. case_bool; [apply only_adds_dirs_refl|].
  apply ensure_directory_only_adds.
Qed.

Lemma open_excl_spec fs p :
  match open_excl env fs p with
  | (None, fs') => fs !! p = None /\ fs' = <[p := NReg empty_reg]> fs
  | (Some e, fs') => fs' = fs /\ (e = EEXIST <-> is_Some (fs !! p))
  end.
Proof.
  unfold open_excl. destruct (fs !! p) eqn:E.
  - split; [done|]. split; [by eexists|done].
  - destruct (env_deny env p); [split; [done|split; [discriminate|by intros [? ?]]]|].
    destruct (parent_is_dir fs p); [done|].
    unfold missing_errno. split; [done|]. split; [|by intros [? ?]].
    by destruct (fs !! dirname p) as [[]|].
Qed.

Lemma unlink_other fs p q : p <> q -> unlink env fs p !! q = fs !! q.
Proof.
  intros H. unfold unlink. destruct (fs !! p) as [[]|]; try done;
    destruct (env_deny env p); rewrite ?lookup_delete_ne; done.
Qed.

Lemma only_adds_dirs_keeps fs fs' p n : only_adds_dirs fs fs' -> fs !! p = Some n -> fs' !! p = Some n.
Proof. intros H E. destruct (H p) as [E'|[E' _]]; congruence. Qed.

Lemma reg_zero_fill n i : reg_byte (reg_pwrite empty_reg (n - 1) [0]) i = 0.
Proof.
  rewrite reg_pwrite_byte. case_decide as Hd; [|done].
  unfold strlen in Hd; simpl in Hd. by replace (i - (n - 1)) with 0 by lia.
Qed.

(** Either the path was refused and only directories were made, or a new
    regular file was put there. *)
Lemma file_preallocate_shape fs p n rc fs' :
  0 <= n < 2 ^ 63 ->
  file_preallocate env fs p n = (rc, fs') ->
  let fs1 := ensure_parent_dirs_exist env fs p in
  (fs' = fs1 /\ rc <> 0 /\ (rc = -2 <-> is_Some (fs1 !! p))) \/
  (fs1 !! p = None /\ rc <> -2 /\ exists f, fs' = <[p := NReg f]> fs1 /\
     (rc = 0 -> reg_size f = n /\ forall i, reg_byte f i = 0)).
Proof.
  intros Hn. unfold file_preallocate. cbv zeta.
  set (fs1 := ensure_parent_dirs_exist env fs p). clearbody fs1.
  pose proof (open_excl_spec fs1 p) as Ho. destruct (open_excl env fs1 p) as [[e|] fs2].
  { destruct Ho as [-> He]. intros [= <- <-]. left. split; [done|]. split; [by case_decide|].
    split; intros Hs; [case_decide as Hd; [by apply He in Hd|done]|].
    rewrite decide_True; [done|by apply He]. }
  destruct Ho as [Hnone ->]. intros H. right. split; [done|].
  destruct (Z.eqb_spec n 0) as [->|].
  { injection H as <- <-. split; [done|]. by exists empty_reg. }
  revert H. case_match; [intros [= <- <-]; split; [done|by exists empty_reg]|].
  case_match; intros [= <- <-]; (split; [done|]); [|by exists empty_reg].
  eexists. rewrite insert_insert_eq. split; [done|]. intros _. split.
  - simpl. unfold strlen. simpl. lia.
  - apply reg_zero_fill.
Qed.

(** Everything but [p] is as before, missing directories apart. *)
Definition only_touches (p : bytes) (fs fs' : filesystem) : Prop :=
  forall q, q <> p -> fs' !! q = fs !! q \/ (fs !! q = None /\ fs' !! q = Some NDir).

Lemma only_touches_refl p fs : only_touches p fs fs.
Proof. intros q _. by left. Qed.

Lemma only_touches_trans p a b c : only_touches p a b -> only_touches p b c -> only_touches p a c.
Proof.
  intros H1 H2 q Hq. destruct (H1 q Hq) as [E1|[E1 E1']], (H2 q Hq) as [E2|[E2 E2']];
    rewrite ?E1, ?E2 in *; try (by left); right; split; congruence.
Qed.

Lemma only_touches_insert p fs fs' n : only_touches p fs fs' -> only_touches p fs (<[p := n]> fs').
Proof. intros H q Hq. rewrite lookup_insert_ne by done. by apply H. Qed.

Lemma only_touches_unlink p fs : only_touches p fs (unlink env fs p).
Proof. intros q Hq. left. by rewrite unlink_other. Qed.

Lemma file_preallocate_touches fs p n :
  0 <= n < 2 ^ 63 -> only_touches p fs (snd (file_preallocate env fs p n)).
Proof.
  intros Hn. destruct (file_preallocate env fs p n) as [rc fs'] eqn:E.
  pose proof (ensure_parent_only_adds fs p) as Ha.
  assert (only_touches p fs (ensure_parent_dirs_exist env fs p)) as H by (intros q _; apply Ha).
  destruct (file_preallocate_shape _ _ _ _ _ Hn E) as [(-> & _)|(_ & _ & f & -> & _)]; [done|].
  by apply only_touches_insert.
Qed.

Lemma file_preallocate_reserved_shape fs p n rc fs' :
  0 <= n < 2 ^ 63 -> file_preallocate_reserved env fs p n = (rc, fs') ->
  rc <> -2 /\ ((fs' = fs /\ rc <> 0) \/
    exists f, fs !! p = Some (NReg f) /\ reg_size f = 0 /\ fs' = <[p := NReg (reg_truncate f n)]> fs).
Proof.
  intros Hn. unfold file_preallocate_reserved, open_nofollow, lstat.
  destruct (env_deny env p); [intros [= <- <-]; auto|].
  destruct (fs !! p) as [[f| | |]|]; try (intros [= <- <-]; by auto).
  destruct (Z.eqb_spec (reg_size f) 0); cbn [andb]; [|intros [= <- <-]; by auto].
  case_bool; intros [= <- <-]; [|by auto]. split; [done|]. right. by exists f.
Qed.

(** [file_preallocate] never touches anything that existed: whatever its
    result, every entry of the tree is still there with its contents.  It
    answers 0 only when it has created a fresh file of exactly [total_size]
    zero bytes at [path] (and, next to it, nothing but missing parent
    directories), and -2 exactly when something already occupied the path. *)
Theorem file_preallocate_spec fs p n rc fs' :
  0 <= n < 2 ^ 63 ->
  file_preallocate env fs p n = (rc, fs') ->
  (forall q x, fs !! q = Some x -> fs' !! q = Some x) /\
  (forall q x, q <> p -> fs !! q = None -> fs' !! q = Some x -> x = NDir) /\
  (rc = 0 -> fs !! p = None /\ exists f, fs' !! p = Some (NReg f) /\ reg_size f = n /\
     forall i, reg_byte f i = 0) /\
  (rc = -2 <-> is_Some (ensure_parent_dirs_exist env fs p !! p)).
Proof.
  intros Hn E. pose proof (ensure_parent_only_adds fs p) as Ha.
  assert (forall q x, q <> p -> fs !! q = None -> fs' !! q = Some x -> x = NDir) as Hnew.
  { intros q x Hq E1 E2. pose proof (file_preallocate_touches fs p n Hn q Hq) as H. rewrite E in H.
    simpl in H. destruct H as [?|[_ ?]]; congruence. }
  destruct (file_preallocate_shape _ _ _ _ _ Hn E) as [(-> & ? & Hrc)|(Hnone & ? & f & -> & Hf)].
  - split; [intros q x; by apply only_adds_dirs_keeps|]. split; [exact Hnew|]. split; [done|exact Hrc].
  - assert (fs !! p = None) as Hfs by (destruct (Ha p) as [?|[_ ?]]; congruence).
    split; [|split; [exact Hnew|split]].
    + intros q x Hq. rewrite lookup_insert_ne by congruence. by eapply only_adds_dirs_keeps.
    + intros H0. rewrite lookup_insert_eq. destruct (Hf H0) as [? ?]. split; [done|]. by exists f.
    + rewrite Hnone. split; [done|by intros [? ?]].
Qed.

End PosixLemmas.

(** A tree with one directory, in which a file two levels deep is created. *)
Definition demo_fs : filesystem := {[ str "/" := NDir; str "/d" := NDir ]}.

Lemma file_preallocate_spec_witness :
  let r := file_preallocate permissive demo_fs (str "/d/a/f") 5 in
  fst r = 0 /\ snd r !! str "/d/a" = Some NDir /\
  exists f, snd r !! str "/d/a/f" = Some (NReg f) /\ reg_size f = 5 /\
    forall i, reg_byte f i = 0.
Proof.
  intros r. assert (r = (fst r, snd r)) as E by (by destruct r).
  assert (fst r = 0) as E0 by (vm_compute; reflexivity).
  destruct (file_preallocate_spec permissive demo_fs (str "/d/a/f") 5 (fst r) (snd r))
    as (_ & _ & H & _); [lia|exact E|].
  split; [exact E0|]. split; [vm_compute; reflexivity|]. apply H. exact E0.
Defined.

#[export] Hint Resolve only_adds_dirs_refl ensure_parent_only_adds ensure_directory_only_adds : cdm.
