(* ===== verification/Finalize.v ===== *)
(** * Verification of a finished file ([src/engine/finalize.c])

    The size check, the SHA-256 check that reads the file in blocks of 64 KiB,
    and the case-insensitive comparison of digests, on the file system model of
    FileIo.v and the hash of Sha256.v. *)

From S2P Require Import Prelude Sha256 Path FileIo.

Definition HASH_READ_BUF_SIZE : Z := 65536.

(** [if (c >= 'A' && c <= 'Z') c = c - 'A' + 'a']. *)
Definition lower (c : Z) : Z := if (65 <=? c) && (c <=? 90) then c - 65 + 97 else c.

Fixpoint hex_equals_ci (a b : bytes) : bool :=
  match a, b with
  | ca :: a', cb :: b' => if lower ca =? lower cb then hex_equals_ci a' b' else false
  | [], [] => true
  | _, _ => false
  end.

(** The [fread] loop on a stream whose remaining bytes are [s]: the blocks
    handed to [sha256_update], up to the first empty read. *)
Fixpoint read_blocks (fuel : nat) (s : bytes) : list bytes :=
  match fuel with
  | O => []
  | S fuel' =>
      let buf := take (Z.to_nat HASH_READ_BUF_SIZE) s in
      if decide (buf = []) then []
      else buf :: read_blocks fuel' (drop (Z.to_nat HASH_READ_BUF_SIZE) s)
  end.

Section Finalize.

Context (env : IoEnv).

(** [read_error p = Some k]: reading the file at [p] fails after [k] bytes. *)
Context (read_error : bytes -> option Z).

(** Contents of the uninitialised block of the hash context. *)
Context (stack : bytes).

(** [fopen (path, "rb")]: the bytes that can be read and the final [ferror].
    Reading a directory fails at once; so do the nodes that are not files. *)
Definition fopen_rb (fs : filesystem) (path : bytes) : option (bytes * bool) :=
  match stat env fs path with
  | inl _ => None
  | inr (NReg f) =>
      match read_error path with
      | None => Some (reg_content f, false)
      | Some k => Some (take (Z.to_nat k) (reg_content f), true)
      end
  | inr _ => Some ([], true)
  end.

Definition compute_sha256_hex (fs : filesystem) (path : bytes) : option bytes :=
  match fopen_rb fs path with
  | None => None
  | Some (data, ferror) =>
      let ctx := fold_left sha256_update (read_blocks (S (length data)) data)
                           (sha256_init stack) in
      if ferror then None else Some (sha256_to_hex (sha256_final ctx))
  end.

(** 0 is [true], -1 is [false]. *)
Definition engine_finalize (fs : filesystem) (dest_path : bytes) (expected_size : Z)
    (expected_sha256_hex : bytes) : bool :=
  if negb (expected_size =? 0) && negb (file_get_size env fs dest_path =? expected_size) then false
  else if decide (expected_sha256_hex = []) then true
  else match compute_sha256_hex fs dest_path with
       | None => false
       | Some actual_hex => hex_equals_ci actual_hex expected_sha256_hex
       end.

End Finalize.

(** ** Lemmas *)

Lemma hex_equals_ci_spec a b : hex_equals_ci a b = true <-> map lower a = map lower b.
Proof.
  revert b. induction a as [|x a IH]; intros [|y b]; simpl; try done.
  destruct (Z.eqb_spec (lower x) (lower y)) as [->|Hne].
  - rewrite IH. split; [by intros ->|by intros [= ?]].
  - split; [done|]. by intros [= ? ?].
Qed.

Lemma lower_hex_digits h : Forall is_u8 h -> map lower (sha256_to_hex h) = sha256_to_hex h.
Proof.
  assert (forall n, nthZ hex_digits (Z.to_nat (Z.land n 15)) =
                    lower (nthZ hex_digits (Z.to_nat (Z.land n 15)))) as Hd.
  { intros n. change 15 with (Z.ones 4). rewrite Z.land_ones by lia.
    assert (0 <= n mod 2 ^ 4 < 16) as Hr by (apply Z.mod_pos_bound; lia).
    assert (Z.to_nat (n mod 2 ^ 4) < 16)%nat as Hm by lia. revert Hm.
    generalize (Z.to_nat (n mod 2 ^ 4)) as m. intros m Hm.
    do 16 (destruct m as [|m]; [reflexivity|]). lia. }
  induction 1 as [|b h _ _ IH]; [done|]. cbn [sha256_to_hex flat_map app map].
  change (flat_map _ h) with (sha256_to_hex h). by rewrite IH, <- !Hd.
Qed.

Lemma read_blocks_concat fuel s : (length s < fuel)%nat -> concat (read_blocks fuel s) = s.
Proof.
  revert s. induction fuel as [|fuel IH]; intros s Hf; [lia|].
  cbn [read_blocks]. case_decide as Hb.
  - destruct s; [done|]. unfold HASH_READ_BUF_SIZE in Hb.
    rewrite <- (Nat.succ_pred_pos (Z.to_nat 65536)) in Hb by lia. done.
  - cbn [concat]. rewrite IH.
    + by rewrite take_drop.
    + rewrite length_drop. unfold HASH_READ_BUF_SIZE. destruct s; [by destruct Hb|].
      cbn [length] in *. lia.
Qed.

Lemma compute_sha256_hex_spec env rerr stack fs path f :
  length stack = 64%nat -> stat env fs path = inr (NReg f) -> rerr path = None ->
  8 * reg_size f < 2 ^ 64 -> 0 <= reg_size f ->
  compute_sha256_hex env rerr stack fs path = Some (sha256_to_hex (sha256_spec (reg_content f))).
Proof.
  intros Hl Hs Hr Hb H0. unfold compute_sha256_hex, fopen_rb. rewrite Hs, Hr.
  assert (concat (read_blocks (S (length (reg_content f))) (reg_content f)) = reg_content f)
    as Hc by (apply read_blocks_concat; lia).
  rewrite sha256_pieces; rewrite ?Hc; try done. by rewrite length_reg_content.
Qed.

(** What acceptance means, whether or not the contents can be read. *)
Lemma engine_finalize_true env rerr stack fs path f size hex :
  length stack = 64%nat -> stat env fs path = inr (NReg f) -> 0 <= reg_size f ->
  8 * reg_size f < 2 ^ 64 -> engine_finalize env rerr stack fs path size hex = true ->
  (size = 0 \/ size = reg_size f) /\
  (hex = [] \/ map lower hex = sha256_to_hex (sha256_spec (reg_content f))).
Proof.
  intros Hl Hs H0 Hb. unfold engine_finalize, file_get_size. rewrite Hs. cbn [node_size].
  intros Hf. destruct (negb (size =? 0) && negb (reg_size f =? size)) eqn:E; [done|].
  apply andb_false_iff in E as E'. split.
  { destruct E' as [E'|E']; apply negb_false_iff, Z.eqb_eq in E'; auto. }
  case_decide; [by left|]. right.
  destruct (rerr path) as [k|] eqn:Er.
  - unfold compute_sha256_hex, fopen_rb in Hf. by rewrite Hs, Er in Hf.
  - rewrite (compute_sha256_hex_spec _ _ _ _ _ f) in Hf by done.
    by rewrite hex_equals_ci_spec, lower_hex_digits in Hf by apply hash_bytes_u8.
Qed.

(** ** Properties *)

(** On a readable regular file, [engine_finalize] accepts exactly when the
    size matches the expected one (when one is given) and the expected digest
    (when one is given) is, up to the case of its letters, the hexadecimal
    SHA-256 of the file's contents.  On a missing or unreadable file a digest
    is never accepted. *)
Theorem engine_finalize_correct env rerr stack fs path f size hex :
  length stack = 64%nat -> stat env fs path = inr (NReg f) -> 0 <= 8 * reg_size f < 2 ^ 64 ->
  (rerr path = None ->
     engine_finalize env rerr stack fs path size hex = true <->
       (size = 0 \/ size = reg_size f) /\
       (hex = [] \/ map lower hex = sha256_to_hex (sha256_spec (reg_content f)))) /\
  (is_Some (rerr path) -> hex <> [] -> engine_finalize env rerr stack fs path size hex = false).
Proof.
  intros Hl Hs Hb. unfold engine_finalize, file_get_size. rewrite Hs. cbn [node_size].
  split.
  - intros Hr. rewrite (compute_sha256_hex_spec _ _ _ _ _ f) by (done || lia).
    destruct (Z.eqb_spec size 0), (Z.eqb_spec (reg_size f) size); cbn [negb andb];
      try (split; [done|intros [[?|?] _]; congruence]).
    all: case_decide; [by split; auto|].
    all: rewrite hex_equals_ci_spec, lower_hex_digits by apply hash_bytes_u8.
    all: split; [intros ->; auto|intros [_ [?|?]]; congruence].
  - intros [k Hk] Hh. case_bool; [done|]. rewrite decide_False by done.
    unfold compute_sha256_hex, fopen_rb. by rewrite Hs, Hk.
Qed.

Lemma engine_finalize_correct_witness :
  let f := reg_pwrite empty_reg 0 (str "abc") in
  let fs := <[str "/d/x" := NReg f]> demo_fs in
  engine_finalize permissive (fun _ => None) (replicate 64 0) fs (str "/d/x") 3
    (str "BA7816BF8F01CFEA414140DE5DAE2223B00361A396177A9CB410FF61F20015AD") = true /\
  engine_finalize permissive (fun _ => None) (replicate 64 0) fs (str "/d/x") 4 [] = false.
Proof.
  intros f fs.
  assert (stat permissive fs (str "/d/x") = inr (NReg f)) as Hs by (vm_compute; reflexivity).
  assert (map lower (str "BA7816BF8F01CFEA414140DE5DAE2223B00361A396177A9CB410FF61F20015AD") =
          sha256_to_hex (sha256_spec (reg_content f))) as Hh by (vm_compute; reflexivity).
  assert (reg_size f = 3) as Hz by (vm_compute; reflexivity).
  split.
  - apply (engine_finalize_correct permissive (fun _ => None) (replicate 64 0) fs (str "/d/x") f 3);
      [reflexivity|exact Hs|rewrite Hz; lia|reflexivity|].
    split; [right; by rewrite Hz|right; exact Hh].
  - vm_compute; reflexivity.
Defined.
