(* ===== verification/Bandwidth.v ===== *)
(** * The global bandwidth limiter ([src/platform/bandwidth.c])

    A token bucket in an atomic integer, refilled by the daemon thread and
    drained by the workers with compare-and-swap loops.  The two routines are
    cut at their atomic accesses; the step relation interleaves one refilling
    thread with any number of acquiring ones. *)

From S2P Require Import Prelude.

Definition BUCKET_FRACTION_MS : Z := 500.

(** ** bandwidth_tick *)

(** Local state of the refilling thread between two atomic accesses. *)
Inductive tick_pc :=
| TkIdle
| TkLoop (add max_bucket : Z)
| TkLoaded (add max_bucket old_tokens : Z).

#[global] Instance tick_pc_eq_dec : EqDecision tick_pc.
Proof. solve_decision. Defined.

(** From the entry of [bandwidth_tick] to its loop: the new
    [g_last_refill_ms] and the local state. *)
Definition tick_enter (cap now last : Z) : Z * tick_pc :=
  if cap =? 0 then (last, TkIdle)
  else if last =? 0 then (now, TkIdle)
  else
    let elapsed_ms := u64 (now - last) in
    if elapsed_ms =? 0 then (last, TkIdle)
    else
      let add := i64 (u64 (cap * elapsed_ms) / 1000) in
      let max_bucket := i64 (u64 (cap * BUCKET_FRACTION_MS) / 1000) in
      (now, TkLoop add (if max_bucket <? 1 then 1 else max_bucket)).

(** One atomic access of the loop; [weak] is a spurious failure of
    [atomic_compare_exchange_weak]. *)
Definition tick_step (weak : bool) (tokens : Z) (pc : tick_pc) : Z * tick_pc :=
  match pc with
  | TkIdle => (tokens, TkIdle)
  | TkLoop add max_bucket => (tokens, TkLoaded add max_bucket tokens)
  | TkLoaded add max_bucket old_tokens =>
      let new_tokens := i64 (old_tokens + add) in
      let new_tokens := if max_bucket <? new_tokens then max_bucket else new_tokens in
      if (tokens =? old_tokens) && negb weak then (new_tokens, TkIdle)
      else (tokens, TkLoop add max_bucket)
  end.

(** ** bandwidth_acquire *)

Inductive acq_pc :=
| AqLoop (remaining : Z)
| AqLoaded (remaining old_tokens : Z)
| AqDone (ok : bool) (remaining : Z).

Definition acq_enter (cap nbytes : Z) : acq_pc :=
  if cap =? 0 then AqDone true nbytes else AqLoop nbytes.

(** One turn up to the next atomic access; [stop] is the value of the flag
    test, and a bucket without tokens sleeps and starts the turn again. *)
Definition acq_step (stop weak : bool) (tokens : Z) (pc : acq_pc) : Z * acq_pc :=
  match pc with
  | AqLoop remaining =>
      if negb (0 <? remaining) then (tokens, AqDone true remaining)
      else if stop then (tokens, AqDone false remaining)
      else if tokens <=? 0 then (tokens, AqLoop remaining)
      else (tokens, AqLoaded remaining tokens)
  | AqLoaded remaining old_tokens =>
      let taken := if u64 old_tokens <? remaining then u64 old_tokens else remaining in
      let new_tokens := i64 (old_tokens - i64 taken) in
      if (tokens =? old_tokens) && negb weak then (new_tokens, AqLoop (u64 (remaining - taken)))
      else (tokens, AqLoop remaining)
  | AqDone ok remaining => (tokens, AqDone ok remaining)
  end.

(** ** Interleavings *)

(** A call of [bandwidth_acquire] that found the cap enabled. *)
Record Acquire := mkAcquire { aq_bytes : Z; aq_pc : acq_pc }.

(** [bw_budget] is a ghost: the sum over the refills of cap * elapsed
    milliseconds, i.e. thousandths of the bytes the configured rate allows. *)
Record Bucket := mkBucket {
  g_tokens : Z;
  g_last_refill_ms : Z;
  bw_tick : tick_pc;
  bw_acqs : list Acquire;
  bw_budget : Z;
}.

Definition bw_init : Bucket := mkBucket 0 0 TkIdle [] 0.

Inductive bw_step : Bucket -> Bucket -> Prop :=
| bw_tick_enter b cap now :
    is_u64 cap -> is_u64 now -> bw_tick b = TkIdle ->
    let r := tick_enter cap now (g_last_refill_ms b) in
    bw_step b (mkBucket (g_tokens b) (fst r) (snd r) (bw_acqs b)
                 (bw_budget b + if decide (snd r = TkIdle) then 0
                                else cap * u64 (now - g_last_refill_ms b)))
| bw_tick_step b weak :
    let r := tick_step weak (g_tokens b) (bw_tick b) in
    bw_step b (mkBucket (fst r) (g_last_refill_ms b) (snd r) (bw_acqs b) (bw_budget b))
| bw_acquire_enter b cap nbytes :
    is_u64 cap -> is_u64 nbytes -> cap <> 0 ->
    bw_step b (mkBucket (g_tokens b) (g_last_refill_ms b) (bw_tick b)
                 (bw_acqs b ++ [mkAcquire nbytes (acq_enter cap nbytes)]) (bw_budget b))
| bw_acquire_step b i a stop weak :
    bw_acqs b !! i = Some a ->
    let r := acq_step stop weak (g_tokens b) (aq_pc a) in
    bw_step b (mkBucket (fst r) (g_last_refill_ms b) (bw_tick b)
                 (<[i := mkAcquire (aq_bytes a) (snd r)]> (bw_acqs b)) (bw_budget b)).

(** ** Invariant *)

Definition acq_remaining (pc : acq_pc) : Z :=
  match pc with AqLoop r | AqLoaded r _ | AqDone _ r => r end.

(** Bytes a call has been granted so far. *)
Definition granted (a : Acquire) : Z := aq_bytes a - acq_remaining (aq_pc a).

(** No refill or bucket exceeds this many tokens: the products are 64-bit. *)
Definition TOKEN_MAX : Z := 2 ^ 64 / 1000.

Definition tick_pending (pc : tick_pc) : Z :=
  match pc with TkIdle => 0 | TkLoop add _ | TkLoaded add _ _ => add end.

Definition tick_ok (pc : tick_pc) : Prop :=
  match pc with
  | TkIdle => True
  | TkLoop add m => 0 <= add <= TOKEN_MAX /\ 0 < m <= TOKEN_MAX
  | TkLoaded add m old => 0 <= add <= TOKEN_MAX /\ 0 < m <= TOKEN_MAX /\ 0 <= old <= TOKEN_MAX
  end.

Definition acq_ok (a : Acquire) : Prop :=
  is_u64 (aq_bytes a) /\ 0 <= acq_remaining (aq_pc a) <= aq_bytes a /\
  match aq_pc a with
  | AqLoop _ => True
  | AqLoaded r old => 0 < r /\ 0 < old <= TOKEN_MAX
  | AqDone ok r => ok = true -> r = 0
  end.

Record bw_inv (b : Bucket) : Prop := {
  bi_tokens : 0 <= g_tokens b <= TOKEN_MAX;
  bi_tick : tick_ok (bw_tick b);
  bi_acqs : Forall acq_ok (bw_acqs b);
  bi_budget : 1000 * (sumZ granted (bw_acqs b) + g_tokens b + tick_pending (bw_tick b)) <= bw_budget b;
}.

Lemma TOKEN_MAX_val : TOKEN_MAX = 18446744073709551. Proof. reflexivity. Qed.

Ltac tlia := rewrite ?TOKEN_MAX_val in *; zlia.

Lemma refill_bounds x : 0 <= x -> 0 <= i64 (u64 x / 1000) <= TOKEN_MAX /\ 1000 * i64 (u64 x / 1000) <= x.
Proof.
  intros Hx. pose proof (u64_range x) as Hr.
  assert (u64 x <= x) as Hle by (unfold wrap; apply Z.mod_le; lia).
  pose proof (Z.mul_div_le (u64 x) 1000 ltac:(lia)).
  assert (0 <= u64 x / 1000) by (apply Z.div_pos; lia).
  assert (u64 x / 1000 <= TOKEN_MAX) by (apply Z.div_le_mono; lia).
  rewrite i64_small by tlia. lia.
Qed.

Lemma tick_enter_ok cap now last :
  is_u64 cap -> tick_ok (snd (tick_enter cap now last)) /\
  1000 * tick_pending (snd (tick_enter cap now last)) <=
    (if decide (snd (tick_enter cap now last) = TkIdle) then 0 else cap * u64 (now - last)).
Proof.
  intros Hc. unfold tick_enter. assert (forall l : Z, tick_ok (snd (l, TkIdle)) /\
    1000 * tick_pending (snd (l, TkIdle)) <=
      (if decide (snd (l, TkIdle) = TkIdle) then 0 else cap * u64 (now - last))) as Hidle.
  { intros l. cbn [snd tick_ok tick_pending]. rewrite decide_True by done. split; [done|lia]. }
  destruct (cap =? 0); [apply Hidle|]. destruct (last =? 0); [apply Hidle|].
  destruct (u64 (now - last) =? 0); [apply Hidle|]. clear Hidle.
  cbn [fst snd tick_ok tick_pending]. rewrite decide_False by done.
  all: pose proof (u64_range (now - last)).
  all: destruct (refill_bounds (cap * u64 (now - last))) as [? ?]; [zpow; nia|].
  all: destruct (refill_bounds (cap * BUCKET_FRACTION_MS)) as [? ?];
         [unfold BUCKET_FRACTION_MS; zpow; lia|].
  split; [split; [done|]|done]. case_bool; breflect; tlia.
Qed.

Lemma tick_step_ok weak t pc :
  0 <= t <= TOKEN_MAX -> tick_ok pc ->
  let r := tick_step weak t pc in
  0 <= fst r <= TOKEN_MAX /\ tick_ok (snd r) /\
  fst r + tick_pending (snd r) <= t + tick_pending pc.
Proof.
  intros Ht Hok. destruct pc as [|add m|add m old]; simpl in *; [lia|lia|].
  destruct Hok as (? & ? & ?). destruct ((t =? old) && negb weak) eqn:E; breflect; simpl; [|lia].
  rewrite i64_small by tlia. destruct (Z.ltb_spec m (old + add)); lia.
Qed.

Lemma acq_step_ok stop weak t n pc :
  0 <= t <= TOKEN_MAX -> acq_ok (mkAcquire n pc) ->
  let r := acq_step stop weak t pc in
  0 <= fst r <= TOKEN_MAX /\ acq_ok (mkAcquire n (snd r)) /\
  fst r - acq_remaining (snd r) = t - acq_remaining pc.
Proof.
  unfold acq_ok. simpl. intros Ht (Hn & Hr & Hok).
  destruct pc as [r|r old|ok r]; simpl in *; [| |split_and!; first [done|lia]].
  - repeat case_bool; breflect; simpl; repeat split; try zlia; try done.
  - destruct Hok as [Hr0 Hold]. rewrite (u64_small old) by tlia.
    set (taken := if old <? r then old else r).
    assert (0 < taken <= r /\ taken <= old) as [? ?] by (unfold taken; case_bool; breflect; lia).
    destruct ((t =? old) && negb weak) eqn:E; breflect; simpl;
      [|split_and!; first [done|lia]].
    rewrite (i64_small taken) by tlia. rewrite i64_small by tlia.
    rewrite u64_small by zlia. split_and!; first [done|lia|tlia].
Qed.

Lemma bw_inv_init : bw_inv bw_init.
Proof. split; simpl; try done; tlia. Qed.

Lemma bw_inv_step b b' : bw_inv b -> bw_step b b' -> bw_inv b'.
Proof.
  intros [Ht Hk Ha Hb] Hs. destruct Hs.
  - destruct (tick_enter_ok cap now (g_last_refill_ms b)) as [? ?]; [done|].
    split; simpl; try done. rewrite H1 in Hb. cbn [tick_pending] in Hb. subst r. lia.
  - destruct (tick_step_ok weak (g_tokens b) (bw_tick b)) as (? & ? & ?); [done|done|].
    split; simpl; try done. subst r. lia.
  - split; simpl; try done.
    + apply Forall_app. split; [done|]. apply Forall_singleton. unfold acq_ok, acq_enter.
      rewrite (proj2 (Z.eqb_neq _ _)) by done. simpl. repeat split; zlia.
    + rewrite sumZ_app. simpl. unfold granted at 2, acq_enter.
      rewrite (proj2 (Z.eqb_neq _ _)) by done. simpl. lia.
  - pose proof (proj1 (Forall_lookup _ _) Ha i a H) as Hai. destruct a as [n pc].
    destruct (acq_step_ok stop weak (g_tokens b) n pc) as (? & ? & ?); [done|done|].
    split; simpl in *; try done.
    + by apply Forall_insert.
    + rewrite (sumZ_insert _ _ _ _ _ H). unfold granted at 2 3. simpl. subst r. lia.
Qed.

(** ** Properties *)

(** C35. Whatever the interleaving of refills and acquisitions, the spurious
    failures of the weak compare-and-swap, the changes of the cap and the
    wrap-around of the 64-bit products: the bucket is never negative and never
    above 2^64/1000 (so the signed additions cannot overflow), a call that
    returned true has been granted exactly the bytes it asked for, no call is
    granted more than that, and a thousand times the bytes granted to all
    calls never exceed the sum of cap * elapsed milliseconds. *)
Theorem bandwidth_respects_cap b :
  rtc bw_step bw_init b ->
  0 <= g_tokens b <= 2 ^ 64 / 1000 /\
  (forall i a, bw_acqs b !! i = Some a ->
     0 <= granted a <= aq_bytes a /\ (forall r, aq_pc a = AqDone true r -> granted a = aq_bytes a)) /\
  1000 * sumZ granted (bw_acqs b) <= bw_budget b.
Proof.
  intros Hr. destruct (rtc_invariant _ bw_inv _ _ bw_inv_step bw_inv_init Hr) as [Ht Hk Ha Hb].
  split; [done|]. split.
  - intros i a Hi. pose proof (proj1 (Forall_lookup _ _) Ha i a Hi) as (? & ? & Hpc).
    unfold granted. split; [lia|]. intros r Hd. rewrite Hd in *. simpl in *. rewrite Hpc by done. lia.
  - assert (0 <= tick_pending (bw_tick b)) by (destruct (bw_tick b); simpl in *; lia). lia.
Qed.

(** One refill of 200 ms at 1000 bytes/s, then a call for 150 bytes. *)
Lemma bandwidth_respects_cap_witness :
  let b := mkBucket 50 210 TkIdle [mkAcquire 150 (AqLoop 0)] 200000 in
  rtc bw_step bw_init b /\ sumZ granted (bw_acqs b) = 150 /\
  1000 * sumZ granted (bw_acqs b) <= bw_budget b.
Proof.
  intros b. assert (rtc bw_step bw_init b) as Hr.
  { eapply rtc_l; [apply (bw_tick_enter bw_init 1000 10); [zlia|zlia|reflexivity]|].
    eapply rtc_l; [eapply (bw_tick_enter _ 1000 210); [zlia|zlia|reflexivity]|].
    eapply rtc_l; [apply (bw_tick_step _ false)|].
    eapply rtc_l; [apply (bw_tick_step _ false)|].
    eapply rtc_l; [apply (bw_acquire_enter _ 1000 150); [zlia|zlia|done]|].
    eapply rtc_l; [apply (bw_acquire_step _ 0 (mkAcquire 150 (AqLoop 150)) false false); reflexivity|].
    eapply rtc_l; [apply (bw_acquire_step _ 0 (mkAcquire 150 (AqLoaded 150 200)) false false); reflexivity|].
    vm_compute. apply rtc_refl. }
  split; [exact Hr|]. split; [vm_compute; reflexivity|].
  apply (bandwidth_respects_cap _ Hr).
Defined.
