(* ===== verification/QueueManager.v ===== *)
(** * The download queue ([src/core/queue_manager.c], [queue_manager.h])

    The linked list of downloads as a list (head first) and the id counter.
    Every public function runs under the queue mutex, so each is one atomic
    transition here; [queue_manager_find_next_queued] is called with the mutex
    held.  Reading a [Download] through a pointer kept outside the mutex is
    modelled by its id. *)

From S2P Require Import Prelude Path FileIo.

#[local] Set Warnings "-clear-no-such-hyp".

Definition QM_MAX_CHUNKS : Z := 8.

(** ** Data *)

Record RequestOptions := mkOpts {
  cookie : bytes;            (* char[1024] *)
  referrer : bytes;          (* char[2048] *)
  extra_headers : bytes;     (* char[4096] *)
  expected_sha256 : bytes;   (* char[65] *)
  speed_limit_bps : Z;       (* uint64_t *)
}.

Record DownloadChunk := mkChunk {
  range_start : Z;
  range_end : Z;             (* inclusive *)
  bytes_done : Z;
}.

Inductive DownloadStatus :=
| DOWNLOAD_QUEUED | DOWNLOAD_ACTIVE | DOWNLOAD_PAUSED
| DOWNLOAD_DONE | DOWNLOAD_ERROR | DOWNLOAD_CANCELED.

#[global] Instance DownloadStatus_eq_dec : EqDecision DownloadStatus.
Proof. solve_decision. Defined.

(** [progress] is a float in C that only ever holds 0.  [d_chunks] is the used
    part of [chunks[8]] (its first [chunk_count] elements); [chunk_live_bytes]
    always has 8 elements. *)
Record Download := mkDownload {
  d_id : Z;
  d_url : bytes;
  d_dest_path : bytes;
  d_total_size : Z;
  d_status : DownloadStatus;
  d_priority : Z;
  d_progress : Z;
  d_cancel_requested : bool;
  d_pause_requested : bool;
  d_bytes_downloaded : Z;
  d_chunk_live_bytes : list Z;
  d_chunks : list DownloadChunk;
  d_reserved_file : bool;
  d_retry_count : Z;
  d_next_retry_at : Z;
  d_request : option RequestOptions;
}.

Definition d_chunk_count (d : Download) : Z := Z.of_nat (length (d_chunks d)).

(** [calloc (1, sizeof (Download))]. *)
Definition zero_download : Download :=
  mkDownload 0 [] [] 0 DOWNLOAD_QUEUED 0 0 false false 0 (replicate 8 0) [] false 0 0 None.

(** Field updates. *)
Definition set_status (s : DownloadStatus) (d : Download) : Download :=
  mkDownload (d_id d) (d_url d) (d_dest_path d) (d_total_size d) s (d_priority d) (d_progress d)
    (d_cancel_requested d) (d_pause_requested d) (d_bytes_downloaded d) (d_chunk_live_bytes d)
    (d_chunks d) (d_reserved_file d) (d_retry_count d) (d_next_retry_at d) (d_request d).

Definition set_flags (cancel pause : bool) (d : Download) : Download :=
  mkDownload (d_id d) (d_url d) (d_dest_path d) (d_total_size d) (d_status d) (d_priority d)
    (d_progress d) cancel pause (d_bytes_downloaded d) (d_chunk_live_bytes d)
    (d_chunks d) (d_reserved_file d) (d_retry_count d) (d_next_retry_at d) (d_request d).

Definition set_retry (count next_at : Z) (d : Download) : Download :=
  mkDownload (d_id d) (d_url d) (d_dest_path d) (d_total_size d) (d_status d) (d_priority d)
    (d_progress d) (d_cancel_requested d) (d_pause_requested d) (d_bytes_downloaded d)
    (d_chunk_live_bytes d) (d_chunks d) (d_reserved_file d) count next_at (d_request d).

Definition set_transfer (total bytes_dl : Z) (live : list Z) (chunks : list DownloadChunk)
    (d : Download) : Download :=
  mkDownload (d_id d) (d_url d) (d_dest_path d) total (d_status d) (d_priority d)
    (d_progress d) (d_cancel_requested d) (d_pause_requested d) bytes_dl
    live chunks (d_reserved_file d) (d_retry_count d) (d_next_retry_at d) (d_request d).

Definition set_progress (p : Z) (d : Download) : Download :=
  mkDownload (d_id d) (d_url d) (d_dest_path d) (d_total_size d) (d_status d) (d_priority d)
    p (d_cancel_requested d) (d_pause_requested d) (d_bytes_downloaded d)
    (d_chunk_live_bytes d) (d_chunks d) (d_reserved_file d) (d_retry_count d) (d_next_retry_at d)
    (d_request d).

Definition set_reserved (b : bool) (d : Download) : Download :=
  mkDownload (d_id d) (d_url d) (d_dest_path d) (d_total_size d) (d_status d) (d_priority d)
    (d_progress d) (d_cancel_requested d) (d_pause_requested d) (d_bytes_downloaded d)
    (d_chunk_live_bytes d) (d_chunks d) b (d_retry_count d) (d_next_retry_at d) (d_request d).

(** ** is_safe_dest_path *)

Section SafePath.

(** [realpath], and the two environment variables the function consults. *)
Context (realpath : bytes -> errno + bytes).
Context (env_root env_home : option bytes).

Definition get_allowed_root : bytes :=
  match env_root with
  | Some r => r
  | None => match env_home with Some h => h | None => str "/tmp" end
  end.

(** The loop over parents: [None] is a rejection. *)
Fixpoint resolve_dir (fuel : nat) (temp_dir : bytes) : option bytes :=
  match fuel with
  | O => None
  | S fuel' =>
      match realpath temp_dir with
      | inr resolved => Some resolved
      | inl e =>
          if negb (bool_decide (e = ENOENT)) then None
          else
            let '(temp_dir', p) := dirname_call temp_dir in
            let parent := deref temp_dir' p in
            if streq parent temp_dir' || streq parent (str ".") || streq parent (str "/") then None
            else resolve_dir fuel' (strlcpy 1024 (strlcpy 1024 parent))
      end
  end.

Definition is_safe_dest_path (path : bytes) : bool :=
  if bool_decide (path = []) || (900 <=? strlen path) then false
  else
    let temp_dir := strlcpy 1024 (dirname (strlcpy 1024 path)) in
    match resolve_dir 1024 temp_dir with
    | None => false
    | Some resolved_dir =>
        match realpath get_allowed_root with
        | inl _ => false
        | inr resolved_root =>
            if negb (strprefix resolved_root resolved_dir) then false
            else
              let after := resolved_dir !! length resolved_root in
              if negb (bool_decide (after = None \/ after = Some CH_SLASH)) then false
              else
                let base := basename (strlcpy 1024 path) in
                negb (bool_decide (CH_SLASH ∈ base) || streq base (str "..")
                      || streq base (str "."))
        end
    end.

End SafePath.

(** ** Queue state and operations *)

Record QM := mkQM { g_head : list Download; g_next_id : Z }.

Definition qm_init : QM := mkQM [] 1.

Definition request_options_present (opts : option RequestOptions) : bool :=
  match opts with
  | None => false
  | Some o =>
      negb (bool_decide (cookie o = [])) || negb (bool_decide (referrer o = [])) ||
      negb (bool_decide (extra_headers o = [])) || negb (bool_decide (expected_sha256 o = [])) ||
      negb (speed_limit_bps o =? 0)
  end.

(** The update loops: the first entry with this id, then [break]. *)
Fixpoint modify_first (id : Z) (f : Download -> Download) (l : list Download) : list Download :=
  match l with
  | [] => []
  | d :: l' => if d_id d =? id then f d :: l' else d :: modify_first id f l'
  end.

Fixpoint find_first (id : Z) (l : list Download) : option Download :=
  match l with
  | [] => None
  | d :: l' => if d_id d =? id then Some d else find_first id l'
  end.

Definition qm_modify (id : Z) (f : Download -> Download) (q : QM) : QM :=
  mkQM (modify_first id f (g_head q)) (g_next_id q).

(** [safe] is the verdict of [is_safe_dest_path], [alloc_d] and [alloc_r] tell
    whether the two allocations succeed. *)
Definition queue_manager_add (safe : bytes -> bool) (alloc_d alloc_r : bool)
    (url dest_path : bytes) (opts : option RequestOptions) (q : QM) : Z * QM :=
  if negb (safe dest_path) then (0, q)
  else if negb alloc_d then (0, q)
  else
    let present := request_options_present opts in
    if present && negb alloc_r then (0, q)
    else
      let id := g_next_id q in
      let d := mkDownload id (strlcpy 2048 url) (strlcpy 1024 dest_path) 0 DOWNLOAD_QUEUED 0 0
                 false false 0 (replicate 8 0) [] false 0 0 (if present then opts else None) in
      (id, mkQM (d :: g_head q) (id +32 1)%cdm).

Definition queue_manager_add_existing (d : Download) (q : QM) : QM :=
  let next := if g_next_id q <=? d_id d then (d_id d +32 1)%cdm else g_next_id q in
  mkQM (d :: g_head q) next.

Definition queue_manager_seed_next_id (min_next_id : Z) (q : QM) : QM :=
  mkQM (g_head q) (if g_next_id q <? min_next_id then min_next_id else g_next_id q).

Section Remove.

Context (env : IoEnv).

Fixpoint remove_loop (id : Z) (l : list Download) (fs : filesystem)
    : list Download * filesystem :=
  match l with
  | [] => ([], fs)
  | cur :: l' =>
      if d_id cur =? id then
        if decide (d_status cur = DOWNLOAD_ACTIVE) then
          (set_flags true (d_pause_requested cur) cur :: l', fs)
        else (l', if decide (d_dest_path cur = []) then fs else unlink env fs (d_dest_path cur))
      else
        let '(r, fs') := remove_loop id l' fs in (cur :: r, fs')
  end.

Definition queue_manager_remove (id : Z) (q : QM) (fs : filesystem) : QM * filesystem :=
  let '(l, fs') := remove_loop id (g_head q) fs in (mkQM l (g_next_id q), fs').

End Remove.

Definition queue_manager_find_by_id (id : Z) (q : QM) : option Download :=
  find_first id (g_head q).

(** Not yet due: [next_retry_at != 0 && next_retry_at > now]. *)
Definition in_backoff (now : Z) (d : Download) : bool :=
  negb (d_next_retry_at d =? 0) && (now <? d_next_retry_at d).

Fixpoint find_next_loop (now : Z) (best : option Download) (l : list Download)
    : option Download :=
  match l with
  | [] => best
  | cur :: l' =>
      if negb (bool_decide (d_status cur = DOWNLOAD_QUEUED)) then find_next_loop now best l'
      else if in_backoff now cur then find_next_loop now best l'
      else
        match best with
        | None => find_next_loop now (Some cur) l'
        | Some b =>
            if d_priority b <? d_priority cur then find_next_loop now (Some cur) l'
            else find_next_loop now best l'
        end
  end.

Definition queue_manager_find_next_queued (now : Z) (q : QM) : option Download :=
  find_next_loop now None (g_head q).

Fixpoint count_loop (s : DownloadStatus) (count : Z) (l : list Download) : Z :=
  match l with
  | [] => count
  | cur :: l' => count_loop s (if decide (d_status cur = s) then count + 1 else count) l'
  end.

Definition queue_manager_count_by_status (s : DownloadStatus) (q : QM) : Z :=
  count_loop s 0 (g_head q).

Definition queue_manager_get_status (id : Z) (q : QM) : option DownloadStatus :=
  d_status <$> find_first id (g_head q).

Record DownloadRuntimeSnapshot := mkRuntime {
  rs_status : DownloadStatus;
  rs_total_size : Z;
  rs_bytes_downloaded : Z;
  rs_dest_path : bytes;
  rs_chunks : list DownloadChunk;
}.

Definition queue_manager_get_runtime_snapshot (id : Z) (q : QM) : option DownloadRuntimeSnapshot :=
  (fun cur => mkRuntime (d_status cur) (d_total_size cur) (d_bytes_downloaded cur)
                (d_dest_path cur) (take (Z.to_nat QM_MAX_CHUNKS) (d_chunks cur)))
  <$> find_first id (g_head q).

Record DownloadProgressSnapshot := mkProg { ps_id : Z; ps_bytes : Z; ps_total : Z }.

(** The loops with their bound [n < max] on the output. *)
Fixpoint snapshot_active_loop (max : nat) (l : list Download) : list DownloadProgressSnapshot :=
  match max, l with
  | S max', cur :: l' =>
      if decide (d_status cur = DOWNLOAD_ACTIVE) then
        mkProg (d_id cur) (d_bytes_downloaded cur) (d_total_size cur) ::
          snapshot_active_loop max' l'
      else snapshot_active_loop max l'
  | _, _ => []
  end.

Definition queue_manager_snapshot_active_progress (max : nat) (q : QM)
    : list DownloadProgressSnapshot := snapshot_active_loop max (g_head q).

Record ChunkProgressSnapshot := mkChunkProg {
  cp_download_id : Z; cp_range_start : Z; cp_bytes_done : Z }.

Definition chunk_snapshots (cur : Download) : list ChunkProgressSnapshot :=
  zip_with (fun c live => mkChunkProg (d_id cur) (range_start c) live)
           (d_chunks cur) (d_chunk_live_bytes cur).

Fixpoint snapshot_chunk_loop (max : nat) (l : list Download) : list ChunkProgressSnapshot :=
  match l with
  | [] => []
  | cur :: l' =>
      if decide (d_status cur = DOWNLOAD_ACTIVE) then
        let out := take max (chunk_snapshots cur) in
        out ++ snapshot_chunk_loop (max - length out) l'
      else snapshot_chunk_loop max l'
  end.

Definition queue_manager_snapshot_chunk_progress (max : nat) (q : QM)
    : list ChunkProgressSnapshot := snapshot_chunk_loop max (g_head q).

Definition queue_manager_update_status (id : Z) (new_status : DownloadStatus) (q : QM) : QM :=
  qm_modify id (set_status new_status) q.

(** The functions below answer [was_active] or [resumed] with the new state. *)
Definition cancel_entry (d : Download) : Download :=
  if decide (d_status d = DOWNLOAD_ACTIVE) then set_flags true (d_pause_requested d) d
  else set_status DOWNLOAD_CANCELED d.

Definition is_active (id : Z) (q : QM) : bool :=
  match find_first id (g_head q) with
  | Some d => bool_decide (d_status d = DOWNLOAD_ACTIVE)
  | None => false
  end.

Definition queue_manager_cancel (id : Z) (q : QM) : bool * QM :=
  (is_active id q, qm_modify id cancel_entry q).

Definition clear_entry (d : Download) : Download :=
  set_retry 0 0 (set_progress 0 (set_transfer 0 0 (replicate 8 0) [] d)).

Definition queue_manager_clear_resume_state (id : Z) (q : QM) : QM := qm_modify id clear_entry q.

Definition pause_entry (d : Download) : Download :=
  match d_status d with
  | DOWNLOAD_ACTIVE => set_flags (d_cancel_requested d) true d
  | DOWNLOAD_QUEUED => set_status DOWNLOAD_PAUSED d
  | _ => d
  end.

Definition queue_manager_pause (id : Z) (q : QM) : bool * QM :=
  (is_active id q, qm_modify id pause_entry q).

Definition resumable (d : Download) : bool :=
  bool_decide (d_status d = DOWNLOAD_PAUSED \/ d_status d = DOWNLOAD_ERROR).

Definition resume_entry (d : Download) : Download :=
  if resumable d then set_status DOWNLOAD_QUEUED (set_retry 0 0 (set_flags false false d)) else d.

Definition queue_manager_resume (id : Z) (q : QM) : bool * QM :=
  (match find_first id (g_head q) with Some d => resumable d | None => false end,
   qm_modify id resume_entry q).

(** ** Lemmas *)

Lemma resolve_dir_one realpath n t :
  resolve_dir realpath (S n) t =
    match realpath t with inr r => Some r | inl _ => None end.
Proof.
  cbn [resolve_dir]. destruct (realpath t) as [e|r]; [|done].
  case_bool; [done|]. pose proof (dirname_aliases t) as Ha.
  destruct (dirname_call t) as [t' p]. by rewrite Ha.
Qed.

Lemma resolve_dir_some realpath fuel t :
  (0 < fuel)%nat ->
  resolve_dir realpath fuel t = match realpath t with inr r => Some r | inl _ => None end.
Proof. destruct fuel; [lia|]. intros _. apply resolve_dir_one. Qed.

Definition ids (l : list Download) : list Z := map d_id l.

Lemma find_first_Some id l d :
  find_first id l = Some d -> d ∈ l /\ d_id d = id.
Proof.
  induction l as [|x l IH]; simpl; [done|]. destruct (Z.eqb_spec (d_id x) id).
  - intros [= <-]. split; [by left|done].
  - intros [? ?]%IH. split; [by right|done].
Qed.

Lemma find_first_None id l : find_first id l = None <-> id ∉ ids l.
Proof.
  induction l as [|x l IH]; simpl; [split; [intros _; apply not_elem_of_nil|done]|].
  rewrite not_elem_of_cons. destruct (Z.eqb_spec (d_id x) id) as [->|].
  - split; [done|tauto].
  - rewrite IH. split; [intros ?; split; congruence|tauto].
Qed.

(** In a list without duplicate ids every member is the one its id finds. *)
Lemma find_first_elem l d : NoDup (ids l) -> d ∈ l -> find_first (d_id d) l = Some d.
Proof.
  induction l as [|x l IH]; intros Hn; [by intros ?%not_elem_of_nil|].
  simpl in Hn. apply NoDup_cons in Hn as [Hx Hn]. intros [->|Hd]%elem_of_cons; simpl.
  - by rewrite Z.eqb_refl.
  - destruct (Z.eqb_spec (d_id x) (d_id d)) as [E|]; [|by apply IH].
    destruct Hx. rewrite E. by apply list_elem_of_fmap_2.
Qed.

(** The update loops keep the ids, change the entry found and nothing else. *)
Definition keeps_id (f : Download -> Download) : Prop := forall d, d_id (f d) = d_id d.

Lemma modify_first_ids id f l : keeps_id f -> ids (modify_first id f l) = ids l.
Proof.
  intros Hf. induction l as [|x l IH]; simpl; [done|].
  destruct (d_id x =? id); simpl; [by rewrite Hf|by rewrite IH].
Qed.

Lemma find_first_modify id id' f l :
  keeps_id f ->
  find_first id' (modify_first id f l) =
    (if decide (id' = id) then f <$> find_first id l else find_first id' l).
Proof.
  intros Hf. induction l as [|x l IH]; simpl; [by case_decide|].
  destruct (Z.eqb_spec (d_id x) id) as [E|E]; simpl; rewrite ?Hf.
  - case_decide as Hd; [subst; by rewrite Z.eqb_refl|].
    rewrite (proj2 (Z.eqb_neq (d_id x) id')); congruence.
  - destruct (Z.eqb_spec (d_id x) id') as [E'|E']; [|done].
    rewrite decide_False by congruence. done.
Qed.

Lemma modify_first_compose id f g l :
  keeps_id g -> modify_first id f (modify_first id g l) = modify_first id (fun d => f (g d)) l.
Proof.
  intros Hg. induction l as [|x l IH]; [done|]. cbn [modify_first].
  destruct (d_id x =? id) eqn:E; cbn [modify_first]; [by rewrite Hg, E|by rewrite E, IH].
Qed.

Lemma qm_modify_compose id f g q :
  keeps_id g -> qm_modify id f (qm_modify id g q) = qm_modify id (fun d => f (g d)) q.
Proof. intros Hg. unfold qm_modify. simpl. by rewrite modify_first_compose. Qed.

Lemma modify_first_ext id f g l :
  (forall d, d_id d = id -> f d = g d) -> modify_first id f l = modify_first id g l.
Proof.
  intros H. induction l as [|x l IH]; [done|]. cbn [modify_first].
  destruct (Z.eqb_spec (d_id x) id) as [E|E]; [by rewrite H|by rewrite IH].
Qed.

Lemma modify_first_at id f g l d :
  find_first id l = Some d -> f d = g d -> modify_first id f l = modify_first id g l.
Proof.
  intros Hd E. induction l as [|x l IH]; [done|]. cbn [modify_first find_first] in *.
  destruct (d_id x =? id); [|by rewrite IH]. injection Hd as ->. by rewrite E.
Qed.

Lemma modify_first_id id l : modify_first id (fun d => d) l = l.
Proof. induction l as [|x l IH]; [done|]. cbn [modify_first]. rewrite IH. by case_match. Qed.

(** Which entries are active, after an update. *)
Definition activep (d : Download) : Prop := d_status d = DOWNLOAD_ACTIVE.

#[global] Instance activep_dec d : Decision (activep d).
Proof. unfold activep. apply _. Defined.

#[global] Typeclasses Opaque activep.

Lemma active_modify_le id f l :
  (forall d, activep (f d) -> activep d) ->
  (length (filter activep (modify_first id f l)) <= length (filter activep l))%nat.
Proof.
  intros Hf. induction l as [|x l IH]; [done|]. cbn [modify_first].
  destruct (d_id x =? id); rewrite !filter_cons.
  - destruct (decide (activep (f x))) as [Ha|]; [rewrite decide_True by auto; simpl; lia|].
    case_decide; simpl; lia.
  - case_decide; simpl; lia.
Qed.

Lemma active_modify_succ id f l :
  (length (filter activep (modify_first id f l)) <= S (length (filter activep l)))%nat.
Proof.
  induction l as [|x l IH]; [simpl; lia|]. cbn [modify_first].
  destruct (d_id x =? id); rewrite !filter_cons.
  - destruct (decide (activep (f x))), (decide (activep x)); cbn [length]; lia.
  - destruct (decide (activep x)); cbn [length]; lia.
Qed.

Lemma count_loop_filter n l :
  count_loop DOWNLOAD_ACTIVE n l = n + Z.of_nat (length (filter activep l)).
Proof.
  revert n. induction l as [|x l IH]; intros n; cbn [count_loop]; [simpl; lia|].
  rewrite IH, filter_cons.
  destruct (decide (d_status x = DOWNLOAD_ACTIVE)) as [E|E], (decide (activep x)) as [E'|E']; try done;
    cbn [length]; lia.
Qed.

Lemma keeps_set_status s : keeps_id (set_status s). Proof. by intros d. Qed.
Lemma keeps_cancel : keeps_id cancel_entry.
Proof. intros d. unfold cancel_entry. by case_decide. Qed.
Lemma keeps_clear : keeps_id clear_entry. Proof. by intros d. Qed.
Lemma keeps_pause : keeps_id pause_entry.
Proof. intros d. unfold pause_entry. by destruct (d_status d). Qed.
Lemma keeps_resume : keeps_id resume_entry.
Proof. intros d. unfold resume_entry. by destruct (resumable d). Qed.

#[export] Hint Resolve keeps_set_status keeps_cancel keeps_clear keeps_pause keeps_resume : cdm.

(** [queue_manager_remove] flags an active entry, drops an inactive one with
    its file, and does nothing for an unknown id. *)
Definition unlink_dest (env : IoEnv) (d : Download) (fs : filesystem) : filesystem :=
  if decide (d_dest_path d = []) then fs else unlink env fs (d_dest_path d).

Lemma remove_loop_cases env id l fs :
  match find_first id l with
  | None => remove_loop env id l fs = (l, fs)
  | Some d =>
      if decide (d_status d = DOWNLOAD_ACTIVE) then
        remove_loop env id l fs =
          (modify_first id (fun d => set_flags true (d_pause_requested d) d) l, fs)
      else exists l1 l2, l = l1 ++ d :: l2 /\ (id ∉ ids l1) /\
        remove_loop env id l fs = (l1 ++ l2, unlink_dest env d fs)
  end.
Proof.
  induction l as [|x l IH]; simpl; [done|]. destruct (Z.eqb_spec (d_id x) id) as [E|E].
  - case_decide; [done|]. exists [], l. split; [done|]. split; [apply not_elem_of_nil|done].
  - destruct (find_first id l) as [d|]; [|by rewrite IH].
    case_decide; [by rewrite IH|]. destruct IH as (l1 & l2 & -> & Hn & ->).
    exists (x :: l1), l2. split; [done|]. split; [|done].
    simpl. rewrite not_elem_of_cons. split; congruence.
Qed.

(** The best entry seen so far is kept unless a strictly better one follows. *)
Definition eligible (now : Z) (d : Download) : Prop :=
  d_status d = DOWNLOAD_QUEUED /\ in_backoff now d = false.

Definition picked (now : Z) (l : list Download) (d : Download) : Prop :=
  exists l1 l2, l = l1 ++ d :: l2 /\ eligible now d /\
    (forall x, x ∈ l1 -> eligible now x -> d_priority x < d_priority d) /\
    (forall x, x ∈ l2 -> eligible now x -> d_priority x <= d_priority d).

Lemma find_next_loop_skip now b x l :
  ~ eligible now x -> find_next_loop now b (x :: l) = find_next_loop now b l.
Proof.
  unfold eligible. simpl. case_bool_decide as Hs; simpl; [|done].
  destruct (in_backoff now x) eqn:E; [done|]. intros Hn. by destruct Hn.
Qed.

Lemma find_next_loop_take now b x l :
  eligible now x ->
  find_next_loop now b (x :: l) =
    find_next_loop now
      (match b with
       | None => Some x
       | Some b' => if d_priority b' <? d_priority x then Some x else Some b'
       end) l.
Proof.
  intros [Hs Hb]. simpl. rewrite bool_decide_true by done. rewrite Hb. simpl.
  destruct b as [b|]; [|done]. by case_bool.
Qed.

Lemma eligible_dec now x : {eligible now x} + {~ eligible now x}.
Proof.
  unfold eligible. destruct (decide (d_status x = DOWNLOAD_QUEUED)), (in_backoff now x);
    try (left; tauto); right; intros [? ?]; congruence.
Qed.

Lemma find_next_loop_some now l b :
  let r := find_next_loop now (Some b) l in
  (r = Some b /\ forall x, x ∈ l -> eligible now x -> d_priority x <= d_priority b) \/
  (exists d, r = Some d /\ picked now l d /\ d_priority b < d_priority d).
Proof.
  revert b. induction l as [|x l IH]; intros b.
  { left. split; [done|]. by intros x ?%not_elem_of_nil. }
  destruct (eligible_dec now x) as [He|He]; cbv zeta.
  - rewrite find_next_loop_take by done. destruct (Z.ltb_spec (d_priority b) (d_priority x)) as [Hp|Hp].
    + right. destruct (IH x) as [[E Hmax]|(d & E & (l1 & l2 & -> & Hd & H1 & H2) & Hlt)].
      * exists x. split; [done|]. split; [|done]. exists [], l. split; [done|]. split; [done|].
        split; [by intros y ?%not_elem_of_nil|done].
      * exists d. split; [done|]. split; [|lia]. exists (x :: l1), l2. split; [done|]. split; [done|].
        split; [|done]. intros y [->|Hy]%elem_of_cons Hey; [lia|by apply H1].
    + destruct (IH b) as [[E Hmax]|(d & E & (l1 & l2 & -> & Hd & H1 & H2) & Hlt)].
      * left. split; [done|]. intros y [->|Hy]%elem_of_cons Hey; [lia|by apply Hmax].
      * right. exists d. split; [done|]. split; [|lia]. exists (x :: l1), l2. split; [done|].
        split; [done|]. split; [|done]. intros y [->|Hy]%elem_of_cons Hey; [lia|by apply H1].
  - rewrite find_next_loop_skip by done.
    destruct (IH b) as [[E Hmax]|(d & E & (l1 & l2 & -> & Hd & H1 & H2) & Hlt)].
    + left. split; [done|]. intros y [->|Hy]%elem_of_cons Hey; [done|by apply Hmax].
    + right. exists d. split; [done|]. split; [|lia]. exists (x :: l1), l2. split; [done|].
      split; [done|]. split; [|done]. intros y [->|Hy]%elem_of_cons Hey; [done|by apply H1].
Qed.

Lemma find_next_loop_none now l :
  match find_next_loop now None l with
  | None => forall x, x ∈ l -> ~ eligible now x
  | Some d => picked now l d
  end.
Proof.
  induction l as [|x l IH]; [by intros x ?%not_elem_of_nil|].
  destruct (eligible_dec now x) as [He|He].
  - rewrite find_next_loop_take by done.
    destruct (find_next_loop_some now l x) as [[-> Hmax]|(d & -> & (l1 & l2 & -> & Hd & H1 & H2) & Hlt)].
    + exists [], l. split; [done|]. split; [done|]. split; [by intros y ?%not_elem_of_nil|done].
    + exists (x :: l1), l2. split; [done|]. split; [done|]. split; [|done].
      intros y [->|Hy]%elem_of_cons Hey; [lia|by apply H1].
  - rewrite find_next_loop_skip by done. destruct (find_next_loop now None l) as [d|].
    + destruct IH as (l1 & l2 & -> & Hd & H1 & H2). exists (x :: l1), l2. split; [done|].
      split; [done|]. split; [|done]. intros y [->|Hy]%elem_of_cons Hey; [done|by apply H1].
    + intros y [->|Hy]%elem_of_cons; [done|by apply IH].
Qed.

Definition active_entries (q : QM) : list Download :=
  filter (fun d => d_status d = DOWNLOAD_ACTIVE) (g_head q).

Lemma snapshot_chunk_loop_spec max l :
  snapshot_chunk_loop max l =
    take max (concat (map chunk_snapshots (filter (fun d => d_status d = DOWNLOAD_ACTIVE) l))).
Proof.
  revert max. induction l as [|x l IH]; intros max; [by destruct max|].
  cbn [snapshot_chunk_loop]. rewrite filter_cons. case_decide; [|apply IH].
  cbn [map concat]. rewrite take_app, IH, length_take. do 2 f_equal. lia.
Qed.

Lemma snapshot_active_loop_spec max l :
  snapshot_active_loop max l =
    take max (map (fun d => mkProg (d_id d) (d_bytes_downloaded d) (d_total_size d))
                  (filter (fun d => d_status d = DOWNLOAD_ACTIVE) l)).
Proof.
  revert max. induction l as [|x l IH]; intros max; [by destruct max|].
  destruct max as [|max]; [done|]. cbn [snapshot_active_loop]. rewrite filter_cons.
  case_decide; cbn [map take]; by rewrite IH.
Qed.

(** ** The queue as a transition system *)

Inductive qm_op :=
| OpAdd (alloc_d alloc_r : bool) (url dest_path : bytes) (opts : option RequestOptions)
| OpRestore (d : Download)
| OpSeed (min_next_id : Z)
| OpRemove (id : Z)
| OpStatus (id : Z) (s : DownloadStatus)
| OpCancel (id : Z)
| OpClear (id : Z)
| OpPause (id : Z)
| OpResume (id : Z).

Definition qm_apply (safe : bytes -> bool) (env : IoEnv) (op : qm_op) (st : QM * filesystem)
    : QM * filesystem :=
  let '(q, fs) := st in
  match op with
  | OpAdd a r url dest opts => (snd (queue_manager_add safe a r url dest opts q), fs)
  | OpRestore d => (queue_manager_add_existing d q, fs)
  | OpSeed n => (queue_manager_seed_next_id n q, fs)
  | OpRemove id => queue_manager_remove env id q fs
  | OpStatus id s => (queue_manager_update_status id s q, fs)
  | OpCancel id => (snd (queue_manager_cancel id q), fs)
  | OpClear id => (queue_manager_clear_resume_state id q, fs)
  | OpPause id => (snd (queue_manager_pause id q), fs)
  | OpResume id => (snd (queue_manager_resume id q), fs)
  end.

(** What the callers guarantee: the id counter does not wrap, and the entries
    restored from the database carry ids that are not in the queue yet. *)
Definition op_legal (q : QM) (op : qm_op) : Prop :=
  g_next_id q < 2 ^ 32 - 1 /\
  match op with
  | OpRestore d => (d_id d ∉ ids (g_head q)) /\ 0 < d_id d < 2 ^ 32 - 1
  | _ => True
  end.

Fixpoint ops_legal (safe : bytes -> bool) (env : IoEnv) (ops : list qm_op) (st : QM * filesystem)
    : Prop :=
  match ops with
  | [] => True
  | op :: ops' => op_legal (fst st) op /\ ops_legal safe env ops' (qm_apply safe env op st)
  end.

Record qm_wf (q : QM) : Prop := {
  wf_nodup : NoDup (ids (g_head q));
  wf_ids : Forall (fun i => 0 < i < g_next_id q) (ids (g_head q));
  wf_next : 0 < g_next_id q;
}.

Lemma qm_wf_init : qm_wf qm_init.
Proof. split; simpl; [constructor|constructor|lia]. Qed.

Lemma qm_wf_modify id f q : keeps_id f -> qm_wf q -> qm_wf (qm_modify id f q).
Proof. intros Hf [? ? ?]. by split; simpl; rewrite ?modify_first_ids. Qed.

Lemma qm_wf_cons q d next :
  qm_wf q -> d_id d ∉ ids (g_head q) -> 0 < d_id d < next -> g_next_id q <= next ->
  qm_wf (mkQM (d :: g_head q) next).
Proof.
  intros [Hn Hi Hx] Hd Hr Hle. split; simpl; [by constructor| |lia].
  constructor; [done|]. eapply Forall_impl; [done|]. intros i ?. cbn beta in *. lia.
Qed.

Lemma wf_next_fresh q : qm_wf q -> g_next_id q ∉ ids (g_head q).
Proof. intros [_ Hi _] He. rewrite Forall_forall in Hi. specialize (Hi _ He). lia. Qed.

Lemma remove_ids_sublist env id q fs :
  ids (g_head (fst (queue_manager_remove env id q fs))) `sublist_of` ids (g_head q) /\
  g_next_id (fst (queue_manager_remove env id q fs)) = g_next_id q.
Proof.
  unfold queue_manager_remove. pose proof (remove_loop_cases env id (g_head q) fs) as H.
  destruct (find_first id (g_head q)) as [d|] eqn:E; [|by rewrite H].
  case_decide.
  - rewrite H. simpl. by rewrite modify_first_ids.
  - destruct H as (l1 & l2 & -> & _ & ->). simpl. split; [|done]. unfold ids.
    rewrite !map_app. apply sublist_app; [done|]. simpl. by apply sublist_cons.
Qed.

Lemma qm_wf_apply safe env op q fs :
  qm_wf q -> op_legal q op -> qm_wf (fst (qm_apply safe env op (q, fs))).
Proof.
  intros Hq [Hw Hop]. pose proof Hq as [Hn Hi Hx].
  destruct op; cbn [qm_apply fst snd queue_manager_cancel queue_manager_pause
                    queue_manager_resume]; try (apply qm_wf_modify; auto with cdm; fail).
  - unfold queue_manager_add. destruct (negb (safe dest_path)); [done|].
    destruct (negb alloc_d); [done|]. destruct (_ && _); [done|]. cbn [snd].
    rewrite u32_small by zlia. apply qm_wf_cons; simpl; [done|by apply wf_next_fresh|lia|lia].
  - destruct Hop as [Hd Hr]. unfold queue_manager_add_existing.
    destruct (Z.leb_spec (g_next_id q) (d_id d)).
    + rewrite u32_small by zlia. apply qm_wf_cons; try done; lia.
    + apply qm_wf_cons; try done; lia.
  - unfold queue_manager_seed_next_id. split; simpl; [done| |case_bool; breflect; lia].
    eapply Forall_impl; [done|]. intros i ?. cbn beta in *. case_bool; breflect; lia.
  - destruct (remove_ids_sublist env id q fs) as [Hs Hg].
    split; rewrite ?Hg; [by eapply sublist_NoDup| |done].
    apply Forall_forall. intros i Hin. rewrite Forall_forall in Hi. apply Hi.
    by eapply elem_of_sublist.
Qed.

(** An entry other than the one an operation names is not touched, nor is its
    file unless it shares the path of a removed entry. *)
Lemma remove_find_other env id id' q fs :
  id' <> id ->
  find_first id' (g_head (fst (queue_manager_remove env id q fs))) = find_first id' (g_head q).
Proof.
  intros Hne. unfold queue_manager_remove.
  pose proof (remove_loop_cases env id (g_head q) fs) as H.
  destruct (find_first id (g_head q)) as [d|] eqn:E; [|by rewrite H].
  apply find_first_Some in E as [_ Hid]. case_decide.
  - rewrite H. simpl. rewrite find_first_modify by done. by rewrite decide_False.
  - destruct H as (l1 & l2 & -> & _ & ->). simpl. clear -Hne Hid.
    induction l1 as [|x l1 IH]; simpl; [|by rewrite IH].
    by rewrite (proj2 (Z.eqb_neq (d_id d) id')) by congruence.
Qed.

(** ** Properties *)

(** The test, as a condition on the path and the answers of [realpath]. *)
Lemma is_safe_dest_path_iff realpath env_root env_home path :
  is_safe_dest_path realpath env_root env_home path = true <->
  path <> [] /\ strlen path < 900 /\
  (exists dir root rest,
     realpath (strlcpy 1024 (dirname path)) = inr dir /\
     realpath (get_allowed_root env_root env_home) = inr root /\
     dir = root ++ rest /\ (rest = [] \/ exists t, rest = CH_SLASH :: t)) /\
  (CH_SLASH ∉ basename path) /\ basename path <> str ".." /\ basename path <> str ".".
Proof.
  unfold is_safe_dest_path.
  destruct (decide (path = [])) as [Hp|Hp]; [rewrite bool_decide_true by done; simpl; naive_solver|].
  rewrite bool_decide_false by done. cbn [orb].
  destruct (Z.leb_spec 900 (strlen path)) as [Hl|Hl]; [split; [done|intros (_ & ? & _); lia]|].
  rewrite (strlcpy_id 1024 path) by lia.
  rewrite resolve_dir_some by lia.
  destruct (realpath (strlcpy 1024 (dirname path))) as [e|dir] eqn:Ed; [naive_solver|].
  destruct (realpath (get_allowed_root env_root env_home)) as [e|root] eqn:Er; [naive_solver|].
  destruct (strprefix root dir) eqn:Ep; cbn [negb].
  2:{ split; [done|]. intros (_ & _ & (d' & r' & t & [= <-] & [= <-] & -> & _) & _).
      assert (strprefix root (root ++ t) = true) by (apply strprefix_spec; eauto). congruence. }
  apply strprefix_spec in Ep as [rest ->].
  rewrite lookup_app_r, Nat.sub_diag by lia.
  assert ((rest !! 0%nat = None \/ rest !! 0%nat = Some CH_SLASH) <->
          (rest = [] \/ exists t, rest = CH_SLASH :: t)) as Hb.
  { destruct rest as [|c t]; simpl; [naive_solver|]. split.
    - intros [?|[= ->]]; [done|]. right. by exists t.
    - intros [?|[t' [= -> ->]]]; [done|]. by right. }
  case_bool_decide as Hc; cbn [negb].
  2:{ split; [done|]. intros (_ & _ & (d' & r' & t & [= <-] & [= <-] & Heq & Ht) & _).
      apply app_inv_head in Heq as ->. tauto. }
  rewrite negb_true_iff, !orb_false_iff, bool_decide_eq_false, !streq_false. split.
  - intros [[? ?] ?]. repeat (split; [done|]). split; [|done].
    exists (root ++ rest), root, rest. tauto.
  - naive_solver.
Qed.

(** C31. What [is_safe_dest_path] accepts, exactly, for every answer of [realpath]: a path that
    is non-empty and shorter than 900 bytes, whose directory part resolves (symbolic links and
    dot-dot included) to the resolved allowed root itself or to that root followed by a
    separator and more, and whose last component has no separator and is neither dot nor
    dot-dot.  This is narrower than the comment above the function promises in two ways, which
    the statement spells out: a path whose directory does not resolve is rejected, whatever
    the reason (the walk up to an existing parent never makes a second turn), and under the
    root [/] only a directory that resolves to [/] itself is accepted (or one that resolves to
    a path that begins with two separators, which [realpath] does not answer), so that
    everything below it is rejected. *)
Theorem is_safe_dest_path_spec realpath env_root env_home path :
  (is_safe_dest_path realpath env_root env_home path = true <->
   path <> [] /\ strlen path < 900 /\
   (exists dir root rest,
      realpath (strlcpy 1024 (dirname path)) = inr dir /\
      realpath (get_allowed_root env_root env_home) = inr root /\
      dir = root ++ rest /\ (rest = [] \/ exists t, rest = CH_SLASH :: t)) /\
   (CH_SLASH ∉ basename path) /\ basename path <> str ".." /\ basename path <> str ".") /\
  (forall e, realpath (strlcpy 1024 (dirname path)) = inl e ->
     is_safe_dest_path realpath env_root env_home path = false) /\
  (realpath (get_allowed_root env_root env_home) = inr [CH_SLASH] ->
     is_safe_dest_path realpath env_root env_home path = true ->
     realpath (strlcpy 1024 (dirname path)) = inr [CH_SLASH] \/
     exists t, realpath (strlcpy 1024 (dirname path)) = inr (CH_SLASH :: CH_SLASH :: t)).
Proof.
  pose proof (is_safe_dest_path_iff realpath env_root env_home path) as H.
  split; [exact H|]. split.
  - intros e He. apply not_true_iff_false. rewrite H. intros (_ & _ & (dir & root & rest & Hd & _) & _). congruence.
  - intros Hroot. rewrite H. intros (_ & _ & (dir & root & rest & Hd & Hr & -> & Ht) & _).
    rewrite Hroot in Hr. injection Hr as <-. rewrite Hd. destruct Ht as [-> |[t ->]]; [by left|right; by exists t].
Qed.

(** Through any sequence of queue operations starting from the empty
    queue (as long as the 32-bit counter does not wrap and restored entries
    bring fresh ids), the ids of the queue stay pairwise distinct, positive and
    below the next id to be given, so a lookup by id finds the only entry. *)
Theorem qm_ids_unique safe env ops fs :
  ops_legal safe env ops (qm_init, fs) ->
  let q := fst (fold_left (fun st op => qm_apply safe env op st) ops (qm_init, fs)) in
  NoDup (ids (g_head q)) /\ Forall (fun i => 0 < i < g_next_id q) (ids (g_head q)) /\
  forall d, d ∈ g_head q -> queue_manager_find_by_id (d_id d) q = Some d.
Proof.
  intros Hl. assert (forall ops st, qm_wf (fst st) -> ops_legal safe env ops st ->
    qm_wf (fst (fold_left (fun st op => qm_apply safe env op st) ops st))) as H.
  { clear. induction ops as [|op ops IH]; intros [q fs] Hq Hl; [done|]. destruct Hl as [H1 H2].
    cbn [fold_left]. apply IH; [by apply qm_wf_apply|done]. }
  destruct (H ops (qm_init, fs) qm_wf_init Hl) as [Hn Hi _]. cbv zeta. split; [done|]. split; [done|].
  intros d Hd. by apply find_first_elem.
Qed.

Lemma qm_ids_unique_witness :
  let ops := [OpAdd true true (str "http://h/a") (str "/r/a") None;
              OpRestore (set_status DOWNLOAD_PAUSED (mkDownload 7 [] (str "/r/b") 0 DOWNLOAD_QUEUED
                 0 0 false false 0 (replicate 8 0) [] false 0 0 None));
              OpAdd true true (str "http://h/c") (str "/r/c") None; OpResume 7; OpRemove 1] in
  let q := fst (fold_left (fun st op => qm_apply (fun _ => true) permissive op st) ops
                  (qm_init, demo_fs)) in
  ids (g_head q) = [8; 7] /\ NoDup (ids (g_head q)).
Proof.
  intros ops q. split; [vm_compute; reflexivity|].
  apply (qm_ids_unique (fun _ => true) permissive ops demo_fs).
  vm_compute. repeat split; try done. intros H.
  apply list_elem_of_singleton in H. discriminate H.
Defined.

(** What an operation makes of the record of an ACTIVE download: a cancel or a
    removal of its own id asks it to cancel, a pause asks it to pause, its
    thread's reports set its status and reset its progress; everything else
    leaves the record as it is. *)
Definition active_after (op : qm_op) (d : Download) : Download :=
  match op with
  | OpRemove i | OpCancel i => if i =? d_id d then set_flags true (d_pause_requested d) d else d
  | OpPause i => if i =? d_id d then set_flags (d_cancel_requested d) true d else d
  | OpStatus i s => if i =? d_id d then set_status s d else d
  | OpClear i => if i =? d_id d then set_retry 0 0 (set_progress 0 (set_transfer 0 0 (replicate 8 0) [] d)) else d
  | OpAdd _ _ _ _ _ | OpRestore _ | OpSeed _ | OpResume _ => d
  end.

Lemma active_after_modify (f : Download -> Download) op id' l d :
  keeps_id f -> find_first (d_id d) l = Some d ->
  active_after op d = (if id' =? d_id d then f d else d) ->
  find_first (d_id d) (modify_first id' f l) = Some (active_after op d).
Proof.
  intros Hk Hf ->. rewrite find_first_modify by done. case_decide as E; simpl.
  - subst id'. rewrite Z.eqb_refl, Hf. done.
  - rewrite (proj2 (Z.eqb_neq _ _)) by congruence. done.
Qed.

Lemma find_first_push id x l d : find_first id l = Some d -> d_id x <> id -> find_first id (x :: l) = Some d.
Proof. intros Hf Hx. simpl. by rewrite (proj2 (Z.eqb_neq _ _)). Qed.

(** Removing one entry removes no file but its own. *)
Lemma remove_other_file env id' q fs f :
  (forall x, x ∈ g_head q -> d_id x = id' -> d_dest_path x <> f) ->
  snd (queue_manager_remove env id' q fs) !! f = fs !! f.
Proof.
  intros Hoth. unfold queue_manager_remove. pose proof (remove_loop_cases env id' (g_head q) fs) as H.
  destruct (find_first id' (g_head q)) as [x|] eqn:E; [|by rewrite H].
  apply find_first_Some in E as [Hx Hxid]. case_decide; [by rewrite H|].
  destruct H as (l1 & l2 & _ & _ & ->). cbn [snd]. unfold unlink_dest. case_decide; [done|].
  apply unlink_other. by apply (Hoth x).
Qed.

(** The entry after any operation. *)
Lemma active_entry_after safe env op q fs d :
  qm_wf q -> op_legal q op -> find_first (d_id d) (g_head q) = Some d -> d_status d = DOWNLOAD_ACTIVE ->
  find_first (d_id d) (g_head (fst (qm_apply safe env op (q, fs)))) = Some (active_after op d).
Proof.
  intros Hq [_ Hop] Hf Ha. pose proof (find_first_Some _ _ _ Hf) as [Hin _].
  destruct op as [a r url dest opts|d0|n|id'|id' s|id'|id'|id'|id']; cbn [qm_apply fst snd];
    try (apply active_after_modify; [by auto with cdm|done|]).
  - unfold queue_manager_add. destruct (negb (safe dest)); [done|].
    destruct (negb a); [done|]. destruct (_ && _); [done|]. apply find_first_push; [done|]. simpl. intros E.
    apply (wf_next_fresh q Hq). rewrite E. by apply list_elem_of_fmap_2.
  - apply find_first_push; [done|]. intros E. destruct Hop as [Hfr _].
    apply Hfr. rewrite E. by apply list_elem_of_fmap_2.
  - done.
  - cbn [active_after]. destruct (Z.eqb_spec id' (d_id d)) as [->|Hne].
    + unfold queue_manager_remove. pose proof (remove_loop_cases env (d_id d) (g_head q) fs) as H.
      rewrite Hf in H. rewrite decide_True in H by done. rewrite H. cbn [fst snd g_head].
      rewrite find_first_modify by done. by rewrite decide_True, Hf by done.
    + by rewrite remove_find_other by congruence.
  - done.
  - cbn [active_after]. case_bool; [|done]. unfold cancel_entry. by rewrite decide_True.
  - done.
  - cbn [active_after]. case_bool; [|done]. unfold pause_entry. by rewrite Ha.
  - cbn [active_after]. case_bool; [|done]. unfold resume_entry, resumable. rewrite Ha.
    by rewrite bool_decide_false by naive_solver.
Qed.

(** Only a removal touches files. *)
Lemma active_file_after safe env op q fs d f :
  qm_wf q -> find_first (d_id d) (g_head q) = Some d -> d_status d = DOWNLOAD_ACTIVE ->
  (forall d', d' ∈ g_head q -> op = OpRemove (d_id d') -> d' <> d -> d_dest_path d' <> f) ->
  snd (qm_apply safe env op (q, fs)) !! f = fs !! f.
Proof.
  intros Hq Hf Ha Hoth. destruct op as [| | |id'| | | | |]; cbn [qm_apply fst snd]; try done.
  destruct (decide (id' = d_id d)) as [->|Hne].
  - unfold queue_manager_remove. pose proof (remove_loop_cases env (d_id d) (g_head q) fs) as H.
    rewrite Hf in H. rewrite decide_True in H by done. by rewrite H.
  - apply remove_other_file. intros x Hx <-. apply Hoth; congruence.
Qed.

(** C15. The record of an ACTIVE download is never freed by an operation of the queue, and the
    operations change it in exactly these ways: a cancel or a removal of its id only raises its
    cancel flag, a pause of its id only raises its pause flag, a status report of its id sets
    the status and nothing else, a reset of its resume state clears its chunks, counters,
    progress and retries and nothing else, and every other operation (a resume of it, an
    operation on another id, an addition, a restore) leaves it as it is.  No operation touches
    the file at its path, but the removal of another entry that has the same path.
    Hypotheses: the ids are distinct and below the id counter (an invariant), the counter is
    not about to wrap, and a restored row brings an id that is not in the queue. *)
Theorem active_entry_survives safe env op q fs d :
  qm_wf q -> op_legal q op ->
  find_first (d_id d) (g_head q) = Some d -> d_status d = DOWNLOAD_ACTIVE ->
  find_first (d_id d) (g_head (fst (qm_apply safe env op (q, fs)))) = Some (active_after op d) /\
  ((forall d', d' ∈ g_head q -> op = OpRemove (d_id d') -> d' <> d -> d_dest_path d' <> d_dest_path d) ->
     snd (qm_apply safe env op (q, fs)) !! d_dest_path d = fs !! d_dest_path d).
Proof.
  intros Hq Hop Hf Ha. split; [by apply active_entry_after|]. by apply active_file_after.
Qed.

Lemma active_entry_survives_witness :
  let d := mkDownload 1 (str "http://h/a") (str "/r/a") 9 DOWNLOAD_ACTIVE 0 0 false false 4
             (replicate 8 0) [mkChunk 0 8 4] false 0 0 None in
  let q := mkQM [d] 2 in
  let fs := <[str "/r/a" := NReg empty_reg]> demo_fs in
  find_first 1 (g_head (fst (qm_apply (fun _ => true) permissive (OpRemove 1) (q, fs)))) =
    Some (set_flags true false d) /\
  snd (qm_apply (fun _ => true) permissive (OpRemove 1) (q, fs)) !! str "/r/a" = fs !! str "/r/a".
Proof.
  intros d q fs.
  assert (qm_wf q) as Hq.
  { split; [apply NoDup_singleton|by repeat constructor|done]. }
  assert (op_legal q (OpRemove 1)) as Hl by (split; [reflexivity|exact I]).
  destruct (active_entry_survives (fun _ => true) permissive (OpRemove 1) q fs d Hq Hl)
    as [E F]; [reflexivity|reflexivity|].
  split; [exact E|]. apply F. intros d' Hd' _ Hne. apply list_elem_of_singleton in Hd'. by destruct Hne.
Defined.

(** The scheduler's choice: the answer is an entry that is QUEUED and not
    in its backoff delay, of the highest priority among such entries, and the
    first of the list (the one queued last) among equals; no answer means
    there is no such entry. *)
Theorem find_next_queued_spec now q :
  match queue_manager_find_next_queued now q with
  | None => forall d, d ∈ g_head q -> ~ (d_status d = DOWNLOAD_QUEUED /\ in_backoff now d = false)
  | Some d =>
      exists l1 l2, g_head q = l1 ++ d :: l2 /\
        d_status d = DOWNLOAD_QUEUED /\ in_backoff now d = false /\
        (forall x, x ∈ l1 -> eligible now x -> d_priority x < d_priority d) /\
        (forall x, x ∈ l2 -> eligible now x -> d_priority x <= d_priority d)
  end.
Proof.
  unfold queue_manager_find_next_queued. pose proof (find_next_loop_none now (g_head q)) as H.
  destruct (find_next_loop now None (g_head q)) as [d|]; [|exact H].
  destruct H as (l1 & l2 & ? & [? ?] & ? & ?). exists l1, l2. tauto.
Qed.

(** The user's controls, by the status of the entry: cancel flags a
    running download and marks any other one CANCELED; pause flags a running
    download and parks a queued one; resume re-queues a paused or failed one
    with its flags and retry state cleared; every other case leaves the entry
    as it was.  The answers tell whether the download was running (cancel,
    pause) or was re-queued (resume), not whether the id was found, and no
    other entry changes. *)
Theorem queue_controls_spec id q d :
  find_first id (g_head q) = Some d ->
  (let '(r, q') := queue_manager_cancel id q in
   r = bool_decide (d_status d = DOWNLOAD_ACTIVE) /\
   find_first id (g_head q') =
     Some (match d_status d with
           | DOWNLOAD_ACTIVE => set_flags true (d_pause_requested d) d
           | _ => set_status DOWNLOAD_CANCELED d
           end)) /\
  (let '(r, q') := queue_manager_pause id q in
   r = bool_decide (d_status d = DOWNLOAD_ACTIVE) /\
   find_first id (g_head q') =
     Some (match d_status d with
           | DOWNLOAD_ACTIVE => set_flags (d_cancel_requested d) true d
           | DOWNLOAD_QUEUED => set_status DOWNLOAD_PAUSED d
           | _ => d
           end)) /\
  (let '(r, q') := queue_manager_resume id q in
   r = bool_decide (d_status d = DOWNLOAD_PAUSED \/ d_status d = DOWNLOAD_ERROR) /\
   find_first id (g_head q') =
     Some (match d_status d with
           | DOWNLOAD_PAUSED | DOWNLOAD_ERROR =>
               set_status DOWNLOAD_QUEUED (set_retry 0 0 (set_flags false false d))
           | _ => d
           end)) /\
  (forall id', id' <> id ->
     find_first id' (g_head (snd (queue_manager_cancel id q))) = find_first id' (g_head q) /\
     find_first id' (g_head (snd (queue_manager_pause id q))) = find_first id' (g_head q) /\
     find_first id' (g_head (snd (queue_manager_resume id q))) = find_first id' (g_head q)).
Proof.
  intros Hf. unfold queue_manager_cancel, queue_manager_pause, queue_manager_resume, is_active.
  rewrite Hf. cbn [qm_modify g_head snd].
  rewrite !find_first_modify, Hf, !decide_True by auto with cdm. cbn [fmap option_fmap option_map].
  split; [|split; [|split]].
  - split; [done|]. unfold cancel_entry. by destruct (d_status d).
  - done.
  - split; [done|]. unfold resume_entry, resumable. by destruct (d_status d).
  - intros id' Hne. rewrite !find_first_modify by auto with cdm. by rewrite !decide_False.
Qed.

Lemma queue_controls_spec_witness :
  let d := set_status DOWNLOAD_ERROR (mkDownload 3 [] (str "/r/a") 9 DOWNLOAD_QUEUED 0 0 false true 4
             (replicate 8 0) [mkChunk 0 8 4] false 5 99 None) in
  let q := mkQM [zero_download; d] 4 in
  fst (queue_manager_resume 3 q) = true /\ fst (queue_manager_cancel 3 q) = false /\
  find_first 0 (g_head (snd (queue_manager_pause 3 q))) = Some zero_download.
Proof.
  intros d q. destruct (queue_controls_spec 3 q d) as (H1 & H2 & H3 & H4); [reflexivity|].
  split; [exact (proj1 H3)|]. split; [exact (proj1 H1)|].
  apply (H4 0). discriminate.
Defined.

(** The progress snapshots are the first [max] entries of the full report:
    one line per ACTIVE download, and one line per chunk of an ACTIVE download
    with its start and its live counter, in queue order.  What does not fit in
    [max] lines is left out. *)
Theorem snapshots_spec max q :
  queue_manager_snapshot_active_progress max q =
    take max (map (fun d => mkProg (d_id d) (d_bytes_downloaded d) (d_total_size d))
                  (active_entries q)) /\
  queue_manager_snapshot_chunk_progress max q =
    take max (concat (map (fun d => zip_with (fun c live => mkChunkProg (d_id d) (range_start c) live)
                                      (d_chunks d) (d_chunk_live_bytes d))
                          (active_entries q))).
Proof. split; [apply snapshot_active_loop_spec|apply snapshot_chunk_loop_spec]. Qed.

(** With "/" as the allowed root nothing below it is accepted: the character
    after the one-byte prefix is never a separator. *)
Example root_slash_rejects :
  is_safe_dest_path inr (Some (str "/")) None (str "/home/u/f.bin") = false /\
  is_safe_dest_path inr (Some (str "/home")) None (str "/home/u/f.bin") = true.
Proof. vm_compute. split; reflexivity. Qed.

(** A directory that does not exist yet is rejected although its parent is
    inside the root: the copy of the path is cut in place by [dirname], so that
    the test for "no parent left" always fires. *)
Example missing_directory_rejected :
  let realpath p := if streq p (str "/home/u/new") then inl ENOENT else inr p in
  is_safe_dest_path realpath (Some (str "/home")) None (str "/home/u/new/f.bin") = false /\
  dirname (str "/home/u/new") = str "/home/u".
Proof. vm_compute. split; reflexivity. Qed.

(** Nine running downloads of eight chunks: eight chunk lines are lost. *)
Example snapshot_drops_chunks :
  let d i := set_transfer 0 0 (replicate 8 0) (replicate 8 (mkChunk 0 9 0))
               (mkDownload i [] [] 0 DOWNLOAD_ACTIVE 0 0 false false 0 [] [] false 0 0 None) in
  let q := mkQM (map d [9; 8; 7; 6; 5; 4; 3; 2; 1]) 10 in
  length (queue_manager_snapshot_chunk_progress 64 q) = 64%nat /\
  length (queue_manager_snapshot_chunk_progress 1000 q) = 72%nat.
Proof. vm_compute. split; reflexivity. Qed.
