(* ===== verification/Pool.v ===== *)
(** * The worker pool and the rebalance pool ([src/engine/worker_pool.c])

    Worker threads fetch byte ranges over HTTP and write them into one file; an
    idle worker steals the tail of the busiest range.  The code of a thread is
    cut at its accesses to shared memory: [worker_step] is the transition a
    thread takes between two of them, an executable function of the shared
    state and of an [event] that carries what the outside decides (the HTTP
    response, the size of a received block, the flag and bandwidth tests, the
    end of the transfer).  [pool_step] interleaves the threads.

    The file descriptor is the file itself; the progress counters and the
    split callback are reached through the [SplitListener] interface. *)

From S2P Require Import Prelude Segmenter FileIo.

(** ** Interface to the owner of the chunks *)

(** A pointer to a progress counter: NULL, the counter of a chunk, or the
    value of an array element that nothing has initialised. *)
Inductive slot_ptr := PNull | PLive (i : nat) | PIndet.

#[global] Instance slot_ptr_eq_dec : EqDecision slot_ptr.
Proof. solve_decision. Defined.

(** What the pool calls: [on_split] of [rebalance_pool_create] (identity for a
    NULL callback), the array [progress_slots] (all [PNull] for a NULL array),
    the atomic addition through one of its pointers, and the store of true in
    the cancel flag when a thread cannot be created. *)
Class SplitListener (L : Type) := {
  on_split : L -> Z -> Z -> Z -> L;
  progress_slots : L -> nat -> slot_ptr;
  add_progress : L -> slot_ptr -> Z -> L;
  request_cancel : L -> L;
}.

(** ** Data *)

Record PoolSlot := mkSlot {
  ps_start : Z;
  ps_write_pos : Z;              (* next byte to write *)
  ps_live_end : Z;               (* exclusive upper bound, may shrink *)
  ps_claimed : bool;
  ps_exhausted : bool;
  ps_progress_slot : slot_ptr;
}.

(** Where a worker thread stands. *)
Inductive worker_pc :=
| PcUnborn                                           (* thread not created yet *)
| PcSegment                                          (* entry of run_one_segment *)
| PcTransfer (status : Z) (body : Z -> Z)            (* inside curl_easy_perform *)
| PcWrite (status : Z) (body : Z -> Z) (total writable offset : Z)
| PcCommit (status : Z) (body : Z -> Z) (total writable : Z)
| PcVerdict (status : Z) (res_ok : bool)             (* curl_easy_perform returned *)
| PcMarkDone
| PcAcquire                                          (* before the pool's lock *)
| PcScan (i : nat) (victim : option nat) (victim_remaining : Z)
| PcSplit (victim : nat)
| PcStore (victim : nat) (split le : Z)
| PcExit (ok : bool).

(** The part of [WorkerContext] that changes. *)
Record Worker := mkWorker {
  w_range : Range;
  w_slot : nat;
  w_bytes_done : Z;
  w_truncated : bool;
  w_pslot : slot_ptr;
  w_pc : worker_pc;
}.

Definition set_pc (pc : worker_pc) (w : Worker) : Worker :=
  mkWorker (w_range w) (w_slot w) (w_bytes_done w) (w_truncated w) (w_pslot w) pc.

Definition set_truncated (w : Worker) : Worker :=
  mkWorker (w_range w) (w_slot w) (w_bytes_done w) true (w_pslot w) (w_pc w).

(** [sh_slots] is [None] when [worker_pool_run] gets no rebalance pool.
    [sh_tainted] is a ghost: some response had a status the verdict refuses. *)
Record Shared (L : Type) := mkShared {
  sh_slots : option (list PoolSlot);
  sh_lock : option nat;
  sh_file : regular;
  sh_total : Z;
  sh_listener : L;
  sh_spawn_failed : bool;
  sh_tainted : bool;
}.
Arguments mkShared {L}.
Arguments sh_slots {L}.
Arguments sh_lock {L}.
Arguments sh_file {L}.
Arguments sh_total {L}.
Arguments sh_listener {L}.
Arguments sh_spawn_failed {L}.
Arguments sh_tainted {L}.

Inductive event :=
| EvSpawn (ok : bool)
| EvInitFail
| EvRespond (status : Z) (body : Z -> Z)
| EvBlock (stop bandwidth_ok : bool) (total : Z)
| EvEnd (res_ok : bool)
| EvTau.

(** The HTTP side: the possible responses (status and body) to a request for a
    range, and how many bytes the complete body of such a response has. *)
Record HttpServer := mkServer {
  answers : option (Z * Z) -> Z -> (Z -> Z) -> Prop;
  full_body : option (Z * Z) -> Z -> Z -> Prop;
}.

(** Configuration of a run. *)
Record PoolConf := mkConf {
  cf_env : IoEnv;
  cf_min_steal_bytes : Z;
  cf_total_workers : Z;
}.

(** ** RebalancePool *)

Definition rebalance_pool_create {L} `{SplitListener L} (l : L) (ranges : list Range)
    : list PoolSlot :=
  imap (fun i r => let start := u64 (rg_start r + rg_resume_offset r) in
                   mkSlot start start (u64 (rg_end r + 1)) true false (progress_slots l i))
       (take (Z.to_nat MAX_WORKERS) ranges).

Definition slot_at (sl : list PoolSlot) (i : nat) : PoolSlot :=
  default (mkSlot 0 0 0 false false PIndet) (sl !! i).

Definition set_live_end (e : Z) (s : PoolSlot) : PoolSlot :=
  mkSlot (ps_start s) (ps_write_pos s) e (ps_claimed s) (ps_exhausted s) (ps_progress_slot s).
Definition set_claim (claimed exhausted : bool) (s : PoolSlot) : PoolSlot :=
  mkSlot (ps_start s) (ps_write_pos s) (ps_live_end s) claimed exhausted (ps_progress_slot s).
Definition add_write_pos (n : Z) (s : PoolSlot) : PoolSlot :=
  mkSlot (ps_start s) (u64 (ps_write_pos s + n)) (ps_live_end s) (ps_claimed s) (ps_exhausted s)
    (ps_progress_slot s).

(** Phase 1 of [rebalance_pool_acquire]: an unclaimed, unfinished slot. *)
Definition orphaned (s : PoolSlot) : bool := negb (ps_exhausted s) && negb (ps_claimed s).

Definition find_orphan (sl : list PoolSlot) : option nat :=
  fst <$> list_find (fun s => orphaned s = true) sl.

(** Phase 2, one slot: keep the busiest one seen so far. *)
Definition scan_slot (s : PoolSlot) (i : nat) (victim : option nat) (victim_remaining : Z)
    : option nat * Z :=
  if ps_exhausted s then (victim, victim_remaining)
  else if negb (ps_claimed s) then (victim, victim_remaining)
  else
    let wp := ps_write_pos s in
    let le := ps_live_end s in
    let remaining := if wp <? le then u64 (le - wp) else 0 in
    if victim_remaining <? remaining then (Some i, remaining) else (victim, victim_remaining).

(** The decision after phase 2: the slot to split, or give up. *)
Definition scan_result (min_steal : Z) (slot_count : nat) (victim : option nat)
    (victim_remaining : Z) : option nat :=
  match victim with
  | None => None
  | Some v =>
      if (victim_remaining <? min_steal) || (MAX_WORKERS <=? Z.of_nat slot_count) then None
      else Some v
  end.

Definition split_point (wp le : Z) : Z := u64 (wp + u64 (le - wp) / 2).

(** ** run_one_segment *)

Definition intended_write_offset (w : Worker) : Z :=
  u64 (rg_start (w_range w) + rg_resume_offset (w_range w)).

(** The Range header of the request; [None] asks for the whole resource. *)
Definition request_range (w : Worker) : option (Z * Z) :=
  if rg_whole_file (w_range w) then None
  else Some (intended_write_offset w, rg_end (w_range w)).

Definition expected_bytes (slots : option (list PoolSlot)) (w : Worker) : Z :=
  let off := intended_write_offset w in
  match slots with
  | Some sl =>
      let live_end := ps_live_end (slot_at sl (w_slot w)) in
      if off <? live_end then u64 (live_end - off) else 0
  | None =>
      if off <=? rg_end (w_range w) then u64 (u64 (rg_end (w_range w) - off) + 1) else 0
  end.

Definition http_ok (total_workers : Z) (w : Worker) (status : Z) : bool :=
  (status =? 206) ||
  ((status =? 200) &&
     (rg_whole_file (w_range w) || ((total_workers =? 1) && (intended_write_offset w =? 0)))).

Definition segment_succeeded (cf : PoolConf) (slots : option (list PoolSlot)) (w : Worker)
    (status : Z) (res_ok : bool) : bool :=
  http_ok (cf_total_workers cf) w status && (w_bytes_done w =? expected_bytes slots w)
  && (res_ok || w_truncated w).

(** The write callback answers [r]: anything but [total] stops the transfer. *)
Definition callback_return (status : Z) (body : Z -> Z) (r total : Z) : worker_pc :=
  if r =? total then PcTransfer status body else PcVerdict status false.

(** From the entry of [worker_write_callback] to its [file_pwrite]. *)
Definition callback_enter (slots : option (list PoolSlot)) (w : Worker) (status : Z)
    (body : Z -> Z) (stop bandwidth_ok : bool) (total : Z) : Worker :=
  if stop then set_pc (callback_return status body 0 total) w
  else if negb bandwidth_ok then set_pc (callback_return status body 0 total) w
  else
    let current_offset := u64 (rg_start (w_range w) + rg_resume_offset (w_range w)
                               + w_bytes_done w) in
    match slots with
    | None => set_pc (PcWrite status body total total current_offset) w
    | Some sl =>
        let live_end := ps_live_end (slot_at sl (w_slot w)) in
        if live_end <=? current_offset then
          set_pc (callback_return status body 0 total) (set_truncated w)
        else
          let allowed := u64 (live_end - current_offset) in
          if allowed <? total then
            set_pc (PcWrite status body total allowed current_offset) (set_truncated w)
          else set_pc (PcWrite status body total total current_offset) w
    end.

(** The first [n] bytes of the block being received. *)
Definition block_bytes (body : Z -> Z) (from n : Z) : bytes := map body (seqZ from n).

(** ** Transitions of a worker thread *)

Section Step.

Context {L : Type} `{SplitListener L}.
Context (cf : PoolConf).

Definition with_slots (slots : option (list PoolSlot)) (sh : Shared L) : Shared L :=
  mkShared slots (sh_lock sh) (sh_file sh) (sh_total sh) (sh_listener sh)
    (sh_spawn_failed sh) (sh_tainted sh).
Definition with_lock (lock : option nat) (sh : Shared L) : Shared L :=
  mkShared (sh_slots sh) lock (sh_file sh) (sh_total sh) (sh_listener sh)
    (sh_spawn_failed sh) (sh_tainted sh).
Definition with_file (f : regular) (sh : Shared L) : Shared L :=
  mkShared (sh_slots sh) (sh_lock sh) f (sh_total sh) (sh_listener sh)
    (sh_spawn_failed sh) (sh_tainted sh).
Definition with_progress (total : Z) (l : L) (sh : Shared L) : Shared L :=
  mkShared (sh_slots sh) (sh_lock sh) (sh_file sh) total l
    (sh_spawn_failed sh) (sh_tainted sh).
Definition with_spawn_failed (sh : Shared L) : Shared L :=
  mkShared (sh_slots sh) (sh_lock sh) (sh_file sh) (sh_total sh) (request_cancel (sh_listener sh))
    true (sh_tainted sh).
Definition with_taint (b : bool) (sh : Shared L) : Shared L :=
  mkShared (sh_slots sh) (sh_lock sh) (sh_file sh) (sh_total sh) (sh_listener sh)
    (sh_spawn_failed sh) (sh_tainted sh || b).

(** The counters updated after a successful write. *)
Definition commit (sh : Shared L) (w : Worker) (writable : Z) : Shared L :=
  let sh := match sh_slots sh with
            | Some sl => with_slots (Some (alter (add_write_pos writable) (w_slot w) sl)) sh
            | None => sh
            end in
  with_progress (u64 (sh_total sh + writable))
    (match w_pslot w with
     | PNull => sh_listener sh
     | p => add_progress (sh_listener sh) p writable
     end) sh.

Definition next_segment (w : Worker) (r : Range) (slot : nat) (p : slot_ptr) : Worker :=
  mkWorker r slot (w_bytes_done w) (w_truncated w) p PcSegment.

(** [me] is the index of the thread, for the ownership of the lock. *)
Definition worker_step (me : nat) (sh : Shared L) (w : Worker) (ev : event)
    : option (Shared L * Worker) :=
  match w_pc w, ev with
  | PcUnborn, EvSpawn ok =>
      if ok then Some (sh, set_pc PcSegment w) else Some (with_spawn_failed sh, w)
  | PcSegment, EvInitFail =>
      Some (sh, mkWorker (w_range w) (w_slot w) 0 false (w_pslot w) (PcExit false))
  | PcSegment, EvRespond status body =>
      let w' := mkWorker (w_range w) (w_slot w) 0 false (w_pslot w) (PcTransfer status body) in
      Some (with_taint (negb (http_ok (cf_total_workers cf) w' status)) sh, w')
  | PcTransfer status body, EvBlock stop bandwidth_ok total =>
      Some (sh, callback_enter (sh_slots sh) w status body stop bandwidth_ok total)
  | PcWrite status body total writable offset, EvTau =>
      match reg_pwrite_checked (cf_env cf) (sh_file sh)
              (block_bytes body (w_bytes_done w) writable) offset with
      | None => Some (sh, set_pc (callback_return status body 0 total) w)
      | Some f => Some (with_file f sh, set_pc (PcCommit status body total writable) w)
      end
  | PcCommit status body total writable, EvTau =>
      Some (commit sh w writable,
            mkWorker (w_range w) (w_slot w) (u64 (w_bytes_done w + writable)) (w_truncated w)
              (w_pslot w) (callback_return status body writable total))
  | PcTransfer status _, EvEnd res_ok => Some (sh, set_pc (PcVerdict status res_ok) w)
  | PcVerdict status res_ok, EvTau =>
      if segment_succeeded cf (sh_slots sh) w status res_ok then
        Some (sh, set_pc (match sh_slots sh with Some _ => PcMarkDone | None => PcExit true end) w)
      else Some (sh, set_pc (PcExit false) w)
  | PcMarkDone, EvTau =>
      match sh_lock sh, sh_slots sh with
      | None, Some sl =>
          Some (with_slots (Some (alter (set_claim false true) (w_slot w) sl)) sh,
                set_pc PcAcquire w)
      | _, _ => None
      end
  | PcAcquire, EvTau =>
      match sh_lock sh, sh_slots sh with
      | None, Some sl =>
          match find_orphan sl with
          | Some i =>
              let s := slot_at sl i in
              Some (with_slots (Some (<[i := set_claim true (ps_exhausted s) s]> sl)) sh,
                    next_segment w (mkRange (ps_write_pos s) (u64 (ps_live_end s - 1)) 0 false) i
                      (ps_progress_slot s))
          | None => Some (with_lock (Some me) sh, set_pc (PcScan 0 None 0) w)
          end
      | _, _ => None
      end
  | PcScan i victim victim_remaining, EvTau =>
      match sh_slots sh with
      | None => None
      | Some sl =>
          match sl !! i with
          | Some s =>
              let '(v, r) := scan_slot s i victim victim_remaining in
              Some (sh, set_pc (PcScan (S i) v r) w)
          | None =>
              match scan_result (cf_min_steal_bytes cf) (length sl) victim victim_remaining with
              | None => Some (with_lock None sh, set_pc (PcExit true) w)
              | Some v => Some (sh, set_pc (PcSplit v) w)
              end
          end
      end
  | PcSplit victim, EvTau =>
      match sh_slots sh with
      | None => None
      | Some sl =>
          let s := slot_at sl victim in
          Some (sh, set_pc (PcStore victim (split_point (ps_write_pos s) (ps_live_end s))
                              (ps_live_end s)) w)
      end
  | PcStore victim split le, EvTau =>
      match sh_slots sh with
      | None => None
      | Some sl =>
          let l' := on_split (sh_listener sh) (ps_start (slot_at sl victim)) split le in
          let new_idx := length sl in
          let p := progress_slots l' new_idx in
          let sl' := alter (set_live_end split) victim sl
                       ++ [mkSlot split split le true false p] in
          Some (with_lock None (with_slots (Some sl') (with_progress (sh_total sh) l' sh)),
                next_segment w (mkRange split (u64 (le - 1)) 0 false) new_idx p)
      end
  | _, _ => None
  end.

(** ** Interleavings *)

Definition PoolState : Type := Shared L * list Worker.

Context (sv : HttpServer).

(** Largest block [worker_write_callback] is called with. *)
Context (max_block : Z).

(** [curl_easy_perform] answers CURLE_OK only for a complete body. *)
Definition event_ok (sh : Shared L) (ws : list Worker) (i : nat) (w : Worker) (ev : event)
    : Prop :=
  match ev with
  | EvSpawn _ =>
      sh_spawn_failed sh = false /\
      forall j w', (j < i)%nat -> ws !! j = Some w' -> w_pc w' <> PcUnborn
  | EvRespond status body => answers sv (request_range w) status body
  | EvBlock _ _ total => 0 <= total <= max_block
  | EvEnd true =>
      match w_pc w with
      | PcTransfer status _ => full_body sv (request_range w) status (w_bytes_done w)
      | _ => True
      end
  | _ => True
  end.

Inductive pool_step : PoolState -> PoolState -> Prop :=
| pool_step_intro sh ws i w ev sh' w' :
    ws !! i = Some w ->
    event_ok sh ws i w ev ->
    worker_step i sh w ev = Some (sh', w') ->
    pool_step (sh, ws) (sh', <[i := w']> ws).

(** Playing a schedule: which thread moves and what the outside decides, where
    [None] stands for the response of a server given as a function.  The result
    is [None] when a move is impossible or breaks [event_ok]. *)
Context (serve : option (Z * Z) -> Z * (Z -> Z) * Z).

Definition event_okb (sh : Shared L) (ws : list Worker) (i : nat) (w : Worker) (ev : event)
    : bool :=
  match ev with
  | EvSpawn _ =>
      negb (sh_spawn_failed sh) &&
      forallb (fun w' => match w_pc w' with PcUnborn => false | _ => true end) (take i ws)
  | EvRespond _ _ => false
  | EvBlock _ _ total => (0 <=? total) && (total <=? max_block)
  | EvEnd true =>
      match w_pc w with
      | PcTransfer status _ =>
          let '(st, _, len) := serve (request_range w) in
          (status =? st) && (w_bytes_done w =? len)
      | _ => true
      end
  | _ => true
  end.

Definition play_move (i : nat) (mv : option event) (st : PoolState) : option PoolState :=
  match snd st !! i with
  | None => None
  | Some w =>
      let legal := match mv with Some ev => event_okb (fst st) (snd st) i w ev | None => true end in
      let ev := match mv with
                | Some ev => ev
                | None =>
                    let '(status, body, _) := serve (request_range w) in EvRespond status body
                end in
      if legal then
        match worker_step i (fst st) w ev with
        | Some (sh', w') => Some (sh', <[i := w']> (snd st))
        | None => None
        end
      else None
  end.

Fixpoint play (sched : list (nat * option event)) (st : PoolState) : option PoolState :=
  match sched with
  | [] => Some st
  | (i, mv) :: sched' =>
      match play_move i mv st with Some st' => play sched' st' | None => None end
  end.

(** The server given as a function is one of the servers of the model. *)
Definition serves : Prop :=
  forall r, let '(status, body, len) := serve r in
    answers sv r status body /\ full_body sv r status len.

Lemma event_okb_ok sh ws i w ev :
  serves -> event_okb sh ws i w ev = true -> event_ok sh ws i w ev.
Proof.
  intros Hserve. destruct ev as [ok| |status body|stop bw total|[]|]; simpl; try done.
  - intros [Hs Hf]%andb_true_iff. apply negb_true_iff in Hs. split; [done|].
    intros j w' Hj Hw E. rewrite forallb_forall in Hf.
    assert (In w' (take i ws)) as Hin.
    { apply list_elem_of_In. eapply list_elem_of_lookup_2. by rewrite lookup_take_lt. }
    specialize (Hf _ Hin). by rewrite E in Hf.
  - intros [H1 H2]%andb_true_iff. apply Z.leb_le in H1, H2. lia.
  - destruct (w_pc w); try done. specialize (Hserve (request_range w)).
    destruct (serve (request_range w)) as [[st b] len].
    intros [H1 H2]%andb_true_iff. apply Z.eqb_eq in H1, H2. subst. apply Hserve.
Qed.

Lemma play_steps sched st st' :
  serves -> play sched st = Some st' -> rtc pool_step st st'.
Proof.
  intros Hserve. revert st. induction sched as [|[i mv] sched IH]; intros st Hp; cbn [play] in *.
  - injection Hp as ->. apply rtc_refl.
  - destruct (play_move i mv st) as [st1|] eqn:Em; [|done]. eapply rtc_l; [|by apply IH].
    destruct st as [sh ws]. unfold play_move in Em. cbn [fst snd] in Em.
    destruct (ws !! i) as [w|] eqn:Hw; [|done].
    destruct mv as [ev|].
    + destruct (event_okb sh ws i w ev) eqn:Eb; [|done].
      destruct (worker_step i sh w ev) as [[sh' w']|] eqn:Es; [|done]. injection Em as <-.
      eapply pool_step_intro; [done| |done]. by apply event_okb_ok.
    + pose proof (Hserve (request_range w)) as Ha.
      destruct (serve (request_range w)) as [[status body] len]. cbn beta iota zeta in Em.
      destruct (worker_step i sh w _) as [[sh' w']|] eqn:Es; [|done]. injection Em as <-.
      eapply pool_step_intro; [done| |done]. apply Ha.
Qed.

(** The contexts [worker_pool_run] prepares, before any thread is created. *)
Definition initial_worker (slots : nat -> slot_ptr) (i : nat) (r : Range) : Worker :=
  mkWorker r i 0 false (slots i) PcUnborn.

Definition pool_start (use_pool : bool) (slots : nat -> slot_ptr) (l : L) (total : Z)
    (f : regular) (ranges : list Range) : PoolState :=
  (mkShared (if use_pool then Some (rebalance_pool_create l ranges) else None) None f total l
     false false,
   imap (initial_worker slots) ranges).

(** The aggregated result once every created thread has been joined. *)
Definition joined (st : PoolState) : bool :=
  forallb (fun w => match w_pc w with
                    | PcExit _ => true
                    | PcUnborn => sh_spawn_failed (fst st)
                    | _ => false
                    end) (snd st).

Definition all_succeeded (st : PoolState) : bool :=
  negb (sh_spawn_failed (fst st)) &&
  forallb (fun w => match w_pc w with PcExit ok => ok | _ => true end) (snd st).

End Step.

(** [per_worker_limit] of [worker_pool_run] and the [CURLOPT_LOW_SPEED_LIMIT]
    derived from it. *)
Definition per_worker_limit (total_speed_limit_bps n_workers : Z) : Z :=
  if 0 <? total_speed_limit_bps then
    let l := total_speed_limit_bps / n_workers in if l =? 0 then 1 else l
  else 0.

Definition low_speed_limit (speed_limit_bps : Z) : Z :=
  if 0 <? speed_limit_bps then
    if speed_limit_bps <? 1024 then
      let l := speed_limit_bps / 2 in if l <? 1 then 1 else l
    else 1024
  else 1024.
