(* ===== verification/PoolInv.v ===== *)
(** * Correctness of the worker pool

    The invariant of [Pool.pool_step] with a rebalance pool, and what follows
    from it: no byte outside the ranges is ever written, no slot is orphaned,
    and when every worker reports success every byte of the ranges is the
    server's, whatever the interleaving of downloads and splits. *)

From S2P Require Import Prelude Segmenter FileIo Pool.

#[local] Set Warnings "-clear-no-such-hyp".

(** ** Vocabulary *)

(** First byte a segment has to fetch, without wrap-around. *)
Definition range_off (r : Range) : Z := rg_start r + rg_resume_offset r.
Definition w_off (w : Worker) : Z := range_off (w_range w).

(** What the caller of [worker_pool_run] guarantees of a range. *)
Record range_wf (r : Range) : Prop := {
  rw_start : 0 <= rg_start r;
  rw_resume : 0 <= rg_resume_offset r;
  rw_end : range_off r <= rg_end r + 1;
  rw_max : rg_end r + 1 <= OFF_MAX;
  rw_whole : rg_whole_file r = true -> range_off r = 0;
}.

(** The bytes the ranges still ask for. *)
Definition requested (ranges : list Range) (o : Z) : Prop :=
  exists r, r ∈ ranges /\ range_off r <= o <= rg_end r.

(** A thread owns its slot from the start of a segment until it has marked it
    done; a thread that failed keeps it for ever. *)
Definition owns (w : Worker) : bool :=
  match w_pc w with
  | PcAcquire | PcScan _ _ _ | PcSplit _ | PcStore _ _ _ | PcExit true => false
  | _ => true
  end.

Definition holds_lock (w : Worker) : bool :=
  match w_pc w with PcScan _ _ _ | PcSplit _ | PcStore _ _ _ => true | _ => false end.

(** Bytes checked against the bound of the slot and not yet accounted for. *)
Definition inflight (w : Worker) : Z :=
  match w_pc w with PcWrite _ _ _ n _ | PcCommit _ _ _ n => n | _ => 0 end.

(** Bytes of the current segment already accounted for. *)
Definition written (w : Worker) : Z :=
  match w_pc w with PcUnborn | PcSegment => 0 | _ => w_bytes_done w end.

Definition pc_body (w : Worker) : option (Z -> Z) :=
  match w_pc w with
  | PcTransfer _ b | PcWrite _ b _ _ _ | PcCommit _ b _ _ => Some b
  | _ => None
  end.

(** The thread is bound to report failure. *)
Definition bad (total_workers : Z) (w : Worker) : Prop :=
  match w_pc w with
  | PcTransfer st _ | PcWrite st _ _ _ _ | PcCommit st _ _ _ | PcVerdict st _ =>
      http_ok total_workers w st = false
  | PcExit false => True
  | _ => False
  end.

Record slot_wf (s : PoolSlot) : Prop := {
  sw_start : 0 <= ps_start s;
  sw_pos : ps_start s <= ps_write_pos s <= OFF_MAX;
  sw_end : ps_start s <= ps_live_end s <= OFF_MAX;
}.

Lemma OFF_MAX_val : OFF_MAX = 9223372036854775807. Proof. reflexivity. Qed.
Ltac olia := rewrite ?OFF_MAX_val in *; zlia.

(** The ranges of a fresh plan. *)
Lemma fresh_tiles_wf total rs :
  tiles 0 total rs -> Forall fresh_range rs -> total <= OFF_MAX -> Forall range_wf rs.
Proof.
  intros Htl Hfr Hmax. apply Forall_forall. intros r Hr. pose proof (tiles_in_range _ _ _ _ Htl Hr).
  rewrite Forall_forall in Hfr. destruct (Hfr r Hr) as [E1 E2].
  split; unfold range_off; rewrite ?E1, ?E2; done || lia.
Qed.

Lemma fresh_tiles_requested total rs :
  tiles 0 total rs -> Forall fresh_range rs -> forall o, 0 <= o < total <-> requested rs o.
Proof.
  intros Htl Hfr o. rewrite Forall_forall in Hfr. split.
  - intros Ho. destruct (tiles_unique _ _ _ _ Htl Ho) as (i & r & Hi & Hr & _). exists r.
    apply list_elem_of_lookup_2 in Hi. destruct (Hfr r Hi) as [E _].
    unfold range_off, in_range in *. split; [done|lia].
  - intros (r & Hr & Ho). pose proof (tiles_in_range _ _ _ _ Htl Hr). destruct (Hfr r Hr) as [E _].
    unfold range_off in Ho. lia.
Qed.

Section Invariant.

Context (min_steal max_block total_workers : Z).
Context (content : Z -> Z) (file0 : regular) (R : Z -> Prop).
Hypothesis block_le_steal : 0 <= max_block <= min_steal.
Hypothesis steal_pos : 0 < min_steal.

(** The slot a lock holder is about to split. *)
Definition victim_of (w : Worker) : option nat :=
  match w_pc w with
  | PcScan _ (Some v) rem => if min_steal <=? rem then Some v else None
  | PcSplit v | PcStore v _ _ => Some v
  | _ => None
  end.

(** Facts on the slot [s] of an owner. *)
Record owner_ok (file : regular) (tainted : bool) (w : Worker) (s : PoolSlot) : Prop := {
  oo_claimed : ps_claimed s = true;
  oo_live : ps_exhausted s = false;
  oo_start : ps_start s = w_off w;
  oo_pos : ps_write_pos s = ps_start s + written w;
  oo_inflight : 0 <= inflight w <= max_block /\ ps_write_pos s + inflight w <= OFF_MAX;
  oo_region : forall o, ps_write_pos s <= o < ps_write_pos s + inflight w -> R o;
  oo_body : forall b, pc_body w = Some b -> tainted = false -> forall k, b k = content (w_off w + k);
  oo_write : forall st b t n off, w_pc w = PcWrite st b t n off -> off = ps_write_pos s;
  oo_commit : forall st b t n, w_pc w = PcCommit st b t n -> tainted = false ->
    forall o, ps_write_pos s <= o < ps_write_pos s + n -> reg_byte file o = content o;
  oo_done : w_pc w = PcMarkDone -> ps_live_end s <= ps_write_pos s;
}.

Record w_ok (sl : list PoolSlot) (file : regular) (tainted : bool) (w : Worker) : Prop := {
  wo_whole : rg_whole_file (w_range w) = true -> w_off w = 0;
  wo_owner : owns w = true -> exists s, sl !! w_slot w = Some s /\ owner_ok file tainted w s;
  wo_store : forall v split le, w_pc w = PcStore v split le ->
    exists s, sl !! v = Some s /\ le = ps_live_end s /\ ps_start s <= split <= le;
}.

(** No thread is about to write past the bound of slot [v]. *)
Definition safe_slot (sl : list PoolSlot) (ws : list Worker) (v : nat) : Prop :=
  forall j w s, ws !! j = Some w -> owns w = true -> w_slot w = v -> sl !! v = Some s ->
    ps_write_pos s + inflight w <= ps_live_end s.

Record inv (sl : list PoolSlot) (lock : option nat) (file : regular) (tainted : bool)
    (ws : list Worker) : Prop := {
  i_slots : Forall slot_wf sl;
  i_work : forall j w, ws !! j = Some w -> w_ok sl file tainted w;
  i_dist : forall j j' w w', ws !! j = Some w -> ws !! j' = Some w' ->
    owns w = true -> owns w' = true -> w_slot w = w_slot w' -> j = j';
  i_orph : forall k s, sl !! k = Some s ->
    (ps_exhausted s = true /\ ps_live_end s <= ps_write_pos s) \/
    (ps_exhausted s = false /\ ps_claimed s = true /\
     exists j w, ws !! j = Some w /\ owns w = true /\ w_slot w = k);
  i_region : forall o, R o <-> exists k s, sl !! k = Some s /\ ps_start s <= o < ps_live_end s;
  i_out : forall o, ~ R o -> reg_byte file o = reg_byte file0 o;
  i_data : tainted = false -> forall k s o, sl !! k = Some s ->
    ps_start s <= o < ps_write_pos s -> reg_byte file o = content o;
  i_size : reg_size file0 <= reg_size file;
  i_taint : tainted = true -> exists j w, ws !! j = Some w /\ bad total_workers w;
  i_lock : forall j w, ws !! j = Some w -> holds_lock w = true -> lock = Some j;
  i_vict : forall j w v, ws !! j = Some w -> victim_of w = Some v ->
    (exists s, sl !! v = Some s /\ ps_exhausted s = false) /\ safe_slot sl ws v;
}.

Lemma holds_not_owns w : holds_lock w = true -> owns w = false.
Proof. unfold holds_lock, owns. by destruct (w_pc w) as [| | | | | | | | | | |[]]. Qed.

Lemma victim_holds w v : victim_of w = Some v -> holds_lock w = true.
Proof. unfold victim_of, holds_lock. by destruct (w_pc w). Qed.

Lemma inv_slot sl lock file t ws k s : inv sl lock file t ws -> sl !! k = Some s -> slot_wf s.
Proof. intros Hi Hk. exact (proj1 (Forall_lookup _ _) (i_slots _ _ _ _ _ Hi) k s Hk). Qed.

(** The owner's slot and facts, in one call. *)
Lemma inv_owner sl lock file t ws i w :
  inv sl lock file t ws -> ws !! i = Some w -> owns w = true ->
  exists s, sl !! w_slot w = Some s /\ owner_ok file t w s /\ slot_wf s.
Proof.
  intros Hi Hw Ho. destruct (wo_owner _ _ _ _ (i_work _ _ _ _ _ Hi _ _ Hw) Ho) as (s & Hs & ?).
  exists s. split; [done|]. split; [done|]. by eapply inv_slot.
Qed.

Lemma w_ok_taint sl file t t' w :
  (t' = false -> t = false) -> w_ok sl file t w -> w_ok sl file t' w.
Proof.
  intros Ht [H1 H2 H3]. split; [done| |done]. intros Ho. destruct (H2 Ho) as (s & Hs & Hok).
  exists s. split; [done|]. destruct Hok. split; eauto.
Qed.

Lemma insert_Some_cases {A} (l : list A) i j x y :
  <[i := x]> l !! j = Some y -> (j = i /\ y = x) \/ (j <> i /\ l !! j = Some y).
Proof. intros [(-> & -> & _)|(? & ?)]%list_lookup_insert_Some; auto. Qed.

(** ** Steps that change one thread and neither the slots nor the file *)

Definition lock_change (lock lock' : option nat) (i : nat) (w w' : Worker) : Prop :=
  (lock' = lock /\ (holds_lock w' = true -> holds_lock w = true)) \/
  (lock = None /\ lock' = Some i) \/
  (lock = Some i /\ lock' = None /\ holds_lock w' = false).

Lemma inv_local sl lock lock' file t b ws i w w' :
  inv sl lock file t ws -> ws !! i = Some w ->
  owns w' = owns w -> w_slot w' = w_slot w ->
  w_ok sl file (t || b) w' ->
  (forall s, sl !! w_slot w = Some s -> owns w = true ->
     inflight w' <= inflight w \/ ps_write_pos s + inflight w' <= ps_live_end s) ->
  lock_change lock lock' i w w' ->
  (b = true -> bad total_workers w') -> (bad total_workers w -> bad total_workers w') ->
  (forall v, victim_of w' = Some v ->
     (exists s, sl !! v = Some s /\ ps_exhausted s = false) /\ safe_slot sl ws v) ->
  inv sl lock' file (t || b) (<[i := w']> ws).
Proof.
  intros Hi Hw Ho Hs Hok Hfl Hlk Hb Hbad Hv.
  assert (forall v, safe_slot sl ws v -> safe_slot sl (<[i := w']> ws) v) as Hsafe.
  { intros v Hsf j x s Hj Hox Hx Hk. apply insert_Some_cases in Hj as [[-> ->]|[? Hj]]; [|eauto].
    rewrite Hs in Hx. rewrite Ho in Hox. subst v. specialize (Hsf i w s Hw Hox eq_refl Hk).
    destruct (Hfl s Hk Hox); lia. }
  assert (i < length ws)%nat as Hlt by (by eapply lookup_lt_Some).
  split.
  - apply (i_slots _ _ _ _ _ Hi).
  - intros j x [[-> ->]|[? Hj]]%insert_Some_cases; [done|].
    eapply w_ok_taint; [|exact (i_work _ _ _ _ _ Hi _ _ Hj)]. by destruct t.
  - intros j j' x x' Hj Hj' Hx Hx' E.
    apply insert_Some_cases in Hj as [[-> ->]|[? Hj]], Hj' as [[-> ->]|[? Hj']]; [done| | |].
    + apply (i_dist _ _ _ _ _ Hi i j' w x'); congruence.
    + apply (i_dist _ _ _ _ _ Hi j i x w); congruence.
    + by apply (i_dist _ _ _ _ _ Hi j j' x x').
  - intros k s Hk. destruct (i_orph _ _ _ _ _ Hi k s Hk) as [?|(? & ? & j & x & Hj & Hx & Hxk)];
      [by left|right]. split; [done|]. split; [done|].
    destruct (decide (j = i)) as [->|Hne].
    + exists i, w'. rewrite list_lookup_insert_eq by done. split; [done|]. split; congruence.
    + exists j, x. by rewrite list_lookup_insert_ne.
  - apply (i_region _ _ _ _ _ Hi).
  - apply (i_out _ _ _ _ _ Hi).
  - intros Ht. apply (i_data _ _ _ _ _ Hi). by destruct t.
  - apply (i_size _ _ _ _ _ Hi).
  - intros Ht. destruct b; [exists i, w'; rewrite list_lookup_insert_eq by done; auto|].
    destruct (i_taint _ _ _ _ _ Hi) as (j & x & Hj & Hx); [by destruct t|].
    destruct (decide (j = i)) as [->|Hne].
    + exists i, w'. rewrite list_lookup_insert_eq by done. split; [done|].
      apply Hbad. congruence.
    + exists j, x. by rewrite list_lookup_insert_ne.
  - intros j x [[-> ->]|[Hne Hj]]%insert_Some_cases Hx.
    + destruct Hlk as [[-> Hh]|[[-> ->]|(-> & -> & ?)]]; [|done|congruence].
      apply (i_lock _ _ _ _ _ Hi _ _ Hw). auto.
    + pose proof (i_lock _ _ _ _ _ Hi _ _ Hj Hx) as E.
      destruct Hlk as [[-> _]|[[-> ->]|(-> & -> & ?)]]; congruence.
  - intros j x v [[-> ->]|[Hne Hj]]%insert_Some_cases Hx.
    + destruct (Hv v Hx) as [? ?]. auto.
    + destruct (i_vict _ _ _ _ _ Hi _ _ _ Hj Hx) as [? ?]. auto.
Qed.

(** An owner that is neither writing nor about to: only its slot facts matter. *)
Definition in_io (w : Worker) : bool :=
  match w_pc w with PcWrite _ _ _ _ _ | PcCommit _ _ _ _ | PcStore _ _ _ => true | _ => false end.

Lemma idle_ok sl file t t' w w' s :
  w_ok sl file t w -> sl !! w_slot w = Some s -> owner_ok file t w s ->
  w_range w' = w_range w -> w_slot w' = w_slot w -> written w' = written w ->
  in_io w' = false ->
  (forall b, pc_body w' = Some b -> t' = false -> forall k, b k = content (w_off w + k)) ->
  (w_pc w' = PcMarkDone -> ps_live_end s <= ps_write_pos s) ->
  w_ok sl file t' w'.
Proof.
  intros Hok Hs [] Hr Hsl Hwr Hio Hbody Hdone.
  assert (w_off w' = w_off w) as Hoff by (unfold w_off; by rewrite Hr).
  assert (inflight w' = 0) as Hin by (revert Hio; unfold in_io, inflight; by destruct (w_pc w')).
  split.
  - rewrite Hr, Hoff. apply (wo_whole _ _ _ _ Hok).
  - intros _. exists s. rewrite Hsl. split; [done|]. split; rewrite ?Hoff, ?Hwr, ?Hin; try done.
    + lia.
    + intros o ?. lia.
    + intros st b tt n off E. revert Hio. unfold in_io. by rewrite E.
    + intros st b tt n E. revert Hio. unfold in_io. by rewrite E.
  - intros v sp le E. revert Hio. unfold in_io. by rewrite E.
Qed.

Lemma http_ok_range w w' st :
  w_range w' = w_range w -> http_ok total_workers w' st = http_ok total_workers w st.
Proof. unfold http_ok, intended_write_offset. by intros ->. Qed.

(** [inv_local] for such a step. *)
Lemma inv_idle sl lock file t b ws i w w' s :
  inv sl lock file t ws -> ws !! i = Some w -> owns w = true -> owns w' = true ->
  sl !! w_slot w = Some s -> owner_ok file t w s ->
  w_range w' = w_range w -> w_slot w' = w_slot w -> written w' = written w ->
  in_io w' = false ->
  (forall c, pc_body w' = Some c -> t || b = false -> forall k, c k = content (w_off w + k)) ->
  (w_pc w' = PcMarkDone -> ps_live_end s <= ps_write_pos s) ->
  (b = true -> bad total_workers w') -> (bad total_workers w -> bad total_workers w') ->
  inv sl lock file (t || b) (<[i := w']> ws).
Proof.
  intros Hi Hw Ho Ho' Hs Hok Hr Hsl Hwr Hio Hbody Hdone Hb Hbad.
  eapply (inv_local _ _ lock); try done; [congruence| | | | ].
  - eapply idle_ok; try done. by eapply (i_work _ _ _ _ _ Hi).
  - intros s' _ _. left. assert (inflight w' = 0) as ->.
    { revert Hio. unfold in_io, inflight. by destruct (w_pc w'). }
    destruct Hok. lia.
  - left. split; [done|]. intros Hh. apply holds_not_owns in Hh. congruence.
  - intros v Hv. apply victim_holds, holds_not_owns in Hv. congruence.
Qed.

(** The outcomes of the callback that write nothing. *)
Lemma inv_callback_abort sl lock file t ws i w w' s st body r total :
  inv sl lock file t ws -> ws !! i = Some w -> sl !! w_slot w = Some s -> owner_ok file t w s ->
  pc_body w = Some body ->
  (w_pc w = PcTransfer st body \/ exists n wr off, w_pc w = PcWrite st body n wr off) ->
  w_range w' = w_range w -> w_slot w' = w_slot w -> w_bytes_done w' = w_bytes_done w ->
  w_pc w' = callback_return st body r total ->
  inv sl lock file t (<[i := w']> ws).
Proof.
  intros Hi Hw Hs Hok Hb Hpc Hr Hsl Hbd Hpc'. rewrite <- (orb_false_r t).
  assert (http_ok total_workers w' st = http_ok total_workers w st) as Hh by by apply http_ok_range.
  assert (owns w = true /\ written w = w_bytes_done w /\
          (bad total_workers w -> http_ok total_workers w st = false)) as (Ho & Hwr & Hbad).
  { unfold owns, written, bad. by destruct Hpc as [->|(? & ? & ? & ->)]. }
  eapply inv_idle; try done.
  - unfold owns. rewrite Hpc'. unfold callback_return. by case_bool.
  - rewrite Hwr. unfold written. rewrite Hpc', <- Hbd. unfold callback_return. by case_bool.
  - unfold in_io. rewrite Hpc'. unfold callback_return. by case_bool.
  - rewrite orb_false_r. unfold pc_body at 1. rewrite Hpc'. unfold callback_return.
    case_bool; [|done]. intros c [= <-]. by apply (oo_body _ _ _ _ Hok).
  - rewrite Hpc'. unfold callback_return. by case_bool.
  - intros Hbw. specialize (Hbad Hbw). unfold bad. rewrite Hpc'. unfold callback_return.
    case_bool; congruence.
Qed.

(** A block has been checked against the bound of the slot. *)
Lemma inv_callback_write sl lock file t ws i w w' s st body total n off :
  inv sl lock file t ws -> ws !! i = Some w -> sl !! w_slot w = Some s -> owner_ok file t w s ->
  w_pc w = PcTransfer st body ->
  w_range w' = w_range w -> w_slot w' = w_slot w -> w_bytes_done w' = w_bytes_done w ->
  w_pc w' = PcWrite st body total n off ->
  off = ps_write_pos s -> 0 <= n <= max_block -> off + n <= ps_live_end s ->
  inv sl lock file t (<[i := w']> ws).
Proof.
  intros Hi Hw Hs Hok Hpc Hr Hsl Hbd Hpc' -> Hn Hle. rewrite <- (orb_false_r t).
  assert (http_ok total_workers w' st = http_ok total_workers w st) as Hh by by apply http_ok_range.
  assert (owns w = true /\ owns w' = true) as [Ho Ho'] by (unfold owns; by rewrite Hpc, Hpc').
  assert (inflight w' = n) as Hin by (unfold inflight; by rewrite Hpc').
  assert (w_off w' = w_off w) as Hoff by (unfold w_off; by rewrite Hr).
  assert (slot_wf s) as [] by by eapply inv_slot.
  eapply (inv_local _ _ lock); try done; [congruence| | | | |].
  - rewrite orb_false_r. split.
    + rewrite Hr, Hoff. by eapply (wo_whole _ _ _ _ (i_work _ _ _ _ _ Hi _ _ Hw)).
    + intros _. exists s. rewrite Hsl. split; [done|].
      destruct Hok. split; rewrite ?Hoff, ?Hin; try done.
      * rewrite oo_pos0. unfold written. rewrite Hpc, Hpc'. lia.
      * lia.
      * intros o Hoo. apply (i_region _ _ _ _ _ Hi). exists (w_slot w), s. split; [done|lia].
      * unfold pc_body. rewrite Hpc'. intros b [= <-]. apply oo_body0. unfold pc_body. by rewrite Hpc.
      * intros ? ? ? ? ?. rewrite Hpc'. by intros [=].
      * intros ? ? ? ?. by rewrite Hpc'.
      * by rewrite Hpc'.
    + intros ? ? ?. by rewrite Hpc'.
  - intros s' Hs' _. right. rewrite Hs in Hs'. injection Hs' as <-. lia.
  - left. split; [done|]. unfold holds_lock. by rewrite Hpc'.
  - unfold bad. rewrite Hpc, Hpc'. congruence.
  - unfold victim_of. by rewrite Hpc'.
Qed.

(** ** Writing the block *)

Lemma block_bytes_lookup body from n k :
  0 <= k < n -> block_bytes body from n !! Z.to_nat k = Some (body (from + k)).
Proof.
  intros H. unfold block_bytes. change (map body (seqZ from n)) with (body <$> seqZ from n).
  replace (from + k) with (from + Z.of_nat (Z.to_nat k)) by lia.
  apply list_lookup_fmap_Some_2, lookup_seqZ_lt. lia.
Qed.

Lemma strlen_block_bytes body from n : 0 <= n -> strlen (block_bytes body from n) = n.
Proof. intros H. unfold strlen, block_bytes. rewrite length_map, length_seqZ. lia. Qed.

Lemma block_write_byte f body from n off o :
  0 <= n ->
  reg_byte (reg_pwrite f off (block_bytes body from n)) o =
    if decide (off <= o < off + n) then body (from + (o - off)) else reg_byte f o.
Proof.
  intros Hn. rewrite reg_pwrite_byte, strlen_block_bytes by done. case_decide; [|done].
  by rewrite block_bytes_lookup by lia.
Qed.

Lemma reg_pwrite_size f off buf : reg_size f <= reg_size (reg_pwrite f off buf).
Proof. destruct buf; simpl; lia. Qed.

(** A change of the file that only brings requested bytes to their final value. *)
Lemma inv_file sl lock file file' t ws :
  inv sl lock file t ws ->
  (forall o, ~ R o -> reg_byte file' o = reg_byte file o) ->
  (t = false -> forall o, reg_byte file' o = reg_byte file o \/ reg_byte file' o = content o) ->
  reg_size file <= reg_size file' ->
  inv sl lock file' t ws.
Proof.
  intros Hi Hout Hin Hsz. destruct Hi. split; try done.
  - intros j w Hj. destruct (i_work0 j w Hj) as [H1 H2 H3]. split; [done| |done].
    intros Ho. destruct (H2 Ho) as (s & Hs & []). exists s. split; [done|]. split; try done.
    intros st b tt n E Ht o Hr. destruct (Hin Ht o) as [->|?]; [|done]. by eapply oo_commit0.
  - intros o Ho. rewrite Hout by done. auto.
  - intros Ht k s o Hk Hr. destruct (Hin Ht o) as [->|?]; [|done]. by eapply i_data0.
  - lia.
Qed.

Lemma inv_write sl lock file t ws i w s st body total n off :
  inv sl lock file t ws -> ws !! i = Some w -> sl !! w_slot w = Some s -> owner_ok file t w s ->
  w_pc w = PcWrite st body total n off ->
  inv sl lock (reg_pwrite file off (block_bytes body (w_bytes_done w) n)) t
    (<[i := set_pc (PcCommit st body total n) w]> ws).
Proof.
  intros Hi Hw Hs Hok Hpc. set (file' := reg_pwrite _ _ _).
  assert (owns w = true) as Ho by (unfold owns; by rewrite Hpc).
  assert (inflight w = n) as Hin by (unfold inflight; by rewrite Hpc).
  assert (written w = w_bytes_done w) as Hwr by (unfold written; by rewrite Hpc).
  pose proof Hok as []. rewrite Hin, Hwr in *.
  assert (off = ps_write_pos s) as -> by by eapply oo_write0.
  assert (t = false -> forall o, ps_write_pos s <= o < ps_write_pos s + n ->
            reg_byte file' o = content o) as Hnew.
  { intros Ht o Hr. unfold file'. rewrite block_write_byte by lia. rewrite decide_True by lia.
    rewrite (oo_body0 body) by (done || (unfold pc_body; by rewrite Hpc)). f_equal. lia. }
  assert (inv sl lock file' t ws) as Hi'.
  { eapply inv_file; [done| | |apply reg_pwrite_size].
    - intros o Hr. unfold file'. rewrite block_write_byte by lia. rewrite decide_False; [done|].
      intros Hd. by apply Hr, oo_region0.
    - intros Ht o. destruct (decide (ps_write_pos s <= o < ps_write_pos s + n)) as [Hd|Hd].
      + right. auto.
      + left. unfold file'. rewrite block_write_byte by lia. by rewrite decide_False. }
  rewrite <- (orb_false_r t). eapply (inv_local _ _ lock); try done.
  - rewrite orb_false_r. destruct (i_work _ _ _ _ _ Hi _ _ Hw) as [H1 H2 H3]. split; [done| |done].
    intros _. exists s. split; [done|]. split; try done.
    + unfold pc_body. simpl. intros b [= <-]. apply oo_body0. unfold pc_body. by rewrite Hpc.
    + simpl. intros ? ? ? ? [= <- <- <- <-]. exact Hnew.
  - intros s' _ _. left. rewrite Hin. done.
  - by left.
  - unfold bad. simpl. by rewrite Hpc.
Qed.

(** ** Steps of an owner on its own slot *)

Lemma alter_insert_Some {A} (f : A -> A) (l : list A) (i : nat) x :
  l !! i = Some x -> alter f i l = <[i := f x]> l.
Proof.
  intros H. apply list_eq. intros j. rewrite list_lookup_alter.
  assert (i < length l)%nat by by eapply lookup_lt_Some.
  case_decide as E; [subst|].
  - by rewrite H, list_lookup_insert_eq.
  - by rewrite list_lookup_insert_ne.
Qed.

Section OwnSlot.

Context (sl : list PoolSlot) (lock : option nat) (file : regular) (t : bool) (ws : list Worker).
Context (i : nat) (w w' : Worker) (s s' : PoolSlot).
Hypothesis Hi : inv sl lock file t ws.
Hypothesis Hw : ws !! i = Some w.
Hypothesis Ho : owns w = true.
Hypothesis Hs : sl !! w_slot w = Some s.
Hypothesis Est : ps_start s' = ps_start s.
Hypothesis Ele : ps_live_end s' = ps_live_end s.
Hypothesis Er : w_range w' = w_range w.
Hypothesis Esl : w_slot w' = w_slot w.
Hypothesis Hnl : holds_lock w' = false.

(** The owner keeps the slot, or gives it up as it marks it done. *)
Hypothesis Hcase :
  (owns w' = true /\ ps_exhausted s' = false /\ ps_claimed s' = true /\ owner_ok file t w' s' /\
     ps_write_pos s' + inflight w' <= ps_write_pos s + inflight w) \/
  (owns w' = false /\ ps_exhausted s' = true /\ ps_live_end s' <= ps_write_pos s' /\ lock = None).

Lemma own_slot_new : <[w_slot w := s']> sl !! w_slot w = Some s'.
Proof. apply list_lookup_insert_eq. by eapply lookup_lt_Some. Qed.

Lemma own_slot_other j x : j <> i -> ws !! j = Some x -> owns x = true -> w_slot x <> w_slot w.
Proof. intros Hne Hj Hx E. apply Hne. by eapply (i_dist _ _ _ _ _ Hi). Qed.

Lemma own_slot_workers j x : <[i := w']> ws !! j = Some x -> w_ok (<[w_slot w := s']> sl) file t x.
Proof.
  pose proof own_slot_new as Hnew. intros [[-> ->]|[Hne Hj]]%insert_Some_cases.
  - split.
    + unfold w_off. rewrite Er. by apply (wo_whole _ _ _ _ (i_work _ _ _ _ _ Hi _ _ Hw)).
    + intros Hx. exists s'. rewrite Esl. destruct Hcase as [(_ & _ & _ & ? & _)|(? & _)]; [done|congruence].
    + intros v sp le E. unfold holds_lock in Hnl. by rewrite E in Hnl.
  - destruct (i_work _ _ _ _ _ Hi _ _ Hj) as [H1 H2 H3]. split; [done| |].
    + intros Hx. destruct (H2 Hx) as (x0 & Hx0 & ?). exists x0.
      rewrite list_lookup_insert_ne; [done|]. intros E. by eapply own_slot_other.
    + intros v sp le E. destruct (H3 v sp le E) as (x0 & Hx0 & -> & ?).
      destruct (decide (v = w_slot w)) as [->|Hv].
      * exists s'. rewrite Hs in Hx0. injection Hx0 as <-. by rewrite Est, Ele.
      * exists x0. by rewrite list_lookup_insert_ne.
Qed.

Lemma own_slot_distinct j j' x x' :
  <[i := w']> ws !! j = Some x -> <[i := w']> ws !! j' = Some x' -> owns x = true -> owns x' = true ->
  w_slot x = w_slot x' -> j = j'.
Proof.
  intros Hj Hj' Hx Hx' E. apply insert_Some_cases in Hj as [[-> ->]|[? Hj]], Hj' as [[-> ->]|[? Hj']]; [done| | |].
  - rewrite Esl in E. by destruct (own_slot_other j' x').
  - rewrite Esl in E. by destruct (own_slot_other j x).
  - by eapply (i_dist _ _ _ _ _ Hi).
Qed.

Lemma own_slot_orphans k x :
  <[w_slot w := s']> sl !! k = Some x ->
  (ps_exhausted x = true /\ ps_live_end x <= ps_write_pos x) \/
  (ps_exhausted x = false /\ ps_claimed x = true /\
   exists j y, <[i := w']> ws !! j = Some y /\ owns y = true /\ w_slot y = k).
Proof.
  assert (i < length ws)%nat as Hlti by by eapply lookup_lt_Some. intros [[-> ->]|[Hne Hk]]%insert_Some_cases.
  - destruct Hcase as [(? & ? & ? & _)|(? & ? & ? & _)]; [right|by left].
    split; [done|]. split; [done|]. exists i, w'. by rewrite list_lookup_insert_eq.
  - destruct (i_orph _ _ _ _ _ Hi k x Hk) as [?|(? & ? & j & y & Hj & Hy & Hyk)]; [by left|right].
    split; [done|]. split; [done|]. exists j, y. rewrite list_lookup_insert_ne; [done|]. intros <-. congruence.
Qed.

Lemma own_slot_region o :
  (exists k x, sl !! k = Some x /\ ps_start x <= o < ps_live_end x) <->
  (exists k x, <[w_slot w := s']> sl !! k = Some x /\ ps_start x <= o < ps_live_end x).
Proof.
  split; intros (k & x & Hk & Hx).
  - destruct (decide (k = w_slot w)) as [->|Hne].
    + exists (w_slot w), s'. rewrite Hs in Hk. injection Hk as <-. rewrite Est, Ele. split; [apply own_slot_new|done].
    + exists k, x. by rewrite list_lookup_insert_ne.
  - apply insert_Some_cases in Hk as [[-> ->]|[Hne Hk]]; [|by exists k, x].
    exists (w_slot w), s. by rewrite <- Est, <- Ele.
Qed.

Lemma own_slot_victims j x v :
  <[i := w']> ws !! j = Some x -> victim_of x = Some v ->
  (exists z, <[w_slot w := s']> sl !! v = Some z /\ ps_exhausted z = false) /\
  safe_slot (<[w_slot w := s']> sl) (<[i := w']> ws) v.
Proof.
  pose proof own_slot_new as Hnew. intros [[-> ->]|[Hne Hj]]%insert_Some_cases Hv.
  { apply victim_holds in Hv. congruence. }
  assert (lock = Some j) as Hlj by (eapply (i_lock _ _ _ _ _ Hi); [done|by eapply victim_holds]).
  destruct Hcase as [(Ho' & Hex & _ & _ & Hfl)|(_ & _ & _ & ?)]; [|congruence].
  destruct (i_vict _ _ _ _ _ Hi _ _ _ Hj Hv) as [(x0 & Hx0 & Hx0e) Hsafe]. split.
  - destruct (decide (v = w_slot w)) as [->|Hne']; [by exists s'|]. exists x0. by rewrite list_lookup_insert_ne.
  - intros a y z Ha Hy Hyv Hz. apply insert_Some_cases in Ha as [[-> ->]|[Hai Ha]].
    + rewrite Esl in Hyv. subst v. rewrite Hnew in Hz. injection Hz as <-. specialize (Hsafe i w s Hw Ho eq_refl Hs). lia.
    + apply insert_Some_cases in Hz as [[-> ->]|[Hvi Hz]]; [by destruct (own_slot_other a y)|by eapply Hsafe].
Qed.

End OwnSlot.

Lemma inv_slot_step sl lock file t ws i w w' s s' :
  inv sl lock file t ws -> ws !! i = Some w -> owns w = true ->
  sl !! w_slot w = Some s -> owner_ok file t w s -> slot_wf s' ->
  ps_start s' = ps_start s -> ps_live_end s' = ps_live_end s ->
  ps_write_pos s <= ps_write_pos s' ->
  (t = false -> forall o, ps_write_pos s <= o < ps_write_pos s' -> reg_byte file o = content o) ->
  w_range w' = w_range w -> w_slot w' = w_slot w -> holds_lock w' = false ->
  (bad total_workers w -> bad total_workers w') ->
  (owns w' = true /\ ps_exhausted s' = false /\ ps_claimed s' = true /\ owner_ok file t w' s' /\
     ps_write_pos s' + inflight w' <= ps_write_pos s + inflight w) \/
  (owns w' = false /\ ps_exhausted s' = true /\ ps_live_end s' <= ps_write_pos s' /\ lock = None) ->
  inv (<[w_slot w := s']> sl) lock file t (<[i := w']> ws).
Proof.
  intros Hi Hw Ho Hs Hok Hwf Est Ele Hpos Hdata Er Esl Hnl Hbad Hcase.
  assert (i < length ws)%nat as Hlti by by eapply lookup_lt_Some.
  split; try by destruct Hi.
  - apply Forall_insert; [by destruct Hi|done].
  - intros j x Hj. by eapply (own_slot_workers sl lock file t ws i w w' s s').
  - intros j j' x x' Hj Hj' Hx Hx' E. by eapply (own_slot_distinct sl lock file t ws i w w').
  - intros k x Hk. by eapply (own_slot_orphans sl lock file t ws i w w' s s').
  - intros o. rewrite (i_region _ _ _ _ _ Hi). by eapply own_slot_region.
  - intros Ht k x o [[-> ->]|[Hne Hk]]%insert_Some_cases Hx; [|by eapply (i_data _ _ _ _ _ Hi)].
    destruct (decide (o < ps_write_pos s)); [eapply (i_data _ _ _ _ _ Hi); [done|exact Hs|lia]|].
    apply Hdata; [done|lia].
  - intros Ht. destruct (i_taint _ _ _ _ _ Hi Ht) as (j & x & Hj & Hx). destruct (decide (j = i)) as [->|Hne].
    + exists i, w'. rewrite list_lookup_insert_eq by done. split; [done|]. apply Hbad. congruence.
    + exists j, x. by rewrite list_lookup_insert_ne.
  - intros j x [[-> ->]|[Hne Hj]]%insert_Some_cases Hx; [congruence|by eapply (i_lock _ _ _ _ _ Hi)].
  - intros j x v Hj Hv. by eapply (own_slot_victims sl lock file t ws i w w' s s').
Qed.

Lemma callback_return_cases st body r total :
  callback_return st body r total = PcTransfer st body \/
  callback_return st body r total = PcVerdict st false.
Proof. unfold callback_return. case_bool; auto. Qed.

Lemma inv_commit sl lock file t ws i w w' s st body total n :
  inv sl lock file t ws -> ws !! i = Some w -> sl !! w_slot w = Some s -> owner_ok file t w s ->
  w_pc w = PcCommit st body total n ->
  w_range w' = w_range w -> w_slot w' = w_slot w -> w_bytes_done w' = u64 (w_bytes_done w + n) ->
  w_pc w' = callback_return st body n total ->
  inv (alter (add_write_pos n) (w_slot w) sl) lock file t (<[i := w']> ws).
Proof.
  intros Hi Hw Hs Hok Hpc Er Esl Ebd Epc.
  assert (slot_wf s) as Hwf by by eapply inv_slot.
  assert (inflight w = n) as Hin by (unfold inflight; by rewrite Hpc).
  assert (written w = w_bytes_done w) as Hwr by (unfold written; by rewrite Hpc).
  assert (w_off w' = w_off w) as Hoff by (unfold w_off; by rewrite Er).
  pose proof Hok as []. rewrite Hin, Hwr in *. pose proof Hwf as [].
  assert (u64 (ps_write_pos s + n) = ps_write_pos s + n) as Hwp by (apply u64_small; olia).
  assert (w_bytes_done w' = w_bytes_done w + n) as Hbd by (rewrite Ebd; apply u64_small; olia).
  assert (written w' = w_bytes_done w' /\ inflight w' = 0 /\ owns w' = true /\
          holds_lock w' = false /\ (forall x, pc_body w' = Some x -> x = body)) as
    (Hwr' & Hin' & Ho' & Hl' & Hb').
  { unfold written, inflight, owns, holds_lock, pc_body. rewrite Epc.
    destruct (callback_return_cases st body n total) as [-> | ->]; naive_solver. }
  rewrite (alter_insert_Some _ _ _ _ Hs).
  eapply inv_slot_step; try done.
  - unfold owns. by rewrite Hpc.
  - split; simpl; rewrite ?Hwp; lia.
  - simpl. rewrite Hwp. lia.
  - intros Ht o. simpl. rewrite Hwp. by apply (oo_commit0 st body total n Hpc Ht).
  - unfold bad. rewrite Hpc, Epc, <- (http_ok_range w w') by done. unfold http_ok.
    destruct (callback_return_cases st body n total) as [-> | ->]; done.
  - left. split; [done|]. split; [done|]. split; [done|]. split; [|simpl; rewrite Hwp, Hin'; lia].
    split; simpl; rewrite ?Hoff, ?Hwp, ?Hin', ?Hwr', ?Hbd; try done; try lia.
    + intros b Hb. apply Hb' in Hb as ->. apply oo_body0. unfold pc_body. by rewrite Hpc.
    + rewrite Epc. by destruct (callback_return_cases st body n total) as [-> | ->].
    + rewrite Epc. by destruct (callback_return_cases st body n total) as [-> | ->].
    + rewrite Epc. by destruct (callback_return_cases st body n total) as [-> | ->].
Qed.

Lemma inv_mark_done sl file t ws i w s :
  inv sl None file t ws -> ws !! i = Some w -> sl !! w_slot w = Some s -> owner_ok file t w s ->
  w_pc w = PcMarkDone ->
  inv (alter (set_claim false true) (w_slot w) sl) None file t (<[i := set_pc PcAcquire w]> ws).
Proof.
  intros Hi Hw Hs Hok Hpc. assert (slot_wf s) as [] by by eapply inv_slot.
  pose proof (oo_done _ _ _ _ Hok Hpc). rewrite (alter_insert_Some _ _ _ _ Hs).
  eapply inv_slot_step; try done.
  - unfold owns. by rewrite Hpc.
  - intros _ o. simpl. lia.
  - unfold bad. by rewrite Hpc.
  - by right.
Qed.

(** ** Stealing *)

Lemma find_orphan_none sl lock file t ws : inv sl lock file t ws -> find_orphan sl = None.
Proof.
  intros Hi. unfold find_orphan. rewrite fmap_None. apply list_find_None.
  apply Forall_lookup. intros k s Hk. unfold orphaned.
  destruct (i_orph _ _ _ _ _ Hi k s Hk) as [[-> _]|(-> & -> & _)]; done.
Qed.

(** A step of a thread that owns no slot. *)
Lemma inv_free sl lock lock' file t ws i w w' :
  inv sl lock file t ws -> ws !! i = Some w -> owns w = false -> owns w' = false ->
  w_range w' = w_range w -> w_slot w' = w_slot w ->
  (forall v sp le, w_pc w' = PcStore v sp le ->
     exists s, sl !! v = Some s /\ le = ps_live_end s /\ ps_start s <= sp <= le) ->
  lock_change lock lock' i w w' ->
  (forall v, victim_of w' = Some v ->
     (exists s, sl !! v = Some s /\ ps_exhausted s = false) /\ safe_slot sl ws v) ->
  inv sl lock' file t (<[i := w']> ws).
Proof.
  intros Hi Hw Ho Ho' Er Es Hst Hl Hv. rewrite <- (orb_false_r t).
  eapply (inv_local _ lock lock'); try done; try congruence.
  - rewrite orb_false_r. split; [|congruence|done].
    unfold w_off. rewrite Er. by apply (wo_whole _ _ _ _ (i_work _ _ _ _ _ Hi _ _ Hw)).
  - unfold bad, owns in *. by destruct (w_pc w) as [| | | | | | | | | | |[]].
Qed.

Lemma inv_scan sl lock file t ws i w k v r s v' r' :
  inv sl lock file t ws -> ws !! i = Some w -> w_pc w = PcScan k v r -> sl !! k = Some s ->
  scan_slot s k v r = (v', r') ->
  inv sl lock file t (<[i := set_pc (PcScan (S k) v' r') w]> ws).
Proof.
  intros Hi Hw Hpc Hk Hsc.
  eapply (inv_free _ lock lock); try done.
  - unfold owns. by rewrite Hpc.
  - left. split; [done|]. unfold holds_lock. by rewrite Hpc.
  - intros x Hx. unfold victim_of in Hx. simpl in Hx.
    assert (forall y, v = Some y -> min_steal <= r -> victim_of w = Some y) as Hold.
    { intros y -> ?. unfold victim_of. rewrite Hpc. by rewrite (proj2 (Z.leb_le _ _)). }
    destruct v' as [y|]; [|done]. destruct (Z.leb_spec min_steal r'); [|done]. injection Hx as ->.
    revert Hsc. unfold scan_slot. assert (slot_wf s) as [] by by eapply inv_slot.
    destruct (ps_exhausted s) eqn:Eex; [intros [= -> ->]; eapply i_vict; eauto|].
    destruct (ps_claimed s); simpl; [|intros [= -> ->]; eapply i_vict; eauto].
    case_bool; [|intros [= -> ->]; eapply i_vict; eauto]. intros [= <- <-].
    split; [by exists s|].
    intros j a z Ha Hao Has Hz. rewrite Hk in Hz. injection Hz as <-.
    destruct (inv_owner _ _ _ _ _ _ _ Hi Ha Hao) as (z & Hz & [] & _).
    rewrite Has, Hk in Hz. injection Hz as <-.
    destruct (Z.ltb_spec (ps_write_pos s) (ps_live_end s)); [|lia].
    rewrite u64_small in * by olia. lia.
Qed.

Lemma split_point_val s :
  slot_wf s -> ps_write_pos s <= ps_live_end s ->
  split_point (ps_write_pos s) (ps_live_end s) = ps_write_pos s + (ps_live_end s - ps_write_pos s) / 2 /\
  0 <= (ps_live_end s - ps_write_pos s) / 2 <= ps_live_end s - ps_write_pos s.
Proof.
  intros [] Hle. assert (0 <= (ps_live_end s - ps_write_pos s) / 2 <= ps_live_end s - ps_write_pos s).
  { split; [apply Z.div_pos; lia|]. apply Z.div_le_upper_bound; lia. }
  unfold split_point. rewrite (u64_small (_ - _)), u64_small by olia. done.
Qed.

Lemma split_point_bounds s :
  slot_wf s -> ps_write_pos s <= ps_live_end s ->
  ps_start s <= split_point (ps_write_pos s) (ps_live_end s) <= ps_live_end s.
Proof. intros Hwf Hle. destruct (split_point_val s Hwf Hle) as [-> ?]. destruct Hwf. lia. Qed.

(** With two bytes left both halves get one. *)
Lemma split_point_inside s :
  slot_wf s -> ps_write_pos s + 2 <= ps_live_end s ->
  ps_start s < split_point (ps_write_pos s) (ps_live_end s) < ps_live_end s.
Proof.
  intros Hwf Hle. destruct (split_point_val s Hwf ltac:(lia)) as [-> ?]. destruct Hwf.
  assert (1 <= (ps_live_end s - ps_write_pos s) / 2 < ps_live_end s - ps_write_pos s); [|lia].
  split; [apply Z.div_le_lower_bound; lia|apply Z.div_lt; lia].
Qed.

(** Once a victim is chosen its worker cannot be past the bound: the bytes it
    has accounted for are within the slot. *)
Lemma victim_pos sl lock file t ws i w v s :
  inv sl lock file t ws -> ws !! i = Some w -> victim_of w = Some v -> sl !! v = Some s ->
  ps_write_pos s <= ps_live_end s.
Proof.
  intros Hi Hw Hv Hs. destruct (i_vict _ _ _ _ _ Hi _ _ _ Hw Hv) as [(s' & Hs' & He) Hsf].
  rewrite Hs in Hs'. injection Hs' as <-.
  destruct (i_orph _ _ _ _ _ Hi v s Hs) as [[? _]|(_ & _ & j & x & Hj & Hx & Hxv)]; [congruence|].
  specialize (Hsf j x s Hj Hx Hxv Hs).
  destruct (inv_owner _ _ _ _ _ _ _ Hi Hj Hx) as (z & Hz & [] & _).
  rewrite Hxv, Hs in Hz. injection Hz as <-. lia.
Qed.

Lemma inv_split sl lock file t ws i w v s :
  inv sl lock file t ws -> ws !! i = Some w -> w_pc w = PcSplit v -> sl !! v = Some s ->
  inv sl lock file t
    (<[i := set_pc (PcStore v (split_point (ps_write_pos s) (ps_live_end s)) (ps_live_end s)) w]> ws).
Proof.
  intros Hi Hw Hpc Hs.
  assert (victim_of w = Some v) as Hv by (unfold victim_of; by rewrite Hpc).
  eapply (inv_free _ lock lock); try done.
  - unfold owns. by rewrite Hpc.
  - simpl. intros v' sp le [= <- <- <-]. exists s. split; [done|]. split; [done|].
    apply split_point_bounds; [by eapply inv_slot|by eapply victim_pos].
  - left. split; [done|]. unfold holds_lock. by rewrite Hpc.
  - unfold victim_of. simpl. intros v' [= <-]. by eapply i_vict.
Qed.

(** The slots after a split: the victim ends at [split], and a new slot, already
    claimed, takes the rest. *)
Section SplitSlots.

Context (sl : list PoolSlot) (v : nat) (s : PoolSlot) (split : Z) (p : slot_ptr).
Hypothesis Hs : sl !! v = Some s.

Definition stolen_slot : PoolSlot := mkSlot split split (ps_live_end s) true false p.
Definition split_slots : list PoolSlot := <[v := set_live_end split s]> sl ++ [stolen_slot].

Lemma split_slots_new : split_slots !! length sl = Some stolen_slot.
Proof. unfold split_slots. rewrite lookup_app_r by (rewrite length_insert; lia). by rewrite length_insert, Nat.sub_diag. Qed.

Lemma split_slots_victim : split_slots !! v = Some (set_live_end split s).
Proof.
  assert (v < length sl)%nat by by eapply lookup_lt_Some.
  unfold split_slots. rewrite lookup_app_l by (rewrite length_insert; lia). by rewrite list_lookup_insert_eq.
Qed.

Lemma split_slots_keep k x : k <> v -> sl !! k = Some x -> split_slots !! k = Some x.
Proof.
  intros Hne Hk. assert (k < length sl)%nat by by eapply lookup_lt_Some.
  unfold split_slots. rewrite lookup_app_l by (rewrite length_insert; lia). by rewrite list_lookup_insert_ne.
Qed.

Lemma split_slots_cases k x :
  split_slots !! k = Some x ->
  (k = length sl /\ x = stolen_slot) \/ (k = v /\ x = set_live_end split s) \/ (k <> v /\ sl !! k = Some x).
Proof.
  intros [Hk|[Hge Hk]]%lookup_app_Some.
  - right. apply insert_Some_cases in Hk. tauto.
  - left. rewrite length_insert in *. apply list_lookup_singleton_Some in Hk as [E <-]. split; [lia|done].
Qed.

Lemma split_slots_wf : Forall slot_wf sl -> ps_start s <= split <= ps_live_end s -> Forall slot_wf split_slots.
Proof.
  intros Hall Hsp. destruct (proj1 (Forall_lookup _ _) Hall v s Hs). unfold split_slots. apply Forall_app. split.
  - apply Forall_insert; [done|]. split; simpl; lia.
  - apply Forall_singleton. split; simpl; olia.
Qed.

(** Together the slots ask for the same bytes. *)
Lemma split_slots_region o :
  ps_start s <= split <= ps_live_end s ->
  (exists k x, sl !! k = Some x /\ ps_start x <= o < ps_live_end x) <->
  (exists k x, split_slots !! k = Some x /\ ps_start x <= o < ps_live_end x).
Proof.
  intros Hsp. split; intros (k & x & Hk & Hx).
  - destruct (decide (k = v)) as [->|Hne].
    + rewrite Hs in Hk. injection Hk as <-. destruct (decide (o < split)).
      * exists v, (set_live_end split s). split; [apply split_slots_victim|]. simpl. lia.
      * exists (length sl), stolen_slot. split; [apply split_slots_new|]. simpl. lia.
    + exists k, x. split; [by apply split_slots_keep|done].
  - destruct (split_slots_cases k x Hk) as [[-> ->]|[[-> ->]|[Hne Hk']]].
    + exists v, s. split; [done|]. simpl in Hx. lia.
    + exists v, s. split; [done|]. simpl in Hx. lia.
    + by exists k, x.
Qed.

(** The owners of the other slots, and that of the victim, lose nothing. *)
Lemma split_slots_owner file t x :
  split <= ps_live_end s -> owns x = true -> (exists y, sl !! w_slot x = Some y /\ owner_ok file t x y) ->
  exists y, split_slots !! w_slot x = Some y /\ owner_ok file t x y.
Proof.
  intros Hsp Hx (y & Hy & Hoy). destruct (decide (w_slot x = v)) as [E|E].
  - exists (set_live_end split s). rewrite E in *. rewrite Hs in Hy. injection Hy as <-.
    split; [apply split_slots_victim|]. destruct Hoy. split; try done. simpl. intros Hd. specialize (oo_done0 Hd). lia.
  - exists y. split; [by apply split_slots_keep|done].
Qed.

End SplitSlots.

(** Nobody but the holder of the lock holds it. *)
Lemma only_holder sl file t ws i j x :
  inv sl (Some i) file t ws -> j <> i -> ws !! j = Some x -> holds_lock x = false.
Proof.
  intros Hi Hne Hj. destruct (holds_lock x) eqn:E; [|done]. pose proof (i_lock _ _ _ _ _ Hi _ _ Hj E). congruence.
Qed.

(** The thread that takes the new slot: it owns nothing before. *)
Lemma thief_ok sl v s split file t p w' :
  w_pc w' = PcSegment -> w_slot w' = length sl -> w_off w' = split -> rg_whole_file (w_range w') = false ->
  0 <= split <= OFF_MAX -> w_ok (split_slots sl v s split p) file t w'.
Proof.
  intros Epc Esl Eoff Ewf Hb. split; [congruence| |by rewrite Epc]. intros _. exists (stolen_slot s split p).
  rewrite Esl. split; [apply split_slots_new|].
  split; unfold inflight, written, pc_body; rewrite ?Epc; simpl; try done; try lia.
Qed.

Lemma inv_store sl lock file t ws i w w' v split le p s :
  inv sl lock file t ws -> ws !! i = Some w -> w_pc w = PcStore v split le -> sl !! v = Some s ->
  w_pc w' = PcSegment -> w_slot w' = length sl -> w_off w' = split ->
  rg_whole_file (w_range w') = false ->
  inv (<[v := set_live_end split s]> sl ++ [mkSlot split split le true false p]) None file t
    (<[i := w']> ws).
Proof.
  intros Hi Hw Hpc Hs Epc Esl Eoff Ewf.
  assert (owns w = false /\ holds_lock w = true /\ victim_of w = Some v) as (Ho & Hh & Hv)
    by (unfold owns, holds_lock, victim_of; by rewrite Hpc).
  assert (lock = Some i) as -> by by eapply i_lock.
  destruct (wo_store _ _ _ _ (i_work _ _ _ _ _ Hi _ _ Hw) v split le Hpc) as (s' & Hs' & -> & Hsp).
  rewrite Hs in Hs'. injection Hs' as <-. change (inv (split_slots sl v s split p) None file t (<[i := w']> ws)).
  destruct (i_vict _ _ _ _ _ Hi _ _ _ Hw Hv) as [(s' & Hs' & Hex) _]. rewrite Hs in Hs'. injection Hs' as <-.
  pose proof (inv_slot _ _ _ _ _ _ _ Hi Hs) as Hwf. destruct Hwf.
  assert (owns w' = true /\ (i < length ws)%nat) as [Ho' Hlti].
  { unfold owns. rewrite Epc. split; [done|]. by eapply lookup_lt_Some. }
  assert (forall j x, ws !! j = Some x -> owns x = true -> (w_slot x < length sl)%nat) as Hb.
  { intros j x Hj Hx. destruct (inv_owner _ _ _ _ _ _ _ Hi Hj Hx) as (z & Hz & _). by eapply lookup_lt_Some. }
  pose proof Hi as []. split; try done.
  - by apply split_slots_wf.
  - intros j x [[-> ->]|[Hne Hj]]%insert_Some_cases; [apply thief_ok; try done; olia|].
    destruct (i_work0 _ _ Hj) as [H1 H2 H3]. split; [done| |].
    + intros Hx. apply split_slots_owner; [done|lia|done|]. by apply H2.
    + intros ? ? ? E. pose proof (only_holder _ _ _ _ _ _ _ Hi Hne Hj) as Hl. unfold holds_lock in Hl. by rewrite E in Hl.
  - intros j j' x x' Hj Hj' Hx Hx' E.
    apply insert_Some_cases in Hj as [[-> ->]|[? Hj]], Hj' as [[-> ->]|[? Hj']]; [done| | |by eapply i_dist0].
    + specialize (Hb _ _ Hj' Hx'). lia.
    + specialize (Hb _ _ Hj Hx). lia.
  - assert (forall k, (exists j y, ws !! j = Some y /\ owns y = true /\ w_slot y = k) ->
      exists j y, <[i := w']> ws !! j = Some y /\ owns y = true /\ w_slot y = k) as Hkeep.
    { intros k (j & y & Hj & Hy & Hyk). exists j, y. rewrite list_lookup_insert_ne; [done|]. intros <-. congruence. }
    intros k x Hk. destruct (split_slots_cases _ _ _ _ _ k x Hk) as [[-> ->]|[[-> ->]|[Hne Hk']]].
    + right. split; [done|]. split; [done|]. exists i, w'. by rewrite list_lookup_insert_eq.
    + right. destruct (i_orph0 v s Hs) as [[? _]|(_ & Hc & Hj)]; [congruence|]. auto.
    + destruct (i_orph0 k x Hk') as [?|(? & ? & Hj)]; [by left|right]. auto.
  - intros o. rewrite i_region0. by apply split_slots_region.
  - intros Ht k x o Hk Hx. destruct (split_slots_cases _ _ _ _ _ k x Hk) as [[-> ->]|[[-> ->]|[Hne Hk']]].
    + simpl in Hx. lia.
    + eapply i_data0; [done|exact Hs|exact Hx].
    + by eapply i_data0.
  - intros Ht. destruct (i_taint0 Ht) as (j & x & Hj & Hx). exists j, x.
    rewrite list_lookup_insert_ne; [done|]. intros <-. rewrite Hw in Hj. injection Hj as <-.
    unfold bad in Hx. by rewrite Hpc in Hx.
  - intros j x [[-> ->]|[Hne Hj]]%insert_Some_cases Hx; [unfold holds_lock in Hx; by rewrite Epc in Hx|].
    by rewrite (only_holder _ _ _ _ _ _ _ Hi Hne Hj) in Hx.
  - intros j x y [[-> ->]|[Hne Hj]]%insert_Some_cases Hx; apply victim_holds in Hx; [unfold holds_lock in Hx; by rewrite Epc in Hx|].
    by rewrite (only_holder _ _ _ _ _ _ _ Hi Hne Hj) in Hx.
Qed.

(** ** Every transition preserves the invariant *)

Context {L : Type} `{SplitListener L}.
Context (cf : PoolConf).
Context (sv : HttpServer).
Hypothesis cf_steal : cf_min_steal_bytes cf = min_steal.
Hypothesis cf_workers : cf_total_workers cf = total_workers.

(** HTTP: a 206 answer to a range request carries the resource from the start
    of that range, and is only given to a range request; a 200 answer carries
    the whole resource. *)
Hypothesis answers_206 : forall r body, answers sv r 206 body ->
  exists a b, r = Some (a, b) /\ forall k, body k = content (a + k).
Hypothesis answers_200 : forall r body, answers sv r 200 body -> forall k, body k = content k.

Lemma owner_offset file t w s :
  owner_ok file t w s -> slot_wf s -> intended_write_offset w = w_off w.
Proof.
  intros [] []. unfold intended_write_offset, w_off, range_off in *. apply u64_small. olia.
Qed.

(** The body of an accepted response is the resource at the segment's offset. *)
Lemma accepted_body w status body :
  intended_write_offset w = w_off w -> (rg_whole_file (w_range w) = true -> w_off w = 0) ->
  answers sv (request_range w) status body -> http_ok total_workers w status = true ->
  forall k, body k = content (w_off w + k).
Proof.
  intros Hoff Hwhole Ha Hok k. unfold http_ok in Hok. apply orb_true_iff in Hok as [Hs|Hs].
  - apply Z.eqb_eq in Hs as ->. destruct (answers_206 _ _ Ha) as (a & b & Hr & ->).
    unfold request_range in Hr. destruct (rg_whole_file (w_range w)); [done|].
    rewrite Hoff in Hr. by injection Hr as <- <-.
  - apply andb_true_iff in Hs as [Hs Hw]. apply Z.eqb_eq in Hs as ->.
    rewrite (answers_200 _ _ Ha). f_equal. apply orb_true_iff in Hw as [Hw|Hw].
    + rewrite Hwhole by done. lia.
    + apply andb_true_iff in Hw as [_ Hz]. apply Z.eqb_eq in Hz. lia.
Qed.

(** What the verdict on a pool segment establishes. *)
Lemma succeeded_complete sl file t w s status res :
  sl !! w_slot w = Some s -> owner_ok file t w s -> slot_wf s -> written w = w_bytes_done w ->
  segment_succeeded cf (Some sl) w status res = true ->
  ps_live_end s <= ps_write_pos s /\ http_ok total_workers w status = true.
Proof.
  intros Hs Hok Hwf Hwr Hv. pose proof (owner_offset _ _ _ _ Hok Hwf) as Hoff.
  unfold segment_succeeded in Hv. apply andb_true_iff in Hv as [[Hh Hb]%andb_true_iff _].
  apply Z.eqb_eq in Hb. rewrite <- cf_workers. split; [|done].
  destruct Hok, Hwf. unfold expected_bytes, slot_at in Hb.
  rewrite Hs, Hoff in Hb. cbn [default id] in Hb. cbv zeta in Hb.
  destruct (Z.ltb_spec (w_off w) (ps_live_end s)); [|lia].
  rewrite u64_small in Hb by olia. lia.
Qed.

Definition st_inv (st : PoolState (L := L)) : Prop :=
  exists sl, sh_slots (fst st) = Some sl /\
    inv sl (sh_lock (fst st)) (sh_file (fst st)) (sh_tainted (fst st)) (snd st).

(** What [worker_write_callback] decides about a block, before it writes it. *)
Lemma inv_callback sl lock file t ws i w s st body stop bw len :
  inv sl lock file t ws -> ws !! i = Some w -> sl !! w_slot w = Some s -> owner_ok file t w s -> slot_wf s ->
  w_pc w = PcTransfer st body -> 0 <= len <= max_block ->
  inv sl lock file t (<[i := callback_enter (Some sl) w st body stop bw len]> ws).
Proof.
  intros Hi Hw Hs Hok Hwf Epc Hlen. pose proof Hok as [].
  assert (pc_body w = Some body) as Hb by (unfold pc_body; by rewrite Epc).
  assert (written w = w_bytes_done w) as Hwr by (unfold written; by rewrite Epc).
  unfold callback_enter. destruct stop; [eapply inv_callback_abort; eauto|].
  destruct bw; cbn [negb]; [|eapply inv_callback_abort; eauto].
  unfold slot_at. rewrite Hs. cbn [default id].
  assert (u64 (rg_start (w_range w) + rg_resume_offset (w_range w) + w_bytes_done w) = ps_write_pos s) as ->.
  { destruct Hwf. unfold w_off, range_off in *. rewrite u64_small; olia. }
  destruct (Z.leb_spec (ps_live_end s) (ps_write_pos s)) as [Hle|Hle]; [eapply inv_callback_abort; eauto|].
  destruct Hwf. rewrite u64_small by olia.
  destruct (Z.ltb_spec (ps_live_end s - ps_write_pos s) len); eapply inv_callback_write; try done; simpl in *; lia.
Qed.

(** The steps inside [run_one_segment]. *)
Lemma inv_segment_step sl (sh sh' : Shared L) ws i w w' ev :
  sh_slots sh = Some sl ->
  inv sl (sh_lock sh) (sh_file sh) (sh_tainted sh) ws -> ws !! i = Some w ->
  event_ok sv max_block sh ws i w ev ->
  match w_pc w with
  | PcUnborn | PcSegment | PcTransfer _ _ | PcWrite _ _ _ _ _ | PcCommit _ _ _ _
  | PcVerdict _ _ => True
  | _ => False
  end ->
  worker_step cf i sh w ev = Some (sh', w') -> st_inv (sh', <[i := w']> ws).
Proof.
  intros Hsl Hi Hw Hev Hpc Hst. destruct sh as [slots lock file total l sf t]. simpl in *. subst slots.
  assert (owns w = true) as Ho by (unfold owns; by destruct (w_pc w)).
  destruct (inv_owner _ _ _ _ _ _ _ Hi Hw Ho) as (s & Hs & Hok & Hwf).
  pose proof (owner_offset _ _ _ _ Hok Hwf) as Hoff. pose proof Hok as [].
  pose proof (wo_whole _ _ _ _ (i_work _ _ _ _ _ Hi _ _ Hw)) as Hwhole.
  unfold worker_step in Hst. simpl in Hst.
  destruct (w_pc w) as [| |st body|st body tot n off|st body tot n|st res| | | | | |] eqn:Epc;
    try done; destruct ev as [ok| |status b'|stop bw len|res'|]; try done.
  - destruct ok; injection Hst as <- <-; (exists sl; split; [done|]); simpl.
    + rewrite <- (orb_false_r t). eapply inv_idle; try done; unfold written, bad; simpl; by rewrite Epc.
    + by rewrite list_insert_id.
  - injection Hst as <- <-. exists sl. split; [done|]. simpl. rewrite <- (orb_false_r t).
    eapply inv_idle; try done; unfold written, bad; simpl; by rewrite Epc.
  - injection Hst as <- <-. exists sl. split; [done|]. unfold with_taint. cbn [fst snd sh_lock sh_file sh_tainted].
    rewrite cf_workers.
    set (w' := mkWorker (w_range w) (w_slot w) 0 false (w_pslot w) (PcTransfer status b')).
    eapply (inv_idle _ _ _ _ (negb (http_ok total_workers w' status)) _ _ _ w'); try done.
    + unfold written. by rewrite Epc.
    + intros c [= <-] Ht. apply orb_false_iff in Ht as [_ Ht]. apply negb_false_iff in Ht.
      eapply accepted_body; done.
    + unfold bad. simpl. by intros ?%negb_true_iff.
    + unfold bad. by rewrite Epc.
  - injection Hst as <- <-. exists sl. split; [done|]. cbn [fst snd sh_lock sh_file sh_tainted]. by eapply inv_callback.
  - injection Hst as <- <-. exists sl. split; [done|]. simpl. rewrite <- (orb_false_r t).
    eapply inv_idle; try done; unfold written, bad; simpl; by rewrite Epc.
  - destruct (reg_pwrite_checked _ _ _ _) as [f|] eqn:Ew; injection Hst as <- <-;
      exists sl; (split; [done|]); cbn [with_file fst snd sh_lock sh_file sh_tainted].
    + unfold reg_pwrite_checked in Ew. destruct (_ || _); [done|]. injection Ew as <-.
      by eapply inv_write.
    + eapply inv_callback_abort; eauto; unfold pc_body; by rewrite Epc.
  - injection Hst as <- <-. unfold commit. cbn [sh_slots]. eexists. split; [done|].
    cbn [with_progress with_slots fst snd sh_lock sh_file sh_tainted]. by eapply inv_commit.
  - destruct (segment_succeeded _ _ _ _ _) eqn:Ev; injection Hst as <- <-; exists sl;
      (split; [done|]); simpl; rewrite <- (orb_false_r t).
    + eapply succeeded_complete in Ev as [? Hh]; try done; [|unfold written; by rewrite Epc].
      eapply inv_idle; try done; unfold written, bad; simpl; rewrite Epc; [done|congruence].
    + eapply inv_idle; try done; unfold written, bad; simpl; by rewrite Epc.
Qed.

(** The steps between two segments. *)
Lemma inv_steal_step sl (sh sh' : Shared L) ws i w w' ev :
  sh_slots sh = Some sl ->
  inv sl (sh_lock sh) (sh_file sh) (sh_tainted sh) ws -> ws !! i = Some w ->
  match w_pc w with
  | PcMarkDone | PcAcquire | PcScan _ _ _ | PcSplit _ | PcStore _ _ _ => True
  | _ => False
  end ->
  worker_step cf i sh w ev = Some (sh', w') -> st_inv (sh', <[i := w']> ws).
Proof.
  intros Hsl Hi Hw Hpc Hst. destruct sh as [slots lock file total l sf t]. simpl in *. subst slots.
  unfold worker_step in Hst. simpl in Hst.
  destruct (w_pc w) as [| | | | | | | |k v r|v|v split le|] eqn:Epc; try done; destruct ev; try done.
  - destruct lock; [done|]. injection Hst as <- <-.
    assert (owns w = true) as Ho by (unfold owns; by rewrite Epc).
    destruct (inv_owner _ _ _ _ _ _ _ Hi Hw Ho) as (s & Hs & Hok & Hwf).
    eexists. split; [done|]. simpl. by eapply inv_mark_done.
  - destruct lock; [done|]. rewrite (find_orphan_none _ _ _ _ _ Hi) in Hst.
    injection Hst as <- <-. exists sl. split; [done|]. simpl.
    eapply (inv_free _ None (Some i)); try done; [unfold owns; by rewrite Epc|].
    right. by left.
  - destruct (sl !! k) as [s|] eqn:Hk.
    + destruct (scan_slot s k v r) as [v' r'] eqn:Esc. injection Hst as <- <-.
      exists sl. split; [done|]. simpl. by eapply inv_scan.
    + assert (lock = Some i) as Hlk.
      { eapply (i_lock _ _ _ _ _ Hi); [done|]. unfold holds_lock. by rewrite Epc. }
      assert (owns w = false) as Ho by (unfold owns; by rewrite Epc).
      destruct (scan_result _ _ v r) as [v'|] eqn:Er; injection Hst as <- <-;
        exists sl; (split; [done|]); simpl.
      * eapply (inv_free _ lock lock); try done.
        -- left. split; [done|]. unfold holds_lock. by rewrite Epc.
        -- intros y Hy. unfold victim_of in Hy. simpl in Hy. injection Hy as <-.
           apply (i_vict _ _ _ _ _ Hi i w); [done|]. unfold victim_of. rewrite Epc.
           unfold scan_result in Er. rewrite cf_steal in Er. destruct v as [y|]; [|done].
           destruct (_ || _) eqn:Eb; [done|]. injection Er as ->.
           apply orb_false_iff in Eb as [Eb _]. apply Z.ltb_ge in Eb.
           by rewrite (proj2 (Z.leb_le _ _)).
      * eapply (inv_free _ lock None); try done. right. right. subst lock. done.
  - injection Hst as <- <-. exists sl. split; [done|]. cbn [fst snd sh_lock sh_file sh_tainted].
    destruct (i_vict _ _ _ _ _ Hi i w v) as [(s & Hs & _) _]; [done|unfold victim_of; by rewrite Epc|].
    unfold slot_at. rewrite Hs. cbn [default id]. by eapply inv_split.
  - injection Hst as <- <-.
    destruct (wo_store _ _ _ _ (i_work _ _ _ _ _ Hi _ _ Hw) v split le Epc) as (s & Hs & Hle & Hsp).
    rewrite (alter_insert_Some _ _ _ _ Hs). eexists. split; [done|]. cbn [fst snd sh_lock sh_file
      sh_tainted with_lock with_slots with_progress].
    eapply inv_store; try done. unfold w_off, range_off. simpl. lia.
Qed.

Lemma st_inv_step st st' : st_inv st -> pool_step cf sv max_block st st' -> st_inv st'.
Proof.
  intros (sl & Hsl & Hi) Hstep. destruct Hstep as [sh ws i w ev sh' w' Hw Hev Hst]. simpl in *.
  destruct (w_pc w) eqn:Epc;
    try (eapply inv_segment_step; eauto; rewrite Epc; exact I);
    try (eapply inv_steal_step; eauto; rewrite Epc; exact I).
  unfold worker_step in Hst. rewrite Epc in Hst. by destruct ev.
Qed.

(** ** The initial state *)

Lemma create_lookup (l : L) ranges k s :
  rebalance_pool_create l ranges !! k = Some s ->
  exists r, ranges !! k = Some r /\
    s = mkSlot (u64 (range_off r)) (u64 (range_off r)) (u64 (rg_end r + 1)) true false
          (progress_slots l k).
Proof.
  unfold rebalance_pool_create. rewrite list_lookup_imap. intros (r & Hr & ->)%fmap_Some.
  apply lookup_take_Some in Hr as [Hr _]. by exists r.
Qed.

Lemma create_lookup_2 (l : L) ranges k r :
  Z.of_nat (length ranges) <= MAX_WORKERS -> ranges !! k = Some r ->
  rebalance_pool_create l ranges !! k =
    Some (mkSlot (u64 (range_off r)) (u64 (range_off r)) (u64 (rg_end r + 1)) true false
            (progress_slots l k)).
Proof.
  intros Hlen Hr. unfold rebalance_pool_create. rewrite list_lookup_imap, take_ge.
  - by rewrite Hr.
  - unfold MAX_WORKERS in *. lia.
Qed.

Lemma range_wf_exact r : range_wf r ->
  u64 (range_off r) = range_off r /\ u64 (rg_end r + 1) = rg_end r + 1.
Proof. intros []. unfold range_off in *. split; apply u64_small; olia. Qed.

Lemma st_inv_init (l : L) slots total ranges :
  Forall range_wf ranges -> Z.of_nat (length ranges) <= MAX_WORKERS ->
  (forall o, R o <-> requested ranges o) ->
  st_inv (pool_start true slots l total file0 ranges).
Proof.
  intros Hwf Hlen HR. exists (rebalance_pool_create l ranges). split; [done|]. simpl.
  assert (forall j w, imap (initial_worker slots) ranges !! j = Some w ->
            exists r, ranges !! j = Some r /\ w = initial_worker slots j r) as Hws.
  { intros j w. rewrite list_lookup_imap. by intros (r & Hr & ->)%fmap_Some; exists r. }
  split; try done.
  - apply Forall_lookup. intros k s Hk. apply create_lookup in Hk as (r & Hr & ->).
    pose proof (proj1 (Forall_lookup _ _) Hwf k r Hr) as Hw. destruct (range_wf_exact r Hw) as [E1 E2].
    destruct Hw. unfold range_off in *. split; simpl; rewrite ?E1, ?E2; lia.
  - intros j w Hj. destruct (Hws j w Hj) as (r & Hr & ->).
    pose proof (proj1 (Forall_lookup _ _) Hwf j r Hr) as Hw. destruct (range_wf_exact r Hw) as [E1 E2].
    split; [by apply rw_whole| |done]. intros _. eexists.
    split; [by apply create_lookup_2|]. rewrite E1, E2. destruct Hw. unfold range_off in *.
    split; unfold inflight, written, w_off, range_off; simpl; try done; try lia.
  - intros j j' w w' Hj Hj' _ _. destruct (Hws j w Hj) as (r & _ & ->), (Hws j' w' Hj') as (r' & _ & ->).
    done.
  - intros k s Hk. right. apply create_lookup in Hk as (r & Hr & ->). split; [done|]. split; [done|].
    exists k, (initial_worker slots k r). by rewrite list_lookup_imap, Hr.
  - intros o. rewrite HR. split.
    + intros (r & Hr & Ho). apply list_elem_of_lookup in Hr as [k Hk].
      pose proof (proj1 (Forall_lookup _ _) Hwf k r Hk) as Hw. destruct (range_wf_exact r Hw) as [E1 E2].
      eexists k, _. split; [by apply create_lookup_2|]. simpl. rewrite E1, E2. lia.
    + intros (k & s & Hk & Ho). apply create_lookup in Hk as (r & Hr & ->).
      pose proof (proj1 (Forall_lookup _ _) Hwf k r Hr) as Hw. destruct (range_wf_exact r Hw) as [E1 E2].
      simpl in Ho. rewrite E1, E2 in Ho. exists r. split; [by eapply list_elem_of_lookup_2|lia].
  - intros _ k s o Hk Ho. apply create_lookup in Hk as (r & Hr & ->). simpl in Ho. lia.
  - intros j w Hj. by destruct (Hws j w Hj) as (r & _ & ->).
  - intros j w v Hj. by destruct (Hws j w Hj) as (r & _ & ->).
Qed.

Lemma st_inv_reachable (l : L) slots total ranges st :
  Forall range_wf ranges -> Z.of_nat (length ranges) <= MAX_WORKERS ->
  (forall o, R o <-> requested ranges o) ->
  rtc (pool_step cf sv max_block) (pool_start true slots l total file0 ranges) st ->
  st_inv st.
Proof.
  intros Hwf Hlen HR. apply (rtc_invariant _ st_inv); [apply st_inv_step|by apply st_inv_init].
Qed.

(** When every thread has ended well, nothing is left to do and nothing was
    ever wrong. *)
Lemma st_inv_complete (st : PoolState (L := L)) :
  st_inv st -> joined st = true -> all_succeeded st = true ->
  forall o, R o -> reg_byte (sh_file (fst st)) o = content o.
Proof.
  intros (sl & Hsl & Hi) Hj Ha o Ho. destruct st as [sh ws]. unfold joined, all_succeeded in *. simpl in *.
  apply andb_true_iff in Ha as [Hsf Ha]. apply negb_true_iff in Hsf. rewrite Hsf in Hj.
  assert (forall j w, ws !! j = Some w -> w_pc w = PcExit true) as Hall.
  { intros j w Hw. rewrite forallb_forall in Hj, Ha.
    assert (In w ws) as Hin by (apply list_elem_of_In; by eapply list_elem_of_lookup_2).
    specialize (Hj w Hin). specialize (Ha w Hin). by destruct (w_pc w) as [| | | | | | | | | | |[]]. }
  assert (forall j w, ws !! j = Some w -> owns w = false) as Hno.
  { intros j w Hw. unfold owns. by rewrite (Hall j w Hw). }
  assert (sh_tainted sh = false) as Ht.
  { destruct (sh_tainted sh) eqn:E; [|done]. destruct (i_taint _ _ _ _ _ Hi eq_refl) as (j & w & Hw & Hb).
    unfold bad in Hb. by rewrite (Hall j w Hw) in Hb. }
  apply (i_region _ _ _ _ _ Hi) in Ho as (k & s & Hk & Hs).
  destruct (i_orph _ _ _ _ _ Hi k s Hk) as [[_ Hle]|(_ & _ & j & w & Hw & Hx & _)].
  - eapply (i_data _ _ _ _ _ Hi Ht k s); [done|lia].
  - by rewrite (Hno j w Hw) in Hx.
Qed.

End Invariant.

(** ** Properties *)

(** C1. The parallel download is correct.  In every interleaving of the
    workers, splits and network events, and with any number of failed or
    refused requests: no byte outside the requested ranges is ever changed and
    the file never shrinks; and once all threads are joined with success, every
    byte of the ranges is the byte of the resource.  The hypotheses on the HTTP
    side are the meaning of the 200 and 206 statuses; the blocks received are
    not larger than the steal threshold (libcurl's are at most 16 KiB, the
    threshold is 1 MiB). *)
Theorem pool_download_correct {L} `{SplitListener L} (cf : PoolConf)
    (sv : HttpServer) (max_block : Z) (content : Z -> Z)
    (slots : nat -> slot_ptr) (l : L) (total : Z) (file0 : regular) (ranges : list Range) st :
  0 <= max_block <= cf_min_steal_bytes cf -> 0 < cf_min_steal_bytes cf ->
  (forall r body, answers sv r 206 body ->
     exists a b, r = Some (a, b) /\ forall k, body k = content (a + k)) ->
  (forall r body, answers sv r 200 body -> forall k, body k = content k) ->
  Forall range_wf ranges -> Z.of_nat (length ranges) <= MAX_WORKERS ->
  rtc (pool_step cf sv max_block) (pool_start true slots l total file0 ranges) st ->
  (forall o, ~ requested ranges o -> reg_byte (sh_file (fst st)) o = reg_byte file0 o) /\
  reg_size file0 <= reg_size (sh_file (fst st)) /\
  (joined st = true -> all_succeeded st = true ->
     forall o, requested ranges o -> reg_byte (sh_file (fst st)) o = content o).
Proof.
  intros Hmb Hms H206 H200 Hwf Hlen Hr.
  assert (st_inv (cf_min_steal_bytes cf) max_block (cf_total_workers cf) content file0
            (requested ranges) st) as Hi.
  { eapply st_inv_reachable; done. }
  pose proof Hi as (sl & _ & Hinv). split; [|split].
  - apply (i_out _ _ _ _ _ _ _ _ _ _ _ Hinv).
  - apply (i_size _ _ _ _ _ _ _ _ _ _ _ Hinv).
  - by eapply st_inv_complete.
Qed.

(** A run in which worker 0 finishes first and steals half of worker 1's range
    while that one has not started: 12 bytes, two ranges, blocks of 2. *)
Definition demo_content (o : Z) : Z := o mod 7 + 1.

(** A server that honours ranges of a resource of [clen] bytes. *)
Definition demo_serve (clen : Z) (r : option (Z * Z)) : Z * (Z -> Z) * Z :=
  match r with
  | Some (a, b) => (206, fun k => demo_content (a + k), Z.min (b + 1) clen - a)
  | None => (200, demo_content, clen)
  end.

Definition demo_server (clen : Z) : HttpServer :=
  mkServer (fun r status body => status = fst (fst (demo_serve clen r)) /\
                                 forall k, body k = snd (fst (demo_serve clen r)) k)
           (fun r status n => n = snd (demo_serve clen r)).

#[global] Instance null_listener : SplitListener unit := {
  on_split l _ _ _ := l; progress_slots _ _ := PNull; add_progress l _ _ := l; request_cancel l := l }.

Definition demo_ranges : list Range := [mkRange 0 5 0 false; mkRange 6 11 0 false].
Definition demo_conf : PoolConf := mkConf permissive 2 2.

Definition demo_tau (i n : nat) : list (nat * option event) := replicate n (i, Some EvTau).

Definition demo_block (i : nat) (n : Z) : list (nat * option event) :=
  (i, Some (EvBlock false true n)) :: demo_tau i 2.

Definition demo_schedule : list (nat * option event) :=
  [(0%nat, Some (EvSpawn true)); (1%nat, Some (EvSpawn true)); (0%nat, None)]
  ++ demo_block 0 2 ++ demo_block 0 2 ++ demo_block 0 2
  ++ [(0%nat, Some (EvEnd true))] ++ demo_tau 0 8
  ++ [(1%nat, None); (0%nat, None)]
  ++ demo_block 1 2 ++ demo_block 1 2 ++ demo_tau 1 2
  ++ demo_block 0 2 ++ demo_block 0 2
  ++ demo_tau 1 5 ++ demo_tau 0 7.

Definition demo_start : PoolState (L := unit) :=
  pool_start true (fun _ => PNull) tt 0 (reg_pwrite empty_reg 11 [0]) demo_ranges.

Definition demo_end : PoolState (L := unit) := 
  default demo_start (play demo_conf 2 (demo_serve 12) demo_schedule demo_start).

Lemma demo_range_wf : Forall range_wf demo_ranges.
Proof. repeat constructor; unfold range_off; simpl; try done; try (rewrite OFF_MAX_val; lia). Qed.

Lemma demo_requested o : 0 <= o <= 11 -> requested demo_ranges o.
Proof.
  intros Ho. unfold requested, demo_ranges, range_off. destruct (decide (o <= 5)).
  - eexists. split; [by left|]. simpl. lia.
  - eexists. split; [right; by left|]. simpl. lia.
Qed.

Lemma demo_206 clen r body : answers (demo_server clen) r 206 body ->
  exists a b, r = Some (a, b) /\ forall k, body k = demo_content (a + k).
Proof. destruct r as [[a b]|]; [intros [_ ?]; eauto|by intros [? _]]. Qed.

Lemma demo_200 clen r body : answers (demo_server clen) r 200 body ->
  forall k, body k = demo_content k.
Proof. destruct r as [[a b]|]; [by intros [? _]|by intros [_ ?]]. Qed.

Lemma demo_serves clen : serves (demo_server clen) (demo_serve clen).
Proof. by intros [[a b]|]. Qed.

Lemma demo_played : play demo_conf 2 (demo_serve 12) demo_schedule demo_start = Some demo_end.
Proof.
  unfold demo_end. destruct (play _ _ _ _ _) eqn:E; [reflexivity|].
  vm_compute in E. discriminate E.
Qed.

Lemma pool_download_correct_witness :
  joined demo_end = true /\ all_succeeded demo_end = true /\
  option_map length (sh_slots (fst demo_end)) = Some 3%nat /\
  (forall o, 0 <= o <= 11 -> reg_byte (sh_file (fst demo_end)) o = demo_content o).
Proof.
  assert (joined demo_end = true) as Hj by (vm_compute; reflexivity).
  assert (all_succeeded demo_end = true) as Ha by (vm_compute; reflexivity).
  split; [exact Hj|]. split; [exact Ha|]. split; [vm_compute; reflexivity|]. intros o Ho.
  apply (pool_download_correct demo_conf (demo_server 12) 2 demo_content (fun _ => PNull) tt 0
           (reg_pwrite empty_reg 11 [0]) demo_ranges demo_end);
    [simpl; lia|simpl; lia|exact (demo_206 12)|exact (demo_200 12)|exact demo_range_wf|vm_compute; discriminate|
     
     exact (play_steps _ _ _ _ _ _ _ (demo_serves 12) demo_played)|exact Hj|exact Ha|apply demo_requested; exact Ho].
Defined.
