(* ===== verification/PoolLive.v ===== *)
(** * Worker pool: progress, and the single-connection mode

    The lock of the rebalance pool never deadlocks; a run without a rebalance
    pool (one worker, as [engine_run_download] uses it) writes exactly what it
    accounts for; the progress counters follow the slots for any client that
    keeps the [PoolMirror] laws. *)

From S2P Require Import Prelude Segmenter FileIo Pool PoolInv.

(** ** The lock *)

Section Lock.

Context {L : Type} `{SplitListener L} (cf : PoolConf).
Context (sv : HttpServer) (max_block : Z).

Lemma callback_enter_pc slots w st b stop bw n :
  exists pc, w_pc (callback_enter slots w st b stop bw n) = pc /\
    (pc = PcTransfer st b \/ pc = PcVerdict st false \/ exists k o, pc = PcWrite st b n k o).
Proof.
  eexists. split; [done|]. unfold callback_enter.
  destruct (callback_return_cases st b 0 n) as [E|E]; repeat case_match; simpl; rewrite ?E; eauto.
Qed.

Lemma callback_enter_holds slots w st b stop bw n :
  holds_lock (callback_enter slots w st b stop bw n) = false.
Proof.
  destruct (callback_enter_pc slots w st b stop bw n) as (pc & E & Hc). unfold holds_lock.
  rewrite E. by destruct Hc as [->|[->|(? & ? & ->)]].
Qed.

Lemma callback_return_holds w st b r n :
  holds_lock (set_pc (callback_return st b r n) w) = false.
Proof. unfold holds_lock. simpl. by destruct (callback_return_cases st b r n) as [-> | ->]. Qed.

(** A step takes the lock, releases it, or leaves it with the same holder. *)
Lemma worker_step_lock me (sh sh' : Shared L) w w' ev :
  worker_step cf me sh w ev = Some (sh', w') ->
  (sh_lock sh' = sh_lock sh /\ holds_lock w' = holds_lock w) \/
  (sh_lock sh = None /\ sh_lock sh' = Some me /\ holds_lock w' = true) \/ sh_lock sh' = None.
Proof.
  unfold worker_step. intros Hst.
  destruct (w_pc w) as [| |st b|st b t n o|st b t n|st r| | |k v r|v|v sp le|] eqn:Epc;
    destruct ev as [okk| |st' b'|stop bw n'|r'|]; try done;
    assert (holds_lock w = match w_pc w with PcScan _ _ _ | PcSplit _ | PcStore _ _ _ => true
                           | _ => false end) as -> by done; rewrite Epc.
  - left. destruct okk; injection Hst as <- <-; split; try done. unfold holds_lock. by rewrite Epc.
  - injection Hst as <- <-. by left.
  - injection Hst as <- <-. by left.
  - injection Hst as <- <-. left. by rewrite callback_enter_holds.
  - injection Hst as <- <-. by left.
  - left. destruct (reg_pwrite_checked _ _ _ _); injection Hst as <- <-; split; try done.
    by rewrite callback_return_holds.
  - injection Hst as <- <-. left. split; [unfold commit; by destruct (sh_slots sh)|].
    unfold holds_lock. simpl. by destruct (callback_return_cases st b n t) as [-> | ->].
  - left. destruct (segment_succeeded _ _ _ _ _); injection Hst as <- <-.
    + split; [done|]. by destruct (sh_slots sh).
    + by split.
  - destruct (sh_lock sh) eqn:El, (sh_slots sh); try done. injection Hst as <- <-. by left.
  - destruct (sh_lock sh) eqn:El; [done|]. destruct (sh_slots sh) as [sl|]; [|done].
    destruct (find_orphan sl); injection Hst as <- <-; [by left|]. right. by left.
  - destruct (sh_slots sh) as [sl|]; [|done]. destruct (sl !! k).
    + destruct (scan_slot _ _ _ _). injection Hst as <- <-. by left.
    + destruct (scan_result _ _ _ _); injection Hst as <- <-; [by left|]. by right; right.
  - destruct (sh_slots sh) as [sl|]; [|done]. injection Hst as <- <-. by left.
  - destruct (sh_slots sh) as [sl|]; [|done]. injection Hst as <- <-. by right; right.
Qed.

Definition lock_held (st : PoolState (L := L)) : Prop :=
  forall i, sh_lock (fst st) = Some i -> exists w, snd st !! i = Some w /\ holds_lock w = true.

Lemma lock_held_step st st' : lock_held st -> pool_step cf sv max_block st st' -> lock_held st'.
Proof.
  intros Hh Hs. destruct Hs as [sh ws i w ev sh' w' Hw _ Hst]. intros j Hj. simpl in *.
  assert (i < length ws)%nat as Hlt by by eapply lookup_lt_Some.
  destruct (worker_step_lock _ _ _ _ _ _ Hst) as [[E Eh]|[(_ & E & Eh)|E]]; [| |congruence].
  - rewrite E in Hj. destruct (Hh j Hj) as (x & Hx & Hxh). simpl in Hx.
    destruct (decide (j = i)) as [->|Hne].
    + exists w'. rewrite list_lookup_insert_eq by done. split; [done|]. congruence.
    + exists x. by rewrite list_lookup_insert_ne.
  - rewrite E in Hj. injection Hj as <-. exists w'. by rewrite list_lookup_insert_eq.
Qed.

Lemma pool_slots_some st st' :
  pool_step cf sv max_block st st' -> is_Some (sh_slots (fst st)) -> is_Some (sh_slots (fst st')).
Proof.
  intros Hs. destruct Hs as [sh ws i w ev sh' w' Hw _ Hst]. simpl. intros [sl Hsl].
  unfold worker_step, commit in Hst. rewrite Hsl in Hst.
  repeat case_match; simplify_eq; simpl; eauto.
Qed.

(** The first thread not created yet is the one the main thread creates next. *)
Lemma first_unborn (ws : list Worker) i w :
  ws !! i = Some w -> w_pc w = PcUnborn ->
  exists j x, ws !! j = Some x /\ w_pc x = PcUnborn /\
    forall k y, (k < j)%nat -> ws !! k = Some y -> w_pc y <> PcUnborn.
Proof.
  revert i. induction ws as [|a ws IH]; intros i Hi Hp; [done|].
  destruct (w_pc a) eqn:Ea; try (exists 0%nat, a; repeat split; [done|lia]).
  all: destruct i as [|i]; simpl in Hi; [congruence|].
  all: destruct (IH i Hi Hp) as (j & x & Hj & Hx & Hfirst).
  all: exists (S j), x; split; [done|]; split; [done|].
  all: intros [|k] y Hk Hy; simpl in Hy; [congruence|]; apply (Hfirst k y); [lia|done].
Qed.

(** A thread inside the critical section is never blocked. *)
Lemma holder_steps me (sh : Shared L) w sl :
  sh_slots sh = Some sl -> holds_lock w = true ->
  exists r, worker_step cf me sh w EvTau = Some r.
Proof.
  intros Hsl Hh. unfold holds_lock in Hh. unfold worker_step.
  destruct (w_pc w) as [| | | | | | | |k v r|v|v sp le|]; try done; rewrite Hsl; eauto.
  destruct (sl !! k); [destruct (scan_slot _ _ _ _); eauto|].
  destruct (scan_result _ _ _ _); eauto.
Qed.

Lemma progress st sl :
  sh_slots (fst st) = Some sl -> lock_held st -> joined st = false ->
  exists st', pool_step cf sv max_block st st'.
Proof.
  destruct st as [sh ws]. simpl. intros Hsl Hh Hj.
  assert (forall i w ev r, ws !! i = Some w -> event_ok sv max_block sh ws i w ev ->
    worker_step cf i sh w ev = Some r -> exists st', pool_step cf sv max_block (sh, ws) st') as Hgo.
  { intros i w ev [sh' w'] Hw He Hs. eexists. by eapply pool_step_intro. }
  destruct (sh_lock sh) as [i|] eqn:Hl.
  { destruct (Hh i Hl) as (w & Hw & Hwh). destruct (holder_steps i sh w sl Hsl Hwh) as [r Hr].
    by eapply (Hgo i w EvTau). }
  unfold joined in Hj. simpl in Hj.
  assert (exists i w, ws !! i = Some w /\
    match w_pc w with PcExit _ => true | PcUnborn => sh_spawn_failed sh | _ => false end = false)
    as (i & w & Hw & Hb).
  { clear -Hj. induction ws as [|a ws IH]; [done|]. simpl in Hj. apply andb_false_iff in Hj as [Ha|Hr].
    - by exists 0%nat, a.
    - destruct (IH Hr) as (i & w & ? & ?). by exists (S i), w. }
  destruct (holds_lock w) eqn:Hwh.
  { destruct (holder_steps i sh w sl Hsl Hwh) as [r Hr]. by eapply (Hgo i w EvTau). }
  unfold holds_lock in Hwh.
  destruct (w_pc w) as [| |st b|st b t n o|st b t n|st r| | |k v r|v|v sp le|ok] eqn:Epc;
    try done; try (eapply (Hgo i w EvTau); [done|done|]; unfold worker_step;
                   rewrite Epc, ?Hl, ?Hsl; reflexivity).
  - destruct (first_unborn ws i w Hw Epc) as (j & x & Hx & Hxp & Hfirst).
    eapply (Hgo j x (EvSpawn true)); [done| |unfold worker_step; by rewrite Hxp].
    split; [done|]. intros k y Hk Hy. by apply (Hfirst k y).
  - eapply (Hgo i w EvInitFail); [done|done|]. unfold worker_step. by rewrite Epc.
  - eapply (Hgo i w (EvEnd false)); [done|done|]. unfold worker_step. by rewrite Epc.
  - destruct (reg_pwrite_checked (cf_env cf) (sh_file sh) (block_bytes b (w_bytes_done w) n) o) eqn:Ew;
      eapply (Hgo i w EvTau); try done; unfold worker_step; by rewrite Epc, Ew.
  - destruct (segment_succeeded cf (Some sl) w st r) eqn:Ev;
      eapply (Hgo i w EvTau); try done; unfold worker_step; rewrite Epc, Hsl, Ev; reflexivity.
  - destruct (find_orphan sl) eqn:Ef;
      eapply (Hgo i w EvTau); try done; unfold worker_step; by rewrite Epc, Hl, Hsl, Ef.
Qed.

End Lock.

(** C6. The pool never deadlocks: from any state a run can reach, as long as
    some created thread has not been joined, some thread can take a step; in
    particular whoever waits for the lock of the rebalance pool gets it. *)
Theorem pool_no_deadlock {L} `{SplitListener L} (cf : PoolConf)
    (sv : HttpServer) (max_block : Z)
    (slots : nat -> slot_ptr) (l : L) (total : Z) (file0 : regular) (ranges : list Range) st :
  rtc (pool_step cf sv max_block) (pool_start true slots l total file0 ranges) st ->
  joined st = false -> exists st', pool_step cf sv max_block st st'.
Proof.
  intros Hr Hj.
  assert (lock_held st /\ is_Some (sh_slots (fst st))) as [Hh [sl Hsl]].
  { revert Hr. apply (rtc_invariant _ (fun st => lock_held st /\ is_Some (sh_slots (fst st)))).
    - intros a b [H1 H2] Hs. split; [by eapply lock_held_step|by eapply pool_slots_some].
    - split; [done|]. simpl. eauto. }
  by eapply progress.
Qed.

Lemma pool_no_deadlock_witness :
  exists st, play demo_conf 2 (demo_serve 12) (take 20 demo_schedule) demo_start = Some st /\
    joined st = false /\ exists st', pool_step demo_conf (demo_server 12) 2 st st'.
Proof.
  destruct (play demo_conf 2 (demo_serve 12) (take 20 demo_schedule) demo_start) as [st|] eqn:E;
    [|vm_compute in E; discriminate E].
  exists st. split; [reflexivity|].
  assert (joined st = false) as Hj by (vm_compute in E; injection E as <-; vm_compute; reflexivity).
  split; [exact Hj|].
  apply (pool_no_deadlock demo_conf (demo_server 12) 2 (fun _ => PNull) tt 0 (reg_pwrite empty_reg 11 [0])
           demo_ranges st); [|exact Hj].
  exact (play_steps _ _ _ _ _ _ _ (demo_serves 12) E).
Defined.

(** ** One connection, no rebalance pool *)

Section Single.

Context {L : Type} `{SplitListener L} (cf : PoolConf).
Context (sv : HttpServer) (max_block : Z).
Context (content : Z -> Z) (file0 : regular) (r : Range).
Hypothesis answers_206 : forall r body, answers sv r 206 body ->
  exists a b, r = Some (a, b) /\ forall k, body k = content (a + k).
Hypothesis answers_200 : forall r body, answers sv r 200 body -> forall k, body k = content k.
Hypothesis r_wf : range_wf r.

(** Bytes on disk: the ones accounted for and a block just written. *)
Definition on_disk (w : Worker) : Z :=
  w_bytes_done w + match w_pc w with PcCommit _ _ _ n => n | _ => 0 end.

Definition single_pc (w : Worker) : Prop :=
  match w_pc w with
  | PcUnborn | PcSegment => w_bytes_done w = 0
  | PcTransfer _ _ => True
  | PcVerdict st res => res = true -> full_body sv (request_range w) st (w_bytes_done w)
  | PcWrite _ _ _ n off => 0 <= n /\ off = range_off r + w_bytes_done w
  | PcCommit _ _ _ n => 0 <= n
  | PcExit ok => ok = true -> w_bytes_done w = rg_end r + 1 - range_off r /\
      exists st, http_ok (cf_total_workers cf) w st = true /\
                 full_body sv (request_range w) st (w_bytes_done w)
  | _ => False
  end.

Record single_inv (sh : Shared L) (w : Worker) : Prop := {
  si_none : sh_slots sh = None;
  si_range : w_range w = r;
  si_done : 0 <= w_bytes_done w;
  si_pc : single_pc w;
  si_trunc : w_truncated w = false;
  si_body : forall b, pc_body w = Some b -> sh_tainted sh = false ->
    forall k, b k = content (range_off r + k);
  si_bound : range_off r + on_disk w <= OFF_MAX;
  si_out : forall o, ~ (range_off r <= o < range_off r + on_disk w) ->
    reg_byte (sh_file sh) o = reg_byte file0 o;
  si_in : sh_tainted sh = false -> forall o, range_off r <= o < range_off r + on_disk w ->
    reg_byte (sh_file sh) o = content o;
  si_taint : sh_tainted sh = true -> bad (cf_total_workers cf) w;
  si_size : reg_size file0 <= reg_size (sh_file sh) <=
              Z.max (reg_size file0) (range_off r + on_disk w) /\
            (0 < on_disk w -> range_off r + on_disk w <= reg_size (sh_file sh));
}.

Lemma block_write_size f body from n off :
  0 <= n -> reg_size (reg_pwrite f off (block_bytes body from n)) =
    if decide (0 < n) then Z.max (reg_size f) (off + n) else reg_size f.
Proof.
  intros Hn. pose proof (strlen_block_bytes body from n Hn) as Hl.
  destruct (block_bytes body from n) as [|b l]; simpl.
  - unfold strlen in Hl. simpl in Hl. by rewrite decide_False by lia.
  - rewrite decide_True; [by rewrite Hl|]. rewrite <- Hl. unfold strlen. simpl. lia.
Qed.

Lemma range_off_bounds : 0 <= range_off r <= OFF_MAX.
Proof. destruct r_wf. unfold range_off in *. lia. Qed.

Lemma single_offset sh w : single_inv sh w -> intended_write_offset w = range_off r.
Proof.
  intros Hi. pose proof range_off_bounds. unfold intended_write_offset. rewrite (si_range _ _ Hi).
  apply u64_small. unfold range_off in *. olia.
Qed.

(** Steps that leave the shared state alone (the ghost apart). *)
Lemma single_local sh w w' b :
  single_inv sh w -> w_range w' = r -> w_bytes_done w' = w_bytes_done w -> on_disk w' = on_disk w ->
  single_pc w' -> w_truncated w' = false ->
  (forall c, pc_body w' = Some c -> sh_tainted sh || b = false ->
     forall k, c k = content (range_off r + k)) ->
  (b = true -> bad (cf_total_workers cf) w') ->
  (bad (cf_total_workers cf) w -> bad (cf_total_workers cf) w') ->
  single_inv (with_taint b sh) w'.
Proof.
  intros [] Er Ebd Eod Hpc Htr Hbody Hb Hbad. split; simpl; rewrite ?Eod, ?Ebd; try done.
  - intros Ht. apply si_in0. by destruct (sh_tainted sh).
  - intros Ht. destruct b; [by apply Hb|]. apply Hbad, si_taint0. by destruct (sh_tainted sh).
Qed.

Lemma single_local_same sh w w' :
  single_inv sh w -> w_range w' = r -> w_bytes_done w' = w_bytes_done w -> on_disk w' = on_disk w ->
  single_pc w' -> w_truncated w' = false ->
  (forall c, pc_body w' = Some c -> pc_body w = Some c) ->
  (bad (cf_total_workers cf) w -> bad (cf_total_workers cf) w') ->
  single_inv sh w'.
Proof.
  intros Hi Er Ebd Eod Hpc Htr Hbody Hbad.
  assert (single_inv (with_taint false sh) w') as Hw.
  { eapply single_local; try done. intros c Hc Ht. apply (si_body _ _ Hi c); [by apply Hbody|].
    by destruct (sh_tainted sh). }
  destruct sh as [sl lk f t l sf tt]. unfold with_taint in Hw. simpl in Hw.
  by rewrite orb_false_r in Hw.
Qed.

Lemma single_callback_enter sh w st b stop bw n :
  single_inv sh w -> w_pc w = PcTransfer st b -> 0 <= n ->
  single_inv sh (callback_enter None w st b stop bw n).
Proof.
  intros Hi Hpc Hn.
  assert (on_disk w = w_bytes_done w) as Hod by (unfold on_disk; rewrite Hpc; lia).
  pose proof (si_range _ _ Hi) as Hr. pose proof range_off_bounds.
  pose proof (si_trunc _ _ Hi) as Htr.
  assert (single_inv sh (set_pc (callback_return st b 0 n) w)) as Habort.
  { eapply single_local_same; try done.
    - unfold on_disk. simpl. rewrite Hpc. by destruct (callback_return_cases st b 0 n) as [-> | ->].
    - unfold single_pc. simpl. by destruct (callback_return_cases st b 0 n) as [-> | ->].
    - unfold pc_body. simpl. rewrite Hpc. by destruct (callback_return_cases st b 0 n) as [-> | ->].
    - unfold bad. simpl. rewrite Hpc. by destruct (callback_return_cases st b 0 n) as [-> | ->]. }
  unfold callback_enter. destruct stop; [apply Habort|]. destruct bw; [|apply Habort].
  cbn [negb]. apply (single_local_same sh w); try done.
  - unfold on_disk. simpl. by rewrite Hpc.
  - unfold single_pc. simpl. split; [done|]. rewrite Hr. pose proof (si_bound _ _ Hi).
    pose proof (si_done _ _ Hi). apply u64_small. unfold range_off in *. olia.
  - unfold pc_body. simpl. by rewrite Hpc.
  - unfold bad. simpl. by rewrite Hpc.
Qed.

Lemma single_write sh w st b tot n off f :
  single_inv sh w -> w_pc w = PcWrite st b tot n off ->
  reg_pwrite_checked (cf_env cf) (sh_file sh) (block_bytes b (w_bytes_done w) n) off = Some f ->
  single_inv (with_file f sh) (set_pc (PcCommit st b tot n) w).
Proof.
  intros [] Hpc Hw. unfold single_pc in si_pc0. rewrite Hpc in si_pc0. destruct si_pc0 as [Hn ->].
  unfold reg_pwrite_checked in Hw. destruct (_ || _) eqn:Eb in Hw; [done|]. injection Hw as <-.
  apply orb_false_iff in Eb as [Eb _]. apply orb_false_iff in Eb as [_ Eb]. apply Z.ltb_ge in Eb.
  rewrite strlen_block_bytes in Eb by done.
  assert (on_disk w = w_bytes_done w) as Hod by (unfold on_disk; rewrite Hpc; lia). rewrite Hod in *.
  assert (on_disk (set_pc (PcCommit st b tot n) w) = w_bytes_done w + n) as Hod' by done.
  split; rewrite ?Hod'; simpl; try done; try lia.
  - unfold pc_body. simpl. intros c [= <-]. apply si_body0. unfold pc_body. by rewrite Hpc.
  - intros o Ho. rewrite block_write_byte by done. rewrite decide_False by lia. apply si_out0. lia.
  - intros Ht o Ho. rewrite block_write_byte by done. case_decide.
    + rewrite (si_body0 b) by (done || (unfold pc_body; by rewrite Hpc)). f_equal. lia.
    + apply si_in0; [done|lia].
  - unfold bad in *. simpl. by rewrite Hpc in si_taint0.
  - rewrite block_write_size by done. case_decide; lia.
Qed.

Lemma single_commit sh w st b tot n :
  single_inv sh w -> w_pc w = PcCommit st b tot n ->
  single_inv (commit sh w n)
    (mkWorker (w_range w) (w_slot w) (u64 (w_bytes_done w + n)) (w_truncated w) (w_pslot w)
       (callback_return st b n tot)).
Proof.
  intros [] Hpc. unfold single_pc in si_pc0. rewrite Hpc in si_pc0. pose proof range_off_bounds.
  assert (on_disk w = w_bytes_done w + n) as Hod by (unfold on_disk; by rewrite Hpc).
  rewrite Hod in *.
  assert (u64 (w_bytes_done w + n) = w_bytes_done w + n) as Hbd by (apply u64_small; olia).
  set (w' := mkWorker _ _ _ _ _ _).
  assert (on_disk w' = w_bytes_done w + n) as Hod'.
  { unfold on_disk, w'. simpl. rewrite Hbd.
    destruct (callback_return_cases st b n tot) as [-> | ->]; lia. }
  unfold commit. rewrite si_none0.
  split; rewrite ?Hod'; simpl; rewrite ?Hbd; try done; try lia.
  - unfold single_pc. simpl. by destruct (callback_return_cases st b n tot) as [-> | ->].
  - intros c Hc. apply si_body0. unfold pc_body in *. rewrite Hpc. simpl in Hc.
    by destruct (callback_return_cases st b n tot) as [E|E]; rewrite E in Hc.
  - intros Ht. specialize (si_taint0 Ht). unfold bad in *. rewrite Hpc in si_taint0. simpl.
    by destruct (callback_return_cases st b n tot) as [-> | ->].
Qed.

Lemma single_step sh w sh' w' ev :
  single_inv sh w -> event_ok sv max_block sh [w] 0 w ev ->
  worker_step cf 0 sh w ev = Some (sh', w') -> single_inv sh' w'.
Proof.
  intros Hi Hev Hst. pose proof (single_offset _ _ Hi) as Hoff. pose proof (si_range _ _ Hi) as Hr.
  pose proof (si_pc _ _ Hi) as Hpc. pose proof (si_none _ _ Hi) as Hnone.
  pose proof (si_trunc _ _ Hi) as Htr.
  unfold worker_step in Hst. unfold single_pc in Hpc.
  destruct (w_pc w) as [| |st b|st b t n o|st b t n|st res| | | | | |ok] eqn:Epc; try done;
    destruct ev as [okk| |st' b'|stop bw n'|res'|]; try done; cbn [event_ok] in Hev.
  - destruct okk; injection Hst as <- <-.
    + eapply single_local_same; try done; unfold on_disk, pc_body, bad; simpl; by rewrite Epc.
    + destruct Hi. by split.
  - injection Hst as <- <-.
    eapply single_local_same; try done; unfold on_disk, pc_body, bad; simpl; rewrite ?Epc, ?Hpc; done.
  - injection Hst as <- <-. eapply (single_local sh w); [done|done|by rewrite Hpc| |done|done| | |].
    + unfold on_disk. simpl. by rewrite Epc, Hpc.
    + simpl. intros c [= <-] Ht. apply orb_false_iff in Ht as [_ Ht]. apply negb_false_iff in Ht.
      replace (range_off r) with (w_off w) in * by (unfold w_off; by rewrite Hr).
      eapply accepted_body; try done.
      unfold w_off. rewrite Hr. apply r_wf.
    + unfold bad. simpl. by intros ?%negb_true_iff.
    + unfold bad. by rewrite Epc.
  - injection Hst as <- <-. rewrite Hnone. apply single_callback_enter; [done|done|lia].
  - injection Hst as <- <-.
    eapply single_local_same; try done; try (unfold on_disk, bad; simpl; by rewrite Epc).
    unfold single_pc. simpl. rewrite Epc in Hev. intros ->. done.
  - destruct (reg_pwrite_checked _ _ _ _) eqn:Ew; injection Hst as <- <-.
    + by eapply single_write.
    + eapply single_local_same; try done; unfold on_disk, single_pc, pc_body, bad; simpl; rewrite ?Epc;
        by destruct (callback_return_cases st b 0 t) as [-> | ->].
  - injection Hst as <- <-. by apply single_commit.
  - destruct (segment_succeeded _ _ _ _ _) eqn:Ev; rewrite ?Hnone in Hst; injection Hst as <- <-.
    + unfold segment_succeeded in Ev. apply andb_true_iff in Ev as [[Hh Hb]%andb_true_iff Hres].
      apply Z.eqb_eq in Hb. unfold expected_bytes in Hb. rewrite Hnone, Hoff, Hr in Hb.
      rewrite Htr, orb_false_r in Hres.
      pose proof range_off_bounds. pose proof (rw_end _ r_wf). pose proof (rw_max _ r_wf).
      eapply single_local_same; try done; try (unfold on_disk, bad; simpl; rewrite Epc; done || congruence).
      unfold single_pc. simpl. intros _. split; [|exists st; auto].
      cbv zeta in Hb. destruct (Z.leb_spec (range_off r) (rg_end r)); [|lia].
      rewrite (u64_small (_ - _)) in Hb by olia. rewrite u64_small in Hb by olia. lia.
    + eapply single_local_same; try done; unfold on_disk, bad; simpl; by rewrite ?Epc.
Qed.

Lemma single_reachable (l : L) slots total st :
  rtc (pool_step cf sv max_block) (pool_start false slots l total file0 [r]) st ->
  exists w, snd st = [w] /\ single_inv (fst st) w.
Proof.
  apply (rtc_invariant _ (fun st => exists w, snd st = [w] /\ single_inv (fst st) w)).
  - intros a b (w & Hw & Hi) Hs. destruct Hs as [sh ws i x ev sh' w' Hx Hev Hst]. simpl in *. subst ws.
    destruct i as [|i]; [|done]. injection Hx as <-. exists w'. split; [done|].
    by eapply single_step.
  - eexists. split; [done|]. pose proof range_off_bounds.
    assert (on_disk (initial_worker slots 0 r) = 0) as E by done.
    split; rewrite ?E; simpl; try done; try lia.
Qed.

End Single.

(** C7. The single-connection transfer ([worker_pool_run] without a rebalance
    pool): at any time the file differs from its initial contents at most on
    the bytes accounted for from the range's offset on; and when the run
    reports success exactly the requested number of bytes was received, they
    are the complete body of the response and the bytes of the resource, and
    nothing else has changed. *)
Theorem single_download_correct {L} `{SplitListener L} (cf : PoolConf)
    (sv : HttpServer) (max_block : Z) (content : Z -> Z)
    (slots : nat -> slot_ptr) (l : L) (total : Z) (file0 : regular) (r : Range) st :
  (forall r body, answers sv r 206 body ->
     exists a b, r = Some (a, b) /\ forall k, body k = content (a + k)) ->
  (forall r body, answers sv r 200 body -> forall k, body k = content k) ->
  range_wf r ->
  rtc (pool_step cf sv max_block) (pool_start false slots l total file0 [r]) st ->
  exists w, snd st = [w] /\
  (forall o, ~ (range_off r <= o < range_off r + on_disk w) ->
     reg_byte (sh_file (fst st)) o = reg_byte file0 o) /\
  (joined st = true -> all_succeeded st = true ->
     w_bytes_done w = rg_end r + 1 - range_off r /\
     (exists status, full_body sv (if rg_whole_file r then None else Some (range_off r, rg_end r))
                       status (w_bytes_done w)) /\
     (forall o, range_off r <= o <= rg_end r -> reg_byte (sh_file (fst st)) o = content o) /\
     (forall o, ~ (range_off r <= o <= rg_end r) ->
        reg_byte (sh_file (fst st)) o = reg_byte file0 o)).
Proof.
  intros H206 H200 Hwf Hr.
  destruct (single_reachable cf sv max_block content file0 r H206 H200 Hwf l slots total st Hr)
    as (w & Hw & Hi).
  exists w. split; [done|]. split; [apply (si_out _ _ _ _ _ _ _ Hi)|].
  intros Hj Ha. unfold joined, all_succeeded in *. rewrite Hw in *. simpl in *.
  apply andb_true_iff in Ha as [Hsf Ha]. apply negb_true_iff in Hsf. rewrite Hsf in Hj.
  assert (w_pc w = PcExit true) as Epc by (by destruct (w_pc w) as [| | | | | | | | | | |[]]).
  pose proof (si_pc _ _ _ _ _ _ _ Hi) as Hpc. unfold single_pc in Hpc. rewrite Epc in Hpc.
  destruct (Hpc eq_refl) as (Hbd & status & _ & Hfull). clear Hpc.
  assert (on_disk w = w_bytes_done w) as Hod by (unfold on_disk; rewrite Epc; lia).
  split; [done|]. split.
  { exists status. unfold request_range in Hfull.
    rewrite (single_offset _ _ _ _ _ Hwf _ _ Hi), (si_range _ _ _ _ _ _ _ Hi) in Hfull. done. }
  split.
  - intros o Ho. apply (si_in _ _ _ _ _ _ _ Hi); [|lia].
    destruct (sh_tainted (fst st)) eqn:E; [|done].
    pose proof (si_taint _ _ _ _ _ _ _ Hi E) as Hb. unfold bad in Hb. by rewrite Epc in Hb.
  - intros o Ho. apply (si_out _ _ _ _ _ _ _ Hi). lia.
Qed.

(** Five bytes in two blocks, the second one longer than the first. *)
Definition demo_single : Range := mkRange 0 4 0 true.
Definition demo_single_conf : PoolConf := mkConf permissive 2 1.
Definition demo_single_start : PoolState (L := unit) :=
  pool_start false (fun _ => PNull) tt 0 (reg_pwrite empty_reg 4 [0]) [demo_single].
Definition demo_single_end : PoolState (L := unit) :=
  default demo_single_start
    (play demo_single_conf 9 (demo_serve 5)
       ([(0%nat, Some (EvSpawn true)); (0%nat, None)] ++ demo_block 0 2 ++ demo_block 0 3
          ++ [(0%nat, Some (EvEnd true)); (0%nat, Some EvTau)]) demo_single_start).

Lemma single_download_correct_witness :
  joined demo_single_end = true /\ all_succeeded demo_single_end = true /\
  (forall o, 0 <= o <= 4 -> reg_byte (sh_file (fst demo_single_end)) o = demo_content o).
Proof.
  assert (joined demo_single_end = true) as Hj by (vm_compute; reflexivity).
  assert (all_succeeded demo_single_end = true) as Ha by (vm_compute; reflexivity).
  assert (rtc (pool_step demo_single_conf (demo_server 5) 9) demo_single_start demo_single_end) as Hr.
  { unfold demo_single_end. destruct (play _ _ _ _ _) eqn:E; [|vm_compute in E; discriminate E].
    exact (play_steps _ _ _ _ _ _ _ (demo_serves 5) E). }
  assert (range_wf demo_single) as Hwf.
  { split; unfold range_off; simpl; try done; rewrite OFF_MAX_val; lia. }
  split; [exact Hj|]. split; [exact Ha|]. intros o Ho.
  destruct (single_download_correct demo_single_conf (demo_server 5) 9 demo_content (fun _ => PNull) tt 0
              (reg_pwrite empty_reg 4 [0]) demo_single demo_single_end (demo_206 5) (demo_200 5) Hwf Hr)
    as (w & _ & _ & H). apply (H Hj Ha). unfold range_off. simpl. lia.
Defined.
