(* ===== verification/PoolMirror.v ===== *)
(** * What the rebalance pool promises to the owner of the chunks

    A client that keeps a table of chunks behind the [SplitListener] callbacks
    relates it to the slots by a relation [J].  The class [PoolMirror] says what
    the client has to show: [J] survives a counted write, the end of a slot and
    a split.  The theorem of this file is the other half: the pool only makes
    such calls, so that [J] holds in every reachable state. *)

From S2P Require Import Prelude Segmenter FileIo Pool PoolInv.

#[local] Set Warnings "-clear-no-such-hyp".

Class PoolMirror (L : Type) `{SplitListener L} (J : list PoolSlot -> L -> Prop) := {
  mirror_write sl l k s n :
    J sl l -> sl !! k = Some s -> slot_wf s -> 0 <= n -> ps_write_pos s + n <= OFF_MAX ->
    J (<[k := add_write_pos n s]> sl)
      (match ps_progress_slot s with PNull => l | p => add_progress l p n end);
  mirror_cancel sl l : J sl l -> J sl (request_cancel l);
  mirror_done sl l k s :
    J sl l -> sl !! k = Some s -> J (<[k := set_claim false true s]> sl) l;
  mirror_split sl l v s split :
    J sl l -> sl !! v = Some s -> slot_wf s -> Z.of_nat (length sl) < MAX_WORKERS ->
    ps_start s < split < ps_live_end s ->
    let l' := on_split l (ps_start s) split (ps_live_end s) in
    J (<[v := set_live_end split s]> sl
         ++ [mkSlot split split (ps_live_end s) true false (progress_slots l' (length sl))]) l';
}.

(** A victim that writes all but one byte of at least [min_steal_bytes]
    between the scan and the load that follows it in the same critical section
    would give an empty half: [timely] excludes such a schedule. *)
Definition timely {L} (st : PoolState (L := L)) : Prop :=
  forall i w v sl s, snd st !! i = Some w -> w_pc w = PcSplit v ->
    sh_slots (fst st) = Some sl -> sl !! v = Some s -> ps_write_pos s + 2 <= ps_live_end s.

(** Runs in which the client also acts on its own (the scheduler's tick that
    persists the counters): [client] is its step relation. *)
Inductive observed_step {L} `{SplitListener L} (client : L -> L -> Prop) cf sv max_block
    : PoolState (L := L) -> PoolState (L := L) -> Prop :=
| os_pool st st' :
    pool_step cf sv max_block st st' -> observed_step client cf sv max_block st st'
| os_client sh ws l' :
    client (sh_listener sh) l' ->
    observed_step client cf sv max_block (sh, ws) (with_progress (sh_total sh) l' sh, ws).

Definition timely_step {L} `{SplitListener L} (client : L -> L -> Prop) cf sv max_block
    (st st' : PoolState (L := L)) : Prop :=
  timely st /\ observed_step client cf sv max_block st st'.

Lemma pool_observed {L} `{SplitListener L} client cf sv max_block (st st' : PoolState (L := L)) :
  rtc (pool_step cf sv max_block) st st' -> rtc (observed_step client cf sv max_block) st st'.
Proof. intros Hr. induction Hr; [apply rtc_refl|]. eapply rtc_l; [by apply os_pool|done]. Qed.

(** A property of the client's state that all its operations keep is kept by a run. *)
Lemma listener_reachable {L} `{SplitListener L} (P : L -> Prop) (client : L -> L -> Prop) cf sv
    max_block (st st' : PoolState (L := L)) :
  (forall l a b c, P l -> P (on_split l a b c)) -> (forall l p n, P l -> P (add_progress l p n)) ->
  (forall l, P l -> P (request_cancel l)) -> (forall l l', P l -> client l l' -> P l') ->
  rtc (observed_step client cf sv max_block) st st' ->
  P (sh_listener (fst st)) -> P (sh_listener (fst st')).
Proof.
  intros Hsplit Hadd Hcancel Hcl Hr H0.
  apply (rtc_invariant (observed_step client cf sv max_block) (fun st => P (sh_listener (fst st))) st);
    [|done|done]. clear st st' Hr H0. intros st st' HP Hs.
  destruct Hs as [st st' Hs|sh ws l' Hc]; [|by eapply Hcl].
  destruct Hs as [sh ws i w ev sh' w' Hw _ Hst]. simpl in *. unfold worker_step, commit in Hst.
  repeat case_match; simplify_eq; simpl; auto.
Qed.

(** Playing a schedule in which every split is timely. *)
Definition timelyb {L} (st : PoolState (L := L)) : bool :=
  forallb (fun w =>
    match w_pc w with
    | PcSplit v =>
        match sh_slots (fst st) with
        | Some sl => match sl !! v with Some s => ps_write_pos s + 2 <=? ps_live_end s | None => true end
        | None => true
        end
    | _ => true
    end) (snd st).

Lemma timelyb_timely {L} (st : PoolState (L := L)) : timelyb st = true -> timely st.
Proof.
  intros Hq i w v sl s Hw Hpc Hsl Hs. unfold timelyb in Hq. rewrite forallb_forall in Hq.
  assert (In w (snd st)) as Hin by (apply list_elem_of_In; by eapply list_elem_of_lookup_2).
  specialize (Hq w Hin). rewrite Hpc, Hsl, Hs in Hq. by apply Z.leb_le.
Qed.

Fixpoint play_timely {L} `{SplitListener L} cf max_block serve (sched : list (nat * option event))
    (st : PoolState (L := L)) : option PoolState :=
  match sched with
  | [] => Some st
  | mv :: sched' =>
      if timelyb st then
        match play cf max_block serve [mv] st with
        | Some st' => play_timely cf max_block serve sched' st'
        | None => None
        end
      else None
  end.

Lemma play_one {L} `{SplitListener L} cf sv max_block serve mv (st st' : PoolState (L := L)) :
  serves sv serve -> play cf max_block serve [mv] st = Some st' -> pool_step cf sv max_block st st'.
Proof.
  intros Hserve. destruct mv as [i mv], st as [sh ws]. cbn [play].
  destruct (play_move cf max_block serve i mv (sh, ws)) as [st1|] eqn:Em; [|done]. intros [= <-].
  unfold play_move in Em. cbn [fst snd] in Em. destruct (ws !! i) as [w|] eqn:Hw; [|done].
  destruct mv as [ev|].
  - destruct (event_okb max_block serve sh ws i w ev) eqn:Eb; [|done].
    destruct (worker_step cf i sh w ev) as [[sh' w']|] eqn:Es; [|done]. injection Em as <-.
    eapply pool_step_intro; [done| |done]. by eapply event_okb_ok.
  - pose proof (Hserve (request_range w)) as Ha.
    destruct (serve (request_range w)) as [[status body] len]. cbn beta iota zeta in Em.
    destruct (worker_step cf i sh w _) as [[sh' w']|] eqn:Es; [|done]. injection Em as <-.
    eapply pool_step_intro; [done| |done]. apply Ha.
Qed.

Lemma play_timely_steps {L} `{SplitListener L} client cf sv max_block serve sched
    (st st' : PoolState (L := L)) :
  serves sv serve -> play_timely cf max_block serve sched st = Some st' ->
  rtc (timely_step client cf sv max_block) st st'.
Proof.
  intros Hserve. revert st. induction sched as [|mv sched IH]; intros st Hp; cbn [play_timely] in Hp.
  - injection Hp as ->. apply rtc_refl.
  - destruct (timelyb st) eqn:Eq; [|done]. destruct (play _ _ _ [mv] st) as [st1|] eqn:E1; [|done].
    eapply rtc_l; [|by apply IH]. split; [by apply timelyb_timely|]. apply os_pool. by eapply play_one.
Qed.

Section Mirror.

Context {L : Type} `{SplitListener L} (J : list PoolSlot -> L -> Prop) `{!PoolMirror L J}.
Context (client : L -> L -> Prop).
Hypothesis mirror_client : forall sl l l', J sl l -> client l l' -> J sl l'.
Context (cf : PoolConf) (sv : HttpServer).
Context (max_block : Z) (content : Z -> Z) (file0 : regular) (R : Z -> Prop).
Hypothesis block_le_steal : 0 <= max_block <= cf_min_steal_bytes cf.
Hypothesis steal_pos : 0 < cf_min_steal_bytes cf.
Hypothesis answers_206 : forall r body, answers sv r 206 body ->
  exists a b, r = Some (a, b) /\ forall k, body k = content (a + k).
Hypothesis answers_200 : forall r body, answers sv r 200 body -> forall k, body k = content k.

Abbreviation ST := (st_inv (cf_min_steal_bytes cf) max_block (cf_total_workers cf) content file0 R).

(** The pointer a worker adds to is the one of its slot; a thread about to
    split has room for the new slot and a proper cut. *)
Definition linked (sl : list PoolSlot) (w : Worker) : Prop :=
  (owns w = true -> forall s, sl !! w_slot w = Some s -> w_pslot w = ps_progress_slot s) /\
  (forall v, w_pc w = PcSplit v -> Z.of_nat (length sl) < MAX_WORKERS) /\
  (forall v split le, w_pc w = PcStore v split le -> Z.of_nat (length sl) < MAX_WORKERS /\
     forall s, sl !! v = Some s -> ps_start s < split < ps_live_end s).

Definition mirror_inv (st : PoolState (L := L)) : Prop :=
  exists sl, sh_slots (fst st) = Some sl /\ J sl (sh_listener (fst st)) /\
    forall j w, snd st !! j = Some w -> linked sl w.

Lemma linked_idle sl w : holds_lock w = false ->
  (owns w = true -> forall s, sl !! w_slot w = Some s -> w_pslot w = ps_progress_slot s) -> linked sl w.
Proof.
  intros Hh Hp. unfold holds_lock in Hh. split; [done|].
  split; intros; repeat match goal with E : w_pc w = _ |- _ => rewrite E in Hh end; done.
Qed.

(** Steps that leave the slots and the listener alone. *)
Lemma mirror_local (sh sh' : Shared L) (ws : list Worker) i w' sl :
  sh_slots sh = Some sl -> J sl (sh_listener sh) -> (forall j w, ws !! j = Some w -> linked sl w) ->
  sh_slots sh' = sh_slots sh -> sh_listener sh' = sh_listener sh -> linked sl w' ->
  mirror_inv (sh', <[i := w']> ws).
Proof.
  intros Hsl HJ Hws E1 E2 Hl. exists sl. simpl. rewrite E1, E2. split; [done|]. split; [done|].
  intros j x [[-> ->]|[? Hj]]%insert_Some_cases; [done|by eapply Hws].
Qed.

(** Updating one slot in place, its pointer and bounds kept. *)
Lemma linked_insert sl k s s' w :
  sl !! k = Some s -> ps_progress_slot s' = ps_progress_slot s ->
  ps_start s' = ps_start s -> ps_live_end s' = ps_live_end s ->
  linked sl w -> linked (<[k := s']> sl) w.
Proof.
  intros Hk Ep Es Ee (H1 & H2 & H3). unfold linked. rewrite length_insert.
  assert (k < length sl)%nat by by eapply lookup_lt_Some.
  split; [|split; [done|]].
  - intros Ho x Hx. apply insert_Some_cases in Hx as [[Hx ->]|[? Hx]]; [|by apply H1].
    rewrite Ep. apply H1; congruence.
  - intros v split le E. destruct (H3 v split le E) as [? Hv]. split; [done|].
    intros x Hx. apply insert_Some_cases in Hx as [[-> ->]|[? Hx]]; [|by apply Hv].
    rewrite Es, Ee. by apply Hv.
Qed.

Lemma linked_pslot sl w w' :
  linked sl w -> owns w = true -> w_slot w' = w_slot w -> w_pslot w' = w_pslot w ->
  holds_lock w' = false -> linked sl w'.
Proof.
  intros (H1 & _) Ho E1 E2 Hh. apply linked_idle; [done|]. intros _ s. rewrite E1, E2. by apply H1.
Qed.

Lemma mirror_segment_step sl (sh sh' : Shared L) (ws : list Worker) i w w' ev :
  ST (sh, ws) -> sh_slots sh = Some sl -> J sl (sh_listener sh) ->
  (forall j w, ws !! j = Some w -> linked sl w) -> ws !! i = Some w ->
  match w_pc w with
  | PcUnborn | PcSegment | PcTransfer _ _ | PcWrite _ _ _ _ _ | PcCommit _ _ _ _
  | PcVerdict _ _ | PcMarkDone => True
  | _ => False
  end ->
  worker_step cf i sh w ev = Some (sh', w') -> mirror_inv (sh', <[i := w']> ws).
Proof.
  intros (sl0 & Hsl0 & Hi) Hsl HJ Hws Hw Hpc Hst. simpl in *. rewrite Hsl in Hsl0. injection Hsl0 as <-.
  pose proof (Hws i w Hw) as Hl.
  assert (owns w = true) as Ho by (unfold owns; by destruct (w_pc w)).
  destruct (inv_owner _ _ _ _ _ _ _ _ _ _ _ _ _ Hi Hw Ho) as (s & Hs & Hok & Hwf).
  assert (forall sh1 w1, sh_slots sh1 = sh_slots sh -> sh_listener sh1 = sh_listener sh ->
    w_slot w1 = w_slot w -> w_pslot w1 = w_pslot w -> holds_lock w1 = false ->
    mirror_inv (sh1, <[i := w1]> ws)) as Hloc.
  { intros. eapply mirror_local; eauto. by eapply linked_pslot. }
  unfold worker_step in Hst.
  destruct (w_pc w) as [| |st b|st b t n o|st b t n|st r| | |k v r|v|v sp le|] eqn:Epc; try done;
    destruct ev as [okk| |st' b'|stop bw n'|r'|]; try done.
  - destruct okk; injection Hst as <- <-; [by apply Hloc|]. exists sl. split; [done|].
    split; [by apply mirror_cancel|]. intros j x [[-> ->]|[? Hj]]%insert_Some_cases; by eapply Hws.
  - injection Hst as <- <-. by apply Hloc.
  - injection Hst as <- <-. by apply Hloc.
  - injection Hst as <- <-. unfold callback_enter.
    destruct (callback_return_cases st b 0 n') as [E|E]; repeat case_match; apply Hloc; try done;
      unfold holds_lock; simpl; by rewrite ?E.
  - injection Hst as <- <-. by apply Hloc.
  - destruct (reg_pwrite_checked _ _ _ _); injection Hst as <- <-; apply Hloc; try done.
    unfold holds_lock. simpl. by destruct (callback_return_cases st b 0 t) as [-> | ->].
  - injection Hst as <- <-. unfold commit. rewrite Hsl. exists (<[w_slot w := add_write_pos n s]> sl).
    cbn [fst snd with_progress with_slots sh_slots sh_listener].
    rewrite (alter_insert_Some _ _ _ _ Hs). split; [done|].
    destruct Hl as (Hp & _). rewrite (Hp Ho s Hs). destruct Hok.
    assert (inflight w = n) as Hn by (unfold inflight; by rewrite Epc). rewrite Hn in *. split.
    + apply mirror_write; try done; lia.
    + intros j x [[-> ->]|[Hne Hj]]%insert_Some_cases; eapply linked_insert; eauto.
      apply (linked_pslot sl w); try done;
        [by apply (Hws i)|symmetry; by apply Hp|]. unfold holds_lock. simpl.
      by destruct (callback_return_cases st b n t) as [-> | ->].
  - destruct (segment_succeeded _ _ _ _ _); injection Hst as <- <-; apply Hloc; try done.
    by rewrite Hsl.
  - destruct (sh_lock sh); [done|]. rewrite Hsl in Hst. injection Hst as <- <-.
    rewrite (alter_insert_Some _ _ _ _ Hs). exists (<[w_slot w := set_claim false true s]> sl).
    split; [done|]. split; [by apply mirror_done|].
    intros j x [[-> ->]|[Hne Hj]]%insert_Some_cases; eapply linked_insert; eauto.
    apply (linked_pslot sl w); try done.
Qed.

(** A split does not concern the threads that do not hold the lock. *)
Lemma linked_bystander sl file t ws i j x v s sp le p :
  inv (cf_min_steal_bytes cf) max_block (cf_total_workers cf) content file0 R sl (Some i) file t ws ->
  (forall j w, ws !! j = Some w -> linked sl w) -> sl !! v = Some s -> j <> i -> ws !! j = Some x ->
  linked (<[v := set_live_end sp s]> sl ++ [mkSlot sp sp le true false p]) x.
Proof.
  intros Hi Hws Hs Hne Hj. apply linked_idle; [by eapply only_holder|]. intros Ho y Hy.
  destruct (Hws j x Hj) as (Hp & _). destruct (inv_owner _ _ _ _ _ _ _ _ _ _ _ _ _ Hi Hj Ho) as (z & Hz & _).
  assert (w_slot x < length sl)%nat by by eapply lookup_lt_Some.
  rewrite lookup_app_l in Hy by (rewrite length_insert; lia).
  apply insert_Some_cases in Hy as [[Hxv ->]|[? Hy]]; [|by apply Hp]. simpl. apply Hp; [done|]. by rewrite Hxv.
Qed.

Lemma mirror_steal_step sl (sh sh' : Shared L) (ws : list Worker) i w w' ev :
  ST (sh, ws) -> timely (sh, ws) -> sh_slots sh = Some sl -> J sl (sh_listener sh) ->
  (forall j w, ws !! j = Some w -> linked sl w) -> ws !! i = Some w ->
  match w_pc w with
  | PcAcquire | PcScan _ _ _ | PcSplit _ | PcStore _ _ _ => True
  | _ => False
  end ->
  worker_step cf i sh w ev = Some (sh', w') -> mirror_inv (sh', <[i := w']> ws).
Proof.
  intros (sl0 & Hsl0 & Hi) Htm Hsl HJ Hws Hw Hpc Hst. simpl in *. rewrite Hsl in Hsl0. injection Hsl0 as <-.
  pose proof (Hws i w Hw) as (_ & Hl2 & Hl3). unfold worker_step in Hst.
  destruct (w_pc w) as [| | | | | | | |k v r|v|v sp le|] eqn:Epc; try done; destruct ev; try done;
    rewrite ?Hsl in Hst.
  - destruct (sh_lock sh); [done|]. rewrite (find_orphan_none _ _ _ _ _ _ _ _ _ _ _ Hi) in Hst.
    injection Hst as <- <-. eapply mirror_local; eauto.
    split; [done|]. split; [by simpl|]. by simpl.
  - destruct (sl !! k) as [s|] eqn:Hk.
    + destruct (scan_slot s k v r) as [v' r'] eqn:Esc. injection Hst as <- <-.
      eapply mirror_local; eauto. split; [done|]. split; by simpl.
    + destruct (scan_result _ _ v r) as [v'|] eqn:Er; injection Hst as <- <-;
        (eapply mirror_local; eauto); (split; [done|]); split; try by simpl.
      intros ? _. unfold scan_result in Er. destruct v as [y|]; [|done].
      destruct (_ || _) eqn:Eb; [done|]. apply orb_false_iff in Eb as [_ Eb].
      by apply Z.leb_gt in Eb.
  - injection Hst as <- <-. eapply mirror_local; eauto. split; [done|]. split; [by simpl|].
    simpl. intros v' sp le [= <- <- <-]. split; [by eapply Hl2|]. intros s Hs.
    unfold slot_at. rewrite Hs. cbn [default id]. apply split_point_inside; [|by eapply Htm].
    by eapply (inv_slot _ _ _ _ _ _ _ _ _ _ _ _ _ Hi).
  - injection Hst as <- <-.
    destruct (wo_store _ _ _ _ _ _ _ (i_work _ _ _ _ _ _ _ _ _ _ _ Hi _ _ Hw) v sp le Epc)
      as (s & Hs & -> & Hsp).
    destruct (Hl3 v sp _ eq_refl) as [Hlen Hcut]. specialize (Hcut s Hs).
    pose proof (inv_slot _ _ _ _ _ _ _ _ _ _ _ _ _ Hi Hs) as Hwf.
    assert (sh_lock sh = Some i) as Hlk.
    { apply (i_lock _ _ _ _ _ _ _ _ _ _ _ Hi _ _ Hw). unfold holds_lock. by rewrite Epc. }
    rewrite (alter_insert_Some _ _ _ _ Hs). unfold slot_at. rewrite Hs. cbn [default id].
    eexists. split; [done|]. split; [by apply mirror_split|].
    intros j x [[-> ->]|[Hne Hj]]%insert_Some_cases.
    + apply linked_idle; [done|]. intros _ x Hx. unfold next_segment in *. cbn [w_slot w_pslot] in *.
      rewrite lookup_app_r in Hx by (rewrite length_insert; lia).
      rewrite length_insert, Nat.sub_diag in Hx. by injection Hx as <-.
    + rewrite Hlk in Hi. by eapply linked_bystander.
Qed.

Lemma mirror_step st st' :
  ST st -> mirror_inv st -> timely st -> pool_step cf sv max_block st st' -> mirror_inv st'.
Proof.
  intros HST (sl & Hsl & HJ & Hws) Htm Hs.
  destruct Hs as [sh ws i w ev sh' w' Hw Hev Hst]. simpl in *.
  destruct (w_pc w) eqn:Epc;
    try (eapply mirror_segment_step; eauto; rewrite Epc; exact I);
    try (eapply mirror_steal_step; eauto; rewrite Epc; exact I).
  unfold worker_step in Hst. rewrite Epc in Hst. by destruct ev.
Qed.

(** The client's own steps are invisible to the pool. *)
Lemma st_inv_observed st st' : ST st -> observed_step client cf sv max_block st st' -> ST st'.
Proof. intros HST Hs. destruct Hs as [st st' Hs|sh ws l' Hc]; [by eapply st_inv_step|exact HST]. Qed.

Lemma st_inv_observed_reachable (l : L) slots total ranges st :
  Forall range_wf ranges -> Z.of_nat (length ranges) <= MAX_WORKERS ->
  (forall o, R o <-> requested ranges o) ->
  rtc (observed_step client cf sv max_block) (pool_start true slots l total file0 ranges) st ->
  ST st.
Proof.
  intros Hwf Hlen HR. apply (rtc_invariant _ ST); [apply st_inv_observed|by apply st_inv_init].
Qed.

Lemma mirror_observed st st' :
  ST st -> mirror_inv st -> timely_step client cf sv max_block st st' -> mirror_inv st'.
Proof.
  intros HST Hm [Htm Hs]. destruct Hs as [st st' Hs|sh ws l' Hc]; [by eapply mirror_step|].
  destruct Hm as (sl & Hsl & HJ & Hws). exists sl. split; [done|].
  split; [by eapply mirror_client|done].
Qed.

Lemma mirror_reachable (l : L) total ranges st :
  Forall range_wf ranges -> Z.of_nat (length ranges) <= MAX_WORKERS ->
  (forall o, R o <-> requested ranges o) ->
  J (rebalance_pool_create l ranges) l ->
  rtc (timely_step client cf sv max_block)
    (pool_start true (progress_slots l) l total file0 ranges) st ->
  ST st /\ mirror_inv st.
Proof.
  intros Hwf Hlen HR HJ. apply (rtc_invariant _ (fun st => ST st /\ mirror_inv st)).
  - intros a b [H1 H2] Hs. split; [eapply st_inv_observed; [done|apply Hs]|by eapply mirror_observed].
  - split; [by apply st_inv_init|]. exists (rebalance_pool_create l ranges). split; [done|].
    split; [done|]. simpl. intros j w Hj. rewrite list_lookup_imap in Hj.
    apply fmap_Some in Hj as (r & Hr & ->). apply linked_idle; [done|]. intros _ s Hs. simpl in *.
    apply create_lookup in Hs as (r' & _ & ->). done.
Qed.

End Mirror.
