(* ===== verification/PoolStatic.v ===== *)
(** * Several workers without a rebalance pool

    When [rebalance_pool_create] gets no memory, [worker_pool_run] serves its
    ranges without a pool: nothing is split, and nothing stops a worker at the
    end of its range but the server.  Each worker then behaves as the one of
    PoolLive.v on a file of its own, its [view]; what they share is the file, and
    there every byte an accepted answer writes is the resource's. *)

From S2P Require Import Prelude Segmenter FileIo Pool PoolInv PoolLive PoolMirror.

(** The fields of [same_effect] for a step that leaves the file alone. *)
#[local] Ltac kept :=
  split; [done|done|first [by left|by right|auto]|done|exists false; by rewrite !orb_false_r|left; split; [done|]].

Section Static.

Context {L : Type} `{SplitListener L} (cf : PoolConf).
Context (sv : HttpServer) (max_block : Z).
Context (content : Z -> Z) (file0 : regular) (ranges : list Range).
Hypothesis answers_206 : forall r body, answers sv r 206 body ->
  exists a b, r = Some (a, b) /\ forall k, body k = content (a + k).
Hypothesis answers_200 : forall r body, answers sv r 200 body -> forall k, body k = content k.
Hypothesis ranges_wf : Forall range_wf ranges.

(** What a step does to the shared state [sh], as far as another such state
    sees it: the ghosts, and the file either kept or written by the worker. *)
Record same_effect (sh v sh' v' : Shared L) (w w' : Worker) : Prop := {
  se_none : sh_slots sh' = None;
  se_none' : sh_slots v' = None;
  se_spawn : sh_spawn_failed v' = true -> sh_spawn_failed v = true \/ sh_spawn_failed sh' = true;
  se_spawn_mono : sh_spawn_failed sh = true -> sh_spawn_failed sh' = true;
  se_taint : exists b, sh_tainted sh' = sh_tainted sh || b /\ sh_tainted v' = sh_tainted v || b;
  se_file :
    (sh_file sh' = sh_file sh /\
       (on_disk w' = 0 \/ on_disk w' = on_disk w \/ on_disk w' = u64 (on_disk w))) \/
    exists st b t n off, w_pc w = PcWrite st b t n off /\ w' = set_pc (PcCommit st b t n) w /\
      sh_file sh' = reg_pwrite (sh_file sh) off (block_bytes b (w_bytes_done w) n);
}.

(** A worker does the same whatever state it sees. *)
Lemma step_view me sh v w ev sh' w' :
  sh_slots sh = None -> sh_slots v = None -> worker_step cf me sh w ev = Some (sh', w') ->
  exists v', worker_step cf 0 v w ev = Some (v', w') /\ same_effect sh v sh' v' w w'.
Proof.
  intros Hn Hv Hst. unfold worker_step in Hst |- *. rewrite Hn in Hst. rewrite Hv.
  destruct (w_pc w) as [| |st b|st b t n o|st b t n|st res| | |k vi vr|vi|vi sp le|ok] eqn:Epc; try done;
    destruct ev as [okk| |st' b'|stop bw n'|res'|]; try done; try (by destruct (sh_lock sh)).
  - destruct okk; injection Hst as <- <-; eexists; (split; [reflexivity|]); kept.
    + right. left. unfold on_disk. simpl. by rewrite Epc.
    + by right; left.
  - injection Hst as <- <-. eexists. split; [reflexivity|]. kept. by left.
  - injection Hst as <- <-. eexists. split; [reflexivity|].
    split; [done|done|auto|done|by eexists|]. left. split; [done|]. by left.
  - injection Hst as <- <-. eexists. split; [reflexivity|]. kept. right. left.
    unfold callback_enter, on_disk.
    destruct (callback_return_cases st b 0 n') as [E|E]; destruct stop, bw; simpl; rewrite ?E, Epc; done.
  - injection Hst as <- <-. eexists. split; [reflexivity|]. kept. right. left.
    unfold on_disk. simpl. by rewrite Epc.
  - unfold reg_pwrite_checked in *. destruct (_ || _) eqn:Eb in Hst; injection Hst as <- <-; rewrite Eb;
      eexists; (split; [reflexivity|]).
    + kept. right. left. unfold on_disk. simpl. rewrite Epc.
      by destruct (callback_return_cases st b 0 t) as [-> | ->].
    + split; [done|done|auto|done|exists false; by rewrite !orb_false_r|]. right. by exists st, b, t, n, o.
  - injection Hst as <- <-. eexists. split; [reflexivity|]. unfold commit. rewrite Hn, Hv. kept.
    right. right. unfold on_disk. simpl. rewrite Epc.
    destruct (callback_return_cases st b n t) as [-> | ->]; lia.
  - unfold segment_succeeded, expected_bytes in *.
    destruct (_ && _ && _) eqn:Eb in Hst; injection Hst as <- <-; rewrite Eb;
      eexists; (split; [reflexivity|]); kept; right; left; unfold on_disk; simpl; by rewrite Epc.
Qed.

(** [views] has one private state per worker. *)
Record static_inv (views : list (Shared L)) (sh : Shared L) (ws : list Worker) : Prop := {
  st_none : sh_slots sh = None;
  st_len : length views = length ws;
  st_view : forall i w, ws !! i = Some w -> exists r v, ranges !! i = Some r /\ views !! i = Some v /\
    single_inv cf sv content file0 r v w;
  st_spawn : forall i v, views !! i = Some v -> sh_spawn_failed v = true -> sh_spawn_failed sh = true;
  st_taint : sh_tainted sh = existsb sh_tainted views;
  st_in : sh_tainted sh = false -> forall i w r o, ws !! i = Some w -> ranges !! i = Some r ->
    range_off r <= o < range_off r + on_disk w -> reg_byte (sh_file sh) o = content o;
  st_any : sh_tainted sh = false -> forall o,
    reg_byte (sh_file sh) o = content o \/ reg_byte (sh_file sh) o = reg_byte file0 o;
  st_size : reg_size file0 <= reg_size (sh_file sh);
}.

Lemma view_untainted (views : list (Shared L)) (sh : Shared L) i v :
  sh_tainted sh = existsb sh_tainted views -> views !! i = Some v -> sh_tainted sh = false ->
  sh_tainted v = false.
Proof.
  intros -> Hv Hf. destruct (sh_tainted v) eqn:E; [|done]. rewrite <- Hf. symmetry.
  apply existsb_exists. exists v. split; [|done]. apply list_elem_of_In. by eapply list_elem_of_lookup_2.
Qed.

Lemma existsb_insert (views : list (Shared L)) i v v' b :
  views !! i = Some v -> sh_tainted v' = sh_tainted v || b ->
  existsb sh_tainted (<[i := v']> views) = existsb (sh_tainted (L := L)) views || b.
Proof.
  revert i. induction views as [|x views IH]; intros [|i] Hv E; try done; simpl in *.
  - injection Hv as ->. rewrite E. by destruct (sh_tainted v), b, (existsb _ _).
  - rewrite (IH i Hv E). by rewrite orb_assoc.
Qed.

Lemma single_on_disk r (v : Shared L) w : single_inv cf sv content file0 r v w -> 0 <= on_disk w.
Proof.
  intros Hi. pose proof (si_done _ _ _ _ _ _ _ Hi). pose proof (si_pc _ _ _ _ _ _ _ Hi) as Hp.
  unfold single_pc in Hp. unfold on_disk. destruct (w_pc w); lia.
Qed.

Lemma u64_le x : 0 <= x -> u64 x <= x.
Proof. intros Hx. unfold u64. apply Z.mod_le; zlia. Qed.

(** The bytes of a write by worker [i], seen in the shared file. *)
Lemma static_write r (v : Shared L) w st b t n off f o :
  single_inv cf sv content file0 r v w -> sh_tainted v = false -> w_pc w = PcWrite st b t n off ->
  off = range_off r + w_bytes_done w /\ 0 <= n /\ on_disk w = w_bytes_done w /\
  reg_byte (reg_pwrite f off (block_bytes b (w_bytes_done w) n)) o =
    (if decide (off <= o < off + n) then content o else reg_byte f o).
Proof.
  intros Hi Ht Hpc. pose proof (si_pc _ _ _ _ _ _ _ Hi) as Hp. unfold single_pc in Hp. rewrite Hpc in Hp.
  destruct Hp as [Hn Ho]. split; [done|]. split; [done|].
  split; [unfold on_disk; rewrite Hpc; lia|]. rewrite block_write_byte by done. case_decide; [|done].
  rewrite (si_body _ _ _ _ _ _ _ Hi b); [f_equal; lia|unfold pc_body; by rewrite Hpc|done].
Qed.

Lemma static_data views (sh : Shared L) ws i w r (v : Shared L) w' (sh' v' : Shared L) :
  static_inv views sh ws -> ws !! i = Some w -> ranges !! i = Some r -> views !! i = Some v ->
  single_inv cf sv content file0 r v w -> same_effect sh v sh' v' w w' -> sh_tainted sh' = false ->
  (forall j x q o, <[i := w']> ws !! j = Some x -> ranges !! j = Some q ->
     range_off q <= o < range_off q + on_disk x -> reg_byte (sh_file sh') o = content o) /\
  forall o, reg_byte (sh_file sh') o = content o \/ reg_byte (sh_file sh') o = reg_byte file0 o.
Proof.
  intros Hi Hw Hr Hv Hsi [_ _ _ _ (b & Ht & _) Hfile] Hta. rewrite Ht in Hta.
  apply orb_false_iff in Hta as [Hta _]. pose proof (view_untainted _ _ _ _ (st_taint _ _ _ Hi) Hv Hta) as Htv.
  pose proof (st_in _ _ _ Hi Hta) as Hin. pose proof (st_any _ _ _ Hi Hta) as Hany.
  pose proof (single_on_disk _ _ _ Hsi) as Hod.
  destruct Hfile as [[-> Hle]|(st & b0 & tot & n & off & Hpc & -> & ->)].
  - split; [|done]. intros j x q o [[-> ->]|[_ Hx]]%insert_Some_cases Hq Ho; [|by eapply Hin].
    apply (Hin i w q o Hw Hq). pose proof (u64_le _ Hod). lia.
  - assert (forall o, off = range_off r + w_bytes_done w /\ 0 <= n /\ on_disk w = w_bytes_done w /\
      reg_byte (reg_pwrite (sh_file sh) off (block_bytes b0 (w_bytes_done w) n)) o =
        (if decide (off <= o < off + n) then content o else reg_byte (sh_file sh) o)) as Hbyte.
    { intros o. by eapply static_write. }
    split; [|intros o; destruct (Hbyte o) as (_ & _ & _ & ->); case_decide; [by left|apply Hany]].
    intros j x q o Hx Hq Ho. destruct (Hbyte o) as (Eoff & Hn & Eod & ->). case_decide as Hd; [done|].
    apply insert_Some_cases in Hx as [[-> ->]|[_ Hx]]; [|by eapply Hin].
    assert (q = r) as -> by congruence. apply (Hin i w r o Hw Hr). unfold on_disk in Ho. simpl in Ho. lia.
Qed.

Lemma static_step views st st' :
  static_inv views (fst st) (snd st) -> pool_step cf sv max_block st st' ->
  exists views', static_inv views' (fst st') (snd st').
Proof.
  intros Hi Hs. destruct Hs as [sh ws i w ev sh' w' Hw Hev Hst]. cbn [fst snd] in *.
  destruct (st_view _ _ _ Hi i w Hw) as (r & v & Hr & Hv & Hsi).
  destruct (step_view i sh v w ev sh' w' (st_none _ _ _ Hi) (si_none _ _ _ _ _ _ _ Hsi) Hst) as (v' & Hst' & Heff).
  assert (range_wf r) as Hwf by (by apply (proj1 (Forall_lookup _ _) ranges_wf i)).
  assert (event_ok sv max_block v [w] 0 w ev) as Hev'.
  { destruct ev; try done. destruct Hev as [Hf _]. split; [|intros j x Hj; lia].
    destruct (sh_spawn_failed v) eqn:E; [|done]. rewrite <- Hf. symmetry. by apply (st_spawn _ _ _ Hi i v). }
  pose proof (single_step cf sv max_block content file0 r answers_206 answers_200 Hwf v w v' w' ev Hsi Hev' Hst') as Hsi'.
  exists (<[i := v']> views).
  pose proof (static_data _ _ _ _ _ _ _ _ _ _ Hi Hw Hr Hv Hsi Heff) as Hdata.
  destruct Heff as [Hn _ Hsp Hmono (b & Ht & Ht') Hfile]. split.
  - done.
  - rewrite !length_insert. apply (st_len _ _ _ Hi).
  - intros j x [[-> ->]|[Hne Hx]]%insert_Some_cases.
    + exists r, v'. rewrite list_lookup_insert_eq by (by eapply lookup_lt_Some). done.
    + destruct (st_view _ _ _ Hi j x Hx) as (q & y & ? & ? & ?). exists q, y.
      by rewrite list_lookup_insert_ne.
  - intros j x [[-> ->]|[_ Hx]]%insert_Some_cases Hf; [|apply Hmono; by eapply (st_spawn _ _ _ Hi)].
    destruct (Hsp Hf) as [?|?]; [|done]. apply Hmono. by eapply (st_spawn _ _ _ Hi).
  - by rewrite Ht, (st_taint _ _ _ Hi), (existsb_insert _ _ _ _ _ Hv Ht').
  - intros Hta. by destruct (Hdata Hta).
  - intros Hta. by destruct (Hdata Hta).
  - pose proof (st_size _ _ _ Hi). destruct Hfile as [[-> _]|(st & b0 & tot & n & off & Hpc & -> & ->)]; [done|].
    pose proof (si_pc _ _ _ _ _ _ _ Hsi) as Hp. unfold single_pc in Hp. rewrite Hpc in Hp.
    destruct Hp as [Hp _]. rewrite block_write_size by done. case_decide; lia.
Qed.

Lemma static_start (l : L) slots total :
  exists views, static_inv views (fst (pool_start false slots l total file0 ranges))
                  (snd (pool_start false slots l total file0 ranges)).
Proof.
  exists (map (fun _ => fst (pool_start false slots l total file0 ranges)) ranges).
  split; cbn [pool_start fst snd sh_slots sh_tainted sh_file]; try done.
  - by rewrite length_map, length_imap.
  - intros i w Hw. rewrite list_lookup_imap in Hw. apply fmap_Some in Hw as (r & Hr & ->).
    eexists r, _. split; [done|]. split; [by apply list_lookup_fmap_Some; eauto|].
    destruct (single_reachable cf sv max_block content file0 r answers_206 answers_200
                (proj1 (Forall_lookup _ _) ranges_wf i r Hr) l slots total _ (rtc_refl _ _)) as (x & Hx & Hsi).
    injection Hx as <-. destruct Hsi. by split.
  - intros i v (r & -> & _)%list_lookup_fmap_Some. done.
  - clear ranges_wf. by induction ranges.
  - intros _ i w r o Hw Hr. rewrite list_lookup_imap, Hr in Hw. injection Hw as <-.
    unfold on_disk. simpl. lia.
  - intros _ o. by right.
Qed.

Context (client : L -> L -> Prop).

Lemma static_observed (l : L) slots total st :
  rtc (observed_step client cf sv max_block) (pool_start false slots l total file0 ranges) st ->
  exists views, static_inv views (fst st) (snd st).
Proof.
  apply (rtc_invariant _ (fun st => exists views, static_inv views (fst st) (snd st))); [|apply static_start].
  intros a b [views Hi] Hs. destruct Hs as [a b Hs|sh ws l' _]; [by eapply static_step|].
  exists views. by destruct Hi.
Qed.

(** A run whose workers all end well has every byte it was asked for. *)
Lemma static_success (l : L) slots total st :
  rtc (observed_step client cf sv max_block) (pool_start false slots l total file0 ranges) st ->
  (forall w, w ∈ snd st -> w_pc w = PcExit true) -> length (snd st) = length ranges ->
  (forall o, requested ranges o -> reg_byte (sh_file (fst st)) o = content o) /\
  (forall o, reg_byte (sh_file (fst st)) o = content o \/ reg_byte (sh_file (fst st)) o = reg_byte file0 o) /\
  reg_size file0 <= reg_size (sh_file (fst st)).
Proof.
  intros Hr Hex Hlen. destruct (static_observed _ _ _ _ Hr) as (views & Hi).
  assert (sh_tainted (fst st) = false) as Hta.
  { rewrite (st_taint _ _ _ Hi). destruct (existsb sh_tainted views) eqn:E; [|done].
    apply existsb_exists in E as (v & Hin & Ht). apply list_elem_of_In, list_elem_of_lookup in Hin as [i Hv].
    destruct (lookup_lt_is_Some_2 (snd st) i) as [w Hw].
    { rewrite <- (st_len _ _ _ Hi). by eapply lookup_lt_Some. }
    destruct (st_view _ _ _ Hi i w Hw) as (r & v' & _ & Hv' & Hsi). rewrite Hv in Hv'. injection Hv' as <-.
    pose proof (si_taint _ _ _ _ _ _ _ Hsi Ht) as Hb. unfold bad in Hb.
    by rewrite (Hex w) in Hb by (by eapply list_elem_of_lookup_2). }
  split; [|split; [by apply (st_any _ _ _ Hi)|apply (st_size _ _ _ Hi)]].
  intros o (r & Hin & Ho). apply list_elem_of_lookup in Hin as [i Hri].
  destruct (lookup_lt_is_Some_2 (snd st) i) as [w Hw]; [rewrite Hlen; by eapply lookup_lt_Some|].
  apply (st_in _ _ _ Hi Hta i w r o Hw Hri).
  destruct (st_view _ _ _ Hi i w Hw) as (r' & v & Hri' & _ & Hsi). rewrite Hri in Hri'. injection Hri' as <-.
  pose proof (si_pc _ _ _ _ _ _ _ Hsi) as Hp. unfold single_pc in Hp. unfold on_disk.
  rewrite (Hex w) in Hp |- * by (by eapply list_elem_of_lookup_2). destruct (Hp eq_refl) as [Hbd _]. lia.
Qed.

End Static.
