(* ===== verification/Db.v ===== *)
(** * The download database ([src/persistence/db.c])

    SQLite is not part of the repository; the statements of db.c are.  The two
    tables are lists of rows (downloads in the order of their rowid, chunks in
    insertion order) and [sql_apply] gives each data statement its documented
    meaning: NULL for a constraint failure.  A parameter [sql_ok] decides which
    executions the engine completes (it may refuse any of them, e.g. on a full
    disk).  INTEGER values are signed: ids pass through 32 bits, sizes through
    64, with the conversions the binding and column calls make. *)

From stdpp Require Import sorting.
From S2P Require Import Prelude Path FileIo QueueManager.

(** ** Tables *)

Record DbRow := mkRow {
  row_id : Z;
  row_url : bytes;
  row_dest_path : bytes;
  row_total_size : Z;
  row_status : bytes;
  row_priority : Z;
  row_created_at : Z;
  row_cookie : bytes;
  row_referrer : bytes;
  row_extra_headers : bytes;
  row_expected_sha256 : bytes;
  row_speed_limit_bps : Z;
  row_reserved_file : Z;
}.

Record DbChunk := mkDbChunk { dc_download_id : Z; dc_start : Z; dc_end : Z; dc_done : Z }.

Record Tables := mkTables { t_downloads : list DbRow; t_chunks : list DbChunk }.

Definition empty_tables : Tables := mkTables [] [].

(** [g_db]: [None] when no database is open. *)
Abbreviation db := (option Tables).

(** ** Statements *)

Inductive sql :=
| InsertDownload (id : Z) (url dest_path : bytes) (created_at : Z)
    (ck ref hdr sha : bytes) (speed reserved : Z)
| UpdateStatus (status : bytes) (id : Z)
| UpdateTotalSize (total_size id : Z)
| InsertChunk (download_id range_start range_end : Z)
| UpdateChunkProgress (bytes_done download_id range_start : Z)
| UpdateChunkRange (range_end download_id range_start : Z)
| DeleteChunks (download_id : Z).

(** Insertion in rowid order. *)
Fixpoint insert_row (r : DbRow) (l : list DbRow) : list DbRow :=
  match l with
  | [] => [r]
  | x :: l' => if row_id r <? row_id x then r :: l else x :: insert_row r l'
  end.

Definition update_rows (id : Z) (f : DbRow -> DbRow) (l : list DbRow) : list DbRow :=
  map (fun r => if row_id r =? id then f r else r) l.

Definition update_chunks (did start : Z) (f : DbChunk -> DbChunk) (l : list DbChunk) : list DbChunk :=
  map (fun c => if (dc_download_id c =? did) && (dc_start c =? start) then f c else c) l.

Definition drop_chunks (did : Z) (l : list DbChunk) : list DbChunk :=
  filter (fun c => dc_download_id c <> did) l.

Definition has_row (id : Z) (l : list DbRow) : bool :=
  existsb (fun r => row_id r =? id) l.

Definition set_row_status (s : bytes) (r : DbRow) : DbRow :=
  mkRow (row_id r) (row_url r) (row_dest_path r) (row_total_size r) s (row_priority r)
    (row_created_at r) (row_cookie r) (row_referrer r) (row_extra_headers r)
    (row_expected_sha256 r) (row_speed_limit_bps r) (row_reserved_file r).
Definition set_row_size (n : Z) (r : DbRow) : DbRow :=
  mkRow (row_id r) (row_url r) (row_dest_path r) n (row_status r) (row_priority r)
    (row_created_at r) (row_cookie r) (row_referrer r) (row_extra_headers r)
    (row_expected_sha256 r) (row_speed_limit_bps r) (row_reserved_file r).
Definition set_chunk_done (n : Z) (c : DbChunk) : DbChunk :=
  mkDbChunk (dc_download_id c) (dc_start c) (dc_end c) n.
Definition set_chunk_end (e : Z) (c : DbChunk) : DbChunk :=
  mkDbChunk (dc_download_id c) (dc_start c) e (dc_done c).

(** INSERT OR REPLACE deletes the row of the same id first, and the deletion
    cascades to its chunks; a chunk needs its parent row. *)
Definition sql_apply (s : sql) (t : Tables) : option Tables :=
  match s with
  | InsertDownload id url dest created ck ref hdr sha speed reserved =>
      let row := mkRow id url dest 0 (str "QUEUED") 0 created ck ref hdr sha speed reserved in
      Some (mkTables (insert_row row (filter (fun r => row_id r <> id) (t_downloads t)))
              (if has_row id (t_downloads t) then drop_chunks id (t_chunks t) else t_chunks t))
  | UpdateStatus st id =>
      Some (mkTables (update_rows id (set_row_status st) (t_downloads t)) (t_chunks t))
  | UpdateTotalSize n id =>
      Some (mkTables (update_rows id (set_row_size n) (t_downloads t)) (t_chunks t))
  | InsertChunk did s e =>
      if has_row did (t_downloads t) then
        Some (mkTables (t_downloads t) (t_chunks t ++ [mkDbChunk did s e 0]))
      else None
  | UpdateChunkProgress n did s =>
      Some (mkTables (t_downloads t) (update_chunks did s (set_chunk_done n) (t_chunks t)))
  | UpdateChunkRange e did s =>
      Some (mkTables (t_downloads t) (update_chunks did s (set_chunk_end e) (t_chunks t)))
  | DeleteChunks did => Some (mkTables (t_downloads t) (drop_chunks did (t_chunks t)))
  end.

(** ** Functions of db.c *)

Section Db.

Context (sql_ok : sql -> Tables -> bool).

(** [db_ready], prepare, bind, step and finalize: 0 or -1. *)
Definition db_exec (s : sql) (d : db) : Z * db :=
  match d with
  | None => (-1, d)
  | Some t =>
      if sql_ok s t then
        match sql_apply s t with Some t' => (0, Some t') | None => (-1, d) end
      else (-1, d)
  end.

Definition insert_download (now id : Z) (url dest_path : bytes) (opts : option RequestOptions)
    (reserved : bool) (d : db) : Z * db :=
  db_exec
    (InsertDownload (i32 id) url dest_path (i64 now)
       (match opts with Some o => cookie o | None => [] end)
       (match opts with Some o => referrer o | None => [] end)
       (match opts with Some o => extra_headers o | None => [] end)
       (match opts with Some o => expected_sha256 o | None => [] end)
       (i64 (match opts with Some o => speed_limit_bps o | None => 0 end))
       (if reserved then 1 else 0)) d.

Definition db_insert_download (now id : Z) url dest_path opts (d : db) : Z * db :=
  insert_download now id url dest_path opts false d.

Definition db_insert_reserved_download (now id : Z) url dest_path opts (d : db) : Z * db :=
  insert_download now id url dest_path opts true d.

Definition db_update_status (id : Z) (status : bytes) (d : db) : Z * db :=
  db_exec (UpdateStatus status (i32 id)) d.

Definition db_update_total_size (id total_size : Z) (d : db) : Z * db :=
  db_exec (UpdateTotalSize (i64 total_size) (i32 id)) d.

Definition db_insert_chunk (download_id range_start range_end : Z) (d : db) : Z * db :=
  db_exec (InsertChunk (i32 download_id) (i64 range_start) (i64 range_end)) d.

Definition db_update_chunk_progress (download_id range_start bytes_done : Z) (d : db) : Z * db :=
  db_exec (UpdateChunkProgress (i64 bytes_done) (i32 download_id) (i64 range_start)) d.

Definition db_update_chunk_range (download_id range_start new_range_end : Z) (d : db) : Z * db :=
  db_exec (UpdateChunkRange (i64 new_range_end) (i32 download_id) (i64 range_start)) d.

Definition db_delete_chunks (download_id : Z) (d : db) : Z * db :=
  db_exec (DeleteChunks (i32 download_id)) d.

End Db.

(** Queries; the engine may refuse to prepare them ([sql_read_ok]). *)

Definition db_destination_exists (dest_path : bytes) (d : db) : bool :=
  match d with
  | None => false
  | Some t => existsb (fun r => streq (row_dest_path r) dest_path) (t_downloads t)
  end.

#[global] Instance chunk_le_dec : forall a b, Decision (dc_start a <= dc_start b).
Proof. intros. apply _. Defined.

(** SELECT ... WHERE download_id = ? ORDER BY range_start. *)
Definition select_chunks (did : Z) (t : Tables) : list DbChunk :=
  merge_sort (fun a b => dc_start a <= dc_start b)
    (filter (fun c => dc_download_id c = did) (t_chunks t)).

Definition chunk_of_row (c : DbChunk) : DownloadChunk :=
  mkChunk (u64 (dc_start c)) (u64 (dc_end c)) (u64 (dc_done c)).

Definition db_load_chunks (download_id : Z) (max : nat) (d : db) : list DownloadChunk :=
  match d with
  | None => []
  | Some t => take max (map chunk_of_row (select_chunks (i32 download_id) t))
  end.

(** [DownloadListRecord]. *)
Record DownloadListRecord := mkListRecord {
  lr_id : Z; lr_url : bytes; lr_dest_path : bytes; lr_status : bytes }.

Definition list_record (r : DbRow) : DownloadListRecord :=
  mkListRecord (u32 (row_id r)) (strlcpy 2048 (row_url r)) (strlcpy 1024 (row_dest_path r))
    (strlcpy 16 (row_status r)).

(** ORDER BY id DESC LIMIT max. *)
Definition db_list_all_downloads (max : Z) (d : db) : list DownloadListRecord :=
  match d with
  | None => []
  | Some t => if max <=? 0 then [] else map list_record (take (Z.to_nat max) (rev (t_downloads t)))
  end.

Definition db_count_downloads (max : Z) (d : db) : Z :=
  match d with
  | None => -1
  | Some t =>
      if max <? 0 then -1
      else let total := Z.of_nat (length (t_downloads t)) in if max <? total then max else total
  end.

(** The visitor answers false to stop; its state is threaded. *)
Fixpoint visit_loop {S} (visitor : DownloadListRecord -> S -> bool * S) (rows : list DbRow)
    (visited : Z) (s : S) : Z * S :=
  match rows with
  | [] => (visited, s)
  | r :: rows' =>
      let '(go, s') := visitor (list_record r) s in
      if go then visit_loop visitor rows' (visited + 1) s' else (visited, s')
  end.

Definition db_visit_downloads {S} (visitor : DownloadListRecord -> S -> bool * S) (max : Z)
    (s : S) (d : db) : Z * S :=
  match d with
  | None => (-1, s)
  | Some t =>
      if max <=? 0 then (-1, s)
      else visit_loop visitor (take (Z.to_nat max) (rev (t_downloads t))) 0 s
  end.

Definition find_row (id : Z) (t : Tables) : option DbRow :=
  snd <$> list_find (fun r => row_id r = id) (t_downloads t).

(** [IpcDownloadDetails] has the fields of [RequestOptions]. *)
Definition details_of_row (r : DbRow) : RequestOptions :=
  mkOpts (strlcpy 1024 (row_cookie r)) (strlcpy 2048 (row_referrer r))
    (strlcpy 4096 (row_extra_headers r)) (strlcpy 65 (row_expected_sha256 r))
    (u64 (row_speed_limit_bps r)).

Definition db_get_download_details (id : Z) (d : db) : option RequestOptions :=
  match d with
  | None => None
  | Some t => details_of_row <$> find_row (i32 id) t
  end.

(** MAX(id), NULL (read as 0) on an empty table. *)
Definition max_id (l : list DbRow) : Z :=
  match l with
  | [] => 0
  | r :: l' => foldr (fun x m => Z.max (row_id x) m) (row_id r) l'
  end.

Definition db_get_max_id (d : db) : Z :=
  match d with None => 0 | Some t => u32 (max_id (t_downloads t)) end.

(** ** Restoring the queue *)

Definition status_of_text (s : bytes) : DownloadStatus :=
  if streq s (str "QUEUED") then DOWNLOAD_QUEUED
  else if streq s (str "ACTIVE") then DOWNLOAD_QUEUED
  else if streq s (str "PAUSED") then DOWNLOAD_PAUSED
  else if streq s (str "ERROR") then DOWNLOAD_ERROR
  else if streq s (str "CANCELED") then DOWNLOAD_CANCELED
  else DOWNLOAD_QUEUED.

Definition restore_row (r : DbRow) (d : db) : Download :=
  let id := u32 (row_id r) in
  let options := details_of_row r in
  mkDownload id (strlcpy 2048 (row_url r)) (strlcpy 1024 (row_dest_path r))
    (u64 (row_total_size r)) (status_of_text (row_status r)) (row_priority r) 0 false false 0
    (replicate 8 0) (db_load_chunks id (Z.to_nat QM_MAX_CHUNKS) d)
    (negb (row_reserved_file r =? 0)) 0 0
    (if request_options_present (Some options) then Some options else None).

(** The rows that are not DONE, in rowid order, pushed one by one. *)
Definition db_restore_queue (d : db) (q : QM) : Z * QM :=
  match d with
  | None => (-1, q)
  | Some t =>
      (0, fold_left (fun q r => queue_manager_add_existing (restore_row r d) q)
            (filter (fun r => row_status r <> str "DONE") (t_downloads t)) q)
  end.

(** ** Lemmas *)

Definition always_ok : sql -> Tables -> bool := fun _ _ => true.

(** The chunk rows of one download, in insertion order. *)
Definition rows_of (did : Z) (t : Tables) : list DbChunk :=
  filter (fun c => dc_download_id c = did) (t_chunks t).

Lemma rows_of_insert_chunk did s e t t' :
  sql_apply (InsertChunk did s e) t = Some t' ->
  rows_of did t' = rows_of did t ++ [mkDbChunk did s e 0] /\ t_downloads t' = t_downloads t.
Proof.
  simpl. destruct (has_row did (t_downloads t)); [|done]. intros [= <-]. split; [|done].
  unfold rows_of. simpl. rewrite filter_app. f_equal. by rewrite filter_cons_True.
Qed.

(** An update of some chunks of [did] that keeps their owner. *)
Lemma rows_of_update did s f t :
  (forall c, dc_download_id (f c) = dc_download_id c) ->
  filter (fun c => dc_download_id c = did) (update_chunks did s f (t_chunks t)) =
    map (fun c => if dc_start c =? s then f c else c) (rows_of did t).
Proof.
  intros Hf. unfold rows_of, update_chunks. induction (t_chunks t) as [|c l IH]; [done|].
  cbn [map]. destruct (Z.eqb_spec (dc_download_id c) did) as [E|E]; cbn [andb].
  - rewrite !(filter_cons_True _ c) by done. rewrite filter_cons_True.
    + cbn [map]. by rewrite IH.
    + destruct (dc_start c =? s); by rewrite ?Hf.
  - by rewrite !filter_cons_False.
Qed.

Lemma filter_other_rows did id l :
  did <> id -> filter (fun c => dc_download_id c = id) (drop_chunks did l) =
               filter (fun c => dc_download_id c = id) l.
Proof.
  intros Hne. unfold drop_chunks. induction l as [|c l IH]; [done|].
  destruct (decide (dc_download_id c = did)) as [E|E].
  - rewrite (filter_cons_False _ c) by tauto. rewrite IH. by rewrite filter_cons_False by congruence.
  - rewrite (filter_cons_True _ c) by done.
    destruct (decide (dc_download_id c = id)).
    + by rewrite !(filter_cons_True _ c), IH.
    + by rewrite !(filter_cons_False _ c), IH.
Qed.

Lemma rows_of_delete did t :
  rows_of did (mkTables (t_downloads t) (drop_chunks did (t_chunks t))) = [].
Proof.
  unfold rows_of, drop_chunks. simpl. induction (t_chunks t) as [|c l IH]; [done|].
  destruct (decide (dc_download_id c = did)) as [E|E].
  - by rewrite (filter_cons_False _ c) by tauto.
  - rewrite (filter_cons_True _ c) by done. by rewrite filter_cons_False.
Qed.

Definition row_of_chunk (did : Z) (done_ : bool) (c : DownloadChunk) : DbChunk :=
  mkDbChunk did (i64 (range_start c)) (i64 (range_end c)) (if done_ then i64 (bytes_done c) else 0).

(** Values that survive the trip through a signed 64-bit column in order. *)
Definition chunk_storable (c : DownloadChunk) : Prop :=
  0 <= range_start c < 2 ^ 63 /\ is_u64 (range_end c) /\ is_u64 (bytes_done c).

Lemma chunk_roundtrip did c : chunk_storable c -> chunk_of_row (row_of_chunk did true c) = c.
Proof.
  intros (? & ? & ?). unfold chunk_of_row, row_of_chunk. simpl.
  rewrite !u64_i64 by (done || zlia). by destruct c.
Qed.

(** Sorting rows that are already in strictly increasing order. *)
Lemma merge_sort_sorted (l : list DbChunk) :
  StronglySorted (fun a b => dc_start a < dc_start b) l ->
  merge_sort (fun a b => dc_start a <= dc_start b) l = l.
Proof.
  intros Hs. apply (StronglySorted_unique_strong (fun a b => dc_start a <= dc_start b)).
  - intros x y Hx Hy H1 H2. rewrite merge_sort_Permutation in Hx.
    assert (dc_start x = dc_start y) as E by lia. clear -Hs Hx Hy E.
    induction Hs as [|c l Hs IH Hc]; [by apply not_elem_of_nil in Hx|].
    rewrite Forall_forall in Hc.
    apply elem_of_cons in Hx as [->|Hx], Hy as [->|Hy]; [done| | |by apply IH].
    + specialize (Hc _ Hy). lia.
    + specialize (Hc _ Hx). lia.
  - apply StronglySorted_merge_sort; intros ??; [intros ?; lia|lia].
  - clear -Hs. induction Hs as [|c l Hs IH Hc]; constructor; [done|].
    eapply Forall_impl; [exact Hc|]. intros x ?. cbn beta in *. lia.
  - by rewrite merge_sort_Permutation.
Qed.

(** *** Rows of the downloads table *)

Definition row_ids (l : list DbRow) : list Z := map row_id l.

Lemma find_row_insert r l cs :
  row_id r ∉ row_ids l -> find_row (row_id r) (mkTables (insert_row r l) cs) = Some r.
Proof.
  unfold find_row. simpl. induction l as [|x l IH]; intros Hn; cbn [insert_row list_find].
  - by rewrite decide_True.
  - simpl in Hn. apply not_elem_of_cons in Hn as [Hx Hn].
    destruct (row_id r <? row_id x); cbn [list_find]; [by rewrite decide_True|].
    rewrite decide_False by congruence. specialize (IH Hn).
    destruct (list_find _ (insert_row r l)) as [[i y]|]; [|done]. simpl in *. by injection IH as ->.
Qed.

Lemma find_row_update id f l cs r :
  (forall r, row_id (f r) = row_id r) ->
  find_row id (mkTables l cs) = Some r ->
  find_row id (mkTables (update_rows id f l) cs) = Some (f r).
Proof.
  intros Hf. unfold find_row, update_rows. simpl. revert r. induction l as [|x l IH]; intros r; [done|].
  cbn [list_find map]. destruct (Z.eqb_spec (row_id x) id) as [E|E].
  - rewrite decide_True by done. intros [= ->]. rewrite decide_True; [done|]. by rewrite Hf.
  - rewrite !decide_False by done. destruct (list_find _ l) as [[i y]|]; [|done].
    simpl. intros [= ->]. specialize (IH r eq_refl).
    destruct (list_find _ (map _ l)) as [[j z]|]; [|done]. simpl in *. by injection IH as ->.
Qed.

Lemma has_row_find id t : has_row id (t_downloads t) = true <-> is_Some (find_row id t).
Proof.
  unfold has_row, find_row. rewrite fmap_is_Some. destruct t as [l cs]. simpl.
  induction l as [|x l IH]; [split; [done|by intros [? ?]]|]. cbn [existsb list_find].
  destruct (Z.eqb_spec (row_id x) id).
  - rewrite decide_True by done. split; [by eexists|done].
  - rewrite decide_False by done. cbn [orb]. rewrite IH. by rewrite fmap_is_Some.
Qed.

Lemma find_row_drop id l :
  id ∉ row_ids (filter (fun r => row_id r <> id) l).
Proof.
  unfold row_ids. intros (r & E & Hr)%list_elem_of_fmap. apply list_elem_of_filter in Hr as [Hr _]. congruence.
Qed.

(** *** Storing the chunks of a download *)

Definition store_chunks (id : Z) (cs : list DownloadChunk) (d : db) : db :=
  fold_left (fun d c => snd (db_insert_chunk always_ok id (range_start c) (range_end c) d)) cs d.

Definition store_progress (id : Z) (cs : list DownloadChunk) (d : db) : db :=
  fold_left (fun d c => snd (db_update_chunk_progress always_ok id (range_start c) (bytes_done c) d)) cs d.

Lemma store_chunks_rows id cs t r :
  find_row (i32 id) t = Some r ->
  exists t', store_chunks id cs (Some t) = Some t' /\ t_downloads t' = t_downloads t /\
    rows_of (i32 id) t' = rows_of (i32 id) t ++ map (row_of_chunk (i32 id) false) cs.
Proof.
  revert t. induction cs as [|c cs IH]; intros t Hr.
  { exists t. split; [done|]. split; [done|]. by rewrite app_nil_r. }
  cbn [store_chunks fold_left]. unfold db_insert_chunk at 2. cbn [db_exec always_ok].
  destruct (sql_apply (InsertChunk (i32 id) (i64 (range_start c)) (i64 (range_end c))) t) as [t1|] eqn:E.
  2:{ simpl in E. rewrite (proj2 (has_row_find (i32 id) t)) in E by eauto. done. }
  cbn [snd]. apply rows_of_insert_chunk in E as [E1 E2].
  assert (find_row (i32 id) t1 = Some r) as Hr1 by (unfold find_row in *; by rewrite E2).
  destruct (IH t1 Hr1) as (t' & Ht & Hd & Hrows). exists t'. split; [exact Ht|].
  split; [congruence|]. rewrite Hrows, E1, <- app_assoc. done.
Qed.

Lemma progress_rows id cs done_ c :
  Forall (fun x => range_start x <> range_start c) (done_ ++ cs) ->
  Forall chunk_storable (done_ ++ c :: cs) ->
  map (fun r => if dc_start r =? i64 (range_start c) then set_chunk_done (i64 (bytes_done c)) r else r)
    (map (row_of_chunk id true) done_ ++ map (row_of_chunk id false) (c :: cs)) =
  map (row_of_chunk id true) (done_ ++ [c]) ++ map (row_of_chunk id false) cs.
Proof.
  intros Hne Hst. apply Forall_app in Hne as [Hd Hc], Hst as [Hsd [Hs0 Hsc]%Forall_cons].
  assert (forall b l, Forall (fun x => range_start x <> range_start c) l -> Forall chunk_storable l ->
    map (fun r => if dc_start r =? i64 (range_start c) then set_chunk_done (i64 (bytes_done c)) r else r)
      (map (row_of_chunk id b) l) = map (row_of_chunk id b) l) as Hsame.
  { clear -Hs0. intros b l H1 H2. induction H1 as [|x l Hx H1 IH]; [done|].
    apply Forall_cons in H2 as [(Hb & _) H2]. destruct Hs0 as (Hb0 & _). cbn [map].
    rewrite IH by done. unfold row_of_chunk at 1. cbn [dc_start].
    rewrite !i64_small by zlia. by rewrite (proj2 (Z.eqb_neq _ _)). }
  rewrite !map_app. cbn [map]. rewrite !Hsame by done. cbn [dc_start row_of_chunk].
  by rewrite Z.eqb_refl, <- app_assoc.
Qed.

Lemma store_progress_rows id cs done_ t :
  NoDup (map range_start (done_ ++ cs)) -> Forall chunk_storable (done_ ++ cs) ->
  rows_of (i32 id) t = map (row_of_chunk (i32 id) true) done_ ++ map (row_of_chunk (i32 id) false) cs ->
  exists t', store_progress id cs (Some t) = Some t' /\ t_downloads t' = t_downloads t /\
    rows_of (i32 id) t' = map (row_of_chunk (i32 id) true) (done_ ++ cs).
Proof.
  revert done_ t. induction cs as [|c cs IH]; intros done_ t Hn Hs Hr.
  { exists t. split; [done|]. split; [done|]. by rewrite Hr, !app_nil_r. }
  cbn [store_progress fold_left]. unfold db_update_chunk_progress at 2. cbn [db_exec always_ok sql_apply snd].
  assert (Forall (fun x => range_start x <> range_start c) (done_ ++ cs)) as Hne.
  { apply Forall_forall. intros x Hx E. rewrite map_app in Hn. cbn [map] in Hn.
    apply NoDup_app in Hn as (Hn1 & Hn2 & Hn3). apply NoDup_cons in Hn3 as [Hn3 _].
    apply elem_of_app in Hx as [Hx|Hx].
    - apply (Hn2 (range_start c)); [rewrite <- E; by apply list_elem_of_fmap_2|by left].
    - apply Hn3. rewrite <- E. by apply list_elem_of_fmap_2. }
  set (t1 := mkTables (t_downloads t) _).
  assert (rows_of (i32 id) t1 =
            map (row_of_chunk (i32 id) true) (done_ ++ [c]) ++ map (row_of_chunk (i32 id) false) cs) as Hr1.
  { unfold rows_of at 1. subst t1. cbn [t_chunks]. rewrite rows_of_update by done.
    rewrite Hr. by apply progress_rows. }
  replace (done_ ++ c :: cs) with ((done_ ++ [c]) ++ cs) in * by (by rewrite <- app_assoc).
  destruct (IH (done_ ++ [c]) t1) as (t' & Ht & Hd & Hrows); [done|done|done|].
  exists t'. done.
Qed.

(** ** Properties *)

(** Everything the program persists about a download, in the order it does. *)
Definition store_download (now : Z) (d : Download) (status : bytes) (t : db) : db :=
  let ins := if d_reserved_file d then db_insert_reserved_download always_ok
             else db_insert_download always_ok in
  let t := snd (ins now (d_id d) (d_url d) (d_dest_path d) (d_request d) t) in
  let t := snd (db_update_total_size always_ok (d_id d) (d_total_size d) t) in
  let t := store_progress (d_id d) (d_chunks d) (store_chunks (d_id d) (d_chunks d) t) in
  snd (db_update_status always_ok (d_id d) status t).

(** What the buffers of the program hold. *)
Definition options_fit (o : RequestOptions) : Prop :=
  strlen (cookie o) < 1024 /\ strlen (referrer o) < 2048 /\ strlen (extra_headers o) < 4096 /\
  strlen (expected_sha256 o) < 65 /\ is_u64 (speed_limit_bps o).

Record storable (d : Download) : Prop := {
  sd_id : is_u32 (d_id d);
  sd_url : strlen (d_url d) < 2048;
  sd_dest : strlen (d_dest_path d) < 1024;
  sd_total : is_u64 (d_total_size d);
  sd_request : forall o, d_request d = Some o ->
    options_fit o /\ request_options_present (Some o) = true;
  sd_count : (length (d_chunks d) <= 8)%nat;
  sd_chunks : Forall chunk_storable (d_chunks d);
  sd_sorted : StronglySorted (fun a b => range_start a < range_start b) (d_chunks d);
}.

Lemma sorted_starts cs :
  StronglySorted (fun a b => range_start a < range_start b) cs -> NoDup (map range_start cs).
Proof.
  induction 1 as [|c l Hs IH Hc]; cbn [map]; constructor; [|done].
  intros (x & E & Hx)%list_elem_of_fmap. rewrite Forall_forall in Hc. specialize (Hc x Hx). lia.
Qed.

Lemma sorted_rows id cs :
  Forall chunk_storable cs -> StronglySorted (fun a b => range_start a < range_start b) cs ->
  StronglySorted (fun a b => dc_start a < dc_start b) (map (row_of_chunk id true) cs).
Proof.
  intros Hst Hs. induction Hs as [|c l Hs IH Hc]; cbn [map]; [constructor|].
  apply Forall_cons in Hst as [(H1 & _) Hst]. constructor; [by apply IH|].
  apply Forall_forall. intros x (y & -> & Hy)%list_elem_of_fmap.
  rewrite Forall_forall in Hc, Hst. specialize (Hc y Hy). destruct (Hst y Hy) as (H2 & _).
  unfold row_of_chunk. cbn [dc_start]. rewrite !i64_small by zlia. done.
Qed.

Lemma details_roundtrip o r :
  options_fit o -> row_cookie r = cookie o -> row_referrer r = referrer o ->
  row_extra_headers r = extra_headers o -> row_expected_sha256 r = expected_sha256 o ->
  row_speed_limit_bps r = i64 (speed_limit_bps o) -> details_of_row r = o.
Proof.
  intros (? & ? & ? & ? & ?) E1 E2 E3 E4 E5. unfold details_of_row. rewrite E1, E2, E3, E4, E5.
  rewrite !strlcpy_id, u64_i64 by done. by destruct o.
Qed.

(** C13. What a crash or a restart gives back.  Storing a download with the
    statements the program uses (row, size, chunks and their progress, status)
    and restoring its row yields the same id, URL, path, size, request options,
    reservation flag and chunk list with progress, and the status its text
    stands for; ids above 2^31 and sizes above 2^63 survive the signed columns. *)
Theorem restore_roundtrip now d status t :
  storable d -> has_row (i32 (d_id d)) (t_downloads t) = false -> rows_of (i32 (d_id d)) t = [] ->
  exists t' r, store_download now d status (Some t) = Some t' /\
    find_row (i32 (d_id d)) t' = Some r /\
    restore_row r (Some t') =
      mkDownload (d_id d) (d_url d) (d_dest_path d) (d_total_size d) (status_of_text status) 0 0
        false false 0 (replicate 8 0) (d_chunks d) (d_reserved_file d) 0 0 (d_request d).
Proof.
  intros Hd Hno Hrows. set (id := i32 (d_id d)) in *. pose proof Hd as [].
  set (o := default (mkOpts [] [] [] [] 0) (d_request d)).
  set (row := mkRow id (d_url d) (d_dest_path d) 0 (str "QUEUED") 0 (i64 now) (cookie o) (referrer o)
                (extra_headers o) (expected_sha256 o) (i64 (speed_limit_bps o))
                (if d_reserved_file d then 1 else 0)).
  set (t1 := mkTables (insert_row row (filter (fun r => row_id r <> id) (t_downloads t))) (t_chunks t)).
  assert (snd ((if d_reserved_file d then db_insert_reserved_download always_ok
                else db_insert_download always_ok) now (d_id d) (d_url d) (d_dest_path d)
                 (d_request d) (Some t)) = Some t1) as E1.
  { subst t1 row o id. destruct (d_reserved_file d), (d_request d); simpl; by rewrite Hno. }
  assert (find_row id t1 = Some row) as F1.
  { apply (find_row_insert row). apply find_row_drop. }
  set (t2 := mkTables (update_rows id (set_row_size (i64 (d_total_size d))) (t_downloads t1)) (t_chunks t1)).
  assert (find_row id t2 = Some (set_row_size (i64 (d_total_size d)) row)) as F2.
  { by apply (find_row_update id _ _ (t_chunks t)). }
  destruct (store_chunks_rows (d_id d) (d_chunks d) t2 _ F2) as (t3 & E3 & D3 & R3).
  rewrite (Hrows : rows_of (i32 (d_id d)) t2 = []) in R3.
  destruct (store_progress_rows (d_id d) (d_chunks d) [] t3) as (t4 & E4 & D4 & R4);
    [by apply sorted_starts|done|done|].
  set (t5 := mkTables (update_rows id (set_row_status status) (t_downloads t4)) (t_chunks t4)).
  set (r := set_row_status status (set_row_size (i64 (d_total_size d)) row)).
  assert (find_row id t5 = Some r) as F5.
  { apply (find_row_update id _ _ (t_chunks t4)); [done|]. unfold find_row in *. simpl.
    rewrite D4, D3. exact F2. }
  assert (rows_of id t5 = map (row_of_chunk id true) (d_chunks d)) as R5 by exact R4.
  exists t5, r. split; [|split; [done|]].
  { unfold store_download. rewrite E1. unfold db_update_total_size. cbn [db_exec always_ok sql_apply snd].
    fold id. change (Some (mkTables _ (t_chunks t1))) with (Some t2). by rewrite E3, E4. }
  assert (u32 id = d_id d) as Hid by by apply u32_i32.
  unfold restore_row. cbn [row_id row_url row_dest_path row_total_size row_status row_priority
    row_reserved_file r set_row_status set_row_size row]. rewrite Hid.
  rewrite !strlcpy_id, u64_i64 by done. f_equal.
  - unfold db_load_chunks, select_chunks. fold id. change (filter _ _) with (rows_of id t5). rewrite R5.
    rewrite merge_sort_sorted by by apply sorted_rows. rewrite map_map, take_ge.
    + rewrite <- (map_id (d_chunks d)) at 2. apply map_ext_in. intros c Hc.
      apply chunk_roundtrip. rewrite Forall_forall in sd_chunks0. apply sd_chunks0. by apply list_elem_of_In.
    + rewrite length_map. unfold QM_MAX_CHUNKS. lia.
  - by destruct (d_reserved_file d).
  - subst o. destruct (d_request d) as [o|] eqn:Eo; [|done].
    destruct (sd_request0 o eq_refl) as [Hfit Hp].
    assert (details_of_row r = o) as -> by by apply details_roundtrip.
    by rewrite Hp.
Qed.

Lemma restore_roundtrip_witness :
  let d := mkDownload 3000000000 (str "http://h/a.iso") (str "/r/a.iso") 20 DOWNLOAD_ACTIVE 0 0
             false false 7 (replicate 8 0) [mkChunk 0 9 4; mkChunk 10 19 3] true 2 99
             (Some (mkOpts (str "c=1") [] [] [] 500)) in
  exists t' r, store_download 77 d (str "PAUSED") (Some empty_tables) = Some t' /\
    find_row (i32 3000000000) t' = Some r /\
    d_chunks (restore_row r (Some t')) = [mkChunk 0 9 4; mkChunk 10 19 3] /\
    d_status (restore_row r (Some t')) = DOWNLOAD_PAUSED.
Proof.
  intros d.
  destruct (restore_roundtrip 77 d (str "PAUSED") empty_tables) as (t' & r & E & F & H).
  - split; cbn [d d_id d_url d_dest_path d_total_size d_request d_chunks];
      try (split; [discriminate|reflexivity]); try reflexivity.
    + intros o [= <-]. unfold options_fit. split; [|vm_compute; reflexivity].
      repeat split; try (vm_compute; reflexivity); simpl; zlia.
    + simpl. lia.
    + repeat constructor; simpl; zlia.
    + repeat constructor.
  - vm_compute. reflexivity.
  - vm_compute. reflexivity.
  - exists t', r. split; [exact E|]. split; [exact F|]. rewrite H. split; reflexivity.
Defined.

Lemma max_id_ge l r : r ∈ l -> row_id r <= max_id l.
Proof.
  destruct l as [|x l]; [by intros ?%not_elem_of_nil|]. simpl.
  assert (forall l z, z <= foldr (fun x m => Z.max (row_id x) m) z l /\
            (forall y, y ∈ l -> row_id y <= foldr (fun x m => Z.max (row_id x) m) z l)) as H.
  { clear. induction l as [|y l IH]; intros z; simpl.
    - split; [lia|]. by intros y ?%not_elem_of_nil.
    - destruct (IH z) as [H1 H2]. split; [lia|]. intros u [->|Hu]%elem_of_cons; [lia|].
      specialize (H2 u Hu). lia. }
  destruct (H l (row_id x)) as [H1 H2]. intros [->|Hr]%elem_of_cons; [done|by apply H2].
Qed.

Lemma max_id_small l : Forall (fun r => 0 <= row_id r < 2 ^ 31) l -> 0 <= max_id l < 2 ^ 31.
Proof.
  destruct l as [|x l]; [done|]. intros [Hx Hl]%Forall_cons. simpl.
  induction Hl; simpl; lia.
Qed.

(** The two calls the daemon makes at start-up. *)
Definition daemon_restore (d : db) (q : QM) : QM :=
  let q := snd (db_restore_queue d q) in
  queue_manager_seed_next_id (db_get_max_id d +32 1)%cdm q.

(** After the daemon has restored the queue and seeded the id counter, the
    next id is larger than the id of every row of the database, the finished
    ones included, so a new download never reuses a recorded id (as long as
    recorded ids are below 2^31, where the signed MAX is their maximum). *)
Theorem restart_ids_fresh t q r :
  Forall (fun r => 0 <= row_id r < 2 ^ 31) (t_downloads t) ->
  r ∈ t_downloads t -> u32 (row_id r) < g_next_id (daemon_restore (Some t) q).
Proof.
  intros Hs Hr. pose proof (max_id_ge _ _ Hr) as Hle. pose proof (max_id_small _ Hs) as Hm.
  pose proof (proj1 (Forall_forall _ _) Hs r Hr). cbn beta in *.
  unfold daemon_restore, queue_manager_seed_next_id. cbn [g_next_id].
  unfold db_get_max_id. rewrite (u32_small (max_id _)) by zlia.
  rewrite (u32_small (row_id r)) by zlia. rewrite u32_small by zlia.
  case_bool; breflect; lia.
Qed.

Lemma restart_ids_fresh_witness :
  let row i s := mkRow i [] [] 0 s 0 0 [] [] [] [] 0 0 in
  let t := mkTables [row 4 (str "PAUSED"); row 9 (str "DONE")] [] in
  g_next_id (daemon_restore (Some t) qm_init) = 10 /\
  u32 9 < g_next_id (daemon_restore (Some t) qm_init).
Proof.
  intros row t. split; [vm_compute; reflexivity|].
  apply (restart_ids_fresh t qm_init (row 9 (str "DONE"))).
  - repeat constructor; simpl; zlia.
  - right. by left.
Defined.

(** Above that bound the signed maximum picks the wrong row: with ids 5 and
    2^31 the next id is 6, and 2^31 would be given again later. *)
Example max_id_signed :
  let row i := mkRow (i32 i) [] [] 0 (str "DONE") 0 0 [] [] [] [] 0 0 in
  db_get_max_id (Some (mkTables [row (2 ^ 31); row 5] [])) = 5.
Proof. reflexivity. Qed.

(** ** Opening the database and its schema

    [db_init] on the columns of the table [downloads] in the file ([None]: no
    such table).  [ok] tells which of its statements complete. *)

Definition schema_columns : list bytes :=
  [str "id"; str "url"; str "dest_path"; str "total_size"; str "status"; str "priority";
   str "created_at"; str "cookie"; str "referrer"; str "extra_headers"; str "expected_sha256";
   str "speed_limit_bps"; str "reserved_file"].

Definition migration_names : list bytes :=
  [str "cookie"; str "referrer"; str "extra_headers"; str "expected_sha256";
   str "speed_limit_bps"; str "reserved_file"].

Inductive init_stmt :=
| StOpen | StForeignKeys | StCreateDownloads | StCreateChunks | StBegin
| StAlter (column : bytes) | StCommit.

Section Init.

Context (ok : init_stmt -> bool).

Definition db_column_exists (cols : list bytes) (column : bytes) : bool :=
  existsb (fun c => streq c column) cols.

(** The migration loop; [None] when an ALTER TABLE fails. *)
Fixpoint migrate (names cols : list bytes) : option (list bytes) :=
  match names with
  | [] => Some cols
  | n :: names' =>
      if db_column_exists cols n then migrate names' cols
      else if ok (StAlter n) then migrate names' (cols ++ [n])
      else None
  end.

(** Result code, columns left in the file, and whether [g_db] is open. *)
Definition db_init (path : bytes) (was_open : bool) (file : option (list bytes))
    : Z * option (list bytes) * bool :=
  if decide (path = []) then (-1, file, was_open)
  else if negb (ok StOpen) then (-1, file, false)
  else if negb (ok StForeignKeys) then (-1, file, false)
  else if negb (ok StCreateDownloads) then (-1, file, false)
  else
    let cols := default schema_columns file in
    if negb (ok StCreateChunks) then (-1, Some cols, false)
    else if negb (ok StBegin) then (-1, Some cols, false)
    else match migrate migration_names cols with
         | None => (-1, Some cols, false)                     (* ROLLBACK *)
         | Some cols' =>
             if ok StCommit then (0, Some cols', true) else (-1, Some cols, false)
         end.

Lemma db_column_exists_spec cols c : db_column_exists cols c = true <-> c ∈ cols.
Proof.
  unfold db_column_exists. rewrite existsb_exists. split.
  - intros (x & Hx & E). apply streq_true in E as ->. by apply list_elem_of_In.
  - intros Hc. exists c. split; [by apply list_elem_of_In|by apply streq_refl].
Qed.

Lemma migrate_spec names cols cols' :
  migrate names cols = Some cols' ->
  (exists added, cols' = cols ++ added /\ Forall (fun c => c ∈ names /\ c ∉ cols) added) /\
  (forall c, c ∈ names -> c ∈ cols') /\ (NoDup cols -> NoDup cols').
Proof.
  revert cols. induction names as [|n names IH]; intros cols; cbn [migrate].
  - intros [= <-]. split; [exists []; by rewrite app_nil_r|]. split; [|done].
    by intros c ?%not_elem_of_nil.
  - destruct (db_column_exists cols n) eqn:E.
    + apply db_column_exists_spec in E. intros H. destruct (IH _ H) as ((added & -> & Ha) & Hin & Hnd).
      split; [|split; [|done]].
      * exists added. split; [done|]. eapply Forall_impl; [done|]. intros c [? ?]. split; [by right|done].
      * intros c [->|Hc]%elem_of_cons; [apply elem_of_app; by left|by apply Hin].
    + assert (n ∉ cols) as Hn by (intros Hc; apply db_column_exists_spec in Hc; congruence).
      destruct (ok (StAlter n)); [|done]. intros H.
      destruct (IH _ H) as ((added & -> & Ha) & Hin & Hnd). split; [|split].
      * exists (n :: added). rewrite <- app_assoc. split; [done|]. constructor.
        { split; [by left|done]. }
        eapply Forall_impl; [done|]. intros c [? Hc]. rewrite not_elem_of_app in Hc.
        split; [by right|tauto].
      * intros c [->|Hc]%elem_of_cons; [|by apply Hin].
        rewrite <- app_assoc. apply elem_of_app. right. by left.
      * intros Hc. apply Hnd. apply NoDup_app. split; [done|]. split; [|apply NoDup_singleton].
        intros x Hx ->%list_elem_of_singleton. done.
Qed.

End Init.

(** [db_init] opens the database only with a complete schema.  On success
    every column the statements of db.c name exists, whichever subset of the
    migrated columns an older version had created, the old columns keep their
    place and no column is added twice; on any failure the database is closed
    and the columns of an existing table are as they were before. *)
Theorem db_init_schema ok path was_open file :
  (forall cols, file = Some cols -> NoDup cols /\ forall c, c ∈ take 7 schema_columns -> c ∈ cols) ->
  let '(rc, file', is_open) := db_init ok path was_open file in
  (rc = 0 -> is_open = true /\ exists cols', file' = Some cols' /\ NoDup cols' /\
     (forall c, c ∈ schema_columns -> c ∈ cols') /\
     (forall cols, file = Some cols -> exists added, cols' = cols ++ added)) /\
  (rc <> 0 -> (path <> [] -> is_open = false) /\ forall cols, file = Some cols -> file' = Some cols).
Proof.
  intros Hfile. unfold db_init. case_decide as Hp; [by split|].
  destruct (negb (ok StOpen)); [by split|]. destruct (negb (ok StForeignKeys)); [by split|].
  destruct (negb (ok StCreateDownloads)); [by split|].
  assert (forall cols, file = Some cols -> Some (default schema_columns file) = Some cols) as Hd
    by by intros cols ->.
  destruct (negb (ok StCreateChunks)); [by split|]. destruct (negb (ok StBegin)); [by split|].
  destruct (migrate ok migration_names (default schema_columns file)) as [cols'|] eqn:Em; [|by split].
  destruct (ok StCommit); [|by split]. split; [|done]. intros _. split; [done|]. exists cols'.
  split; [done|]. destruct (migrate_spec _ _ _ _ Em) as ((added & -> & _) & Hin & Hnd).
  assert (NoDup (default schema_columns file) /\
          forall c, c ∈ take 7 schema_columns -> c ∈ default schema_columns file) as [Hn Hbase].
  { destruct file as [cols|]; [by apply Hfile|]. simpl. split.
    - apply (bool_decide_unpack (NoDup schema_columns)). vm_compute. exact I.
    - intros c Hc. change (c ∈ schema_columns). rewrite <- (take_drop 7 schema_columns).
      apply elem_of_app. by left. }
  split; [by apply Hnd|]. split.
  - intros c Hc. rewrite <- (take_drop 7 schema_columns) in Hc. apply elem_of_app in Hc as [Hc|Hc].
    + apply elem_of_app. left. by apply Hbase.
    + apply Hin. revert Hc. change (drop 7 schema_columns) with migration_names. done.
  - intros cols ->. by exists added.
Qed.

Lemma db_init_schema_witness :
  let old := take 7 schema_columns ++ [str "cookie"; str "legacy"] in
  db_init (fun _ => true) (str "/d/db") false (Some old) =
    (0, Some (old ++ drop 1 migration_names), true) /\
  forall c, c ∈ schema_columns -> c ∈ old ++ drop 1 migration_names.
Proof.
  intros old.
  assert (db_init (fun _ => true) (str "/d/db") false (Some old) =
            (0, Some (old ++ drop 1 migration_names), true)) as E by (vm_compute; reflexivity).
  split; [exact E|].
  assert (forall cols, Some old = Some cols ->
            NoDup cols /\ forall c, c ∈ take 7 schema_columns -> c ∈ cols) as Hold.
  { intros cols [= <-]. split.
    - apply (bool_decide_unpack (NoDup old)). vm_compute. exact I.
    - intros c Hc. apply elem_of_app. by left. }
  pose proof (db_init_schema (fun _ => true) (str "/d/db") false (Some old) Hold) as H.
  rewrite E in H. destruct H as [H _]. destruct (H eq_refl) as (_ & cols' & Ec & _ & Hall & _).
  injection Ec as <-. exact Hall.
Defined.
