(* ===== verification/Engine.v ===== *)
(** * Running one download ([src/engine/engine_runner.c])

    [engine_run_download] in the order of the code: [engine_prepare] (up to the
    worker pool: early returns, stale resume data, plan, preallocation,
    persisted chunks), the pool itself (any run of Pool.v), [engine_flush] and
    the single-connection fallback, [engine_finish].  The state is the
    download, the file system and the database; the HEAD request is an
    argument.  The callback [on_rebalance_split] makes this state a
    [SplitListener]. *)

From S2P Require Import Prelude Segmenter Sha256 Path FileIo Finalize QueueManager Db.
From S2P Require Import Pool PoolInv PoolLive PoolMirror PoolStatic.

(** ** State *)

(** [e_slots] is the local array [chunk_progress_slots]; [e_ub] records a use
    of one of its uninitialised elements. *)
Record Engine := mkEngine {
  e_d : Download;
  e_db : db;
  e_slots : list slot_ptr;
  e_ub : bool;
}.

Definition set_chunks (cs : list DownloadChunk) (d : Download) : Download :=
  set_transfer (d_total_size d) (d_bytes_downloaded d) (d_chunk_live_bytes d) cs d.
Definition set_live (live : list Z) (d : Download) : Download :=
  set_transfer (d_total_size d) (d_bytes_downloaded d) live (d_chunks d) d.
Definition set_bytes (n : Z) (d : Download) : Download :=
  set_transfer (d_total_size d) n (d_chunk_live_bytes d) (d_chunks d) d.
Definition set_total (n : Z) (d : Download) : Download :=
  set_transfer n (d_bytes_downloaded d) (d_chunk_live_bytes d) (d_chunks d) d.

Section Engine.

Context (sql_ok : sql -> Tables -> bool).

(** ** on_rebalance_split *)

(** The loop that shrinks the first chunk starting at [victim_start]; true
    when there is one. *)
Fixpoint shrink_chunk (victim_start new_end : Z) (cs : list DownloadChunk)
    : bool * list DownloadChunk :=
  match cs with
  | [] => (false, [])
  | c :: cs' =>
      if range_start c =? victim_start then
        (true, mkChunk (range_start c) new_end (bytes_done c) :: cs')
      else let '(b, r) := shrink_chunk victim_start new_end cs' in (b, c :: r)
  end.

(** Up to the first database statement. *)
Definition shrink_victim (e : Engine) (victim_start new_start : Z) : Engine :=
  let d := e_d e in
  let '(found, cs) := shrink_chunk victim_start (u64 (new_start - 1)) (d_chunks d) in
  let t := if found then
             snd (db_update_chunk_range sql_ok (d_id d) victim_start (u64 (new_start - 1)) (e_db e))
           else e_db e in
  mkEngine (set_chunks cs d) t (e_slots e) (e_ub e).

(** From there to the second one. *)
Definition append_tail (e : Engine) (new_start new_end : Z) : Engine :=
  let d := e_d e in
  let idx := length (d_chunks d) in
  if QM_MAX_CHUNKS <=? Z.of_nat idx then e
  else
    mkEngine
      (set_live (<[idx := 0]> (d_chunk_live_bytes d))
         (set_chunks (d_chunks d ++ [mkChunk new_start (u64 (new_end - 1)) 0]) d))
      (snd (db_insert_chunk sql_ok (d_id d) new_start (u64 (new_end - 1)) (e_db e)))
      (<[idx := PLive idx]> (e_slots e)) (e_ub e).

Definition on_rebalance_split (e : Engine) (victim_start new_start new_end : Z) : Engine :=
  append_tail (shrink_victim e victim_start new_start) new_start new_end.

Definition engine_add_progress (e : Engine) (p : slot_ptr) (n : Z) : Engine :=
  match p with
  | PNull => e
  | PLive i =>
      mkEngine (set_live (alter (fun x => u64 (x + n)) i (d_chunk_live_bytes (e_d e))) (e_d e))
        (e_db e) (e_slots e) (e_ub e)
  | PIndet => mkEngine (e_d e) (e_db e) (e_slots e) true
  end.

#[global] Instance engine_listener : SplitListener Engine := {
  on_split := on_rebalance_split;
  progress_slots e i := default PIndet (e_slots e !! i);
  add_progress := engine_add_progress;
  request_cancel e :=
    mkEngine (set_flags true (d_pause_requested (e_d e)) (e_d e)) (e_db e) (e_slots e) (e_ub e);
}.

(** ** Helpers *)

Definition is_valid_url (url : bytes) : bool :=
  strprefix (str "http://") url || strprefix (str "https://") url.

Definition chunk_length (c : DownloadChunk) : Z := u64 (u64 (range_end c - range_start c) + 1).

Definition chunk_is_complete (c : DownloadChunk) : bool := chunk_length c <=? bytes_done c.

Context (env : IoEnv).

(** Download, file system, database. *)
Definition EState : Type := Download * filesystem * db.

Definition clear_resume_state (also_delete_file : bool) (st : EState) : EState :=
  let '(d, fs, t) := st in
  let d' := set_progress 0 (set_transfer 0 0 (replicate 8 0) [] d) in
  let t := snd (db_delete_chunks sql_ok (d_id d) t) in
  let t := snd (db_update_total_size sql_ok (d_id d) 0 t) in
  let fs := if also_delete_file && negb (bool_decide (d_dest_path d = [])) then
              unlink env fs (d_dest_path d) else fs in
  (d', fs, t).

(** ** Up to the worker pool *)

Record FileInfo := mkInfo { fi_total_size : Z; fi_supports_ranges : bool }.

(** The loop over the chunks of a resumed download: the ranges left with the
    index of their chunk, the bytes already there, and the live counters. *)
Fixpoint resume_loop (info : FileInfo) (i : nat) (cs : list DownloadChunk)
    (acc : list (Range * nat) * Z * list Z) : list (Range * nat) * Z * list Z :=
  match cs with
  | [] => acc
  | c :: cs' =>
      let '(ranges, dl, live) := acc in
      if MAX_WORKERS <=? Z.of_nat (length ranges) then acc
      else
        let live := <[i := bytes_done c]> live in
        if chunk_is_complete c then
          resume_loop info (S i) cs' (ranges, u64 (dl + chunk_length c), live)
        else
          let force_whole_file :=
            negb (fi_supports_ranges info) && (range_start c =? 0)
            && (range_end c =? u64 (fi_total_size info - 1)) in
          let r := mkRange (range_start c) (range_end c)
                     (if force_whole_file then 0 else bytes_done c) force_whole_file in
          let dl := if force_whole_file then dl else u64 (dl + bytes_done c) in
          resume_loop info (S i) cs' (ranges ++ [(r, i)], dl, live)
  end.

(** The plan of a fresh download. *)
Definition fresh_ranges (info : FileInfo) : list Range :=
  let n_workers := if fi_supports_ranges info then choose_worker_count (fi_total_size info) else 1 in
  if (0 <? fi_total_size info) && fi_supports_ranges info then
    segmenter_plan (fi_total_size info) n_workers
  else [mkRange 0 (if 0 <? fi_total_size info then fi_total_size info - 1 else 0) 0 true].

(** The chunks persisted for it. *)
Fixpoint persist_plan (id : Z) (ranges : list Range) (t : db) : db :=
  match ranges with
  | [] => t
  | r :: rs => persist_plan id rs (snd (db_insert_chunk sql_ok id (rg_start r) (rg_end r) t))
  end.

Definition plan_chunks (ranges : list Range) : list DownloadChunk :=
  map (fun r => mkChunk (rg_start r) (rg_end r) 0) (take (Z.to_nat QM_MAX_CHUNKS) ranges).

(** How preparation ends: a result, or ranges to run with the chunk of each. *)
Inductive prepared :=
| Early (rc : Z) (st : EState)
| Go (ranges : list Range) (chunk_slot_for_range : list nat) (st : EState).

Context (read_error : bytes -> option Z) (stack : bytes).

Definition expected_digest (d : Download) : bytes :=
  match d_request d with Some o => expected_sha256 o | None => [] end.

Definition finalize (info : FileInfo) (st : EState) : bool :=
  let '(d, fs, _) := st in
  engine_finalize env read_error stack fs (d_dest_path d) (fi_total_size info) (expected_digest d).

(** The end of the run: -2 and a clean slate when verification fails. *)
Definition verify (info : FileInfo) (st : EState) : Z * EState :=
  if finalize info st then (0, st) else (-2, clear_resume_state true st).

Definition prepare_resume (info : FileInfo) (st : EState) : prepared :=
  let '(d, fs, t) := st in
  let '(rs, dl, live) := resume_loop info 0 (d_chunks d) ([], 0, d_chunk_live_bytes d) in
  let st := (set_bytes dl (set_live live d), fs, t) in
  if decide (rs = []) then let '(rc, st) := verify info st in Early rc st
  else Go (map fst rs) (map snd rs) st.

Definition prepare_fresh (info : FileInfo) (st : EState) : prepared :=
  let '(d, fs, t) := st in
  let ranges := fresh_ranges info in
  let '(rc, fs) :=
    if d_reserved_file d && access_ok env fs (d_dest_path d) then
      file_preallocate_reserved env fs (d_dest_path d) (fi_total_size info)
    else file_preallocate env fs (d_dest_path d) (fi_total_size info) in
  if rc =? -2 then Early (-3) (d, fs, t)
  else if negb (rc =? 0) then Early (-1) (d, fs, t)
  else
    let t := snd (db_delete_chunks sql_ok (d_id d) t) in
    let t := persist_plan (d_id d) (take (Z.to_nat QM_MAX_CHUNKS) ranges) t in
    let cs := plan_chunks ranges in
    let live := imap (fun i x => if (i <? length cs)%nat then 0 else x) (d_chunk_live_bytes d) in
    Go ranges (seq 0 (length ranges)) (set_bytes 0 (set_live live (set_chunks cs d)), fs, t).

(** [head] is the answer of [curl_client_head], [None] for a failure. *)
Definition engine_prepare (head : option FileInfo) (st : EState) : prepared :=
  let '(d, fs, t) := st in
  if bool_decide (d_chunks d <> []) && bool_decide (stat env fs (d_dest_path d) = inl ENOENT) then
    Early (-4) (clear_resume_state false st)
  else if negb (is_valid_url (d_url d)) then Early (-1) st
  else
    match head with
    | None => Early (-1) st
    | Some info =>
        let resuming := bool_decide (d_chunks d <> []) in
        let on_disk := file_get_size env fs (d_dest_path d) in
        let stale := negb (d_total_size d =? 0) && negb (fi_total_size info =? d_total_size d) in
        let impossible := fi_total_size info <? on_disk in
        let restart := resuming && (stale || impossible) in
        let '(d, fs, t) := if restart then clear_resume_state true st else st in
        let t := snd (db_update_total_size sql_ok (d_id d) (fi_total_size info) t) in
        let st := (set_total (fi_total_size info) d, fs, t) in
        if resuming && negb restart then prepare_resume info st else prepare_fresh info st
    end.

(** ** The worker pool *)

Definition progress_array (chunk_slot_for_range : list nat) : list slot_ptr :=
  map PLive chunk_slot_for_range
    ++ replicate (Z.to_nat MAX_WORKERS - length chunk_slot_for_range) PIndet.

(** What other threads do to the download meanwhile: the scheduler persists a
    live counter, a client raises the cancel or pause flag. *)
Inductive engine_client : Engine -> Engine -> Prop :=
| ec_tick e i c live :
    d_chunks (e_d e) !! i = Some c -> d_chunk_live_bytes (e_d e) !! i = Some live ->
    engine_client e
      (mkEngine (e_d e) (snd (db_update_chunk_progress sql_ok (d_id (e_d e)) (range_start c) live (e_db e)))
         (e_slots e) (e_ub e))
| ec_flags e cancel pause :
    engine_client e (mkEngine (set_flags (d_cancel_requested (e_d e) || cancel)
                                 (d_pause_requested (e_d e) || pause) (e_d e))
                       (e_db e) (e_slots e) (e_ub e)).

Context (sv : HttpServer) (max_block : Z).

Definition STEAL_THRESHOLD : Z := 1024 * 1024.

(** [worker_pool_run] from [st]; [slots] is NULL for the fallback.  The last
    argument tells whether a worker used an uninitialised progress pointer, to
    which C gives no meaning: the relation goes on as if nothing was written. *)
Inductive worker_pool_run (use_pool : bool) (ranges : list Range) (slots : option (list slot_ptr))
    : EState -> bool -> EState -> bool -> Prop :=
| wpr_no_file d fs t :
    file_open_rw env fs (d_dest_path d) = None ->
    worker_pool_run use_pool ranges slots (d, fs, t) false (d, fs, t) false
| wpr_joined d fs t f st e ptrs :
    file_open_rw env fs (d_dest_path d) = Some (d_dest_path d) ->
    fs !! d_dest_path d = Some (NReg f) ->
    e = mkEngine d t (default [] slots) false ->
    ptrs = (match slots with Some _ => progress_slots e | None => fun _ => PNull end) ->
    rtc (observed_step engine_client
           (mkConf env STEAL_THRESHOLD (Z.of_nat (length ranges))) sv max_block)
      (pool_start use_pool ptrs e (d_bytes_downloaded d) f ranges) st ->
    joined st = true ->
    worker_pool_run use_pool ranges slots (d, fs, t) (all_succeeded st)
      (set_bytes (sh_total (fst st)) (e_d (sh_listener (fst st))),
       <[d_dest_path d := NReg (sh_file (fst st))]> fs, e_db (sh_listener (fst st)))
      (e_ub (sh_listener (fst st))).

(** ** After the pool *)

Fixpoint flush_loop (id : Z) (cs : list DownloadChunk) (live : list Z) (t : db)
    : list DownloadChunk * db :=
  match cs, live with
  | c :: cs', b :: live' =>
      let t := snd (db_update_chunk_progress sql_ok id (range_start c) b t) in
      let '(cs', t) := flush_loop id cs' live' t in
      (mkChunk (range_start c) (range_end c) b :: cs', t)
  | _, _ => (cs, t)
  end.

Definition engine_flush (st : EState) : EState :=
  let '(d, fs, t) := st in
  let '(cs, t) := flush_loop (d_id d) (d_chunks d) (d_chunk_live_bytes d) t in
  (set_chunks cs d, fs, t).

Definition user_stopped (st : EState) : bool :=
  let '(d, _, _) := st in d_cancel_requested d || d_pause_requested d.

Definition single_range : Range := mkRange 0 0 0 true.

Definition reset_bytes (st : EState) : EState :=
  let '(d, fs, t) := st in (set_bytes 0 d, fs, t).

Definition engine_finish (all_ok : bool) (info : FileInfo) (st : EState) : Z * EState :=
  if negb all_ok then (-1, st) else verify info st.

(** [pool_ok]: [rebalance_pool_create] got its memory; without, the ranges are
    served as they are. *)
Inductive engine_run_download (head : option FileInfo) : EState -> Z -> EState -> bool -> Prop :=
| er_early st rc st' :
    engine_prepare head st = Early rc st' -> engine_run_download head st rc st' false
| er_parallel pool_ok st ranges slot_map st1 ok st2 ub info rc st3 :
    head = Some info ->
    engine_prepare head st = Go ranges slot_map st1 ->
    worker_pool_run (pool_ok && bool_decide (1 < length ranges)%nat) ranges
      (Some (progress_array slot_map)) st1 ok st2 ub ->
    ok || bool_decide (length ranges <= 1)%nat || user_stopped (engine_flush st2) = true ->
    engine_finish ok info (engine_flush st2) = (rc, st3) ->
    engine_run_download head st rc st3 ub
| er_fallback pool_ok st ranges slot_map st1 st2 ub ok st3 ub' info rc st4 :
    head = Some info ->
    engine_prepare head st = Go ranges slot_map st1 ->
    worker_pool_run pool_ok ranges (Some (progress_array slot_map)) st1 false st2 ub ->
    (1 < length ranges)%nat -> user_stopped (engine_flush st2) = false ->
    worker_pool_run false [single_range] None (reset_bytes (engine_flush st2)) ok st3 ub' ->
    engine_finish ok info st3 = (rc, st4) ->
    engine_run_download head st rc st4 (ub || ub').

End Engine.

(** ** The transfer seen from the engine *)

(** The download is the same one: what names it and its destination. *)
Definition same_download (d d' : Download) : Prop :=
  d_id d' = d_id d /\ d_dest_path d' = d_dest_path d /\ d_request d' = d_request d /\
  d_total_size d' = d_total_size d.

Lemma same_download_refl d : same_download d d.
Proof. done. Qed.

Lemma same_download_trans a b c : same_download a b -> same_download b c -> same_download a c.
Proof. unfold same_download. intuition congruence. Qed.

(** What the HTTP side guarantees: a 206 answer carries the requested bytes, a
    200 answer the resource from its first byte, and the complete body of an
    accepted answer to a request without a Range header is the resource. *)
Record http_contract (sv : HttpServer) (content : Z -> Z) (clen : Z) : Prop := {
  hc_206 : forall r body, answers sv r 206 body ->
    exists a b, r = Some (a, b) /\ forall k, body k = content (a + k);
  hc_200 : forall r body, answers sv r 200 body -> forall k, body k = content k;
  hc_full : forall status n, status = 200 \/ status = 206 -> full_body sv None status n -> n = clen;
}.

Lemma http_ok_status n w st : http_ok n w st = true -> st = 200 \/ st = 206.
Proof.
  unfold http_ok. intros [?|[? _]%andb_true_iff]%orb_true_iff; [right|left]; by apply Z.eqb_eq.
Qed.

(** Every thread of a joined, successful run has ended well. *)
Lemma joined_success {L} (st : PoolState (L := L)) w :
  joined st = true -> all_succeeded st = true -> w ∈ snd st -> w_pc w = PcExit true.
Proof.
  unfold joined, all_succeeded. intros Hj [Hsf Ha]%andb_true_iff Hw.
  apply negb_true_iff in Hsf. rewrite Hsf in Hj. rewrite forallb_forall in Hj, Ha.
  apply list_elem_of_In in Hw. specialize (Hj w Hw). specialize (Ha w Hw).
  by destruct (w_pc w) as [| | | | | | | | | | |[]].
Qed.

Section Transfer.

Context (sql_ok : sql -> Tables -> bool) (env : IoEnv).
Context (sv : HttpServer) (max_block : Z) (content : Z -> Z) (clen : Z).
Hypothesis http : http_contract sv content clen.
Hypothesis block_small : 0 <= max_block <= STEAL_THRESHOLD.

#[local] Existing Instance engine_listener.

(** The pool and its clients never change which download they work on. *)
Lemma engine_same_download d cf st st' :
  rtc (observed_step (H := engine_listener sql_ok) (engine_client sql_ok) cf sv max_block) st st' ->
  same_download d (e_d (sh_listener (fst st))) -> same_download d (e_d (sh_listener (fst st'))).
Proof.
  apply (listener_reachable (fun e => same_download d (e_d e))).
  - intros e a b c He. simpl. unfold on_rebalance_split, append_tail, shrink_victim.
    destruct (shrink_chunk _ _ _). by case_bool.
  - intros e p n He. by destruct p.
  - done.
  - intros e e' He Hc. by destruct Hc.
Qed.

(** The single-connection invariant under the engine's clients. *)
Lemma single_observed f0 r cf slots e total st :
  range_wf r ->
  rtc (observed_step (H := engine_listener sql_ok) (engine_client sql_ok) cf sv max_block)
    (pool_start (H := engine_listener sql_ok) false slots e total f0 [r]) st ->
  exists w, snd st = [w] /\ single_inv cf sv content f0 r (fst st) w.
Proof.
  intros Hwf. destruct http as [H206 H200 _].
  apply (rtc_invariant _ (fun st => exists w, snd st = [w] /\ single_inv cf sv content f0 r (fst st) w)).
  - intros a b (w & Hw & Hi) Hs. destruct Hs as [a b Hs|sh ws l' _]; [|exists w; split; [done|by destruct Hi]].
    destruct Hs as [sh ws i x ev sh' w' Hx Hev Hst]. simpl in *. subst ws.
    destruct i as [|i]; [|done]. injection Hx as <-. exists w'. split; [done|].
    eapply (single_step (H := engine_listener sql_ok)); eauto.
  - destruct (single_reachable (H := engine_listener sql_ok) cf sv max_block content f0 r H206 H200 Hwf
                e slots total _ (rtc_refl _ _)) as (w & ? & ?). by exists w.
Qed.

Lemma single_observed_success f0 r cf slots e total st :
  range_wf r ->
  rtc (observed_step (H := engine_listener sql_ok) (engine_client sql_ok) cf sv max_block)
    (pool_start (H := engine_listener sql_ok) false slots e total f0 [r]) st ->
  joined st = true -> all_succeeded st = true ->
  (forall o, range_off r <= o <= rg_end r -> reg_byte (sh_file (fst st)) o = content o) /\
  (forall o, ~ (range_off r <= o <= rg_end r) -> reg_byte (sh_file (fst st)) o = reg_byte f0 o) /\
  (rg_whole_file r = true -> rg_end r + 1 - range_off r = clen) /\
  reg_size f0 <= reg_size (sh_file (fst st)) <= Z.max (reg_size f0) (rg_end r + 1) /\
  (range_off r <= rg_end r -> rg_end r + 1 <= reg_size (sh_file (fst st))).
Proof.
  intros Hwf Hr Hj Ha. destruct (single_observed _ _ _ _ _ _ _ Hwf Hr) as (w & Hw & Hi).
  assert (w_pc w = PcExit true) as Epc by (eapply joined_success; eauto; rewrite Hw; by left).
  pose proof (si_pc _ _ _ _ _ _ _ Hi) as Hpc. unfold single_pc in Hpc. rewrite Epc in Hpc.
  destruct (Hpc eq_refl) as (Hbd & status & Hok & Hfull). clear Hpc.
  assert (on_disk w = w_bytes_done w) as Hod by (unfold on_disk; rewrite Epc; lia).
  pose proof (si_size _ _ _ _ _ _ _ Hi) as Hsz. rewrite Hod, Hbd in Hsz.
  split; [|split; [|split; [|split]]].
  - intros o Ho. apply (si_in _ _ _ _ _ _ _ Hi); [|lia].
    destruct (sh_tainted (fst st)) eqn:E; [|done].
    pose proof (si_taint _ _ _ _ _ _ _ Hi E) as Hb. unfold bad in Hb. by rewrite Epc in Hb.
  - intros o Ho. apply (si_out _ _ _ _ _ _ _ Hi). lia.
  - intros Hwhole. unfold request_range in Hfull. rewrite (si_range _ _ _ _ _ _ _ Hi), Hwhole in Hfull.
    rewrite <- Hbd. eapply hc_full; [done| |done]. by eapply http_ok_status.
  - lia.
  - lia.
Qed.

Lemma joined_workers {L} `{SplitListener L} client cf use_pool slots (l : L) total f ranges st :
  rtc (observed_step client cf sv max_block) (pool_start use_pool slots l total f ranges) st ->
  length (snd st) = length ranges.
Proof.
  apply (rtc_invariant _ (fun st => length (snd st) = length ranges)); [|simpl; by rewrite length_imap].
  intros a b Hl Hs. destruct Hs as [a b Hs|sh ws l' _]; [|done]. destruct Hs. simpl in *.
  by rewrite length_insert.
Qed.

(** A successful run, with a rebalance pool or without. *)
Lemma pool_run_success use_pool ranges slots d fs t ok d' fs' t' ub :
  Forall range_wf ranges -> Z.of_nat (length ranges) <= MAX_WORKERS ->
  worker_pool_run sql_ok env sv max_block use_pool ranges slots (d, fs, t) ok (d', fs', t') ub ->
  ok = true -> same_download d d' /\ env_deny env (d_dest_path d) = false /\
  exists f f', fs !! d_dest_path d = Some (NReg f) /\ fs' = <[d_dest_path d := NReg f']> fs /\
    (forall o, requested ranges o -> reg_byte f' o = content o) /\
    (forall o, reg_byte f' o = content o \/ reg_byte f' o = reg_byte f o) /\
    reg_size f <= reg_size f' /\
    (forall r, use_pool = false -> ranges = [r] ->
       (rg_whole_file r = true -> rg_end r + 1 - range_off r = clen) /\
       reg_size f' <= Z.max (reg_size f) (rg_end r + 1) /\
       (range_off r <= rg_end r -> rg_end r + 1 <= reg_size f')).
Proof.
  intros Hwf Hlen Hrun. inversion Hrun as [|d0 fs0 t0 f st e ptrs Hopen Hf He Hp Hr Hj]; subst;
    [done|]. intros Hok.
  assert (env_deny env (d_dest_path d) = false) as Hdeny.
  { unfold file_open_rw, open_nofollow, lstat in Hopen. by destruct (env_deny env _). }
  assert (same_download d (set_bytes (sh_total (fst st)) (e_d (sh_listener (fst st))))) as Hsame.
  { pose proof (engine_same_download d _ _ _ Hr (same_download_refl d)) as Hs. exact Hs. }
  split; [done|]. split; [done|]. exists f, (sh_file (fst st)). split; [done|]. split; [done|].
  destruct http as [H206 H200 _]. destruct use_pool.
  - assert (st_inv STEAL_THRESHOLD max_block (Z.of_nat (length ranges)) content f (requested ranges) st) as Hi.
    { eapply (st_inv_observed_reachable _ (mkConf env STEAL_THRESHOLD _)); try done. }
    pose proof Hi as (sl & _ & Hinv).
    assert (forall o, requested ranges o -> reg_byte (sh_file (fst st)) o = content o) as Hin
      by by eapply st_inv_complete.
    split; [done|]. split; [|split; [apply (i_size _ _ _ _ _ _ _ _ _ _ _ Hinv)|done]].
    intros o. destruct (decide (reg_byte (sh_file (fst st)) o = content o)) as [|Hn]; [by left|right].
    apply (i_out _ _ _ _ _ _ _ _ _ _ _ Hinv). intros Hq. by apply Hn, Hin.
  - destruct (static_success _ _ _ _ _ _ H206 H200 Hwf _ _ _ _ _ Hr) as (Hin & Hany & Hsz).
    { intros w Hw. by eapply joined_success. }
    { by eapply joined_workers. }
    split; [done|]. split; [done|]. split; [done|]. intros r _ ->. apply Forall_cons in Hwf as [Hwf _].
    destruct (single_observed_success _ _ _ _ _ _ _ Hwf Hr Hj Hok) as (_ & _ & Hfull & Hsz2 & Hlo).
    split; [exact Hfull|]. split; [lia|exact Hlo].
Qed.

End Transfer.

(** ** Preparation *)

Section Prepare.

Context (sql_ok : sql -> Tables -> bool) (env : IoEnv).
Context (read_error : bytes -> option Z) (stack : bytes).

Definition d_of (st : EState) : Download := fst (fst st).
Definition fs_of (st : EState) : filesystem := snd (fst st).

(** Same identity; the sizes may differ. *)
Definition same_identity (d d' : Download) : Prop :=
  d_id d' = d_id d /\ d_dest_path d' = d_dest_path d /\ d_request d' = d_request d.

Definition st_frame (st st' : EState) : Prop :=
  same_identity (d_of st) (d_of st') /\ only_touches (d_dest_path (d_of st)) (fs_of st) (fs_of st').

Lemma st_frame_refl st : st_frame st st.
Proof. split; [done|apply only_touches_refl]. Qed.

Lemma st_frame_trans a b c : st_frame a b -> st_frame b c -> st_frame a c.
Proof.
  clear read_error stack sql_ok env. intros [(? & Hd & ?) Ht1] [(? & ? & ?) Ht2].
  split; [repeat split; congruence|]. rewrite Hd in Ht2. by eapply only_touches_trans.
Qed.

Lemma clear_frame b st : st_frame st (clear_resume_state sql_ok env b st).
Proof.
  destruct st as [[d fs] t]. split; [done|]. simpl.
  case_bool; [apply only_touches_unlink|apply only_touches_refl].
Qed.

Lemma verify_frame info st rc st' :
  verify sql_ok env read_error stack info st = (rc, st') -> st_frame st st'.
Proof.
  unfold verify. case_bool; intros [= <- <-]; [apply st_frame_refl|apply clear_frame].
Qed.

Lemma verify_zero info st st' :
  verify sql_ok env read_error stack info st = (0, st') ->
  st' = st /\ finalize env read_error stack info st = true.
Proof. unfold verify. by case_bool; intros [= <-]. Qed.

Lemma engine_finish_frame ok info st rc st' :
  engine_finish sql_ok env read_error stack ok info st = (rc, st') -> st_frame st st'.
Proof.
  unfold engine_finish. destruct ok; simpl; [apply verify_frame|]. intros [= <- <-]. apply st_frame_refl.
Qed.

(** What a fresh plan starts from. *)
Lemma prepare_fresh_go info d fs t ranges slots st' :
  0 <= fi_total_size info < 2 ^ 63 ->
  prepare_fresh sql_ok env info (d, fs, t) = Go ranges slots st' ->
  ranges = fresh_ranges info /\ st_frame (d, fs, t) st' /\
  exists f, fs_of st' !! d_dest_path d = Some (NReg f) /\ reg_size f = fi_total_size info.
Proof.
  intros Hn. unfold prepare_fresh.
  destruct (d_reserved_file d && access_ok env fs (d_dest_path d)).
  - destruct (file_preallocate_reserved _ _ _ _) as [rc fs1] eqn:E.
    destruct (file_preallocate_reserved_shape _ _ _ _ _ _ Hn E) as [Hne Hs].
    rewrite (proj2 (Z.eqb_neq _ _) Hne).
    destruct (Z.eqb_spec rc 0) as [->|]; [|done]. intros [= <- <- <-]. split; [done|].
    destruct Hs as [[_ ?]|(f & Hf & _ & ->)]; [done|]. split.
    + split; [done|]. simpl. apply only_touches_insert, only_touches_refl.
    + unfold fs_of. simpl. eexists. by rewrite lookup_insert_eq.
  - destruct (file_preallocate _ _ _ _) as [rc fs1] eqn:E.
    pose proof (file_preallocate_touches env fs (d_dest_path d) _ Hn) as Ht. rewrite E in Ht.
    destruct (Z.eqb_spec rc (-2)); [done|]. destruct (Z.eqb_spec rc 0) as [->|]; [|done].
    intros [= <- <- <-]. split; [done|]. split; [by split|]. unfold fs_of. simpl.
    destruct (file_preallocate_shape _ _ _ _ _ _ Hn E) as [(_ & ? & _)|(_ & _ & f & -> & Hf)]; [done|].
    exists f. rewrite lookup_insert_eq. by destruct (Hf eq_refl).
Qed.

Lemma prepare_fresh_early info st rc st' :
  0 <= fi_total_size info < 2 ^ 63 ->
  prepare_fresh sql_ok env info st = Early rc st' -> rc < 0 /\ st_frame st st'.
Proof.
  destruct st as [[d fs] t]. intros Hn. unfold prepare_fresh.
  destruct (d_reserved_file d && access_ok env fs (d_dest_path d)).
  - destruct (file_preallocate_reserved _ _ _ _) as [rc1 fs1] eqn:E.
    destruct (file_preallocate_reserved_shape _ _ _ _ _ _ Hn E) as [Hne Hs].
    rewrite (proj2 (Z.eqb_neq _ _) Hne).
    destruct (Z.eqb_spec rc1 0) as [->|]; [done|]. intros [= <- <-]. split; [lia|].
    split; [done|]. simpl. destruct Hs as [[-> _]|(f & _ & _ & ->)];
      [|apply only_touches_insert]; apply only_touches_refl.
  - pose proof (file_preallocate_touches env fs (d_dest_path d) _ Hn) as Ht.
    destruct (file_preallocate _ _ _ _) as [rc1 fs1].
    repeat case_bool; intros [= <- <-]; (split; [lia|by split]).
Qed.

(** The ranges of a resumed download. *)
Lemma resume_loop_spec info cs : forall i rs dl live rs' dl' live',
  (length rs + length cs <= 8)%nat ->
  resume_loop info i cs (rs, dl, live) = (rs', dl', live') ->
  exists new, rs' = rs ++ new /\
    (forall c, c ∈ cs -> chunk_is_complete c = true \/ exists r k, (r, k) ∈ new /\
       rg_start r = range_start c /\ rg_end r = range_end c /\
       (rg_resume_offset r = bytes_done c \/ rg_resume_offset r = 0)) /\
    (forall r k, (r, k) ∈ new -> exists c, c ∈ cs /\ chunk_is_complete c = false /\
       rg_start r = range_start c /\ rg_end r = range_end c /\
       ((rg_resume_offset r = bytes_done c /\ rg_whole_file r = false) \/
        (rg_resume_offset r = 0 /\ rg_whole_file r = true /\ range_start c = 0 /\
         range_end c = u64 (fi_total_size info - 1)))).
Proof.
  induction cs as [|c cs IH]; intros i rs dl live rs' dl' live' Hlen Heq; cbn [resume_loop] in Heq.
  { injection Heq as <- _ _. exists []. rewrite app_nil_r. split; [done|].
    by split; [intros c ?%not_elem_of_nil|intros r k ?%not_elem_of_nil]. }
  simpl in Hlen. destruct (Z.leb_spec MAX_WORKERS (Z.of_nat (length rs))) as [Hbig|_];
    [unfold MAX_WORKERS in *; lia|].
  destruct (chunk_is_complete c) eqn:Ec.
  - apply IH in Heq as (new & -> & H1 & H2); [|lia]. exists new.
    split; [done|]. split.
    + intros x [->|Hx]%elem_of_cons; auto.
    + intros r k Hr. destruct (H2 r k Hr) as (x & Hx & ?). exists x. split; [by right|done].
  - set (whole := negb (fi_supports_ranges info) && _ && _) in *.
    apply IH in Heq as (new & -> & H1 & H2); [|rewrite length_app; simpl; lia].
    eexists (_ :: new). split; [by rewrite <- app_assoc|]. split.
    + intros x [->|Hx]%elem_of_cons.
      * right. eexists _, i. split; [by left|]. simpl. destruct whole; auto.
      * destruct (H1 x Hx) as [?|(r & k & Hr & ?)]; [by left|right].
        exists r, k. split; [by right|done].
    + intros r k [[= -> ->]|Hr]%elem_of_cons.
      * exists c. split; [by left|]. simpl. split; [done|]. split; [done|]. split; [done|].
        destruct whole eqn:E; [|by left]. right. unfold whole in E. breflect. done.
      * destruct (H2 r k Hr) as (x & Hx & ?). exists x. split; [by right|done].
Qed.

End Prepare.

Section Frame.

Context (sql_ok : sql -> Tables -> bool) (env : IoEnv).
Context (read_error : bytes -> option Z) (stack : bytes) (sv : HttpServer) (max_block : Z).

Definition prepared_st (p : prepared) : EState :=
  match p with Early _ st => st | Go _ _ st => st end.

Lemma prepare_resume_frame info st :
  st_frame st (prepared_st (prepare_resume sql_ok env read_error stack info st)).
Proof.
  destruct st as [[d fs] t]. unfold prepare_resume.
  destruct (resume_loop _ _ _ _) as [[rs dl] live]. case_decide.
  - destruct (verify _ _ _ _ _ _) as [rc st] eqn:E. apply verify_frame in E. exact E.
  - split; [done|apply only_touches_refl].
Qed.

Lemma prepare_fresh_frame info st :
  0 <= fi_total_size info < 2 ^ 63 -> st_frame st (prepared_st (prepare_fresh sql_ok env info st)).
Proof.
  intros Hn. destruct (prepare_fresh _ _ _ _) eqn:E.
  - by eapply prepare_fresh_early in E as [_ ?].
  - destruct st as [[d fs] t]. by eapply prepare_fresh_go in E as (_ & ? & _).
Qed.

Definition head_ok (head : option FileInfo) : Prop :=
  forall info, head = Some info -> 0 <= fi_total_size info < 2 ^ 63.

Lemma engine_prepare_frame head st :
  head_ok head -> st_frame st (prepared_st (engine_prepare sql_ok env read_error stack head st)).
Proof.
  intros Hh. destruct st as [[d fs] t]. unfold engine_prepare.
  case_bool; [apply clear_frame|]. case_bool; [apply st_frame_refl|].
  destruct head as [info|]; [|apply st_frame_refl]. specialize (Hh info eq_refl).
  set (restart := _ && (_ || _)).
  destruct (if restart then _ else _) as [[d1 fs1] t1] eqn:E.
  assert (st_frame (d, fs, t) (d1, fs1, t1)) as Hf.
  { rewrite <- E. case_bool; [apply clear_frame|apply st_frame_refl]. }
  eapply st_frame_trans; [exact Hf|]. case_bool.
  - eapply st_frame_trans; [|apply prepare_resume_frame]. split; [done|apply only_touches_refl].
  - eapply st_frame_trans; [|by apply prepare_fresh_frame]. split; [done|apply only_touches_refl].
Qed.

Lemma flush_frame st : st_frame st (engine_flush sql_ok st).
Proof.
  destruct st as [[d fs] t]. unfold engine_flush. destruct (flush_loop _ _ _ _ _).
  split; [done|apply only_touches_refl].
Qed.

Lemma pool_run_frame use_pool ranges slots st ok st' ub :
  worker_pool_run sql_ok env sv max_block use_pool ranges slots st ok st' ub -> st_frame st st'.
Proof.
  intros Hrun. destruct Hrun as [d fs t|d fs t f st e ptrs Hopen Hf He Hp Hr Hj]; [apply st_frame_refl|].
  subst e. apply (engine_same_download sql_ok sv max_block d) in Hr; [|done].
  destruct Hr as (? & ? & ? & _). split; [done|].
  apply only_touches_insert, only_touches_refl.
Qed.

(** A run touches one file and keeps what names the download. *)
Lemma run_frame head d fs t rc d' fs' t' ub :
  head_ok head ->
  engine_run_download sql_ok env read_error stack sv max_block head (d, fs, t) rc (d', fs', t') ub ->
  st_frame (d, fs, t) (d', fs', t').
Proof.
  intros Hh Hrun.
  pose proof (engine_prepare_frame head) as Hprep.
  inversion Hrun as [st rc0 st' Hp|po st ranges sm st1 ok st2 ub1 info rc0 st3 Hi Hp Hw _ Hf
    |po st ranges sm st1 st2 ub1 ok st3 ub2 info rc0 st4 Hi Hp Hw _ _ Hw2 Hf]; subst;
    match type of Hp with _ = ?p => specialize (Hprep (d, fs, t) Hh); rewrite Hp in Hprep end.
  - exact Hprep.
  - eapply st_frame_trans; [exact Hprep|]. apply pool_run_frame in Hw.
    eapply st_frame_trans; [exact Hw|]. eapply st_frame_trans; [apply flush_frame|].
    by eapply engine_finish_frame.
  - eapply st_frame_trans; [exact Hprep|]. apply pool_run_frame in Hw.
    eapply st_frame_trans; [exact Hw|]. eapply st_frame_trans; [apply flush_frame|].
    apply engine_finish_frame in Hf. apply pool_run_frame in Hw2.
    eapply st_frame_trans; [|exact Hf]. eapply st_frame_trans; [|exact Hw2].
    destruct (engine_flush sql_ok st2) as [[d2 fs2] t2]. split; [done|apply only_touches_refl].
Qed.

(** C8. A download never touches anything but its own file.  Whatever the
    server, the schedule, the injected failures and the result code: every
    other entry of the file system is exactly what it was (directories made on
    the way to the destination apart), and the download keeps its id, its
    destination and its options. *)
Theorem engine_confined head d fs t rc d' fs' t' ub :
  head_ok head ->
  engine_run_download sql_ok env read_error stack sv max_block head (d, fs, t) rc (d', fs', t') ub ->
  (d_id d' = d_id d /\ d_dest_path d' = d_dest_path d /\ d_request d' = d_request d) /\
  forall q, q <> d_dest_path d ->
    fs' !! q = fs !! q \/ (fs !! q = None /\ fs' !! q = Some NDir).
Proof. intros Hh Hrun. by destruct (run_frame head d fs t rc d' fs' t' ub Hh Hrun). Qed.

End Frame.

(** ** Success *)

(** What a later run may rely on: the recorded chunks cover the resource, and
    the bytes each of them counts as received are in the file. *)
Record resume_point (content : Z -> Z) (clen : Z) (d : Download) (f : regular) : Prop := {
  re_total : d_total_size d = clen /\ 0 < clen;
  re_len : (length (d_chunks d) <= 8)%nat;
  re_wf : forall c, c ∈ d_chunks d ->
    0 <= range_start c <= range_end c /\ range_end c < clen /\ 0 <= bytes_done c;
  re_cover : forall o, 0 <= o < clen -> exists c, c ∈ d_chunks d /\ range_start c <= o <= range_end c;
  re_data : forall c o, c ∈ d_chunks d -> range_start c <= o < range_start c + bytes_done c ->
    o <= range_end c -> reg_byte f o = content o;
}.

Section Success.

Context (sql_ok : sql -> Tables -> bool) (env : IoEnv).
Context (read_error : bytes -> option Z) (stack : bytes) (sv : HttpServer) (max_block : Z).
Context (content : Z -> Z) (clen : Z).
Hypothesis stack_len : length stack = 64%nat.
Hypothesis clen_bound : 0 <= clen < 2 ^ 60.
Hypothesis http : http_contract sv content clen.
Hypothesis block_small : 0 <= max_block <= STEAL_THRESHOLD.

Definition size_ok (info : FileInfo) : Prop := fi_total_size info = clen \/ fi_total_size info = 0.

(** The ranges left to fetch from the file [f] are enough. *)
Definition plan_ok (info : FileInfo) (ranges : list Range) (f : regular) : Prop :=
  Forall range_wf ranges /\ Z.of_nat (length ranges) <= MAX_WORKERS /\ ranges <> [] /\
  ((fi_total_size info = clen /\ 0 < clen /\
    forall o, 0 <= o < clen -> requested ranges o \/ reg_byte f o = content o) \/
   (fi_total_size info = 0 /\ ranges = [mkRange 0 0 0 true] /\ reg_size f = 0)).

Lemma chunk_length_exact c : 0 <= range_start c <= range_end c -> range_end c < clen ->
  chunk_length c = range_end c - range_start c + 1.
Proof. intros. unfold chunk_length. rewrite (u64_small (_ - _)) by zlia. apply u64_small. zlia. Qed.

Lemma fresh_ranges_ok info f :
  size_ok info -> reg_size f = fi_total_size info -> plan_ok info (fresh_ranges info) f.
Proof.
  intros Hsz Hf. unfold plan_ok, fresh_ranges. set (n := if fi_supports_ranges info then _ else 1).
  assert (0 < n <= MAX_WORKERS) as Hn.
  { unfold n. pose proof (choose_worker_count_range (fi_total_size info)).
    destruct (fi_supports_ranges info); unfold MAX_WORKERS in *; lia. }
  destruct (Z.ltb_spec 0 (fi_total_size info)) as [Hpos|Hle]; cbn [andb].
  - assert (fi_total_size info = clen) as Ht by (destruct Hsz; lia). rewrite Ht in *.
    destruct (fi_supports_ranges info).
    + assert (0 < clen < 2 ^ 64 /\ 0 < n < 2 ^ 31) as [Hc Hn'] by (unfold MAX_WORKERS in *; zlia).
      pose proof (segmenter_plan_tiles_aux clen n Hc Hn') as Htl.
      pose proof (segmenter_plan_length clen n Hc Hn') as Hlen.
      pose proof (segmenter_plan_fresh clen n) as Hfr.
      split; [apply (fresh_tiles_wf clen); [done|done|rewrite OFF_MAX_val; zlia]|].
      split; [lia|]. split.
      * intros E. rewrite E in Hlen. simpl in Hlen. lia.
      * left. split; [done|]. split; [done|]. intros o Ho. left. by apply (fresh_tiles_requested clen).
    + split; [|split; [done|split; [done|]]].
      * apply Forall_singleton. split; unfold range_off; simpl; rewrite ?OFF_MAX_val; try done; zlia.
      * left. split; [done|]. split; [done|]. intros o Ho. left. eexists. split; [by left|].
        unfold range_off. simpl. lia.
  - assert (fi_total_size info = 0) as E by (destruct Hsz; lia). rewrite E in *.
    split; [|split; [done|split; [done|by right]]].
    apply Forall_singleton. split; unfold range_off; simpl; rewrite ?OFF_MAX_val; try done; zlia.
Qed.

(** Resumed downloads, complete chunks included. *)
Lemma resume_ranges_ok info d f rs dl live :
  resume_point content clen d f -> fi_total_size info = clen ->
  resume_loop info 0 (d_chunks d) ([], 0, d_chunk_live_bytes d) = (rs, dl, live) ->
  Forall range_wf (map fst rs) /\ Z.of_nat (length (map fst rs)) <= MAX_WORKERS /\
  forall o, 0 <= o < clen -> requested (map fst rs) o \/ reg_byte f o = content o.
Proof.
  intros [[Htot Hpos] Hlen Hwf Hcov Hdata] Ht Heq.
  assert (Z.of_nat (length rs) <= 8) as Hl.
  { assert (forall cs i a dl0 lv r' dl1 lv1, resume_loop info i cs (a, dl0, lv) = (r', dl1, lv1) ->
      (length r' <= length a + length cs)%nat) as Hgen.
    { induction cs as [|c cs IH]; intros i a dl0 lv r' dl1 lv1 E; cbn [resume_loop] in E.
      - injection E as <- _ _. simpl. lia.
      - destruct (MAX_WORKERS <=? _); [injection E as <- _ _; lia|].
        destruct (chunk_is_complete c); apply IH in E; rewrite ?length_app in E; simpl in *; lia. }
    apply Hgen in Heq. simpl in Heq. lia. }
  apply resume_loop_spec in Heq as (new & -> & H1 & H2); [|simpl; lia]. cbn [app] in *.
  split; [|split; [by rewrite length_map; unfold MAX_WORKERS|]].
  - apply Forall_forall. intros r Hr. apply list_elem_of_fmap in Hr as ((r' & k) & -> & Hr).
    destruct (H2 _ _ Hr) as (c & Hc & Hinc & Es & Ee & Ho). simpl.
    destruct (Hwf c Hc) as (? & ? & ?).
    unfold chunk_is_complete in Hinc. apply Z.leb_gt in Hinc. rewrite chunk_length_exact in Hinc by done.
    destruct Ho as [[E1 E2]|(E1 & E2 & E0 & _)]; split; unfold range_off; rewrite ?Es, ?Ee, ?E1, ?E2;
      try done; rewrite ?OFF_MAX_val; zlia.
  - intros o Ho. destruct (Hcov o Ho) as (c & Hc & Hco). destruct (Hwf c Hc) as (? & ? & ?).
    destruct (H1 c Hc) as [Hcomp|(r & k & Hr & Es & Ee & Hoff)].
    + right. apply (Hdata c); [done| |lia]. unfold chunk_is_complete in Hcomp.
      apply Z.leb_le in Hcomp. rewrite chunk_length_exact in Hcomp by done. lia.
    + destruct (decide (range_off r <= o)) as [Hle|Hgt].
      * left. exists r. split; [apply list_elem_of_fmap; by exists (r, k)|lia].
      * right. apply (Hdata c); [done| |lia]. unfold range_off in Hgt. lia.
Qed.

(** What the caller gets with the result 0. *)
Definition delivered (d : Download) (fs : filesystem) : Prop :=
  exists f, fs !! d_dest_path d = Some (NReg f) /\ reg_size f = clen /\
    (forall o, 0 <= o < clen -> reg_byte f o = content o) /\
    (expected_digest d = [] \/
     map lower (expected_digest d) = sha256_to_hex (sha256_spec (reg_content f))).

Definition resume_ok (d : Download) (fs : filesystem) : Prop :=
  d_chunks d <> [] -> exists f, fs !! d_dest_path d = Some (NReg f) /\ resume_point content clen d f.

Lemma stat_reg fs p f : env_deny env p = false -> fs !! p = Some (NReg f) -> stat env fs p = inr (NReg f).
Proof. intros Hd Hf. unfold stat. cbn [stat_from]. unfold lstat. by rewrite Hd, Hf. Qed.

Lemma stat_denied fs p : env_deny env p = true -> stat env fs p = inl EACCES.
Proof. intros Hd. unfold stat. cbn [stat_from]. unfold lstat. by rewrite Hd. Qed.

Lemma finalize_delivered info d d' fs t f :
  same_identity d d' -> fs !! d_dest_path d = Some (NReg f) -> env_deny env (d_dest_path d) = false ->
  (forall o, 0 <= o < clen -> reg_byte f o = content o) ->
  (fi_total_size info = clen /\ 0 < clen) \/ reg_size f = clen ->
  finalize env read_error stack info (d', fs, t) = true -> delivered d fs.
Proof.
  intros (_ & Hd & Hr) Hf Hdeny Hdata Hsz Hfin. unfold finalize in Hfin. rewrite Hd in Hfin.
  pose proof (stat_reg _ _ _ Hdeny Hf) as Hst.
  assert (reg_size f = clen) as Hclen.
  { destruct Hsz as [[Ht Hpos]|?]; [|done]. unfold engine_finalize, file_get_size in Hfin.
    rewrite Hst, Ht in Hfin. cbn [node_size] in Hfin. rewrite (proj2 (Z.eqb_neq clen 0)) in Hfin by lia.
    destruct (Z.eqb_spec (reg_size f) clen); [done|]. done. }
  apply (engine_finalize_true _ _ _ _ _ f) in Hfin as [_ Hdig]; try done; [|lia|zlia].
  exists f. split; [done|]. split; [done|]. split; [done|].
  unfold expected_digest in *. by rewrite Hr in Hdig.
Qed.

Lemma prepare_cases info d fs t p :
  size_ok info -> resume_ok d fs ->
  engine_prepare sql_ok env read_error stack (Some info) (d, fs, t) = p ->
  (exists rc st, p = Early rc st /\ rc <> 0) \/
  (exists t1, p = prepare_resume sql_ok env read_error stack info
                    (set_total (fi_total_size info) d, fs, t1) /\
     d_chunks d <> [] /\ fi_total_size info = clen) \/
  (exists st1, p = prepare_fresh sql_ok env info st1 /\ same_identity d (d_of st1)).
Proof.
  intros Hsz Hres. unfold engine_prepare.
  case_bool; [intros <-; left; by eexists _, _|]. case_bool; [intros <-; left; by eexists _, _|].
  destruct (bool_decide (d_chunks d <> [])) eqn:Er; cbn [andb negb].
  2:{ intros <-. right. right. eexists. split; [reflexivity|done]. }
  apply bool_decide_eq_true in Er. destruct (Hres Er) as (f & Hf & [[Htot Hpos] _ _ _ _]).
  destruct (_ || _) eqn:Erestart; cbn [negb].
  - destruct (clear_resume_state _ _ _ _) as [[d1 fs1] t1] eqn:Ec. intros <-. right. right.
    eexists. split; [reflexivity|]. pose proof (clear_frame sql_ok env true (d, fs, t)) as [Hid _].
    rewrite Ec in Hid. exact Hid.
  - intros <-. right. left. eexists. split; [reflexivity|]. split; [done|].
    apply orb_false_iff in Erestart as [Es _]. rewrite Htot in Es.
    rewrite (proj2 (Z.eqb_neq clen 0)) in Es by lia. cbn [negb andb] in Es. by breflect.
Qed.

Lemma prepare_go_ok info d fs t ranges slots d1 fs1 t1 :
  size_ok info -> resume_ok d fs ->
  engine_prepare sql_ok env read_error stack (Some info) (d, fs, t) = Go ranges slots (d1, fs1, t1) ->
  exists f, fs1 !! d_dest_path d = Some (NReg f) /\ plan_ok info ranges f.
Proof.
  intros Hsz Hres Hp. assert (0 <= fi_total_size info < 2 ^ 63) as Hb by (destruct Hsz; zlia).
  apply prepare_cases in Hp as [(rc & st & ? & _)|[(t2 & Hp & Hne & Ht)|(st1 & Hp & Hid)]]; [done|..];
    try done; symmetry in Hp.
  - destruct (Hres Hne) as (f & Hf & Hr). pose proof (re_total _ _ _ _ Hr) as [_ Hpos].
    unfold prepare_resume in Hp. cbn [set_total set_transfer d_chunks d_chunk_live_bytes] in Hp.
    destruct (resume_loop _ _ _ _) as [[rs dl] live] eqn:El. case_decide as Hrs.
    { by destruct (verify _ _ _ _ _ _). }
    injection Hp as <- <- <- <- <-. exists f. split; [done|].
    destruct (resume_ranges_ok _ _ _ _ _ _ Hr Ht El) as (H1 & H2 & H3).
    split; [done|]. split; [done|]. split; [by destruct rs|]. by left.
  - destruct st1 as [[d2 fs2] t2]. destruct Hid as (_ & Hd & _).
    apply prepare_fresh_go in Hp as (-> & _ & f & Hf & Hsize); [|done].
    exists f. unfold fs_of in Hf. simpl in Hf, Hd. rewrite <- Hd. split; [done|]. by apply fresh_ranges_ok.
Qed.

Lemma prepare_early_ok info d fs t d1 fs1 t1 :
  size_ok info -> resume_ok d fs ->
  engine_prepare sql_ok env read_error stack (Some info) (d, fs, t) = Early 0 (d1, fs1, t1) ->
  delivered d fs1.
Proof.
  intros Hsz Hres Hp. assert (0 <= fi_total_size info < 2 ^ 63) as Hb by (destruct Hsz; zlia).
  apply prepare_cases in Hp as [(rc & st & E & Hne)|[(t2 & Hp & Hne & Ht)|(st1 & Hp & Hid)]];
    [congruence| |symmetry in Hp; by apply prepare_fresh_early in Hp as [? _]|done|done]. symmetry in Hp.
  destruct (Hres Hne) as (f & Hf & Hr). pose proof (re_total _ _ _ _ Hr) as [_ Hpos].
  unfold prepare_resume in Hp. cbn [set_total set_transfer d_chunks d_chunk_live_bytes] in Hp.
  destruct (resume_loop _ _ _ _) as [[rs dl] live] eqn:El. case_decide as Hrs; [|done].
  destruct (verify _ _ _ _ _ _) as [rc st] eqn:Ev. injection Hp as -> ->.
  apply verify_zero in Ev as [E Hfin]. injection E as -> -> ->. subst rs.
  destruct (resume_ranges_ok _ _ _ _ _ _ Hr Ht El) as (_ & _ & Hdata).
  destruct (env_deny env (d_dest_path d)) eqn:Hdeny.
  { exfalso. unfold finalize, engine_finalize, file_get_size in Hfin.
    cbn [set_bytes set_live set_total set_transfer d_dest_path] in Hfin.
    rewrite (stat_denied _ _ Hdeny), Ht, (proj2 (Z.eqb_neq clen 0)) in Hfin by lia.
    by rewrite (proj2 (Z.eqb_neq 0 clen)) in Hfin by lia. }
  eapply (finalize_delivered info d _ _ _ f); [| | | | |exact Hfin]; try done.
  - intros o Ho. destruct (Hdata o Ho) as [(r & Hr' & _)|?]; [|done]. by apply not_elem_of_nil in Hr'.
  - by left.
Qed.

(** The retry on one connection can only succeed for a resource of one byte. *)
Lemma fallback_success d fs t ok d' fs' t' ub :
  worker_pool_run sql_ok env sv max_block false [single_range] None (d, fs, t) ok (d', fs', t') ub ->
  ok = true -> clen = 1 /\ same_download d d' /\ env_deny env (d_dest_path d) = false /\
    exists f f', fs !! d_dest_path d = Some (NReg f) /\ fs' = <[d_dest_path d := NReg f']> fs /\
      reg_byte f' 0 = content 0 /\ Z.max (reg_size f) 1 = reg_size f'.
Proof.
  intros Hrun Hok.
  assert (Forall range_wf [single_range]) as Hwf.
  { apply Forall_singleton. split; unfold range_off; simpl; rewrite ?OFF_MAX_val; try done; zlia. }
  destruct (pool_run_success sql_ok env sv max_block content clen http block_small _ _ _ _ _ _ _ _ _ _ _
              Hwf ltac:(done) Hrun Hok)
    as (Hsame & Hdeny & f & f' & Hf & -> & Hin & _ & Hmono & Hone).
  destruct (Hone single_range eq_refl eq_refl) as (Hfull & Hup & Hlow).
  unfold range_off, single_range in Hfull, Hup, Hlow. simpl in Hfull, Hup, Hlow.
  split; [rewrite <- (Hfull eq_refl); lia|]. split; [done|]. split; [done|].
  exists f, f'. split; [done|]. split; [done|]. split; [|lia]. apply Hin. exists single_range.
  split; [by left|]. unfold range_off. simpl. lia.
Qed.

Lemma finish_delivered info d d1 fs1 t1 st2 ranges f f' ok rc st3 :
  plan_ok info ranges f -> engine_finish sql_ok env read_error stack ok info st2 = (rc, st3) ->
  rc = 0 -> ok = true /\ st3 = st2 /\
  (st2 = (d1, <[d_dest_path d := NReg f']> fs1, t1) -> same_identity d d1 ->
   env_deny env (d_dest_path d) = false ->
   (forall o, 0 <= o < clen -> reg_byte f' o = content o) ->
   (fi_total_size info = clen /\ 0 < clen) \/ reg_size f' = clen ->
   delivered d (fs_of st3)).
Proof.
  intros Hplan Hf ->. unfold engine_finish in Hf. destruct ok; [|done]. cbn [negb] in Hf.
  apply verify_zero in Hf as [-> Hfin]. split; [done|]. split; [done|]. intros -> Hid Hdeny Hdata Hsz.
  unfold fs_of. cbn [fst snd].
  eapply (finalize_delivered info d _ _ _ f'); [exact Hid| |exact Hdeny|exact Hdata|exact Hsz|exact Hfin].
  by rewrite lookup_insert_eq.
Qed.

(** The transfer by the planned ranges. *)
Lemma parallel_success info d fs t po ranges slots d1 fs1 t1 ok st2 ub rc st3 :
  size_ok info -> resume_ok d fs ->
  engine_prepare sql_ok env read_error stack (Some info) (d, fs, t) = Go ranges slots (d1, fs1, t1) ->
  same_identity d d1 ->
  worker_pool_run sql_ok env sv max_block (po && bool_decide (1 < length ranges)%nat) ranges
    (Some (progress_array slots)) (d1, fs1, t1) ok st2 ub ->
  engine_finish sql_ok env read_error stack ok info (engine_flush sql_ok st2) = (rc, st3) ->
  rc = 0 -> delivered d (fs_of st3).
Proof.
  intros Hsz Hres Hp (Hid & Hdest & Hreq) Hw Hf Hrc. destruct st2 as [[d2 fs2] t2].
  destruct (prepare_go_ok _ _ _ _ _ _ _ _ _ Hsz Hres Hp) as (f & Hff & Hplan).
  destruct (finish_delivered info d d2 fs1 t2 _ _ f f _ _ _ Hplan Hf Hrc) as (Hok & -> & _).
  pose proof Hplan as (Hwf & Hl & Hne & Hcase).
  destruct (pool_run_success sql_ok env sv max_block content clen http block_small _ _ _ _ _ _ _ _ _ _ _
              Hwf Hl Hw Hok)
    as ((E1 & E2 & E3 & _) & Hdeny & f0 & f' & Hf0 & -> & Hin & Hout & Hmono & Hone).
  rewrite Hdest in *. rewrite Hff in Hf0. injection Hf0 as <-.
  unfold engine_flush in *. destruct (flush_loop _ _ _ _ _) as [cs t3].
  destruct (finish_delivered info d (set_chunks cs d2) fs1 t3 _ _ f f' _ _ _ Hplan Hf Hrc)
    as (_ & _ & Hdel). apply Hdel; try done.
  - repeat split; simpl; congruence.
  - intros o Ho. destruct Hcase as [(_ & _ & Hc)|(_ & -> & Hsz0)].
    + destruct (Hc o Ho) as [?|Hcont]; [by apply Hin|]. destruct (Hout o) as [? | ->]; done.
    + apply Hin. eexists. split; [by left|]. unfold range_off. simpl.
      destruct (Hone _ (andb_false_r po) eq_refl) as (Hfull & _). specialize (Hfull eq_refl).
      unfold range_off in Hfull. simpl in Hfull. lia.
  - destruct Hcase as [(? & ? & _)|(_ & -> & Hsz0)]; [by left|right].
    destruct (Hone _ (andb_false_r po) eq_refl) as (Hfull & Hup & Hlow). specialize (Hfull eq_refl).
    unfold range_off in Hfull, Hlow. simpl in Hfull, Hup, Hlow. lia.
Qed.

(** The retry on one connection. *)
Lemma retry_success info d fs t po ranges slots d1 fs1 t1 st2 ub ok st3 ub' rc st4 :
  size_ok info -> resume_ok d fs ->
  engine_prepare sql_ok env read_error stack (Some info) (d, fs, t) = Go ranges slots (d1, fs1, t1) ->
  same_identity d d1 -> (1 < length ranges)%nat ->
  worker_pool_run sql_ok env sv max_block po ranges (Some (progress_array slots))
    (d1, fs1, t1) false st2 ub ->
  worker_pool_run sql_ok env sv max_block false [single_range] None
    (reset_bytes (engine_flush sql_ok st2)) ok st3 ub' ->
  engine_finish sql_ok env read_error stack ok info st3 = (rc, st4) ->
  rc = 0 -> delivered d (fs_of st4).
Proof.
  intros Hsz Hres Hp (Hid & Hdest & Hreq) Hlen Hw Hw2 Hf Hrc.
  destruct st2 as [[d2 fs2] t2], st3 as [[d3 fs3] t3].
  destruct (prepare_go_ok _ _ _ _ _ _ _ _ _ Hsz Hres Hp) as (f & Hff & Hplan).
  destruct (finish_delivered info d d3 fs1 t3 _ _ f f _ _ _ Hplan Hf Hrc) as (Hok & -> & _).
  apply pool_run_frame in Hw. destruct Hw as [(E1 & E2 & E3) _]. unfold d_of in E1, E2, E3.
  simpl in E1, E2, E3. unfold engine_flush, reset_bytes in Hw2.
  destruct (flush_loop _ _ _ _ _) as [cs t4].
  destruct (fallback_success _ _ _ _ _ _ _ _ Hw2 Hok)
    as (Hone & (H1 & H2 & H3 & _) & Hdeny & f0 & f' & Hf0 & -> & Hb & Hsz0).
  simpl in *. rewrite E2, Hdest in *.
  destruct (finish_delivered info d d3 fs2 t3 _ _ f f' _ _ _ Hplan Hf Hrc) as (_ & _ & Hdel).
  apply Hdel; try done.
  - repeat split; simpl; congruence.
  - intros o Ho. by replace o with 0 by lia.
  - destruct Hplan as (_ & _ & _ & [(? & ? & _)|(_ & -> & _)]); [by left|simpl in Hlen; lia].
Qed.

End Success.

(** A run with the result 0, for the proofs of its callers. *)
Lemma run_delivers sql_ok env read_error stack sv max_block content clen head
    d fs t d' fs' t' ub :
  length stack = 64%nat -> 0 <= clen < 2 ^ 60 ->
  http_contract sv content clen -> 0 <= max_block <= STEAL_THRESHOLD ->
  (forall info, head = Some info -> size_ok clen info) -> resume_ok content clen d fs ->
  engine_run_download sql_ok env read_error stack sv max_block head (d, fs, t) 0 (d', fs', t') ub ->
  delivered content clen d fs'.
Proof.
  intros Hst Hcl Hhttp Hmb Hsz Hres Hrun.
  assert (head_ok head) as Hh by (intros info E; destruct (Hsz info E); zlia).
  pose proof (engine_prepare_frame sql_ok env read_error stack head (d, fs, t) Hh) as Hframe.
  inversion Hrun as [st rc0 st' Hp|po st ranges sm st1 ok st2 ub1 info rc0 st3 Hi Hp Hw _ Hf
    |po st ranges sm st1 st2 ub1 ok st3 ub2 info rc0 st4 Hi Hp Hw Hlen _ Hw2 Hf]; subst;
    rewrite Hp in Hframe; destruct Hframe as [Hid _].
  - destruct head as [info|]; [eapply prepare_early_ok; eauto|].
    unfold engine_prepare in Hp. repeat case_bool; done.
  - destruct st1 as [[d1 fs1] t1].
    by eapply (parallel_success _ _ _ _ _ _ _ _ Hst Hcl Hhttp Hmb _ _ _ _ _ _ _ _ _ _ _ _ _ _ _
                 (Hsz info eq_refl) Hres Hp Hid Hw Hf).
  - destruct st1 as [[d1 fs1] t1].
    by eapply (retry_success _ _ _ _ _ _ _ _ Hst Hcl Hhttp Hmb _ _ _ _ _ _ _ _ _ _ _ _ _ _ _ _ _
                 (Hsz info eq_refl) Hres Hp Hid Hlen Hw Hw2 Hf).
Qed.

(** C3. A download that reports success has delivered the resource, under these conditions: the
    server keeps its contract (a 206 answer carries the requested bytes, a 200 answer the
    resource from its first byte, the complete body of an unranged answer is the resource), and
    the resource is shorter than 2^60 bytes; the HEAD request reports its length or none
    ([size_ok]); a download that resumes has chunks that cover the resource and count only
    correct bytes ([resume_ok]: what [killed_download_resumable] provides; without it
    [EngineResume.unknown_length_resume_truncates] returns 0 with one byte of twelve); curl's
    blocks are at most 1 MiB; and no worker used an uninitialised progress pointer, to which C
    gives no meaning ([EngineResume.split_after_resume_reads_garbage]). Then, whether it starts
    fresh, resumes, restarts because its chunks are stale, runs with the rebalance pool or
    without (no memory for it), or retries on one connection, and for every interleaving of the
    workers and of the accesses by other threads: if [engine_run_download] returns 0, the file
    at the destination has exactly the length of the resource and its bytes, and matches the
    digest when the request gave one. *)
Theorem engine_success_correct sql_ok env read_error stack sv max_block content clen head
    d fs t d' fs' t' :
  length stack = 64%nat -> 0 <= clen < 2 ^ 60 ->
  http_contract sv content clen -> 0 <= max_block <= STEAL_THRESHOLD ->
  (forall info, head = Some info -> size_ok clen info) -> resume_ok content clen d fs ->
  engine_run_download sql_ok env read_error stack sv max_block head (d, fs, t) 0 (d', fs', t') false ->
  delivered content clen d fs'.
Proof. exact (run_delivers sql_ok env read_error stack sv max_block content clen head d fs t d' fs' t' false). Qed.

(** ** A resumed download *)

(** Twelve bytes in two chunks; two bytes of the first are already there. *)
Definition demo_resumed : Download :=
  mkDownload 1 (str "http://h/f") (str "/d/f") 12 DOWNLOAD_ACTIVE 0 0 false false 2
    [2; 0; 0; 0; 0; 0; 0; 0] [mkChunk 0 5 2; mkChunk 6 11 0] false 0 0 None.

Definition demo_partial : regular :=
  reg_pwrite (reg_pwrite empty_reg 11 [0]) 0 [demo_content 0; demo_content 1].

Definition demo_state : EState :=
  (demo_resumed, <[str "/d/f" := NReg demo_partial]> demo_fs, Some empty_tables).

Definition demo_info : FileInfo := mkInfo 12 true.

Definition demo_prepared : prepared :=
  engine_prepare always_ok permissive (fun _ => None) (replicate 64 0) (Some demo_info) demo_state.

Definition demo_plan : list Range := [mkRange 0 5 2 false; mkRange 6 11 0 false].

Definition demo_engine : Engine :=
  mkEngine (d_of (prepared_st demo_prepared)) (Some empty_tables) (progress_array [0; 1]%nat) false.

Definition demo_pool_conf : PoolConf := mkConf permissive STEAL_THRESHOLD 2.

Definition demo_pool_start : PoolState :=
  pool_start (H := engine_listener always_ok) true (progress_slots (SplitListener := engine_listener always_ok) demo_engine)
    demo_engine (d_bytes_downloaded (e_d demo_engine)) demo_partial demo_plan.

Definition demo_moves : list (nat * option event) :=
  [(0%nat, Some (EvSpawn true)); (1%nat, Some (EvSpawn true)); (0%nat, None); (1%nat, None)]
  ++ demo_block 0 2 ++ demo_block 1 2 ++ demo_block 0 2
  ++ [(0%nat, Some (EvEnd true))] ++ demo_tau 0 6
  ++ demo_block 1 2 ++ demo_block 1 2 ++ [(1%nat, Some (EvEnd true))] ++ demo_tau 1 6.

Definition demo_pool_end : PoolState (L := Engine) :=
  default demo_pool_start
    (play (H := engine_listener always_ok) demo_pool_conf 2 (demo_serve 12) demo_moves demo_pool_start).

Definition demo_after_pool : EState :=
  (set_bytes (sh_total (fst demo_pool_end)) (e_d (sh_listener (fst demo_pool_end))),
   <[str "/d/f" := NReg (sh_file (fst demo_pool_end))]> (fs_of (prepared_st demo_prepared)),
   e_db (sh_listener (fst demo_pool_end))).

Definition demo_finished : EState := engine_flush always_ok demo_after_pool.

Lemma demo_contract clen : http_contract (demo_server clen) demo_content clen.
Proof. split; [apply demo_206|apply demo_200|by intros status n _]. Qed.

Lemma demo_reached :
  rtc (observed_step (H := engine_listener always_ok) (engine_client always_ok) demo_pool_conf
         (demo_server 12) 2) demo_pool_start demo_pool_end.
Proof.
  apply pool_observed. unfold demo_pool_end. destruct (play _ _ _ _ _) eqn:E.
  - exact (play_steps _ _ _ _ _ _ _ (demo_serves 12) E).
  - apply rtc_refl.
Qed.

Lemma demo_run :
  engine_run_download always_ok permissive (fun _ => None) (replicate 64 0) (demo_server 12) 2
    (Some demo_info) demo_state 0 demo_finished false.
Proof.
  eapply (er_parallel _ _ _ _ _ _ _ true _ demo_plan [0; 1]%nat (prepared_st demo_prepared) true
            demo_after_pool false demo_info).
  - reflexivity.
  - vm_compute. reflexivity.
  - change (true && bool_decide (1 < length demo_plan)%nat) with true.
    assert (e_ub (sh_listener (fst demo_pool_end)) = false) as <- by (vm_compute; reflexivity).
    assert (all_succeeded demo_pool_end = true) as <- by (vm_compute; reflexivity).
    unfold demo_after_pool.
    replace (prepared_st demo_prepared) with
      (e_d demo_engine, fs_of (prepared_st demo_prepared), Some empty_tables : db)
      by (vm_compute; reflexivity).
    eapply (wpr_joined _ _ _ _ _ _ _ (e_d demo_engine) (fs_of (prepared_st demo_prepared))
              (Some empty_tables) demo_partial demo_pool_end demo_engine).
    + vm_compute. reflexivity.
    + vm_compute. reflexivity.
    + reflexivity.
    + reflexivity.
    + exact demo_reached.
    + vm_compute. reflexivity.
  - vm_compute. reflexivity.
  - vm_compute. reflexivity.
Qed.

Lemma demo_run_parts :
  engine_run_download always_ok permissive (fun _ => None) (replicate 64 0) (demo_server 12) 2
    (Some demo_info) (demo_resumed, <[str "/d/f" := NReg demo_partial]> demo_fs, Some empty_tables) 0
    (fst (fst demo_finished), snd (fst demo_finished), snd demo_finished) false.
Proof. rewrite <- !surjective_pairing. exact demo_run. Qed.

Lemma demo_resume_ok : resume_ok demo_content 12 demo_resumed (<[str "/d/f" := NReg demo_partial]> demo_fs).
Proof.
  intros _. exists demo_partial. split; [vm_compute; reflexivity|].
  assert (forall c, c ∈ d_chunks demo_resumed -> c = mkChunk 0 5 2 \/ c = mkChunk 6 11 0) as Hc.
  { intros c [->|[->|?%not_elem_of_nil]%elem_of_cons]%elem_of_cons; auto; done. }
  split.
  - done.
  - simpl. lia.
  - intros c [-> | ->]%Hc; simpl; lia.
  - intros o Ho. destruct (decide (o <= 5)).
    + exists (mkChunk 0 5 2). split; [by left|simpl; lia].
    + exists (mkChunk 6 11 0). split; [by right; left|simpl; lia].
  - intros c o [-> | ->]%Hc; simpl; intros Ho _; [|lia].
    assert (o = 0 \/ o = 1) as [-> | ->] by lia; vm_compute; reflexivity.
Qed.

Lemma engine_confined_witness :
  str "/d" <> str "/d/f" /\
  (snd (fst demo_finished) !! str "/d" = (<[str "/d/f" := NReg demo_partial]> demo_fs) !! str "/d" \/
   ((<[str "/d/f" := NReg demo_partial]> demo_fs) !! str "/d" = None /\
    snd (fst demo_finished) !! str "/d" = Some NDir)).
Proof.
  assert (str "/d" <> str "/d/f") as Hne by discriminate. split; [exact Hne|]. revert Hne.
  apply (engine_confined always_ok permissive (fun _ => None) (replicate 64 0) (demo_server 12) 2
           (Some demo_info) demo_resumed (<[str "/d/f" := NReg demo_partial]> demo_fs) (Some empty_tables) 0
           (fst (fst demo_finished)) (snd (fst demo_finished)) (snd demo_finished) false).
  - intros info E. injection E as <-. simpl. lia.
  - exact demo_run_parts.
Defined.

Lemma engine_success_correct_witness : delivered demo_content 12 demo_resumed (snd (fst demo_finished)).
Proof.
  apply (engine_success_correct always_ok permissive (fun _ => None) (replicate 64 0) (demo_server 12) 2
           demo_content 12 (Some demo_info) demo_resumed (<[str "/d/f" := NReg demo_partial]> demo_fs)
           (Some empty_tables) (fst (fst demo_finished)) (snd (fst demo_finished)) (snd demo_finished)).
  - reflexivity.
  - lia.
  - exact (demo_contract 12).
  - unfold STEAL_THRESHOLD. lia.
  - intros info E. injection E as <-. left. reflexivity.
  - exact demo_resume_ok.
  - exact demo_run_parts.
Defined.
