(* ===== verification/EngineResume.v ===== *)
(** * A download can be killed and resumed

    While the workers of a fresh download run, its chunk table (in memory and
    in the database) follows the slots of the rebalance pool: the engine keeps
    the laws of [PoolMirror].  Hence in every reachable state, killed there or
    stopped, what the database holds is a [resume_point] (Engine.v).  A kill
    between the two database statements of a split loses the tail that is split
    off ([all_but_tail]). *)

From stdpp Require Import sorting.
From S2P Require Import Prelude Segmenter FileIo QueueManager Db Pool PoolInv PoolMirror Engine.

Section Resume.

Context (did : Z) (row : DbRow).
Hypothesis did_small : i32 did = did.

(** A row and a chunk that stand for a slot. *)
Definition row_ok (s : PoolSlot) (r : DbChunk) : Prop :=
  dc_start r = ps_start s /\ dc_end r = ps_live_end s - 1 /\
  0 <= dc_done r <= ps_write_pos s - ps_start s.

Definition chunk_ok (s : PoolSlot) (c : DownloadChunk) : Prop :=
  range_start c = ps_start s /\ range_end c = ps_live_end s - 1.

Definition slot_small (s : PoolSlot) : Prop :=
  0 <= ps_start s < ps_live_end s /\ ps_live_end s <= OFF_MAX /\
  ps_start s <= ps_write_pos s <= OFF_MAX.

Definition disjoint_slots (sl : list PoolSlot) : Prop :=
  forall j k s s', sl !! j = Some s -> sl !! k = Some s' -> j <> k ->
    ps_live_end s <= ps_start s' \/ ps_live_end s' <= ps_start s.

(** [live_of]: the live counters and the pointers to them. *)
Definition live_of (sl : list PoolSlot) (live : list Z) (ptrs : list slot_ptr) : Prop :=
  length live = 8%nat /\ length ptrs = 8%nat /\
  forall k s, sl !! k = Some s ->
    live !! k = Some (ps_write_pos s - ps_start s) /\
    ps_progress_slot s = PLive k /\ ptrs !! k = Some (PLive k).

Record chunks_mirror (sl : list PoolSlot) (e : Engine) : Prop := {
  cm_id : d_id (e_d e) = did;
  cm_len : Z.of_nat (length sl) <= MAX_WORKERS;
  cm_small : Forall slot_small sl;
  cm_disj : disjoint_slots sl;
  cm_chunks : Forall2 chunk_ok sl (d_chunks (e_d e));
  cm_live : live_of sl (d_chunk_live_bytes (e_d e)) (e_slots e);
  cm_rows : exists t, e_db e = Some t /\ find_row did t = Some row /\ Forall2 row_ok sl (rows_of did t);
  cm_ub : e_ub e = false;
}.

Lemma slot_small_at sl k s : Forall slot_small sl -> sl !! k = Some s -> slot_small s.
Proof. intros H Hk. by apply (proj1 (Forall_lookup _ _) H k). Qed.

Lemma start_unique sl j k s s' :
  Forall slot_small sl -> disjoint_slots sl -> sl !! j = Some s -> sl !! k = Some s' ->
  ps_start s = ps_start s' -> j = k.
Proof.
  intros Hs Hd Hj Hk E. destruct (decide (j = k)) as [|Hne]; [done|].
  pose proof (slot_small_at _ _ _ Hs Hj) as (? & _). pose proof (slot_small_at _ _ _ Hs Hk) as (? & _).
  destruct (Hd _ _ _ _ Hj Hk Hne); lia.
Qed.

(** An UPDATE by [range_start] reaches the row of one slot. *)
Lemma rows_update sl rows v s s' g :
  Forall slot_small sl -> disjoint_slots sl -> Forall2 row_ok sl rows -> sl !! v = Some s ->
  (forall r, row_ok s r -> row_ok s' (g r)) ->
  Forall2 row_ok (<[v := s']> sl) (map (fun r => if dc_start r =? ps_start s then g r else r) rows).
Proof.
  intros Hs Hd Hr Hv Hg. apply Forall2_same_length_lookup_2.
  { rewrite length_insert, length_map. by eapply Forall2_length. }
  intros i x y Hx Hy. apply list_lookup_fmap_Some in Hy as (r & -> & Hi).
  apply insert_Some_cases in Hx as [[<- ->]|[Hne Hx]].
  - pose proof (Forall2_lookup_lr _ _ _ _ _ _ Hr Hv Hi) as Hok. destruct Hok as (E & ? & ?).
    rewrite E, Z.eqb_refl. by apply Hg.
  - pose proof (Forall2_lookup_lr _ _ _ _ _ _ Hr Hx Hi) as Hok. pose proof Hok as (E & _).
    destruct (Z.eqb_spec (dc_start r) (ps_start s)) as [E'|]; [|done].
    exfalso. apply Hne. eapply start_unique; eauto. congruence.
Qed.

Lemma shrink_chunk_at a ne cs v c :
  cs !! v = Some c -> range_start c = a ->
  (forall j c', cs !! j = Some c' -> range_start c' = a -> j = v) ->
  shrink_chunk a ne cs = (true, <[v := mkChunk a ne (bytes_done c)]> cs).
Proof.
  revert v. induction cs as [|x cs IH]; intros v Hv Ha Hu; [done|]. cbn [shrink_chunk].
  destruct (Z.eqb_spec (range_start x) a) as [E|Hne].
  - rewrite <- (Hu 0%nat x eq_refl E) in *. simpl in Hv. injection Hv as ->. simpl. by rewrite Ha.
  - destruct v as [|v]; [simpl in Hv; congruence|]. simpl in Hv.
    rewrite (IH v Hv Ha); [done|]. intros j c' Hj E. by injection (Hu (S j) c' Hj E).
Qed.

Lemma disjoint_same_bounds sl k s s' :
  disjoint_slots sl -> sl !! k = Some s -> ps_start s' = ps_start s -> ps_live_end s' = ps_live_end s ->
  disjoint_slots (<[k := s']> sl).
Proof.
  intros Hd Hk E1 E2 i j x y Hx Hy Hne.
  apply insert_Some_cases in Hx as [[-> ->]|[? Hx]], Hy as [[-> ->]|[? Hy]]; try done;
    rewrite ?E1, ?E2; by eapply Hd.
Qed.

Lemma disjoint_split sl v s split p :
  disjoint_slots sl -> sl !! v = Some s -> ps_start s < split < ps_live_end s ->
  disjoint_slots (<[v := set_live_end split s]> sl ++ [mkSlot split split (ps_live_end s) true false p]).
Proof.
  intros Hd Hv Hsp i j x y Hx Hy Hne.
  assert (forall k z, (<[v := set_live_end split s]> sl ++ [mkSlot split split (ps_live_end s) true false p]) !! k
            = Some z -> (k = v /\ z = set_live_end split s) \/ (k <> v /\ sl !! k = Some z) \/
              (k = length sl /\ z = mkSlot split split (ps_live_end s) true false p)) as Hcase.
  { intros k z [Hz|[Hl Hz]]%lookup_app_Some.
    - apply insert_Some_cases in Hz as [[-> ->]|[? ?]]; auto.
    - rewrite length_insert in *. apply list_lookup_singleton_Some in Hz as [E <-].
      right. right. split; [lia|done]. }
  assert (v < length sl)%nat by by eapply lookup_lt_Some.
  destruct (Hcase _ _ Hx) as [[-> ->]|[[? Hx']|[-> ->]]], (Hcase _ _ Hy) as [[-> ->]|[[? Hy']|[-> ->]]];
    try done; simpl; try lia.
  - destruct (Hd v j s y Hv Hy'); [done|lia|lia].
  - destruct (Hd i v x s Hx' Hv); [done|lia|lia].
  - by eapply Hd.
  - destruct (Hd i v x s Hx' Hv); [done|lia|lia].
  - destruct (Hd v j s y Hv Hy'); [done|lia|lia].
Qed.

(** ** The laws of [PoolMirror] *)

#[local] Existing Instance engine_listener.

Lemma live_of_same sl live ptrs k s s' :
  live_of sl live ptrs -> sl !! k = Some s ->
  ps_write_pos s' - ps_start s' = ps_write_pos s - ps_start s ->
  ps_progress_slot s' = ps_progress_slot s -> live_of (<[k := s']> sl) live ptrs.
Proof.
  intros (H1 & H2 & H3) Hk E1 E2. split; [done|]. split; [done|].
  intros j x [[-> ->]|[? Hx]]%insert_Some_cases; [|by apply H3].
  rewrite E1, E2. by apply H3.
Qed.

Lemma live_of_add sl live ptrs k s n :
  live_of sl live ptrs -> sl !! k = Some s -> slot_small s -> 0 <= n ->
  ps_write_pos s + n <= OFF_MAX ->
  live_of (<[k := add_write_pos n s]> sl) (alter (fun x => u64 (x + n)) k live) ptrs.
Proof.
  intros (H1 & H2 & H3) Hk (Hs & He & Hw) Hn Hb. split; [by rewrite length_alter|]. split; [done|].
  intros j x [[-> ->]|[Hne Hx]]%insert_Some_cases.
  - destruct (H3 _ _ Hk) as (El & Ep & Eq). split; [|by split].
    rewrite list_lookup_alter_eq, El. simpl. rewrite !u64_small by olia. f_equal. lia.
  - destruct (H3 _ _ Hx) as (El & Ep & Eq). by rewrite list_lookup_alter_ne.
Qed.

Lemma live_of_split sl live ptrs v s split :
  live_of sl live ptrs -> sl !! v = Some s -> (length sl < 8)%nat ->
  live_of (<[v := set_live_end split s]> sl
             ++ [mkSlot split split (ps_live_end s) true false (PLive (length sl))])
    (<[length sl := 0]> live) (<[length sl := PLive (length sl)]> ptrs).
Proof.
  intros (H1 & H2 & H3) Hv Hlen. split; [by rewrite length_insert|].
  split; [by rewrite length_insert|]. intros j x [Hx|[Hl Hx]]%lookup_app_Some.
  - assert (j < length sl)%nat by (apply lookup_lt_Some in Hx; by rewrite length_insert in Hx).
    rewrite !list_lookup_insert_ne by lia.
    apply insert_Some_cases in Hx as [[-> ->]|[? Hx]]; [|by apply H3]. simpl. by apply H3.
  - rewrite length_insert in *. apply list_lookup_singleton_Some in Hx as [E <-].
    replace j with (length sl) by lia. rewrite !list_lookup_insert_eq by lia. simpl.
    split; [f_equal; lia|done].
Qed.

Lemma chunk_ok_insert sl cs k s s' :
  Forall2 chunk_ok sl cs -> sl !! k = Some s -> ps_start s' = ps_start s ->
  ps_live_end s' = ps_live_end s -> Forall2 chunk_ok (<[k := s']> sl) cs.
Proof.
  intros H Hk E1 E2. destruct (Forall2_lookup_l _ _ _ _ _ H Hk) as (c & Hc & Hok).
  rewrite <- (list_insert_id cs k c Hc). apply Forall2_insert; [done|].
  unfold chunk_ok in *. by rewrite E1, E2.
Qed.

Lemma row_ok_insert sl rows k s s' :
  Forall2 row_ok sl rows -> sl !! k = Some s -> (forall r, row_ok s r -> row_ok s' r) ->
  Forall2 row_ok (<[k := s']> sl) rows.
Proof.
  intros H Hk Hr. destruct (Forall2_lookup_l _ _ _ _ _ H Hk) as (r & Hrow & Hok).
  rewrite <- (list_insert_id rows k r Hrow). apply Forall2_insert; auto.
Qed.

Lemma mirror_in_place sl e k s s' live :
  chunks_mirror sl e -> sl !! k = Some s ->
  ps_start s' = ps_start s -> ps_live_end s' = ps_live_end s ->
  ps_write_pos s <= ps_write_pos s' <= OFF_MAX ->
  live_of (<[k := s']> sl) live (e_slots e) ->
  chunks_mirror (<[k := s']> sl) (mkEngine (set_live live (e_d e)) (e_db e) (e_slots e) (e_ub e)).
Proof.
  intros [] Hk E1 E2 Hw Hl. split; simpl; try done.
  - by rewrite length_insert.
  - apply Forall_insert; [done|]. pose proof (slot_small_at _ _ _ cm_small0 Hk) as (? & ? & ?).
    unfold slot_small. rewrite E1, E2. lia.
  - by eapply disjoint_same_bounds.
  - by eapply chunk_ok_insert.
  - destruct cm_rows0 as (t & Ht & Hr & Hrows). exists t. split; [done|]. split; [done|].
    eapply row_ok_insert; [done|done|]. intros x (? & ? & ?). unfold row_ok. rewrite E1, E2. lia.
Qed.

Lemma find_row_chunks l cs cs' : find_row did (mkTables l cs) = find_row did (mkTables l cs').
Proof. done. Qed.

(** After the first of the two database statements. *)
Lemma shrink_victim_spec sl e v s split :
  chunks_mirror sl e -> sl !! v = Some s -> ps_start s < split < ps_live_end s ->
  exists c t, sl !! v = Some s /\ d_chunks (e_d e) !! v = Some c /\ range_start c = ps_start s /\
    shrink_victim always_ok e (ps_start s) split =
      mkEngine (set_chunks (<[v := mkChunk (ps_start s) (split - 1) (bytes_done c)]> (d_chunks (e_d e))) (e_d e))
        (Some t) (e_slots e) (e_ub e) /\
    find_row did t = Some row /\ Forall2 row_ok (<[v := set_live_end split s]> sl) (rows_of did t).
Proof.
  intros [] Hv Hsp. pose proof (slot_small_at _ _ _ cm_small0 Hv) as (Hs1 & Hs2 & Hs3).
  destruct (Forall2_lookup_l _ _ _ _ _ cm_chunks0 Hv) as (c & Hc & Hc1 & Hc2).
  destruct cm_rows0 as (t & Ht & Hr & Hrows).
  set (t1 := update_chunks did (ps_start s) (set_chunk_end (split - 1)) (t_chunks t)).
  exists c, (mkTables (t_downloads t) t1). split; [done|]. split; [done|]. split; [done|].
  split; [|split; [exact Hr|]].
  - unfold shrink_victim. rewrite (shrink_chunk_at _ _ _ v c); [|done|done|].
    2:{ intros j c' Hj E. destruct (Forall2_lookup_r _ _ _ _ _ cm_chunks0 Hj) as (s' & Hs' & E1 & _).
        eapply start_unique; eauto. congruence. }
    rewrite Ht, cm_id0, !u64_small by olia. f_equal.
    unfold db_update_chunk_range, db_exec. by rewrite did_small, !i64_small by olia.
  - unfold rows_of at 1. cbn [t_chunks]. unfold t1. rewrite rows_of_update by done.
    apply (rows_update _ _ _ s); try done. intros x (? & ? & ?). unfold row_ok. simpl. lia.
Qed.

Lemma mirror_on_split sl e v s split :
  chunks_mirror sl e -> sl !! v = Some s -> Z.of_nat (length sl) < MAX_WORKERS ->
  ps_start s < split < ps_live_end s ->
  let e' := on_rebalance_split always_ok e (ps_start s) split (ps_live_end s) in
  chunks_mirror (<[v := set_live_end split s]> sl
    ++ [mkSlot split split (ps_live_end s) true false (default PIndet (e_slots e' !! length sl))]) e'.
Proof.
  intros HJ Hv Hlen Hsp. destruct (shrink_victim_spec _ _ _ _ _ HJ Hv Hsp)
    as (c & t & _ & Hc & Hc1 & Esh & Hr & Hrows1). destruct HJ.
  pose proof (slot_small_at _ _ _ cm_small0 Hv) as (Hs1 & Hs2 & Hs3).
  pose proof (Forall2_length _ _ _ cm_chunks0) as Hcl. pose proof cm_live0 as (Hl1 & Hl2 & _).
  assert (length sl < 8)%nat as Hl8 by (unfold MAX_WORKERS in *; lia).
  cbv zeta. unfold on_rebalance_split. rewrite Esh. unfold append_tail.
  cbn [e_d e_db e_slots e_ub d_chunks d_id d_chunk_live_bytes set_chunks set_transfer].
  rewrite length_insert, <- Hcl. rewrite (proj2 (Z.leb_gt _ _)) by (unfold QM_MAX_CHUNKS; lia).
  cbn [e_slots]. rewrite list_lookup_insert_eq by lia. cbn [default id].
  rewrite !u64_small by olia.
  assert (sql_apply (InsertChunk did split (ps_live_end s - 1)) t =
    Some (mkTables (t_downloads t) (t_chunks t ++ [mkDbChunk did split (ps_live_end s - 1) 0]))) as Hins.
  { simpl. by rewrite (proj2 (has_row_find did t)) by eauto. }
  split; simpl; try done.
  - rewrite length_app, length_insert. simpl. unfold MAX_WORKERS in *. lia.
  - apply Forall_app. split; [apply Forall_insert; [done|]|apply Forall_singleton];
      unfold slot_small; simpl; lia.
  - by apply disjoint_split.
  - apply Forall2_app; [apply Forall2_insert; [done|]; unfold chunk_ok; by simpl|repeat constructor].
  - by apply live_of_split.
  - rewrite cm_id0. unfold db_insert_chunk, db_exec. cbn [always_ok].
    rewrite did_small, !i64_small, (proj2 (has_row_find did t)) by (eauto || olia). cbn [snd].
    eexists. split; [done|]. split; [exact Hr|].
    apply rows_of_insert_chunk in Hins as [-> _]. apply Forall2_app; [done|].
    repeat constructor; simpl; lia.
Qed.

#[global] Instance engine_mirror :
  PoolMirror (H := engine_listener always_ok) Engine chunks_mirror.
Proof.
  split.
  - intros sl e k s n HJ Hk Hwf Hn Hb. pose proof HJ as []. pose proof (slot_small_at _ _ _ cm_small0 Hk) as Hs.
    destruct cm_live0 as (? & ? & Hlive). destruct (Hlive _ _ Hk) as (_ & Ep & _). rewrite Ep.
    pose proof Hs as (? & ? & ?). cbn [add_progress engine_listener engine_add_progress].
    eapply mirror_in_place; try done; [|by apply live_of_add]. unfold add_write_pos.
    cbn [ps_write_pos]. rewrite u64_small by olia. lia.
  - intros sl e []. by split.
  - intros sl e k s HJ Hk. pose proof HJ as [].
    pose proof (slot_small_at _ _ _ cm_small0 Hk) as (? & ? & ?).
    pose proof (mirror_in_place sl e k s (set_claim false true s) (d_chunk_live_bytes (e_d e)) HJ Hk) as Hm.
    assert (mkEngine (set_live (d_chunk_live_bytes (e_d e)) (e_d e)) (e_db e) (e_slots e) (e_ub e) = e) as Ee.
    { by destruct e as [[] ? ? ?]. }
    rewrite Ee in Hm. apply Hm; try done; [simpl; lia|]. by eapply live_of_same.
  - intros sl e v s split HJ Hv _ Hlen Hsp. by apply mirror_on_split.
Qed.

(** The scheduler's ticks and the clients' flags keep it too. *)
Lemma mirror_client sl e e' : chunks_mirror sl e -> engine_client always_ok e e' -> chunks_mirror sl e'.
Proof.
  intros HJ Hc. pose proof HJ as []. destruct Hc as [e i c live Hch Hli|e cancel pause]; [|by split].
  split; try done. simpl.
  destruct (Forall2_lookup_r _ _ _ _ _ cm_chunks0 Hch) as (s & Hs & E1 & E2).
  destruct cm_live0 as (_ & _ & Hlive). destruct (Hlive _ _ Hs) as (El & _). rewrite Hli in El.
  injection El as ->. pose proof (slot_small_at _ _ _ cm_small0 Hs) as (? & ? & ?).
  destruct cm_rows0 as (t & Ht & Hr & Hrows).
  rewrite Ht, cm_id0. unfold db_update_chunk_progress, db_exec.
  cbn [always_ok sql_apply snd]. rewrite did_small, E1, !i64_small by olia.
  eexists. split; [done|]. split; [exact Hr|].
  unfold rows_of at 1. cbn [t_chunks]. rewrite rows_of_update by done.
  rewrite <- (list_insert_id sl i s Hs) at 1. apply (rows_update _ _ _ s); try done.
  intros x (? & ? & ?). unfold row_ok. simpl. lia.
Qed.

(** ** The fresh plan *)

Lemma persist_plan_store (rs : list Range) (t : db) :
  persist_plan always_ok did rs t = store_chunks did (map (fun r => mkChunk (rg_start r) (rg_end r) 0) rs) t.
Proof. revert t. induction rs as [|r rs IH]; intros t; [done|]. by simpl. Qed.

Lemma fresh_plan_mirror ranges d t ptrs total :
  d_id d = did -> tiles 0 total ranges -> total <= OFF_MAX -> Forall fresh_range ranges ->
  Z.of_nat (length ranges) <= MAX_WORKERS -> find_row did t = Some row -> rows_of did t = [] ->
  d_chunks d = plan_chunks ranges -> length (d_chunk_live_bytes d) = 8%nat ->
  (forall k, (k < length ranges)%nat -> d_chunk_live_bytes d !! k = Some 0) ->
  length ptrs = 8%nat -> (forall k, (k < length ranges)%nat -> ptrs !! k = Some (PLive k)) ->
  let e := mkEngine d (persist_plan always_ok did (take (Z.to_nat QM_MAX_CHUNKS) ranges) (Some t))
             ptrs false in
  chunks_mirror (rebalance_pool_create (H := engine_listener always_ok) e ranges) e.
Proof.
  intros Hid Htl Hmax Hfr Hlen Hrow Hnone Hch Hl8 Hl0 Hp8 Hp. cbv zeta.
  set (e := mkEngine _ _ _ _).
  assert (forall k r, ranges !! k = Some r ->
    rebalance_pool_create (H := engine_listener always_ok) e ranges !! k =
      Some (mkSlot (rg_start r) (rg_start r) (rg_end r + 1) true false (PLive k)) /\
    0 <= rg_start r <= rg_end r /\ rg_end r < total) as Hslot.
  { intros k r Hk. rewrite (create_lookup_2 _ _ _ r) by done.
    assert (r ∈ ranges) as Hin by by eapply list_elem_of_lookup_2.
    pose proof (tiles_in_range _ _ _ _ Htl Hin). rewrite Forall_forall in Hfr.
    destruct (Hfr r Hin) as [E _]. unfold range_off. rewrite E, Z.add_0_r, !u64_small by olia.
    cbn [progress_slots engine_listener e e_slots]. rewrite Hp by by eapply lookup_lt_Some. done. }
  assert (forall k s, rebalance_pool_create (H := engine_listener always_ok) e ranges !! k = Some s ->
    exists r, ranges !! k = Some r /\
      s = mkSlot (rg_start r) (rg_start r) (rg_end r + 1) true false (PLive k) /\
      0 <= rg_start r <= rg_end r /\ rg_end r < total) as Hinv.
  { intros k s Hk. apply create_lookup in Hk as Hk'. destruct Hk' as (r & Hr & _).
    destruct (Hslot k r Hr) as [E ?]. exists r. split; [done|]. split; [congruence|done]. }
  assert (length (rebalance_pool_create (H := engine_listener always_ok) e ranges) = length ranges) as Hlsl.
  { unfold rebalance_pool_create. rewrite length_imap, length_take. unfold MAX_WORKERS in *. lia. }
  assert (take (Z.to_nat QM_MAX_CHUNKS) ranges = ranges) as Htake.
  { apply take_ge. unfold QM_MAX_CHUNKS, MAX_WORKERS in *. lia. }
  split; try done.
  - by rewrite Hlsl.
  - apply Forall_lookup. intros k s Hk. destruct (Hinv k s Hk) as (r & _ & -> & ? & ?).
    unfold slot_small. simpl. lia.
  - intros j k s s' Hj Hk Hne. destruct (Hinv j s Hj) as (r & Hr & -> & _), (Hinv k s' Hk) as (r' & Hr' & -> & _).
    simpl. by apply (tiles_disjoint 0 total ranges j k).
  - simpl. rewrite Hch. unfold plan_chunks. rewrite Htake. apply Forall2_same_length_lookup_2.
    { by rewrite Hlsl, length_map. }
    intros k s c Hk Hc. apply list_lookup_fmap_Some in Hc as (r & -> & Hr).
    destruct (Hinv k s Hk) as (r' & Hr' & -> & _). rewrite Hr in Hr'. injection Hr' as <-.
    split; simpl; [done|lia].
  - split; [done|]. split; [done|]. intros k s Hk. destruct (Hinv k s Hk) as (r & Hr & -> & _).
    apply lookup_lt_Some in Hr. simpl. rewrite Hl0, Hp by done. split; [f_equal; lia|done].
  - simpl. rewrite Htake, persist_plan_store.
    assert (find_row (i32 did) t = Some row) as Hrow' by (by rewrite did_small).
    destruct (store_chunks_rows did (map (fun r => mkChunk (rg_start r) (rg_end r) 0) ranges) t row Hrow')
      as (t' & -> & Hd & Hrs). rewrite did_small in Hrs. exists t'. split; [done|].
    split; [unfold find_row in *; by rewrite Hd|]. rewrite Hrs, Hnone. cbn [app].
    apply Forall2_same_length_lookup_2; [by rewrite Hlsl, !length_map|].
    intros k s c Hk Hc. rewrite map_map in Hc. apply list_lookup_fmap_Some in Hc as (r & -> & Hr).
    destruct (Hinv k s Hk) as (r' & Hr' & -> & ? & ?). rewrite Hr in Hr'. injection Hr' as <-.
    unfold row_ok, row_of_chunk. simpl. rewrite !i64_small by olia. lia.
Qed.

(** A table of chunks that stands for the slots. *)
Lemma slots_resumable content clen sl d f :
  d_total_size d = clen -> 0 < clen -> (length (d_chunks d) <= 8)%nat -> Forall slot_small sl ->
  (forall o, 0 <= o < clen <-> exists k s, sl !! k = Some s /\ ps_start s <= o < ps_live_end s) ->
  (forall k s o, sl !! k = Some s -> ps_start s <= o < ps_write_pos s -> reg_byte f o = content o) ->
  (forall c, c ∈ d_chunks d -> exists k s, sl !! k = Some s /\ chunk_ok s c /\
     0 <= bytes_done c <= ps_write_pos s - ps_start s) ->
  (forall k s, sl !! k = Some s -> exists c, c ∈ d_chunks d /\ chunk_ok s c) ->
  resume_point content clen d f.
Proof.
  intros Ht Hpos Hlen Hsm Hreg Hdata Hc Hs. split.
  - done.
  - done.
  - intros c Hin. destruct (Hc c Hin) as (k & s & Hk & [-> ->] & ? & _).
    pose proof (slot_small_at _ _ _ Hsm Hk) as (? & _).
    assert (0 <= ps_live_end s - 1 < clen); [|lia]. apply Hreg. exists k, s. split; [done|lia].
  - intros o Ho. apply Hreg in Ho as (k & s & Hk & ?). destruct (Hs k s Hk) as (c & Hin & [E1 E2]).
    exists c. split; [done|lia].
  - intros c o Hin Ho _. destruct (Hc c Hin) as (k & s & Hk & [E _] & ?).
    apply (Hdata k s); [done|lia].
Qed.

Lemma flush_loop_chunks i cs : forall live x,
  fst (flush_loop always_ok i cs live x) =
    zip_with (fun c b => mkChunk (range_start c) (range_end c) b) cs live ++ drop (length live) cs.
Proof.
  induction cs as [|c cs IH]; intros [|b live] x; try done. cbn [flush_loop zip_with app length drop].
  set (x' := snd _). specialize (IH live x'). destruct (flush_loop _ _ _ _ _) as [cs' t'].
  simpl in *. by rewrite IH.
Qed.

Lemma chunk_of_row_ok s r : slot_small s -> row_ok s r ->
  chunk_ok s (chunk_of_row r) /\ 0 <= bytes_done (chunk_of_row r) <= ps_write_pos s - ps_start s.
Proof.
  intros (? & ? & ?) (E1 & E2 & ?). unfold chunk_ok, chunk_of_row. simpl.
  rewrite E1, E2, !u64_small by olia. lia.
Qed.

Lemma load_chunks_elem t c : (length (rows_of did t) <= 8)%nat ->
  c ∈ db_load_chunks did 8 (Some t) <-> exists r, r ∈ rows_of did t /\ c = chunk_of_row r.
Proof.
  intros Hl. unfold db_load_chunks, select_chunks. rewrite did_small. fold (rows_of did t).
  pose proof (merge_sort_Permutation (fun a b => dc_start a <= dc_start b) (rows_of did t)) as Hp.
  rewrite take_ge by (rewrite length_map, Hp; lia). rewrite list_elem_of_fmap.
  split; intros (r & H1 & H2); exists r; [rewrite Hp in H2|rewrite Hp]; done.
Qed.

(** The chunks the daemon restores from rows that stand for slots. *)
Lemma restored_chunks sl t :
  0 <= did < 2 ^ 31 -> row_id row = did -> (length sl <= 8)%nat -> Forall slot_small sl ->
  Forall2 row_ok sl (rows_of did t) ->
  let cs := d_chunks (restore_row row (Some t)) in
  (length cs <= 8)%nat /\
  (forall c, c ∈ cs -> exists k s, sl !! k = Some s /\ chunk_ok s c /\
     0 <= bytes_done c <= ps_write_pos s - ps_start s) /\
  (forall k s, sl !! k = Some s -> exists c, c ∈ cs /\ chunk_ok s c).
Proof.
  intros Hdid Hrid Hl8 Hsm Hrows. cbv zeta. pose proof (Forall2_length _ _ _ Hrows) as Hrl.
  assert (u32 (row_id row) = did) as Eid by (rewrite Hrid; apply u32_small; zlia).
  assert (d_chunks (restore_row row (Some t)) = db_load_chunks did 8 (Some t)) as ->.
  { unfold restore_row. by rewrite Eid. }
  split; [unfold db_load_chunks; rewrite length_take; lia|]. split.
  - intros c (r & Hin & ->)%load_chunks_elem; [|lia]. apply list_elem_of_lookup in Hin as [k Hk].
    destruct (Forall2_lookup_r _ _ _ _ _ Hrows Hk) as (s & Hs & Hok). exists k, s. split; [done|].
    apply chunk_of_row_ok; [by eapply slot_small_at|done].
  - intros k s Hk. destruct (Forall2_lookup_l _ _ _ _ _ Hrows Hk) as (r & Hin & Hok).
    exists (chunk_of_row r). split; [apply load_chunks_elem; [lia|]; exists r; split; [|done];
      by eapply list_elem_of_lookup_2|]. apply chunk_of_row_ok; [by eapply slot_small_at|done].
Qed.

(** What the database holds is a resume point. *)
Lemma mirror_resumable content clen sl e f t file0 :
  0 <= did < 2 ^ 31 -> row_id row = did -> row_total_size row = clen -> 0 < clen < 2 ^ 60 ->
  chunks_mirror sl e -> e_db e = Some t ->
  (forall o, 0 <= o < clen <-> exists k s, sl !! k = Some s /\ ps_start s <= o < ps_live_end s) ->
  (forall k s o, sl !! k = Some s -> ps_start s <= o < ps_write_pos s -> reg_byte f o = content o) ->
  find_row did t = Some row /\ resume_point content clen (restore_row row (Some t)) f /\
  resume_point content clen (d_of (engine_flush always_ok (set_total clen (e_d e), file0, e_db e))) f.
Proof.
  intros Hdid Hrid Htot Hclen HJ Ht Hreg Hdata. pose proof HJ as [].
  assert (length sl <= 8)%nat as Hl8 by (unfold MAX_WORKERS in *; lia).
  destruct cm_rows0 as (t' & Ht' & Hr & Hrows). rewrite Ht in Ht'. injection Ht' as <-.
  pose proof (Forall2_length _ _ _ cm_chunks0) as Hcl. split; [done|]. split.
  - destruct (restored_chunks sl t) as (H1 & H2 & H3); try done.
    apply (slots_resumable _ _ sl); try done; [|lia].
    unfold restore_row. simpl. rewrite Htot. apply u64_small. zlia.
  - destruct cm_live0 as (Hl & _ & Hlive). unfold engine_flush.
    cbn [set_total set_transfer d_id d_chunks d_chunk_live_bytes].
    pose proof (flush_loop_chunks (d_id (e_d e)) (d_chunks (e_d e)) (d_chunk_live_bytes (e_d e)) (e_db e)) as Hfl.
    destruct (flush_loop _ _ _ _ _) as [cs t2]. simpl in Hfl. rewrite drop_ge, app_nil_r in Hfl by lia.
    assert (forall k c, cs !! k = Some c -> exists s, sl !! k = Some s /\ chunk_ok s c /\
              0 <= bytes_done c <= ps_write_pos s - ps_start s) as Hof.
    { intros k c Hk. rewrite Hfl in Hk. apply lookup_zip_with_Some in Hk as (c0 & b & -> & Hc0 & Hb).
      destruct (Forall2_lookup_r _ _ _ _ _ cm_chunks0 Hc0) as (s & Hs & Hok). exists s.
      split; [done|]. split; [done|]. destruct (Hlive _ _ Hs) as (El & _). rewrite Hb in El.
      injection El as ->. pose proof (slot_small_at _ _ _ cm_small0 Hs) as (? & ? & ?). simpl. lia. }
    assert (length cs = length sl) as Hcs.
    { rewrite Hfl, length_zip_with. lia. }
    unfold d_of. apply (slots_resumable _ _ sl); simpl; try done; [lia|lia| |].
    + intros c Hin. apply list_elem_of_lookup in Hin as [k Hk]. exists k. by apply Hof.
    + intros k s Hk. destruct (lookup_lt_is_Some_2 cs k) as [c Hc].
      { rewrite Hcs. by eapply lookup_lt_Some. }
      destruct (Hof k c Hc) as (s' & Hs' & Hok & _). exists c.
      split; [by eapply list_elem_of_lookup_2|congruence].
Qed.

(** Restored between the two statements of a split at [sp] of a victim that
    ended at [le], the chunks cover all of the resource but the tail. *)
Record all_but_tail (content : Z -> Z) (clen sp le : Z) (d : Download) (f : regular) : Prop := {
  at_total : d_total_size d = clen;
  at_tail : 0 < sp < le /\ le <= clen;
  at_wf : forall c, c ∈ d_chunks d ->
    0 <= range_start c <= range_end c /\ range_end c < clen /\ 0 <= bytes_done c;
  at_cover : forall o, 0 <= o < clen ->
    (exists c, c ∈ d_chunks d /\ range_start c <= o <= range_end c) <-> ~ sp <= o < le;
  at_data : forall c o, c ∈ d_chunks d -> range_start c <= o < range_start c + bytes_done c ->
    o <= range_end c -> reg_byte f o = content o;
}.

Lemma shrunk_region sl v s split clen :
  disjoint_slots sl -> sl !! v = Some s -> ps_start s < split < ps_live_end s ->
  (forall o, 0 <= o < clen <-> exists k s, sl !! k = Some s /\ ps_start s <= o < ps_live_end s) ->
  forall o, 0 <= o < clen /\ ~ split <= o < ps_live_end s <->
    exists k x, <[v := set_live_end split s]> sl !! k = Some x /\ ps_start x <= o < ps_live_end x.
Proof.
  intros Hd Hv Hsp Hreg o. split.
  - intros [Ho Hn]. apply Hreg in Ho as (k & x & Hk & Hx). destruct (decide (k = v)) as [->|].
    + assert (x = s) as -> by congruence. exists v, (set_live_end split s).
      rewrite list_lookup_insert_eq by (by eapply lookup_lt_Some). simpl. split; [done|lia].
    + exists k, x. by rewrite list_lookup_insert_ne.
  - intros (k & x & [[-> ->]|[Hne Hk]]%insert_Some_cases & Hx).
    + simpl in Hx. split; [apply Hreg; exists v, s; split; [done|lia]|lia].
    + split; [apply Hreg; by exists k, x|]. destruct (Hd k v x s Hk Hv Hne); lia.
Qed.

Lemma killed_in_split content clen sl e f v s split :
  0 <= did < 2 ^ 31 -> row_id row = did -> row_total_size row = clen -> 0 < clen < 2 ^ 60 ->
  chunks_mirror sl e -> sl !! v = Some s -> ps_start s < split < ps_live_end s ->
  (forall o, 0 <= o < clen <-> exists k s, sl !! k = Some s /\ ps_start s <= o < ps_live_end s) ->
  (forall k s o, sl !! k = Some s -> ps_start s <= o < ps_write_pos s -> reg_byte f o = content o) ->
  exists t, e_db (shrink_victim always_ok e (ps_start s) split) = Some t /\ find_row did t = Some row /\
    all_but_tail content clen split (ps_live_end s) (restore_row row (Some t)) f.
Proof.
  intros Hdid Hrid Htot Hclen HJ Hv Hsp Hreg Hdata.
  destruct (shrink_victim_spec _ _ _ _ _ HJ Hv Hsp) as (c & t & _ & _ & _ & -> & Hr & Hrows).
  exists t. split; [done|]. split; [done|]. destruct HJ.
  pose proof (slot_small_at _ _ _ cm_small0 Hv) as (Hs1 & Hs2 & Hs3).
  set (sl2 := <[v := set_live_end split s]> sl) in *.
  assert (Forall slot_small sl2) as Hsm2 by (apply Forall_insert; [done|]; unfold slot_small; simpl; lia).
  assert (length sl2 <= 8)%nat as Hl8 by (unfold sl2; rewrite length_insert; unfold MAX_WORKERS in *; lia).
  destruct (restored_chunks sl2 t) as (_ & Hc & Hs); try done.
  pose proof (shrunk_region sl v s split clen cm_disj0 Hv Hsp Hreg) as Hreg2. fold sl2 in Hreg2.
  assert (forall k x, sl2 !! k = Some x -> exists y, sl !! k = Some y /\ ps_start x = ps_start y /\
            ps_write_pos x = ps_write_pos y) as Hold.
  { intros k x [[-> ->]|[_ Hk]]%insert_Some_cases; [by exists s|by exists x]. }
  split.
  - unfold restore_row. simpl. rewrite Htot. apply u64_small. zlia.
  - assert (0 <= ps_live_end s - 1 < clen); [|lia]. apply Hreg. exists v, s. split; [done|lia].
  - intros x Hin. destruct (Hc x Hin) as (k & y & Hk & [-> ->] & ? & _).
    pose proof (slot_small_at _ _ _ Hsm2 Hk) as (? & _).
    assert (0 <= ps_live_end y - 1 < clen); [|lia]. apply Hreg2. exists k, y. split; [done|lia].
  - intros o Ho. transitivity (0 <= o < clen /\ ~ split <= o < ps_live_end s); [|tauto].
    rewrite Hreg2. split.
    + intros (x & Hin & Hx). destruct (Hc x Hin) as (k & y & Hk & [E1 E2] & _). exists k, y. split; [done|lia].
    + intros (k & y & Hk & Hy). destruct (Hs k y Hk) as (x & Hin & [E1 E2]). exists x. split; [done|lia].
  - intros x o Hin Ho _. destruct (Hc x Hin) as (k & y & Hk & [E _] & ?).
    destruct (Hold k y Hk) as (z & Hz & E1 & E2). apply (Hdata k z); [done|lia].
Qed.

End Resume.

(** The state a fresh run hands to the pool. *)
Lemma fresh_prepared env read_error stack info d fs t ranges slots d1 fs1 t1 :
  d_chunks d = [] ->
  engine_prepare always_ok env read_error stack (Some info) (d, fs, Some t) = Go ranges slots (d1, fs1, t1) ->
  ranges = fresh_ranges info /\ slots = seq 0 (length ranges) /\
  d1 = set_bytes 0
         (set_live (imap (fun i x => if (i <? length (plan_chunks ranges))%nat then 0 else x)
                      (d_chunk_live_bytes d))
            (set_chunks (plan_chunks ranges) (set_total (fi_total_size info) d))) /\
  t1 = persist_plan always_ok (d_id d) (take (Z.to_nat QM_MAX_CHUNKS) ranges)
         (Some (mkTables (update_rows (i32 (d_id d)) (set_row_size (i64 (fi_total_size info))) (t_downloads t))
                  (drop_chunks (i32 (d_id d)) (t_chunks t)))).
Proof.
  intros Hch. unfold engine_prepare. rewrite Hch.
  rewrite (bool_decide_eq_false_2 ([] <> [])) by tauto. cbn [andb negb].
  case_bool; [done|]. unfold prepare_fresh.
  destruct (if d_reserved_file _ && _ then _ else _) as [rc fs2].
  case_bool; [done|]. case_bool; [done|]. intros [= <- <- <- <- <-]. done.
Qed.

Lemma ranged_plan info clen :
  0 < clen < 2 ^ 60 -> fi_total_size info = clen -> fi_supports_ranges info = true ->
  tiles 0 clen (fresh_ranges info) /\ Forall fresh_range (fresh_ranges info) /\
  Z.of_nat (length (fresh_ranges info)) <= MAX_WORKERS.
Proof.
  intros Hc Ht Hr. pose proof (choose_worker_count_range clen) as Hw. unfold MAX_WORKERS in *.
  assert (fresh_ranges info = segmenter_plan clen (choose_worker_count clen)) as ->.
  { unfold fresh_ranges. rewrite Ht, Hr. by rewrite (proj2 (Z.ltb_lt 0 clen)) by lia. }
  assert (0 < clen < 2 ^ 64 /\ 0 < choose_worker_count clen < 2 ^ 31) as [? ?] by (split; zlia).
  split; [by apply segmenter_plan_tiles_aux|]. split; [apply segmenter_plan_fresh|].
  rewrite segmenter_plan_length by done. lia.
Qed.

(** The engine's state and the rebalance pool agree when the pool starts. *)
Lemma planned_mirror info clen d t row :
  i32 (d_id d) = d_id d -> 0 < clen < 2 ^ 60 -> fi_total_size info = clen ->
  fi_supports_ranges info = true -> find_row (d_id d) t = Some row ->
  length (d_chunk_live_bytes d) = 8%nat ->
  let ranges := fresh_ranges info in
  let d1 := set_bytes 0
              (set_live (imap (fun i x => if (i <? length (plan_chunks ranges))%nat then 0 else x)
                           (d_chunk_live_bytes d))
                 (set_chunks (plan_chunks ranges) (set_total clen d))) in
  let e1 := mkEngine d1
              (persist_plan always_ok (d_id d) (take (Z.to_nat QM_MAX_CHUNKS) ranges)
                 (Some (mkTables (update_rows (d_id d) (set_row_size (i64 clen)) (t_downloads t))
                          (drop_chunks (d_id d) (t_chunks t)))))
              (progress_array (seq 0 (length ranges))) false in
  chunks_mirror (d_id d) (set_row_size (i64 clen) row)
    (rebalance_pool_create (H := engine_listener always_ok) e1 ranges) e1.
Proof.
  intros Hi32 Hclen Htot Hrg Hrow Hl8. cbv zeta.
  destruct (ranged_plan info clen Hclen Htot Hrg) as (Htl & Hfr & Hl).
  set (ranges := fresh_ranges info) in *.
  set (t1 := mkTables _ _). apply (fresh_plan_mirror _ _ Hi32 _ _ t1 _ clen); try done.
  - rewrite OFF_MAX_val. zlia.
  - unfold t1. apply (find_row_update _ _ (t_downloads t) _ row); [done|exact Hrow].
  - apply rows_of_delete.
  - simpl. by rewrite length_imap.
  - intros k Hk. simpl. rewrite list_lookup_imap.
    destruct (lookup_lt_is_Some_2 (d_chunk_live_bytes d) k) as [x ->];
      [rewrite Hl8; unfold MAX_WORKERS in Hl; lia|]. simpl.
    rewrite (proj2 (Nat.ltb_lt _ _)); [done|]. unfold plan_chunks. rewrite length_map, length_take.
    unfold QM_MAX_CHUNKS, MAX_WORKERS in *. lia.
  - unfold progress_array. rewrite length_app, length_map, length_replicate, length_seq.
    unfold MAX_WORKERS in *. lia.
  - intros k Hk. unfold progress_array. rewrite lookup_app_l by (rewrite length_map, length_seq; lia).
    change (map PLive) with (fmap (M := list) PLive). rewrite list_lookup_fmap, lookup_seq_lt by lia. done.
Qed.

(** C2. A fresh ranged download can be killed while its workers run, except between the two
    database statements of a split. The engine has planned and stored the chunks of a resource
    of known length on a server that keeps its contract, the rebalance pool exists, and every
    database statement succeeds. Workers, their splits, the scheduler's ticks and the users'
    flags interleave; a schedule in which the victim of a split writes all but one of its bytes
    between the scan and the cut is excluded ([timely]), and so is an answer refused by its
    status. In every state reached between two steps of the pool, the row and the chunks in the
    database, restored as the daemon does at start, describe a download that can be resumed on
    the file as it is at that moment, and so do the chunks the engine itself records when it
    stops there; no worker has used an uninitialised progress pointer. A split is two
    autocommitted statements (engine_runner.c:47 and :62): whenever a worker is about to make
    one, the database after the first statement alone, restored, covers with correct data
    exactly the bytes outside the tail [sp .. le) that is split off. No chunk covers the tail,
    so a resumed run does not fetch it. *)
Theorem killed_download_resumable env read_error stack sv max_block content clen info d fs t row
    ranges slots d1 fs1 t1 f st :
  0 <= d_id d < 2 ^ 31 -> find_row (d_id d) t = Some row -> row_id row = d_id d ->
  d_chunks d = [] -> length (d_chunk_live_bytes d) = 8%nat ->
  0 < clen < 2 ^ 60 -> fi_total_size info = clen -> fi_supports_ranges info = true ->
  http_contract sv content clen -> 0 <= max_block <= STEAL_THRESHOLD ->
  engine_prepare always_ok env read_error stack (Some info) (d, fs, Some t) = Go ranges slots (d1, fs1, t1) ->
  (1 < length ranges)%nat -> fs1 !! d_dest_path d = Some (NReg f) ->
  let e1 := mkEngine d1 t1 (progress_array slots) false in
  rtc (timely_step (H := engine_listener always_ok) (engine_client always_ok)
         (mkConf env STEAL_THRESHOLD (Z.of_nat (length ranges))) sv max_block)
    (pool_start (H := engine_listener always_ok) true
       (progress_slots (SplitListener := engine_listener always_ok) e1) e1 (d_bytes_downloaded d1) f ranges) st ->
  sh_tainted (fst st) = false ->
  let e := sh_listener (fst st) in
  e_ub e = false /\
  (exists t' row', e_db e = Some t' /\ find_row (d_id d) t' = Some row' /\
    resume_point content clen (restore_row row' (Some t')) (sh_file (fst st)) /\
    resume_point content clen (d_of (engine_flush always_ok (set_total clen (e_d e), fs1, e_db e)))
      (sh_file (fst st))) /\
  (forall i w v sp le sl s, snd st !! i = Some w -> w_pc w = PcStore v sp le ->
    sh_slots (fst st) = Some sl -> sl !! v = Some s ->
    exists t' row', e_db (shrink_victim always_ok e (ps_start s) sp) = Some t' /\
      find_row (d_id d) t' = Some row' /\
      all_but_tail content clen sp le (restore_row row' (Some t')) (sh_file (fst st))).
Proof.
  intros Hid Hrow Hrid Hch Hl8 Hclen Htot Hrg Hhttp Hmb Hp _ _. cbv zeta. intros Hr Hta.
  assert (i32 (d_id d) = d_id d) as Hi32 by (apply i32_small; zlia).
  apply fresh_prepared in Hp as (-> & -> & -> & ->); [|done].
  destruct (ranged_plan info clen) as (Htl & Hfr & Hl); [done|done|done|].
  pose proof (planned_mirror info clen d t row Hi32 Hclen Htot Hrg Hrow Hl8) as Hm. cbv zeta in Hm.
  set (ranges := fresh_ranges info) in *. set (row1 := set_row_size (i64 clen) row) in *.
  rewrite Hi32, Htot in *.
  set (d1 := set_bytes 0 _) in *. set (e1 := mkEngine d1 _ _ _) in *.
  destruct Hhttp as [H206 H200 _]. pose proof (engine_mirror (d_id d) row1 Hi32) as Hmirror.
  destruct (mirror_reachable (H := engine_listener always_ok) (chunks_mirror (d_id d) row1)
              (engine_client always_ok) (mirror_client _ _ Hi32)
              (mkConf env STEAL_THRESHOLD (Z.of_nat (length ranges))) sv max_block content f
              (fun o => 0 <= o < clen) Hmb ltac:(simpl; unfold STEAL_THRESHOLD; lia) H206 H200 e1 (d_bytes_downloaded d1) ranges st)
    as [(sl & Hsl & Hinv) (sl' & Hsl' & HJ & Hws)]; try done.
  - apply (fresh_tiles_wf clen); [done|done|rewrite OFF_MAX_val; zlia].
  - by apply fresh_tiles_requested.
  - rewrite Hsl in Hsl'. injection Hsl' as <-. split; [by destruct HJ|].
    pose proof (i_region _ _ _ _ _ _ _ _ _ _ _ Hinv) as Hreg.
    pose proof (i_data _ _ _ _ _ _ _ _ _ _ _ Hinv Hta) as Hdata.
    assert (row_total_size row1 = clen) as Htot1 by (simpl; apply i64_small; zlia). split.
    + destruct (cm_rows _ _ _ _ HJ) as (t' & Ht' & Hr' & _). exists t', row1.
      split; [done|]. split; [done|].
      by apply (mirror_resumable (d_id d) row1 Hi32 content clen sl _ _ t' fs1).
    + intros i w v sp le sl' s Hw Hpc Esl Hs. rewrite Hsl in Esl. injection Esl as <-.
      destruct (wo_store _ _ _ _ _ _ _ (i_work _ _ _ _ _ _ _ _ _ _ _ Hinv i w Hw) v sp le Hpc)
        as (s' & Hs' & -> & _). rewrite Hs in Hs'. injection Hs' as <-.
      destruct (Hws i w Hw) as (_ & _ & Hcut). destruct (Hcut v sp _ Hpc) as [_ Hsp].
      destruct (killed_in_split (d_id d) row1 Hi32 content clen sl (sh_listener (fst st)) (sh_file (fst st)) v s sp)
        as (t' & ? & ? & ?); try done; [by apply Hsp|]. by exists t', row1.
Qed.

(** Four mebibytes in four ranges.  Worker 0 receives its mebibyte in one block;
    the file it leaves, [written_file], is kept as it is below: the rest of the
    run does not depend on it. *)
Definition big_len : Z := 4194304.

Definition big_download : Download :=
  mkDownload 7 (str "http://h/b") (str "/d/b") 0 DOWNLOAD_ACTIVE 0 0 false false 0 (replicate 8 0) []
    false 0 0 None.

Definition big_row : DbRow :=
  mkRow 7 (str "http://h/b") (str "/d/b") 0 (str "ACTIVE") 0 99 [] [] [] [] 0 0.

Definition big_prepared : prepared :=
  engine_prepare always_ok permissive (fun _ => None) [] (Some (mkInfo big_len true))
    (big_download, demo_fs, Some (mkTables [big_row] [])).

Definition big_ranges : list Range := fresh_ranges (mkInfo big_len true).

Definition big_engine : Engine :=
  mkEngine (d_of (prepared_st big_prepared)) (snd (prepared_st big_prepared))
    (progress_array (seq 0 4)) false.

Definition big_file : regular := reg_pwrite empty_reg (big_len - 1) [0].

#[local] Existing Instance engine_listener.

Definition big_start : PoolState :=
  pool_start (H := engine_listener always_ok) true
    (progress_slots (SplitListener := engine_listener always_ok) big_engine) big_engine
    (d_bytes_downloaded (e_d big_engine)) big_file big_ranges.

Definition big_conf : PoolConf := mkConf permissive STEAL_THRESHOLD 4.

Definition big_play (moves : list (nat * option event)) (st : PoolState) : PoolState (L := Engine) :=
  default st (play_timely (H := engine_listener always_ok) big_conf STEAL_THRESHOLD (demo_serve big_len) moves st).

Abbreviation big_step := (timely_step (H := engine_listener always_ok) (engine_client always_ok) big_conf
  (demo_server big_len) STEAL_THRESHOLD).

Lemma big_play_steps moves st : rtc big_step st (big_play moves st).
Proof.
  unfold big_play. destruct (play_timely _ _ _ _ _) eqn:E; [|apply rtc_refl].
  exact (play_timely_steps _ _ _ _ _ _ _ _ (demo_serves big_len) E).
Qed.

(** The write a worker is about to do, with its result given. *)
Definition written_file (i : nat) (st : PoolState (L := Engine)) : regular :=
  match snd st !! i with
  | Some w =>
      match w_pc w with
      | PcWrite _ body _ writable offset =>
          reg_pwrite (sh_file (fst st)) offset (block_bytes body (w_bytes_done w) writable)
      | _ => sh_file (fst st)
      end
  | None => sh_file (fst st)
  end.

Definition finish_write (f : regular) (i : nat) (st : PoolState (L := Engine)) : PoolState (L := Engine) :=
  match snd st !! i with
  | Some w =>
      match w_pc w with
      | PcWrite status body total writable _ =>
          (with_file f (fst st), <[i := set_pc (PcCommit status body total writable) w]> (snd st))
      | _ => st
      end
  | None => st
  end.

Lemma finish_write_step i st w status body total writable offset :
  timely st -> snd st !! i = Some w -> w_pc w = PcWrite status body total writable offset ->
  0 <= writable -> 0 <= i64 offset -> offset + writable <= OFF_MAX ->
  big_step st (finish_write (written_file i st) i st).
Proof.
  intros Htm Hw Hpc Hn Ho Hmax. split; [done|]. apply os_pool. destruct st as [sh ws].
  unfold written_file, finish_write. cbn [fst snd] in *. rewrite Hw, Hpc.
  apply (pool_step_intro _ _ _ sh ws i w EvTau); [done|done|]. unfold worker_step. rewrite Hpc.
  pose proof (strlen_block_bytes body (w_bytes_done w) writable Hn) as Hlen.
  unfold reg_pwrite_checked. rewrite Hlen, (proj2 (Z.ltb_ge (i64 offset) 0)), (proj2 (Z.ltb_ge OFF_MAX _)) by lia.
  done.
Qed.

(** Workers 0 and 2 have received a little; the rest of worker 0's range comes. *)
Definition big_reading : PoolState :=
  big_play
    ([(0%nat, Some (EvSpawn true)); (1%nat, Some (EvSpawn true)); (2%nat, Some (EvSpawn true));
      (3%nat, Some (EvSpawn true)); (0%nat, None); (2%nat, None)]
     ++ demo_block 0 5 ++ demo_block 2 7 ++ demo_block 0 3 ++ [(0%nat, Some (EvBlock false true 1048568))])
    big_start.

Definition big_data : regular := written_file 0 big_reading.

(** Worker 0 is done and about to split the range of worker 1 in two; then it
    has done so.  [f] is the file. *)
Definition big_splitting (f : regular) : PoolState :=
  big_play ([(0%nat, Some EvTau); (0%nat, Some (EvEnd true))] ++ demo_tau 0 9)
    (finish_write f 0 big_reading).
Definition big_split (f : regular) : PoolState := big_play (demo_tau 0 1) (big_splitting f).

Lemma big_write_step : big_step big_reading (finish_write big_data 0 big_reading).
Proof.
  unfold big_data. eapply (finish_write_step 0 big_reading).
  1: by apply timelyb_timely; vm_compute. 1: by vm_compute. 1: reflexivity.
  all: vm_compute; discriminate.
Qed.

Lemma big_splitting_reached : rtc big_step big_start (big_splitting big_data).
Proof.
  transitivity big_reading; [exact (big_play_steps _ big_start)|].
  exact (rtc_l _ _ _ _ big_write_step (big_play_steps _ (finish_write big_data 0 big_reading))).
Qed.

Lemma big_split_reached : rtc big_step big_start (big_split big_data).
Proof.
  transitivity (big_splitting big_data); [exact big_splitting_reached|].
  exact (big_play_steps _ (big_splitting big_data)).
Qed.

Lemma big_splitting_facts f :
  sh_tainted (fst (big_splitting f)) = false /\ sh_file (fst (big_splitting f)) = f /\
  exists w sl s, snd (big_splitting f) !! 0%nat = Some w /\ w_pc w = PcStore 1 1572864 2097152 /\
    sh_slots (fst (big_splitting f)) = Some sl /\ sl !! 1%nat = Some s /\ ps_start s = 1048576.
Proof.
  split; [by vm_compute|]. split; [by vm_compute|]. eexists _, _, _.
  split; [vm_compute; reflexivity|]. split; [reflexivity|].
  split; [vm_compute; reflexivity|]. split; reflexivity.
Qed.

Lemma big_split_facts f :
  sh_tainted (fst (big_split f)) = false /\ sh_file (fst (big_split f)) = f /\
  map (fun c => (range_start c, range_end c)) (d_chunks (e_d (sh_listener (fst (big_split f))))) =
    [(0, 1048575); (1048576, 1572863); (2097152, 3145727); (3145728, 4194303); (1572864, 2097151)].
Proof. split; [by vm_compute|]. split; by vm_compute. Qed.

Lemma killed_download_resumable_witness :
  (exists t' row', e_db (shrink_victim always_ok (sh_listener (fst (big_splitting big_data))) 1048576 1572864)
       = Some t' /\ find_row 7 t' = Some row' /\
     all_but_tail demo_content big_len 1572864 2097152 (restore_row row' (Some t')) big_data) /\
  (exists t' row', e_db (sh_listener (fst (big_split big_data))) = Some t' /\ find_row 7 t' = Some row' /\
     resume_point demo_content big_len (restore_row row' (Some t')) big_data).
Proof.
  assert (big_prepared = Go big_ranges (seq 0 4) (prepared_st big_prepared)) as Hp by (vm_compute; reflexivity).
  assert (snd (fst (prepared_st big_prepared)) !! str "/d/b" = Some (NReg big_file)) as Hf
    by (vm_compute; reflexivity).
  assert (prepared_st big_prepared =
    (e_d big_engine, snd (fst (prepared_st big_prepared)), e_db big_engine)) as Est by (vm_compute; reflexivity).
  rewrite Est in Hp.
  assert (1 < length big_ranges)%nat as Hlen by (vm_compute; lia).
  pose proof (fun st => killed_download_resumable permissive (fun _ => None) [] (demo_server big_len)
              STEAL_THRESHOLD demo_content big_len (mkInfo big_len true) big_download demo_fs
              (mkTables [big_row] []) big_row big_ranges (seq 0 4) (e_d big_engine)
              (snd (fst (prepared_st big_prepared))) (e_db big_engine) big_file st
              ltac:(simpl; lia) eq_refl eq_refl eq_refl eq_refl ltac:(unfold big_len; lia) eq_refl eq_refl
              (demo_contract big_len) ltac:(unfold STEAL_THRESHOLD; lia) Hp Hlen Hf) as H.
  destruct (big_splitting_facts big_data) as (Ht1 & Ef1 & w & sl & s & Hw & Hpc & Hsl & Hs & Es).
  destruct (big_split_facts big_data) as (Ht2 & Ef2 & _).
  pose proof big_splitting_reached as Hr1. pose proof big_split_reached as Hr2.
  split.
  - destruct (H (big_splitting big_data) Hr1 Ht1) as (_ & _ & Hlost).
    destruct (Hlost 0%nat w 1%nat 1572864 2097152 sl s Hw Hpc Hsl Hs) as (t' & row' & E1 & E2 & E3).
    rewrite Es in E1. rewrite Ef1 in E3. exists t', row'. split; [exact E1|]. split; [exact E2|exact E3].
  - destruct (H (big_split big_data) Hr2 Ht2) as (_ & (t' & row' & E1 & E2 & E3 & _) & _).
    rewrite Ef2 in E3. exists t', row'. split; [exact E1|]. split; [exact E2|exact E3].
Defined.

(** The chunks restored after a kill between the two statements of the split
    above: 1572864 .. 2097151 are in none, and no resumed run fetches
    them. *)
Example killed_between_statements f :
  (fun t => map (fun c => (range_start c, range_end c)) (db_load_chunks 7 8 (Some t))) <$>
    e_db (shrink_victim always_ok (sh_listener (fst (big_splitting f))) 1048576 1572864) =
  Some [(0, 1048575); (1048576, 1572863); (2097152, 3145727); (3145728, 4194303)].
Proof. by vm_compute. Qed.

(** The plan is stored by one statement per chunk, too: after a kill behind the
    first of them the rest of the file is in no chunk. *)
Example killed_while_planning :
  map (fun c => (range_start c, range_end c))
    (db_load_chunks 7 8 (persist_plan always_ok 7 (take 1 big_ranges) (Some (mkTables [big_row] [])))) =
  [(0, 1048575)].
Proof. by vm_compute. Qed.

(** ** Limits of the bookkeeping *)

Definition with_chunks (cs : list DownloadChunk) (ptrs : list slot_ptr) : Engine :=
  mkEngine (set_chunks cs big_download) (Some (mkTables [big_row] [])) ptrs false.

(** A victim that had resumed is looked up by [start + resume_offset], which is
    no chunk's [range_start]: its chunk is not shrunk and the tail is recorded
    twice. *)
Example split_of_resumed_chunk :
  d_chunks (e_d (on_rebalance_split always_ok
                   (with_chunks [mkChunk 0 99 10] (progress_array [0%nat])) 10 55 100)) =
    [mkChunk 0 99 10; mkChunk 55 99 0].
Proof. vm_compute. reflexivity. Qed.

(** With chunk 0 complete the two ranges left use the pool's slots 0 and 1, but
    the counter of the split-off chunk goes to element 3 of the array; the
    pool reads element 2, which nothing has written. *)
Example split_after_resume_reads_garbage :
  let e := with_chunks [mkChunk 0 99 100; mkChunk 100 199 0; mkChunk 200 299 0]
             (progress_array [1; 2]%nat) in
  let e' := on_rebalance_split always_ok e 200 250 300 in
  progress_slots (SplitListener := engine_listener always_ok) e' 2 = PIndet /\
  e_ub (engine_add_progress e' (progress_slots (SplitListener := engine_listener always_ok) e' 2) 1) = true.
Proof. vm_compute. by split. Qed.

(** With eight chunks on record a split still shrinks its victim but drops the
    tail: no chunk covers the bytes 450 .. 499 any more. *)
Example split_of_ninth_chunk_loses_tail :
  let cs := map (fun i => mkChunk (100 * i) (100 * i + 99) 0) (seqZ 0 8) in
  let e' := on_rebalance_split always_ok (with_chunks cs (progress_array (seq 0 8))) 400 450 500 in
  Forall (fun c => ~ (range_start c <= 470 <= range_end c)) (d_chunks (e_d e')).
Proof. vm_compute. repeat constructor; intros [H1 H2]; by (apply H1 || apply H2). Qed.

(** A download of unknown length that got nothing at first has the chunk
    0 .. 0; when it resumes it asks for that single byte, and without a length
    or a digest the result is accepted. *)
Definition unknown_download : Download :=
  mkDownload 7 (str "http://h/b") (str "/d/b") 0 DOWNLOAD_ACTIVE 0 0 false false 0 (replicate 8 0)
    [mkChunk 0 0 0] false 0 0 None.

Definition unknown_start_state : EState :=
  (unknown_download, <[str "/d/b" := NReg empty_reg]> demo_fs, Some empty_tables).

Definition unknown_range : Range := mkRange 0 0 0 false.

Definition unknown_prepared : prepared :=
  engine_prepare always_ok permissive (fun _ => None) [] (Some (mkInfo 0 true)) unknown_start_state.

Definition unknown_engine : Engine :=
  mkEngine (d_of (prepared_st unknown_prepared)) (Some empty_tables) (progress_array [0%nat]) false.

Definition unknown_start : PoolState :=
  pool_start (H := engine_listener always_ok) false
    (progress_slots (SplitListener := engine_listener always_ok) unknown_engine) unknown_engine
    (d_bytes_downloaded (e_d unknown_engine)) empty_reg [unknown_range].

Definition unknown_conf : PoolConf := mkConf permissive STEAL_THRESHOLD 1.

Definition unknown_moves : list (nat * option event) :=
  [(0%nat, Some (EvSpawn true)); (0%nat, None)] ++ demo_block 0 1
  ++ [(0%nat, Some (EvEnd true)); (0%nat, Some EvTau)].

Definition unknown_end : PoolState (L := Engine) :=
  default unknown_start
    (play (H := engine_listener always_ok) unknown_conf 16 (demo_serve 12) unknown_moves unknown_start).

Lemma unknown_reached :
  rtc (observed_step (H := engine_listener always_ok) (engine_client always_ok) unknown_conf
         (demo_server 12) 16) unknown_start unknown_end.
Proof.
  apply pool_observed. unfold unknown_end. destruct (play _ _ _ _ _) eqn:E; [|apply rtc_refl].
  exact (play_steps _ _ _ _ _ _ _ (demo_serves 12) E).
Qed.

Definition unknown_after : EState :=
  (set_bytes (sh_total (fst unknown_end)) (e_d (sh_listener (fst unknown_end))),
   <[str "/d/b" := NReg (sh_file (fst unknown_end))]> (fs_of (prepared_st unknown_prepared)),
   e_db (sh_listener (fst unknown_end))).

Example unknown_length_resume_truncates :
  engine_run_download always_ok permissive (fun _ => None) [] (demo_server 12) 16 (Some (mkInfo 0 true))
    unknown_start_state 0 (engine_flush always_ok unknown_after) false /\
  node_size (default NDir (fs_of unknown_after !! str "/d/b")) = 1.
Proof.
  split; [|vm_compute; reflexivity].
  eapply (er_parallel _ _ _ _ _ _ _ true _ [unknown_range] [0]%nat (prepared_st unknown_prepared) true
            unknown_after false (mkInfo 0 true)).
  - reflexivity.
  - vm_compute. reflexivity.
  - change (true && bool_decide (1 < length [unknown_range])%nat) with false.
    assert (e_ub (sh_listener (fst unknown_end)) = false) as <- by (vm_compute; reflexivity).
    assert (all_succeeded unknown_end = true) as <- by (vm_compute; reflexivity).
    unfold unknown_after.
    replace (prepared_st unknown_prepared) with
      (e_d unknown_engine, fs_of (prepared_st unknown_prepared), Some empty_tables : db)
      by (vm_compute; reflexivity).
    eapply (wpr_joined _ _ _ _ _ _ _ (e_d unknown_engine) (fs_of (prepared_st unknown_prepared))
              (Some empty_tables) empty_reg unknown_end unknown_engine).
    + vm_compute. reflexivity.
    + vm_compute. reflexivity.
    + reflexivity.
    + reflexivity.
    + exact unknown_reached.
    + vm_compute. reflexivity.
  - vm_compute. reflexivity.
  - vm_compute. reflexivity.
Qed.
