(* ===== verification/Config.v ===== *)
(** * Configuration ([src/utils/config.c])

    The settings, their file and the clamps that keep a bad file from breaking
    the scheduler.  The TOML parser is vendored: it is a parameter, a function
    from the text of the file to the values under a table and a key. *)

From S2P Require Import Prelude Path FileIo.

(** ** State *)

Record Config := mkConfig {
  g_max_concurrent : Z;
  g_default_dir : bytes;              (* char[1024] *)
  g_retry_max_attempts : Z;
  g_retry_base_delay_sec : Z;
  g_retry_max_delay_sec : Z;
  g_max_speed_bps : Z;                (* uint64_t *)
}.

Definition INT_MAX : Z := 2 ^ 31 - 1.

(** [reset_defaults] keeps the directory. *)
Definition reset_defaults (c : Config) : Config := mkConfig 3 (g_default_dir c) 5 2 60 0.

Inductive toml_value := TInt (n : Z) | TString (s : bytes) | TOther.

(** Table, key. *)
Abbreviation toml_doc := (bytes -> bytes -> option toml_value).

Definition read_int (doc : toml_doc) (tab key : bytes) (out : Z) : Z :=
  match doc tab key with Some (TInt n) => i32 n | _ => out end.

Definition read_u64 (doc : toml_doc) (tab key : bytes) (out : Z) : Z :=
  match doc tab key with Some (TInt n) => u64 n | _ => out end.

Definition read_string (doc : toml_doc) (tab key : bytes) (out : bytes) (out_size : Z) : bytes :=
  match doc tab key with Some (TString s) => strlcpy out_size s | _ => out end.

(** The clamps at the end of [config_init]. *)
Definition clamp (c : Config) : Config :=
  let base := if g_retry_base_delay_sec c <? 1 then 1 else g_retry_base_delay_sec c in
  mkConfig (if g_max_concurrent c <? 1 then 1 else g_max_concurrent c)
    (g_default_dir c)
    (if g_retry_max_attempts c <? 0 then 0 else g_retry_max_attempts c)
    base
    (if g_retry_max_delay_sec c <? base then base else g_retry_max_delay_sec c)
    (g_max_speed_bps c).

Section Config.

Context (env : IoEnv) (realpath : filesystem -> bytes -> errno + bytes).
Context (env_home : option bytes) (toml_parse : bytes -> option toml_doc).

(** ** Paths *)

Definition get_config_path : bytes :=
  strlcpy 1024 (default (str "/tmp") env_home ++ str "/.local/share/cdm/config.toml").

Definition fallback_dir : bytes := strlcpy 1024 (default (str ".") env_home ++ str "/Downloads").

Definition default_dir_is_usable (path : bytes) (fs : filesystem) : bool * filesystem :=
  match env_home with
  | None => (false, fs)
  | Some home =>
      if bool_decide (path = []) then (false, fs)
      else if bool_decide (home = []) then (false, fs)
      else if negb (strprefix home path) then (false, fs)
      else if negb (bool_decide (path !! length home = None)
                    || bool_decide (path !! length home = Some CH_SLASH)) then (false, fs)
      else
        let '(ok, fs) := file_ensure_directory env fs path in
        (ok && match realpath fs path with inr _ => true | inl _ => false end, fs)
  end.

(** ** Files opened by name *)

(** The path a chain of symbolic links leads to. *)
Fixpoint final_path (fuel : nat) (fs : filesystem) (p : bytes) : option bytes :=
  if env_deny env p then None
  else match fs !! p with
       | Some (NSymlink t) => match fuel with O => None | S k => final_path k fs t end
       | _ => Some p
       end.

(** What [fopen (path, "r")] gives to read; a directory cannot be read. *)
Definition read_file (fs : filesystem) (path : bytes) : option bytes :=
  match stat env fs path with
  | inr (NReg f) => Some (reg_content f)
  | _ => None
  end.

(** [fopen (path, "w")]: the path of the file, empty now. *)
Definition fopen_w (fs : filesystem) (path : bytes) : option (bytes * filesystem) :=
  match final_path 40 fs path with
  | None => None
  | Some p =>
      match fs !! p with
      | Some (NReg _) => Some (p, <[p := NReg empty_reg]> fs)
      | None => if parent_is_dir fs p then Some (p, <[p := NReg empty_reg]> fs) else None
      | _ => None
      end
  end.

(** ** config_init and config_save *)

Definition load (doc : toml_doc) (c : Config) (fs : filesystem) : Config * filesystem :=
  let concurrent := read_int doc (str "downloads") (str "max_concurrent") (g_max_concurrent c) in
  let configured := read_string doc (str "downloads") (str "default_directory") [] 1024 in
  let '(usable, fs) := if bool_decide (configured = []) then (false, fs)
                       else default_dir_is_usable configured fs in
  let dir := if usable then strlcpy 1024 configured else g_default_dir c in
  (clamp (mkConfig concurrent dir
            (read_int doc (str "retry") (str "max_attempts") (g_retry_max_attempts c))
            (read_int doc (str "retry") (str "base_delay_sec") (g_retry_base_delay_sec c))
            (read_int doc (str "retry") (str "max_delay_sec") (g_retry_max_delay_sec c))
            (read_u64 doc (str "throttle") (str "max_speed_bytes_per_sec") (g_max_speed_bps c))), fs).

Definition config_init (path : option bytes) (fs : filesystem) : Config * filesystem :=
  let '(_, fs) := file_ensure_directory env fs fallback_dir in
  let c := reset_defaults (mkConfig 0 fallback_dir 0 0 0 0) in
  match read_file fs (default get_config_path path) with
  | None => (c, fs)
  | Some text =>
      match toml_parse text with
      | None => (c, fs)
      | Some doc => load doc c fs
      end
  end.

Definition NLs : bytes := [CH_NL].
Definition QUOTE : bytes := [34].

(** [%d] and [%llu] of a number that is not negative. *)
Definition render (c : Config) : bytes :=
  str "[downloads]" ++ NLs ++ str "max_concurrent = " ++ decimal (g_max_concurrent c) ++ NLs
  ++ str "default_directory = " ++ QUOTE ++ g_default_dir c ++ QUOTE ++ NLs ++ NLs
  ++ str "[retry]" ++ NLs ++ str "max_attempts = " ++ decimal (g_retry_max_attempts c) ++ NLs
  ++ str "base_delay_sec = " ++ decimal (g_retry_base_delay_sec c) ++ NLs
  ++ str "max_delay_sec = " ++ decimal (g_retry_max_delay_sec c) ++ NLs ++ NLs
  ++ str "[throttle]" ++ NLs ++ str "max_speed_bytes_per_sec = " ++ decimal (g_max_speed_bps c) ++ NLs.

Definition config_valid (c : Config) : bool :=
  negb ((g_max_concurrent c <? 1) || (g_retry_max_attempts c <? 0)
        || (g_retry_base_delay_sec c <? 1)
        || (g_retry_max_delay_sec c <? g_retry_base_delay_sec c)
        || bool_decide (g_default_dir c = [])).

(** [now] is the running configuration, which a successful save reloads. *)
Definition config_save (c now : Config) (fs : filesystem) : bool * Config * filesystem :=
  if negb (config_valid c) then (false, now, fs)
  else
    let '(usable, fs) := default_dir_is_usable (g_default_dir c) fs in
    if negb usable then (false, now, fs)
    else
      let directory := strlcpy 1024 (default (str "/tmp") env_home ++ str "/.local/share/cdm") in
      let '(ok, fs) := file_ensure_directory env fs directory in
      if negb ok then (false, now, fs)
      else
        match fopen_w fs get_config_path with
        | None => (false, now, fs)
        | Some (p, fs) =>
            if env_space env (strlen (render c)) then
              let fs := <[p := NReg (reg_pwrite empty_reg 0 (render c))]> fs in
              let '(c', fs) := config_init (Some get_config_path) fs in (true, c', fs)
            else (false, now, fs)
        end.

(** ** Lemmas *)

Definition config_sane (c : Config) : Prop :=
  1 <= g_max_concurrent c <= INT_MAX /\ 0 <= g_retry_max_attempts c <= INT_MAX /\
  1 <= g_retry_base_delay_sec c <= g_retry_max_delay_sec c /\ g_retry_max_delay_sec c <= INT_MAX /\
  is_u64 (g_max_speed_bps c).

Lemma i32_range n : - 2 ^ 31 <= i32 n <= INT_MAX.
Proof.
  unfold sext, INT_MAX. pose proof (Z.mod_pos_bound n (2 ^ 32) ltac:(lia)).
  change (2 ^ (32 - 1)) with (2 ^ 31). destruct (Z.ltb_spec (n mod 2 ^ 32) (2 ^ 31)); zlia.
Qed.

Lemma read_int_range doc tab key out :
  - 2 ^ 31 <= out <= INT_MAX -> - 2 ^ 31 <= read_int doc tab key out <= INT_MAX.
Proof.
  intros H. unfold read_int. destruct (doc tab key) as [[n| |]|]; try done. apply i32_range.
Qed.

Lemma clamp_sane c :
  - 2 ^ 31 <= g_max_concurrent c <= INT_MAX -> - 2 ^ 31 <= g_retry_max_attempts c <= INT_MAX ->
  - 2 ^ 31 <= g_retry_base_delay_sec c <= INT_MAX -> - 2 ^ 31 <= g_retry_max_delay_sec c <= INT_MAX ->
  is_u64 (g_max_speed_bps c) -> config_sane (clamp c).
Proof.
  intros H1 H2 H3 H4 H5. unfold config_sane, clamp, INT_MAX in *. cbn [g_max_concurrent g_retry_max_attempts
    g_retry_base_delay_sec g_retry_max_delay_sec g_max_speed_bps].
  repeat case_bool; breflect; split_and!; try done; zlia.
Qed.

(** What [default_dir_is_usable] accepts. *)
Definition dir_under_home (dir : bytes) : Prop :=
  exists home, env_home = Some home /\ home <> [] /\ strlen dir < 1024 /\
    (dir = home \/ exists rest, dir = home ++ CH_SLASH :: rest).

Lemma usable_under_home path fs fs' :
  default_dir_is_usable path fs = (true, fs') -> strlen path < 1024 ->
  dir_under_home path /\ exists r, realpath fs' path = inr r.
Proof.
  unfold default_dir_is_usable. destruct env_home as [home|] eqn:Eh; [|done]. intros H Hl.
  destruct (bool_decide (path = [])) eqn:E1; [done|]. destruct (bool_decide (home = [])) eqn:E2; [done|].
  destruct (strprefix home path) eqn:E3; [|done]. cbn [negb] in H.
  destruct (_ || _) eqn:E4 in H; [|done]. cbn [negb] in H.
  destruct (file_ensure_directory env fs path) as [ok fs1]. injection H as Hok <-.
  apply andb_true_iff in Hok as [_ Hr]. split.
  - exists home. breflect. split; [done|]. split; [done|]. split; [done|].
    apply strprefix_spec in E3 as [t ->]. rewrite lookup_app_r in E4 by lia.
    rewrite Nat.sub_diag in E4. destruct t as [|x t]; [left; by rewrite app_nil_r|right].
    apply orb_true_iff in E4 as [E4|E4]; apply bool_decide_eq_true in E4; simpl in E4; [done|].
    injection E4 as ->. by exists t.
  - destruct (realpath fs1 path) as [e|r]; [done|]. by exists r.
Qed.

Lemma strlcpy_short n s : 0 < n -> strlen (strlcpy n s) < n.
Proof. intros H. pose proof (strlcpy_length n s H). lia. Qed.

(** *** Reading back what was written *)

Lemma final_not_link n fs p q t : final_path n fs p = Some q -> fs !! q <> Some (NSymlink t).
Proof.
  revert p. induction n as [|n IH]; intros p; cbn [final_path]; (destruct (env_deny env p); [done|]);
    destruct (fs !! p) as [[]|] eqn:E; try done; try (intros [= <-]; congruence). apply IH.
Qed.

Lemma stat_final n fs p q f :
  final_path n fs p = Some q -> stat_from env n (<[q := NReg f]> fs) p = inr (NReg f).
Proof.
  revert p. induction n as [|n IH]; intros p; cbn [final_path stat_from]; unfold lstat;
    (destruct (env_deny env p); [done|]); destruct (fs !! p) as [[f0| |t|]|] eqn:E; try done;
    try (intros [= <-]; by rewrite lookup_insert_eq).
  intros Hq. assert (p <> q) as Hne by (intros ->; by apply (final_not_link _ _ _ _ t) in Hq).
  rewrite lookup_insert_ne, E by done. by apply IH.
Qed.

Lemma stat_only_adds n fs fs' p x :
  only_adds_dirs fs fs' -> stat_from env n fs p = inr x -> stat_from env n fs' p = inr x.
Proof.
  intros Ha. revert p. induction n as [|n IH]; intros p; cbn [stat_from]; unfold lstat;
    (destruct (env_deny env p); [done|]); destruct (fs !! p) as [y|] eqn:E; try done;
    rewrite (only_adds_dirs_keeps _ _ _ _ Ha E); destruct y; try done. apply IH.
Qed.

(** *** Directories made once are there the next time *)

Lemma mkdir_again fs p e fs1 fs2 :
  mkdir env fs p = (e, fs1) -> e = None \/ e = Some EEXIST ->
  (forall q, is_Some (fs1 !! q) -> is_Some (fs2 !! q)) -> mkdir env fs2 p = (Some EEXIST, fs2).
Proof.
  intros Hm He Hk. destruct (Hk p) as [x Hx]; [by eapply mkdir_ok_exists|]. unfold mkdir. by rewrite Hx.
Qed.

Lemma mkdir_loop_again fs done_ rest fs1 fs2 :
  mkdir_loop env fs done_ rest = (true, fs1) ->
  (forall q, is_Some (fs1 !! q) -> is_Some (fs2 !! q)) ->
  mkdir_loop env fs2 done_ rest = (true, fs2).
Proof.
  revert fs done_. induction rest as [|c rest IH]; intros fs done_; cbn [mkdir_loop]; [done|].
  intros H Hk. destruct (c =? CH_SLASH); [|by eapply IH].
  destruct (mkdir env fs done_) as [e fsm] eqn:Em. case_decide as He; [|done].
  pose proof (mkdir_loop_only_adds env fsm (done_ ++ [c]) rest) as Ha. rewrite H in Ha. simpl in Ha.
  rewrite (mkdir_again _ _ _ _ fs2 Em He).
  - rewrite decide_True by auto. by eapply IH.
  - intros q Hq. apply Hk. destruct Hq as [x Hq]. exists x. by eapply only_adds_dirs_keeps.
Qed.

Lemma ensure_directory_again fs p fs1 fs2 :
  file_ensure_directory env fs p = (true, fs1) ->
  (forall q, is_Some (fs1 !! q) -> is_Some (fs2 !! q)) ->
  file_ensure_directory env fs2 p = (true, fs2).
Proof.
  unfold file_ensure_directory. case_decide; [done|]. intros H1 Hk.
  destruct (mkdir_loop env fs _ _) as [[] fsm] eqn:El; [|done].
  destruct (mkdir env fsm (strlcpy 1024 p)) as [e fse] eqn:Em. injection H1 as He <-.
  apply bool_decide_eq_true in He.
  assert (forall q, is_Some (fsm !! q) -> is_Some (fs2 !! q)) as Hk'.
  { intros q [x Hx]. apply Hk. exists x. pose proof (mkdir_only_adds env fsm (strlcpy 1024 p)) as Ha.
    rewrite Em in Ha. by eapply only_adds_dirs_keeps. }
  rewrite (mkdir_loop_again _ _ _ _ fs2 El Hk'), (mkdir_again _ _ _ _ fs2 Em He Hk). done.
Qed.

(** Every entry keeps its kind; only files may have changed. *)
Definition same_kinds (fs1 fs2 : filesystem) : Prop :=
  forall q n, fs1 !! q = Some n ->
    match n with NReg _ => exists f, fs2 !! q = Some (NReg f) | _ => fs2 !! q = Some n end.

Lemma same_kinds_keys fs1 fs2 q : same_kinds fs1 fs2 -> is_Some (fs1 !! q) -> is_Some (fs2 !! q).
Proof. intros H [n Hn]. specialize (H q n Hn). destruct n; [destruct H as [? ?]|..]; eauto. Qed.

Lemma same_kinds_trans a b c : same_kinds a b -> same_kinds b c -> same_kinds a c.
Proof.
  intros H1 H2 q n Hn. specialize (H1 q n Hn).
  destruct n; [destruct H1 as [f1 H1]; exact (H2 q _ H1)|by apply (H2 q _ H1)..].
Qed.

Lemma only_adds_kinds fs fs' : only_adds_dirs fs fs' -> same_kinds fs fs'.
Proof.
  intros Ha q n Hn. pose proof (only_adds_dirs_keeps _ _ _ _ Ha Hn). destruct n; eauto.
Qed.

Lemma usable_again path fs fs1 fs2 :
  (forall a b p r, same_kinds a b -> realpath a p = inr r -> exists r', realpath b p = inr r') ->
  default_dir_is_usable path fs = (true, fs1) -> same_kinds fs1 fs2 ->
  default_dir_is_usable path fs2 = (true, fs2).
Proof.
  intros Hreal. unfold default_dir_is_usable. destruct env_home as [home|]; [|done].
  do 4 (case_bool; [done|]). intros H Hk.
  destruct (file_ensure_directory env fs path) as [ok fsd] eqn:E. injection H as Hok <-.
  apply andb_true_iff in Hok as [-> Hr].
  rewrite (ensure_directory_again _ _ _ fs2 E) by (intros q; by apply same_kinds_keys).
  destruct (realpath fsd path) as [e|r] eqn:Er; [done|].
  destruct (Hreal _ _ _ _ Hk Er) as [r' ->]. done.
Qed.

(** ** Properties *)

(** What the parser gives for the text written by [config_save]. *)
Definition doc_of (c : Config) (doc : toml_doc) : Prop :=
  doc (str "downloads") (str "max_concurrent") = Some (TInt (g_max_concurrent c)) /\
  doc (str "downloads") (str "default_directory") = Some (TString (g_default_dir c)) /\
  doc (str "retry") (str "max_attempts") = Some (TInt (g_retry_max_attempts c)) /\
  doc (str "retry") (str "base_delay_sec") = Some (TInt (g_retry_base_delay_sec c)) /\
  doc (str "retry") (str "max_delay_sec") = Some (TInt (g_retry_max_delay_sec c)) /\
  doc (str "throttle") (str "max_speed_bytes_per_sec") = Some (TInt (g_max_speed_bps c)).

Lemma clamp_valid c : config_valid c = true -> clamp c = c.
Proof.
  unfold config_valid. intros H. apply negb_true_iff in H. breflect. unfold clamp. destruct c.
  cbn [g_max_concurrent g_retry_max_attempts g_retry_base_delay_sec g_retry_max_delay_sec
       g_max_speed_bps g_default_dir] in *.
  rewrite !(proj2 (Z.ltb_ge _ _)) by lia. done.
Qed.

(** [load] on a document that holds a valid, representable configuration. *)
Lemma load_valid c doc c0 fs fs1 :
  config_valid c = true -> config_sane c -> strlen (g_default_dir c) < 1024 ->
  doc_of c doc -> default_dir_is_usable (g_default_dir c) fs = (true, fs1) ->
  load doc c0 fs = (c, fs1).
Proof.
  intros Hv (H1 & H2 & H3 & H4 & H5) Hl (E1 & E2 & E3 & E4 & E5 & E6) Hu.
  unfold load, read_int, read_u64, read_string. rewrite E1, E2, E3, E4, E5, E6.
  unfold INT_MAX in *. rewrite !i32_small by zlia. rewrite (u64_small (g_max_speed_bps c)) by zlia.
  rewrite !(strlcpy_id 1024) by done.
  assert (g_default_dir c <> []) as Hne.
  { unfold config_valid in Hv. apply negb_true_iff in Hv. by breflect. }
  rewrite bool_decide_false by done. rewrite Hu. f_equal.
  rewrite <- (clamp_valid c Hv) at 7. by destruct c.
Qed.

(** Whatever the configuration file holds, after [config_init] the
    scheduler's settings make sense: at least one concurrent download, no
    negative retry count, delays with 1 <= base <= maximum, all of them C
    ints, and a download directory that is the fallback under the home
    directory or a path at or below the home directory that resolves. *)
Theorem config_init_sane path fs c fs' :
  config_init path fs = (c, fs') ->
  config_sane c /\
  (g_default_dir c = fallback_dir \/
   dir_under_home (g_default_dir c) /\ exists r, realpath fs' (g_default_dir c) = inr r).
Proof.
  unfold config_init. destruct (file_ensure_directory env fs fallback_dir) as [ok fs0].
  assert (config_sane (reset_defaults (mkConfig 0 fallback_dir 0 0 0 0))) as Hdef.
  { unfold config_sane, INT_MAX. simpl. zlia. }
  destruct (read_file fs0 _) as [text|]; [|intros [= <- <-]; by split; [|left]].
  destruct (toml_parse text) as [doc|]; [|intros [= <- <-]; by split; [|left]].
  unfold load. set (conf := read_string _ _ _ _ _).
  destruct (if bool_decide (conf = []) then _ else _) as [usable fs1] eqn:Eu. intros [= <- <-].
  split.
  - apply clamp_sane; cbn [g_max_concurrent g_retry_max_attempts g_retry_base_delay_sec
      g_retry_max_delay_sec g_max_speed_bps]; try (apply read_int_range; unfold INT_MAX; simpl; zlia).
    unfold read_u64. destruct (doc _ _) as [[n| |]|]; [apply u64_range|simpl; zlia..].
  - cbn [clamp g_default_dir]. destruct usable; [|by left]. right.
    case_bool_decide as Hc; [done|].
    assert (strlen conf < 1024) as Hl.
    { unfold conf, read_string. repeat case_match; try (unfold strlen; simpl; lia). by apply strlcpy_short. }
    rewrite strlcpy_id by done. by eapply usable_under_home.
Qed.

(** A configuration that [config_save] accepts and writes is the running
    configuration afterwards: the text it writes, parsed and clamped, gives
    back every setting, the directory included.  The parser is assumed to read
    that text as TOML ([doc_of]), and [realpath] to go on resolving a path
    when only files change and directories are added. *)
Theorem config_save_reload c now fs now' fs' :
  config_sane c -> strlen (g_default_dir c) < 1024 ->
  (exists doc, toml_parse (render c) = Some doc /\ doc_of c doc) ->
  (forall a b p r, same_kinds a b -> realpath a p = inr r -> exists r', realpath b p = inr r') ->
  config_save c now fs = (true, now', fs') -> now' = c.
Proof.
  intros Hsane Hl (doc & Hparse & Hdoc) Hreal. unfold config_save.
  destruct (config_valid c) eqn:Hv; [|done]. cbn [negb].
  destruct (default_dir_is_usable (g_default_dir c) fs) as [u fs1] eqn:Eu.
  destruct u; [|done]. cbn [negb]. set (dir := strlcpy 1024 _).
  pose proof (ensure_directory_only_adds env fs1 dir) as Ha.
  destruct (file_ensure_directory env fs1 dir) as [ok fs2]. destruct ok; [|done]. cbn [negb].
  destruct (fopen_w fs2 get_config_path) as [[p fs3]|] eqn:Ew; [|done].
  destruct (env_space env _); [|done]. set (fs4 := <[p := _]> fs3). unfold config_init.
  pose proof (ensure_directory_only_adds env fs4 fallback_dir) as Hb.
  destruct (file_ensure_directory env fs4 fallback_dir) as [ok5 fs5].
  unfold fopen_w in Ew. destruct (final_path 40 fs2 get_config_path) as [q|] eqn:Eq; [|done].
  assert (p = q /\ fs4 = <[p := NReg (reg_pwrite empty_reg 0 (render c))]> fs2 /\
          (fs2 !! p = None \/ exists f, fs2 !! p = Some (NReg f))) as (-> & E4 & Hp).
  { unfold fs4. destruct (fs2 !! q) as [[f| | |]|] eqn:E; try done;
      [|destruct (parent_is_dir fs2 q); [|done]]; injection Ew as <- <-;
      rewrite insert_insert_eq; eauto 6. }
  assert (read_file fs5 get_config_path = Some (render c)) as Hread.
  { assert (stat_from env 40 fs5 get_config_path = inr (NReg (reg_pwrite empty_reg 0 (render c)))) as Hst.
    { eapply stat_only_adds; [exact Hb|]. rewrite E4. by apply stat_final. }
    unfold read_file, stat. rewrite Hst. by rewrite content_of_written. }
  assert (same_kinds fs1 fs5) as Hk.
  { apply (same_kinds_trans _ fs2); [by apply only_adds_kinds|].
    apply (same_kinds_trans _ fs4); [|by apply only_adds_kinds]. rewrite E4. intros x n Hn.
    destruct (decide (x = q)) as [->|Hne].
    - rewrite lookup_insert_eq. destruct Hp as [?|[f ?]]; simplify_eq. by eexists.
    - rewrite lookup_insert_ne by done. destruct n; eauto. }
  cbn [default]. unfold default. simpl. rewrite Hread, Hparse.
  rewrite (load_valid c doc _ fs5 fs5 Hv Hsane Hl Hdoc) by by eapply usable_again.
  by intros [= <- _].
Qed.

End Config.

(** A home directory, a resolver without links, a parser for one text. *)
Definition cfg_fs : filesystem := {[ str "/" := NDir; str "/h" := NDir ]}.
Definition cfg_realpath (fs : filesystem) (p : bytes) : errno + bytes :=
  match fs !! p with Some _ => inr p | None => inl ENOENT end.
Definition cfg_demo : Config := mkConfig 4 (str "/h/dl") 7 3 90 250000.
Definition cfg_doc (c : Config) : toml_doc := fun tab key =>
  if streq key (str "max_concurrent") then Some (TInt (g_max_concurrent c))
  else if streq key (str "default_directory") then Some (TString (g_default_dir c))
  else if streq key (str "max_attempts") then Some (TInt (g_retry_max_attempts c))
  else if streq key (str "base_delay_sec") then Some (TInt (g_retry_base_delay_sec c))
  else if streq key (str "max_delay_sec") then Some (TInt (g_retry_max_delay_sec c))
  else if streq key (str "max_speed_bytes_per_sec") then Some (TInt (g_max_speed_bps c))
  else None.
Definition cfg_parse (c : Config) (text : bytes) : option toml_doc :=
  if streq text (render c) then Some (cfg_doc c) else None.

Definition cfg_saved : bool * Config * filesystem :=
  config_save permissive cfg_realpath (Some (str "/h")) (cfg_parse cfg_demo) cfg_demo
    (mkConfig 3 (str "/h/Downloads") 5 2 60 0) cfg_fs.

Lemma config_save_reload_witness :
  fst (fst cfg_saved) = true /\ snd (fst cfg_saved) = cfg_demo.
Proof.
  assert (fst (fst cfg_saved) = true) as E by (vm_compute; reflexivity). split; [exact E|].
  apply (config_save_reload permissive cfg_realpath (Some (str "/h")) (cfg_parse cfg_demo) cfg_demo
           (mkConfig 3 (str "/h/Downloads") 5 2 60 0) cfg_fs (snd (fst cfg_saved)) (snd cfg_saved)).
  - unfold config_sane, INT_MAX. simpl. zlia.
  - vm_compute. reflexivity.
  - exists (cfg_doc cfg_demo). split; [vm_compute; reflexivity|]. repeat split; vm_compute; reflexivity.
  - intros a b p r Hk Hr. unfold cfg_realpath in *. destruct (a !! p) as [n|] eqn:En; [|discriminate Hr].
    destruct (same_kinds_keys a b p Hk (ex_intro _ n En)) as [m Hm]. rewrite Hm. exists p. reflexivity.
  - rewrite <- E. unfold cfg_saved. destruct (config_save _ _ _ _ _ _ _) as [[x y] z]. reflexivity.
Defined.

(** A file that asks for no concurrency, a huge base delay and a directory
    outside the home directory. *)
Definition cfg_bad : Config := mkConfig 0 (str "/etc") (-5) (2 ^ 20) 10 (-1).
Definition cfg_bad_loaded : Config * filesystem :=
  config_init permissive cfg_realpath (Some (str "/h")) (fun _ => Some (cfg_doc cfg_bad)) (Some (str "/h/c"))
    (<[str "/h/c" := NReg empty_reg]> cfg_fs).

Lemma config_init_sane_witness :
  fst cfg_bad_loaded = mkConfig 1 (str "/h/Downloads") 0 (2 ^ 20) (2 ^ 20) (2 ^ 64 - 1) /\
  config_sane (fst cfg_bad_loaded).
Proof.
  split; [vm_compute; reflexivity|].
  apply (config_init_sane permissive cfg_realpath (Some (str "/h")) (fun _ => Some (cfg_doc cfg_bad))
           (Some (str "/h/c")) (<[str "/h/c" := NReg empty_reg]> cfg_fs) (fst cfg_bad_loaded)
           (snd cfg_bad_loaded)).
  unfold cfg_bad_loaded. destruct (config_init _ _ _ _ _ _). reflexivity.
Defined.
