(* ===== verification/Scheduler.v ===== *)
(** * The scheduler ([src/core/scheduler.c])

    A table of 64 worker threads over the queue.  [scheduler_tick] reaps, picks
    and starts; [download_thread_fn] turns the result of the engine into the
    fate of the download.  The threads, the ticks and the clients' commands
    interleave in [sched_step]; the engine's own run is Engine.v. *)

From S2P Require Import Prelude Path FileIo QueueManager Db Config Engine.

(** ** State *)

Definition SCHEDULER_MAX_WORKERS : nat := 64.

(** The calls a download thread makes after the engine has returned, each a step
    of its own between which other threads run. *)
Inductive EndCall :=
| EcForgetChunks
| EcRetry (count next_at : Z)
| EcClearResume
| EcPublish (status : DownloadStatus)
| EcDbDropChunks
| EcDbNoSize
| EcDbStatus (text : bytes)
| EcUnlink
| EcBroadcast (text : bytes) (num den : Z).

(** Where the thread of a worker is; not a field of the C struct.  A thread that
    is ending works for the entry [dl] and has [calls] left to make. *)
Inductive phase :=
| PhIdle
| PhEngine
| PhEnding (dl : Download) (calls : list EndCall)
| PhReturned.

(** [download] is a pointer to a queue entry, named by its id. *)
Record SchedulerWorker := mkSW {
  sw_download : option Z;
  sw_download_id : Z;
  sw_done : bool;
  sw_in_use : bool;
  sw_phase : phase;
}.

Definition idle_worker : SchedulerWorker := mkSW None 0 false false PhIdle.

(** A status event broadcast to the clients: the float is [num / den]. *)
Record StatusEvent := mkEvent { ev_id : Z; ev_text : bytes; ev_num : Z; ev_den : Z }.

Record SState := mkS {
  s_q : QM;
  s_fs : filesystem;
  s_db : db;
  s_events : list StatusEvent;
}.

Definition on_queue (f : QM -> QM) (s : SState) : SState :=
  mkS (f (s_q s)) (s_fs s) (s_db s) (s_events s).
Definition on_files (f : filesystem -> filesystem) (s : SState) : SState :=
  mkS (s_q s) (f (s_fs s)) (s_db s) (s_events s).
Definition on_db (f : db -> Z * db) (s : SState) : SState :=
  mkS (s_q s) (s_fs s) (snd (f (s_db s))) (s_events s).
Definition ipc_broadcast_status (id : Z) (text : bytes) (num den : Z) (s : SState) : SState :=
  mkS (s_q s) (s_fs s) (s_db s) (s_events s ++ [mkEvent id text num den]).

Section Scheduler.

Context (sql_ok : sql -> Tables -> bool) (env : IoEnv) (cfg : Config).

(** ** download_thread_fn *)

(** [base << shift] on a 32-bit int. *)
Definition retry_backoff_seconds (attempt : Z) : Z :=
  let base := g_retry_base_delay_sec cfg in
  let max_delay := g_retry_max_delay_sec cfg in
  let shift := attempt - 1 in
  let shift := if 30 <? shift then 30 else shift in
  let delay := i32 (Z.shiftl base shift) in
  if (max_delay <? delay) || (delay <? 0) then max_delay else delay.

(** The two status updates and the broadcast that most branches end with. *)
Definition publish (id : Z) (status : DownloadStatus) (db_text event : bytes) (num : Z) (s : SState)
    : SState :=
  ipc_broadcast_status id event num 1
    (on_db (db_update_status sql_ok id db_text)
       (on_queue (queue_manager_update_status id status) s)).

Definition reset_retry (id : Z) (s : SState) : SState := on_queue (qm_modify id (set_retry 0 0)) s.

(** From the return of [engine_run_download] on, for the entry [dl]. *)
Definition download_thread_end (rc now : Z) (dl : Download) (s : SState) : SState :=
  let id := d_id dl in
  let canceled := d_cancel_requested dl in
  let paused := d_pause_requested dl in
  if rc =? 0 then
    let s := on_queue (qm_modify id (fun d => set_retry 0 0 (set_chunks [] d))) s in
    let s := on_db (db_delete_chunks sql_ok id) s in
    publish id DOWNLOAD_DONE (str "DONE") (str "Done") 1 s
  else if canceled then
    let s := on_queue (queue_manager_clear_resume_state id) s in
    let s := on_db (db_delete_chunks sql_ok id) s in
    let s := on_db (db_update_total_size sql_ok id 0) s in
    let s := if bool_decide (d_dest_path dl = []) then s
             else on_files (fun fs => unlink env fs (d_dest_path dl)) s in
    let s := on_db (db_update_status sql_ok id (str "CANCELED")) s in
    let s := on_queue (queue_manager_update_status id DOWNLOAD_CANCELED) s in
    ipc_broadcast_status id (str "Canceled") 0 1 s
  else if paused then
    publish id DOWNLOAD_PAUSED (str "PAUSED") (str "Paused") (d_progress dl) s
  else if rc =? -2 then
    publish id DOWNLOAD_ERROR (str "ERROR") (str "Verification failed") (d_progress dl) (reset_retry id s)
  else if (rc =? -3) || (rc =? -4) then
    publish id DOWNLOAD_ERROR (str "ERROR") (str "Error") (d_progress dl) (reset_retry id s)
  else if d_retry_count dl <? g_retry_max_attempts cfg then
    let count := d_retry_count dl + 1 in
    let delay := retry_backoff_seconds count in
    publish id DOWNLOAD_QUEUED (str "QUEUED") (str "Retrying") (d_progress dl)
      (on_queue (qm_modify id (set_retry count (now + delay))) s)
  else
    publish id DOWNLOAD_ERROR (str "ERROR") (str "Error") (d_progress dl) (reset_retry id s).

(** The same as the calls it makes, in order, from [dl] as the thread reads it
    after the engine's return. *)
Definition publish_calls (status : DownloadStatus) (db_text event : bytes) (num : Z) : list EndCall :=
  [EcPublish status; EcDbStatus db_text; EcBroadcast event num 1].

Definition end_calls (rc now : Z) (dl : Download) : list EndCall :=
  if rc =? 0 then
    EcForgetChunks :: EcRetry 0 0 :: EcDbDropChunks :: publish_calls DOWNLOAD_DONE (str "DONE") (str "Done") 1
  else if d_cancel_requested dl then
    [EcClearResume; EcDbDropChunks; EcDbNoSize] ++
    (if bool_decide (d_dest_path dl = []) then [] else [EcUnlink]) ++
    [EcDbStatus (str "CANCELED"); EcPublish DOWNLOAD_CANCELED; EcBroadcast (str "Canceled") 0 1]
  else if d_pause_requested dl then
    publish_calls DOWNLOAD_PAUSED (str "PAUSED") (str "Paused") (d_progress dl)
  else if rc =? -2 then
    EcRetry 0 0 :: publish_calls DOWNLOAD_ERROR (str "ERROR") (str "Verification failed") (d_progress dl)
  else if (rc =? -3) || (rc =? -4) then
    EcRetry 0 0 :: publish_calls DOWNLOAD_ERROR (str "ERROR") (str "Error") (d_progress dl)
  else if d_retry_count dl <? g_retry_max_attempts cfg then
    EcRetry (d_retry_count dl + 1) (now + retry_backoff_seconds (d_retry_count dl + 1)) ::
      publish_calls DOWNLOAD_QUEUED (str "QUEUED") (str "Retrying") (d_progress dl)
  else EcRetry 0 0 :: publish_calls DOWNLOAD_ERROR (str "ERROR") (str "Error") (d_progress dl).

Definition end_call (dl : Download) (c : EndCall) (s : SState) : SState :=
  let id := d_id dl in
  match c with
  | EcForgetChunks => on_queue (qm_modify id (set_chunks [])) s
  | EcRetry count next_at => on_queue (qm_modify id (set_retry count next_at)) s
  | EcClearResume => on_queue (queue_manager_clear_resume_state id) s
  | EcPublish status => on_queue (queue_manager_update_status id status) s
  | EcDbDropChunks => on_db (db_delete_chunks sql_ok id) s
  | EcDbNoSize => on_db (db_update_total_size sql_ok id 0) s
  | EcDbStatus text => on_db (db_update_status sql_ok id text) s
  | EcUnlink => on_files (fun fs => unlink env fs (d_dest_path dl)) s
  | EcBroadcast text num den => ipc_broadcast_status id text num den s
  end.

(** ** Ticks *)

Definition reap_worker (w : SchedulerWorker) : SchedulerWorker :=
  if negb (sw_in_use w) || negb (sw_done w) then w else mkSW None 0 (sw_done w) false PhIdle.

Definition reap_finished_workers (ws : list SchedulerWorker) : list SchedulerWorker :=
  map reap_worker ws.

Definition free_worker (ws : list SchedulerWorker) : option nat :=
  fst <$> list_find (fun w => sw_in_use w = false) ws.

Definition start_entry (d : Download) : Download :=
  set_status DOWNLOAD_ACTIVE (set_retry (d_retry_count d) 0 d).

(** [now] is the clock, [create_ok] whether the thread can be created. *)
Definition scheduler_tick (now : Z) (create_ok : bool) (ws : list SchedulerWorker) (s : SState)
    : list SchedulerWorker * SState :=
  let ws := reap_finished_workers ws in
  let active_count := queue_manager_count_by_status DOWNLOAD_ACTIVE (s_q s) in
  if negb (active_count <? g_max_concurrent cfg) then (ws, s)
  else
    match queue_manager_find_next_queued now (s_q s) with
    | None => (ws, s)
    | Some next_dl =>
        let id := d_id next_dl in
        let s := on_queue (qm_modify id start_entry) s in
        match free_worker ws with
        | Some i =>
            if create_ok then (<[i := mkSW (Some id) id false true PhEngine]> ws, s)
            else (<[i := idle_worker]> ws, on_queue (qm_modify id (set_status DOWNLOAD_QUEUED)) s)
        | None => (ws, on_queue (qm_modify id (set_status DOWNLOAD_QUEUED)) s)
        end
    end.

Definition scheduler_report_progress (s : SState) : SState :=
  let snaps := queue_manager_snapshot_active_progress 64 (s_q s) in
  let s := foldl (fun s p =>
             if 0 <? ps_total p then
               ipc_broadcast_status (ps_id p) (str "Downloading") (ps_bytes p) (ps_total p) s
             else ipc_broadcast_status (ps_id p) (str "Downloading") 0 1 s) s snaps in
  let chunk_snaps := queue_manager_snapshot_chunk_progress 64 (s_q s) in
  foldl (fun s c =>
           on_db (db_update_chunk_progress sql_ok (cp_download_id c) (cp_range_start c)
                    (cp_bytes_done c)) s) s chunk_snaps.

(** [scheduler_shutdown]: every running download is asked to pause; the joins
    wait for [PhReturned]; then the table is cleared. *)
Definition shutdown_request (ws : list SchedulerWorker) (s : SState) : SState :=
  foldl (fun s w =>
           if sw_in_use w then on_queue (fun q => snd (queue_manager_pause (sw_download_id w) q)) s
           else s) s ws.

Definition shutdown_clear (ws : list SchedulerWorker) : list SchedulerWorker :=
  map (fun w => if sw_in_use w then mkSW None 0 (sw_done w) false PhIdle else w) ws.

(** ** Interleavings *)

Definition set_done (w : SchedulerWorker) : SchedulerWorker :=
  mkSW (sw_download w) (sw_download_id w) true (sw_in_use w) PhReturned.

Definition set_phase (p : phase) (w : SchedulerWorker) : SchedulerWorker :=
  mkSW (sw_download w) (sw_download_id w) (sw_done w) (sw_in_use w) p.

(** The commands of the clients. *)
Definition client_op (op : qm_op) : Prop :=
  match op with
  | OpAdd _ _ _ _ _ | OpRemove _ | OpCancel _ | OpClear _ | OpPause _ | OpResume _ => True
  | _ => False
  end.

Context (safe : bytes -> bool).

(** In [ss_engine] the engine has returned [rc]; it has left the entry with its
    id and status, and the rest of the world as it likes.  From then on the
    thread makes one call at a time ([ss_call]).  Ticks, reports and commands
    are one step each: the daemon's main loop runs them one after the other in
    one thread. *)
Inductive sched_step : list SchedulerWorker * SState -> list SchedulerWorker * SState -> Prop :=
| ss_tick now create_ok ws s :
    sched_step (ws, s) (scheduler_tick now create_ok ws s)
| ss_report ws s : sched_step (ws, s) (ws, scheduler_report_progress s)
| ss_engine ws q fs t ev i w id d d' fs' t' rc now :
    ws !! i = Some w -> sw_phase w = PhEngine -> sw_download w = Some id ->
    find_first id (g_head q) = Some d -> d_id d' = d_id d -> d_status d' = d_status d ->
    sched_step (ws, mkS q fs t ev)
      (<[i := set_phase (PhEnding d' (end_calls rc now d')) w]> ws,
       mkS (qm_modify id (fun _ => d') q) fs' t' ev)
| ss_call ws s i w dl c calls :
    ws !! i = Some w -> sw_phase w = PhEnding dl (c :: calls) ->
    sched_step (ws, s) (<[i := set_phase (PhEnding dl calls) w]> ws, end_call dl c s)
| ss_done ws s i w dl :
    ws !! i = Some w -> sw_phase w = PhEnding dl [] ->
    sched_step (ws, s) (<[i := set_done w]> ws, s)
| ss_client ws q fs t ev op t' :
    client_op op -> g_next_id q < 2 ^ 32 - 1 ->
    sched_step (ws, mkS q fs t ev)
      (ws, mkS (fst (qm_apply safe env op (q, fs))) (snd (qm_apply safe env op (q, fs))) t' ev)
| ss_shutdown ws s : sched_step (ws, s) (ws, shutdown_request ws s).

End Scheduler.

(** A run under configurations whose [max_concurrent] is at most [limit]:
    MSG_RELOAD_CONFIG may change the configuration between any two steps. *)
Definition sched_run (sql_ok : sql -> Tables -> bool) (env : IoEnv) (safe : bytes -> bool) (limit : Z)
    (st st' : list SchedulerWorker * SState) : Prop :=
  exists cfg, g_max_concurrent cfg <= limit /\ sched_step sql_ok env cfg safe st st'.

(** A thread has its entry from its start until it publishes the new status. *)
Definition is_publish (c : EndCall) : bool := match c with EcPublish _ => true | _ => false end.

Definition has_entry (w : SchedulerWorker) : Prop :=
  match sw_phase w with
  | PhEngine => True
  | PhEnding _ calls => existsb is_publish calls = true
  | _ => False
  end.

(** ** Lemmas *)

Section Lemmas.

Context (sql_ok : sql -> Tables -> bool) (env : IoEnv) (safe : bytes -> bool) (limit : Z).

(** The calls are the end of the thread, made without interruption. *)
Lemma end_calls_run cfg rc now dl s :
  foldl (fun s c => end_call sql_ok env dl c s) s (end_calls cfg rc now dl) =
  download_thread_end sql_ok env cfg rc now dl s.
Proof.
  unfold end_calls, download_thread_end, publish_calls, publish, reset_retry, on_queue, on_db, on_files.
  repeat case_match; cbn [foldl app end_call]; unfold on_queue, on_db, on_files; cbn [s_q s_fs s_db s_events];
    rewrite ?qm_modify_compose by done; reflexivity.
Qed.

(** At most one call publishes, and what it publishes is not ACTIVE. *)
Fixpoint one_publish (calls : list EndCall) : Prop :=
  match calls with
  | [] => True
  | EcPublish status :: calls => status <> DOWNLOAD_ACTIVE /\ existsb is_publish calls = false
  | _ :: calls => one_publish calls
  end.

Lemma end_calls_publish cfg rc now dl :
  existsb is_publish (end_calls cfg rc now dl) = true /\ one_publish (end_calls cfg rc now dl).
Proof. unfold end_calls, publish_calls. by repeat case_match. Qed.

Definition calls_fit (w : SchedulerWorker) : Prop :=
  match sw_phase w with
  | PhEnding dl calls => sw_download w = Some (d_id dl) /\ one_publish calls
  | _ => True
  end.

Record sched_inv (ws : list SchedulerWorker) (s : SState) : Prop := {
  sv_wf : qm_wf (s_q s);
  sv_bound : Z.of_nat (length (filter activep (g_head (s_q s)))) <= limit;
  sv_idle : forall i w, ws !! i = Some w -> sw_in_use w = false -> sw_phase w = PhIdle;
  sv_done : forall i w, ws !! i = Some w -> sw_done w = true -> ~ has_entry w;
  sv_calls : forall i w, ws !! i = Some w -> calls_fit w;
  sv_engine : forall i w, ws !! i = Some w -> has_entry w ->
    exists id d, sw_download w = Some id /\ sw_download_id w = id /\
      find_first id (g_head (s_q s)) = Some d /\ activep d;
  sv_once : forall i j w w', ws !! i = Some w -> ws !! j = Some w' ->
    has_entry w -> has_entry w' -> sw_download w = sw_download w' -> i = j;
  sv_served : forall id d, find_first id (g_head (s_q s)) = Some d -> activep d ->
    exists i w, ws !! i = Some w /\ has_entry w /\ sw_download w = Some id;
}.

Lemma insert_cases i j (w x : SchedulerWorker) (ws : list SchedulerWorker) :
  <[i := w]> ws !! j = Some x -> (j = i /\ x = w) \/ (j <> i /\ ws !! j = Some x).
Proof.
  destruct (decide (j = i)) as [->|].
  - intros H. assert (i < length ws)%nat as Hl.
    { apply lookup_lt_Some in H. by rewrite length_insert in H. }
    rewrite list_lookup_insert_eq in H by done. injection H as <-. by left.
  - rewrite list_lookup_insert_ne by done. by right.
Qed.

(** A change of the queue that keeps which ids are active. *)
Lemma sched_inv_queue ws s s' :
  sched_inv ws s -> qm_wf (s_q s') ->
  (length (filter activep (g_head (s_q s'))) <= length (filter activep (g_head (s_q s))))%nat ->
  (forall id, (exists d, find_first id (g_head (s_q s')) = Some d /\ activep d) <->
              (exists d, find_first id (g_head (s_q s)) = Some d /\ activep d)) ->
  sched_inv ws s'.
Proof.
  intros [] Hwf Hle Heq. split; try done; [lia| |].
  - intros i w Hw Hp. destruct (sv_engine0 i w Hw Hp) as (id & d & E1 & E2 & Hd & Ha).
    destruct (proj2 (Heq id) (ex_intro _ d (conj Hd Ha))) as (d' & ? & ?). by exists id, d'.
  - intros id d Hd Ha. destruct (proj1 (Heq id) (ex_intro _ d (conj Hd Ha))) as (d' & Hd' & Ha').
    by eapply sv_served0.
Qed.

Lemma active_ids_modify id' id f q :
  keeps_id f -> (forall d, activep (f d) <-> activep d) ->
  (exists d, find_first id' (g_head (qm_modify id f q)) = Some d /\ activep d) <->
  (exists d, find_first id' (g_head q) = Some d /\ activep d).
Proof.
  intros Hk Ha. simpl. rewrite find_first_modify by done. case_decide as E; [|done]. subst id'.
  split.
  - intros (d & (d0 & Hd0 & ->)%fmap_Some & Hd). exists d0. split; [done|]. by apply Ha.
  - intros (d & Hd & Hact). exists (f d). rewrite Hd. split; [done|]. by apply Ha.
Qed.

Lemma sched_inv_modify ws s id f :
  sched_inv ws s -> keeps_id f -> (forall d, activep (f d) <-> activep d) ->
  sched_inv ws (on_queue (qm_modify id f) s).
Proof.
  intros Hi Hk Ha. apply (sched_inv_queue ws s); [done|apply qm_wf_modify; [done|by destruct Hi]| |].
  - simpl. apply active_modify_le. intros d. apply Ha.
  - intros id'. simpl. by apply active_ids_modify.
Qed.

Lemma pause_active d : activep (pause_entry d) <-> activep d.
Proof. unfold activep, pause_entry. by destruct (d_status d) eqn:E; simpl; rewrite ?E. Qed.

Lemma cancel_active d : activep (cancel_entry d) <-> activep d.
Proof. unfold activep, cancel_entry. case_decide as E; simpl; by rewrite ?E. Qed.

Lemma resume_active d : activep (resume_entry d) <-> activep d.
Proof.
  unfold activep, resume_entry, resumable. case_bool; [|done]. apply bool_decide_eq_true in Heqb.
  simpl. split; [done|]. intros E. destruct Heqb; congruence.
Qed.

Lemma shutdown_inv ws l s : sched_inv ws s -> sched_inv ws (shutdown_request l s).
Proof.
  unfold shutdown_request. revert s. induction l as [|w l IH]; intros s Hi; [done|]. simpl. apply IH.
  destruct (sw_in_use w); [|done]. unfold queue_manager_pause. simpl.
  apply (sched_inv_modify ws s (sw_download_id w) pause_entry Hi keeps_pause pause_active).
Qed.

(** The events and the database do not matter here. *)
Lemma sched_inv_same_queue ws s s' : sched_inv ws s -> s_q s' = s_q s -> sched_inv ws s'.
Proof. intros [] E. split; rewrite ?E; done. Qed.

Lemma report_queue s : s_q (scheduler_report_progress sql_ok s) = s_q s.
Proof.
  unfold scheduler_report_progress. set (snaps := queue_manager_snapshot_active_progress _ _).
  set (cs := queue_manager_snapshot_chunk_progress _ _). clearbody snaps cs.
  transitivity (s_q (foldl (fun s p =>
    if 0 <? ps_total p then ipc_broadcast_status (ps_id p) (str "Downloading") (ps_bytes p) (ps_total p) s
    else ipc_broadcast_status (ps_id p) (str "Downloading") 0 1 s) s snaps)).
  - set (s1 := foldl _ s snaps). clearbody s1. revert s1. induction cs as [|c cs IH]; intros s1; [done|].
    simpl. by rewrite IH.
  - revert s. induction snaps as [|p snaps IH]; intros s; [done|]. simpl. rewrite IH. by case_bool.
Qed.

(** An update of an entry that is not active, and stays so. *)
Lemma sched_inv_inactive ws s id f :
  sched_inv ws s -> keeps_id f -> (forall d, ~ activep (f d)) ->
  (forall d, find_first id (g_head (s_q s)) = Some d -> ~ activep d) ->
  sched_inv ws (on_queue (qm_modify id f) s).
Proof.
  intros Hi Hk Hf Hd. apply (sched_inv_queue ws s); [done|apply qm_wf_modify; [done|by destruct Hi]| |].
  - simpl. apply active_modify_le. intros d Ha. by destruct (Hf d).
  - intros id'. simpl. rewrite find_first_modify by done. case_decide as E; [|done]. subst id'. split.
    + intros (d & (d0 & Hd0 & ->)%fmap_Some & Ha). by destruct (Hf d0).
    + intros (d & Hd0 & Ha). by destruct (Hd d).
Qed.

(** A change of one slot that keeps whether it has an entry, and which. *)
Lemma sched_inv_slot ws s i w w' :
  sched_inv ws s -> ws !! i = Some w -> (has_entry w' <-> has_entry w) ->
  (has_entry w -> sw_download w' = sw_download w /\ sw_download_id w' = sw_download_id w) ->
  (sw_in_use w' = false -> sw_phase w' = PhIdle) -> (sw_done w' = true -> ~ has_entry w') ->
  calls_fit w' -> sched_inv (<[i := w']> ws) s.
Proof.
  intros [] Hw Hh Hsame Hidle Hdone Hfit. split; try done.
  - intros j x [[-> ->]|[_ Hx]]%insert_cases; [done|by eapply sv_idle0].
  - intros j x [[-> ->]|[_ Hx]]%insert_cases; [done|by eapply sv_done0].
  - intros j x [[-> ->]|[_ Hx]]%insert_cases; [done|by eapply sv_calls0].
  - intros j x [[-> ->]|[_ Hx]]%insert_cases Hp; [|by eapply sv_engine0].
    apply Hh in Hp. destruct (Hsame Hp) as [-> ->]. by eapply sv_engine0.
  - intros j k x y [[-> ->]|[? Hx]]%insert_cases [[-> ->]|[? Hy]]%insert_cases Hp Hp'; [done| | |by eapply sv_once0].
    + apply Hh in Hp. rewrite (proj1 (Hsame Hp)). by eapply sv_once0.
    + apply Hh in Hp'. rewrite (proj1 (Hsame Hp')). by eapply sv_once0.
  - intros id d Hd Ha. destruct (sv_served0 id d Hd Ha) as (j & x & Hx & Hp & Ex).
    destruct (decide (j = i)) as [->|]; [|exists j, x; by rewrite list_lookup_insert_ne].
    assert (x = w) as -> by congruence. exists i, w'.
    rewrite list_lookup_insert_eq by (by eapply lookup_lt_Some).
    rewrite (proj1 (Hsame Hp)). split; [done|]. by apply Hh in Hp.
Qed.

(** The thread of worker [i] publishes: its entry is not active any more. *)
Lemma sched_inv_end ws s s' i w w' id g :
  sched_inv ws s -> ws !! i = Some w -> has_entry w -> sw_download w = Some id ->
  keeps_id g -> (forall d, ~ activep (g d)) -> s_q s' = qm_modify id g (s_q s) ->
  ~ has_entry w' -> (sw_in_use w' = false -> sw_phase w' = PhIdle) -> calls_fit w' ->
  sched_inv (<[i := w']> ws) s'.
Proof.
  intros Hi Hw Hp Hdl Hk Hg Hq Hp' Hu Hfit. pose proof Hi as []. split; rewrite ?Hq.
  - by apply qm_wf_modify.
  - etrans; [|exact sv_bound0]. apply inj_le. apply active_modify_le. intros d Ha. by destruct (Hg d).
  - intros j x [[-> ->]|[_ Hx]]%insert_cases; [done|by eapply sv_idle0].
  - intros j x [[-> ->]|[_ Hx]]%insert_cases; [done|by eapply sv_done0].
  - intros j x [[-> ->]|[_ Hx]]%insert_cases; [done|by eapply sv_calls0].
  - intros j x [[-> ->]|[Hne Hx]]%insert_cases Hpx; [done|].
    destruct (sv_engine0 j x Hx Hpx) as (id' & d & E1 & E2 & Hd & Ha). exists id', d.
    split; [done|]. split; [done|]. split; [|done]. simpl. rewrite find_first_modify by done.
    rewrite decide_False; [done|]. intros ->. apply Hne. eapply sv_once0; eauto. congruence.
  - intros j k x y [[-> ->]|[? Hx]]%insert_cases [[-> ->]|[? Hy]]%insert_cases; try done. by eapply sv_once0.
  - intros id' d. simpl. rewrite find_first_modify by done. case_decide as E.
    + intros (d0 & _ & ->)%fmap_Some Ha. by destruct (Hg d0).
    + intros Hd Ha. destruct (sv_served0 id' d Hd Ha) as (j & x & Hx & Hpx & Ex). exists j, x.
      split; [|done]. rewrite list_lookup_insert_ne; [done|]. intros ->. congruence.
Qed.

Lemma reap_engine w : has_entry (reap_worker w) -> reap_worker w = w.
Proof. unfold reap_worker. by case_bool. Qed.

Lemma sched_inv_reap ws s : sched_inv ws s -> sched_inv (reap_finished_workers ws) s.
Proof.
  intros []. unfold reap_finished_workers.
  assert (forall j x, map reap_worker ws !! j = Some x -> exists w, ws !! j = Some w /\ x = reap_worker w) as Hc.
  { intros j x. intros (w & -> & Hw)%list_lookup_fmap_Some. by exists w. }
  assert (forall j x, map reap_worker ws !! j = Some x -> has_entry x -> ws !! j = Some x) as Hce.
  { intros j x (w & Hw & ->)%Hc Hp. by rewrite (reap_engine w Hp). }
  split; try done.
  - intros j x (w & Hw & ->)%Hc. unfold reap_worker. case_bool; [by eapply sv_idle0|done].
  - intros j x (w & Hw & ->)%Hc. unfold reap_worker. case_bool; [by eapply sv_done0|]. by intros _ ?.
  - intros j x (w & Hw & ->)%Hc. unfold reap_worker. case_bool; [by eapply sv_calls0|done].
  - intros j x Hx Hp. by eapply sv_engine0; eauto.
  - intros j k x y Hx Hy Hp Hp'. by eapply sv_once0; eauto.
  - intros id d Hd Ha. destruct (sv_served0 id d Hd Ha) as (j & x & Hx & Hp & E). exists j, x.
    split; [|done]. apply list_lookup_fmap_Some. exists x. split; [|done].
    unfold reap_worker. destruct (sw_in_use x) eqn:Eu; [|done]. destruct (sw_done x) eqn:Ed; [|done].
    by destruct (sv_done0 j x Hx Ed).
Qed.

(** A thread is started for an entry that was queued. *)
Lemma sched_inv_start ws s i w d :
  sched_inv ws s -> find_first (d_id d) (g_head (s_q s)) = Some d -> ~ activep d ->
  Z.of_nat (length (filter activep (g_head (s_q s)))) < limit ->
  ws !! i = Some w -> sw_in_use w = false ->
  sched_inv (<[i := mkSW (Some (d_id d)) (d_id d) false true PhEngine]> ws)
    (on_queue (qm_modify (d_id d) start_entry) s).
Proof.
  intros Hi Hd Hna Hlt Hw Hu. pose proof Hi as []. set (w' := mkSW _ _ _ _ _).
  assert (forall j x, ws !! j = Some x -> has_entry x -> sw_download x <> Some (d_id d)) as Hno.
  { intros j x Hx Hp E. destruct (sv_engine0 j x Hx Hp) as (id & d' & E1 & _ & Hd' & Ha).
    rewrite E in E1. injection E1 as <-. congruence. }
  split; cbn [on_queue s_q]; try done.
  - by apply qm_wf_modify.
  - pose proof (active_modify_succ (d_id d) start_entry (g_head (s_q s))). simpl. lia.
  - intros j x [[-> ->]|[_ Hx]]%insert_cases; [done|by eapply sv_idle0].
  - intros j x [[-> ->]|[_ Hx]]%insert_cases; [done|by eapply sv_done0].
  - intros j x [[-> ->]|[_ Hx]]%insert_cases; [done|by eapply sv_calls0].
  - intros j x [[-> ->]|[_ Hx]]%insert_cases Hp.
    + exists (d_id d), (start_entry d). simpl. rewrite find_first_modify by done.
      by rewrite decide_True, Hd by done.
    + destruct (sv_engine0 j x Hx Hp) as (id & d' & E1 & E2 & Hd' & Ha). exists id, d'.
      split; [done|]. split; [done|]. simpl. rewrite find_first_modify by done.
      rewrite decide_False; [done|]. intros ->. by destruct (Hno j x Hx Hp).
  - intros j k x y [[-> ->]|[? Hx]]%insert_cases [[-> ->]|[? Hy]]%insert_cases Hp Hp' E; try done.
    + by destruct (Hno k y Hy Hp').
    + by destruct (Hno j x Hx Hp).
    + by eapply sv_once0.
  - intros id d'. simpl. rewrite find_first_modify by done. case_decide as E.
    + intros _ _. exists i, w'. rewrite list_lookup_insert_eq by (by eapply lookup_lt_Some). by subst id.
    + intros Hd' Ha. destruct (sv_served0 id d' Hd' Ha) as (j & x & Hx & Hp & Ex). exists j, x.
      split; [|done]. rewrite list_lookup_insert_ne; [done|]. intros ->.
      rewrite Hw in Hx. injection Hx as ->. unfold has_entry in Hp. by rewrite (sv_idle0 j x Hw Hu) in Hp.
Qed.

Lemma next_queued_found now q d :
  qm_wf q -> queue_manager_find_next_queued now q = Some d ->
  find_first (d_id d) (g_head q) = Some d /\ d_status d = DOWNLOAD_QUEUED.
Proof.
  intros Hwf. unfold queue_manager_find_next_queued. intros E.
  pose proof (find_next_loop_none now (g_head q)) as Hp. rewrite E in Hp.
  destruct Hp as (l1 & l2 & El & [Hs _] & _). split; [|done].
  apply find_first_elem; [by destruct Hwf|]. rewrite El. apply elem_of_app. right. by left.
Qed.

Lemma idle_inv ws s i : sched_inv ws s -> (exists w, ws !! i = Some w /\ sw_in_use w = false) ->
  sched_inv (<[i := idle_worker]> ws) s.
Proof.
  intros Hi (w & Hw & Hu). pose proof (sv_idle _ _ Hi i w Hw Hu) as Hp.
  apply (sched_inv_slot ws s i w); unfold has_entry; rewrite ?Hp; done.
Qed.

Lemma sched_inv_tick cfg now create_ok ws s :
  g_max_concurrent cfg <= limit -> sched_inv ws s ->
  sched_inv (fst (scheduler_tick cfg now create_ok ws s)) (snd (scheduler_tick cfg now create_ok ws s)).
Proof.
  intros Hcfg Hi%sched_inv_reap. unfold scheduler_tick. set (ws1 := reap_finished_workers ws) in *.
  unfold queue_manager_count_by_status. rewrite count_loop_filter.
  destruct (Z.ltb_spec (0 + Z.of_nat (length (filter activep (g_head (s_q s))))) (g_max_concurrent cfg))
    as [Hlt|]; [|done]. cbn [negb].
  destruct (queue_manager_find_next_queued now (s_q s)) as [d|] eqn:En; [|done].
  destruct (next_queued_found _ _ _ (sv_wf _ _ Hi) En) as [Hd Hq].
  assert (~ activep d) as Hna by (unfold activep; congruence).
  assert (forall ws', sched_inv ws' s -> sched_inv ws'
            (on_queue (qm_modify (d_id d) (set_status DOWNLOAD_QUEUED))
               (on_queue (qm_modify (d_id d) start_entry) s))) as Hroll.
  { intros ws' Hi'. apply (sched_inv_same_queue _ (on_queue (qm_modify (d_id d)
      (fun x => set_status DOWNLOAD_QUEUED (start_entry x))) s)); [|by simpl; rewrite qm_modify_compose].
    apply sched_inv_inactive; [done|done|done|]. intros x Hx. congruence. }
  destruct (free_worker ws1) as [i|] eqn:Ef; [|by apply Hroll].
  unfold free_worker in Ef. apply fmap_Some in Ef as ((j & w) & Ef & ->).
  apply list_find_Some in Ef as (Hw & Hu & _). cbn [fst].
  destruct create_ok; cbn [fst snd].
  - eapply sched_inv_start; eauto. lia.
  - apply Hroll. apply idle_inv; eauto.
Qed.

Lemma sched_inv_client ws q fs t ev op t' :
  sched_inv ws (mkS q fs t ev) -> client_op op -> g_next_id q < 2 ^ 32 - 1 ->
  sched_inv ws (mkS (fst (qm_apply safe env op (q, fs))) (snd (qm_apply safe env op (q, fs))) t' ev).
Proof.
  intros Hi Hop Hn. pose proof Hi as []. simpl in sv_wf0.
  assert (forall id f, keeps_id f -> (forall d, activep (f d) <-> activep d) ->
    sched_inv ws (mkS (qm_modify id f q) fs t' ev)) as Hmod.
  { intros id f Hk Hf. apply (sched_inv_same_queue _ (on_queue (qm_modify id f) (mkS q fs t ev))); [|done].
    by apply sched_inv_modify. }
  assert (qm_wf (fst (qm_apply safe env op (q, fs)))) as Hwf.
  { apply qm_wf_apply; [done|]. split; [done|]. by destruct op. }
  destruct op as [a r url dest opts| | |id| |id|id|id|id]; try done;
    cbn [qm_apply fst snd queue_manager_cancel queue_manager_pause queue_manager_resume
         queue_manager_clear_resume_state] in *.
  - unfold queue_manager_add in *. destruct (negb (safe dest)); [by destruct Hi|].
    destruct (negb a); [by destruct Hi|]. destruct (_ && _); [by destruct Hi|]. cbn [fst snd] in *.
    apply (sched_inv_queue ws (mkS q fs t ev)); [done|done|simpl; by rewrite filter_cons_False|].
    intros id. simpl. destruct (Z.eqb_spec (g_next_id q) id) as [<-|]; [|done]. split.
    + by intros (d & [= <-] & ?).
    + intros (d & Hd & _). apply find_first_Some in Hd as [Hin Hid].
      destruct (wf_next_fresh q sv_wf0). rewrite <- Hid. by apply list_elem_of_fmap_2.
  - unfold queue_manager_remove in *. pose proof (remove_loop_cases env id (g_head q) fs) as Hc.
    destruct (find_first id (g_head q)) as [d|] eqn:Ed; [|rewrite Hc; by destruct q, Hi].
    destruct (decide (d_status d = DOWNLOAD_ACTIVE)) as [Ha|Hna].
    + rewrite Hc. by apply (Hmod id (fun d => set_flags true (d_pause_requested d) d)).
    + pose proof (remove_find_other env id) as Hother. unfold queue_manager_remove in Hother.
      destruct Hc as (l1 & l2 & El & Hn1 & Hc). rewrite Hc in Hwf |- *. cbn [fst snd] in *.
      apply (sched_inv_queue ws (mkS q fs t ev)); [done|done| |].
      * simpl. rewrite El, !filter_app, !length_app, filter_cons. case_decide; simpl; lia.
      * intros id'. simpl. destruct (decide (id' = id)) as [->|Hne].
        -- split; [|intros (x & Hx & Hax); rewrite Ed in Hx; injection Hx as <-; by destruct Hna].
           intros (x & Hx & _). exfalso. apply find_first_Some in Hx as [Hin Hid].
           pose proof (wf_nodup _ sv_wf0) as Hnd. rewrite El in Hnd.
           apply find_first_Some in Ed as [_ Hdid].
           unfold ids in Hnd. rewrite map_app in Hnd. cbn [map] in Hnd.
           apply NoDup_app in Hnd as (_ & _ & [Hn2 _]%NoDup_cons).
           apply elem_of_app in Hin as [Hin|Hin].
           ++ apply Hn1. rewrite <- Hid. by apply list_elem_of_fmap_2.
           ++ apply Hn2. rewrite Hdid, <- Hid. by apply list_elem_of_fmap_2.
        -- specialize (Hother id' q fs Hne). rewrite Hc in Hother. simpl in Hother. by rewrite Hother.
  - apply Hmod; [apply keeps_cancel|apply cancel_active].
  - by apply Hmod.
  - apply Hmod; [apply keeps_pause|apply pause_active].
  - apply Hmod; [apply keeps_resume|apply resume_active].
Qed.

(** The engine returns: the entry is as it left it, with its id and status. *)
Lemma sched_inv_return cfg rc now ws q fs t ev i w id d d' fs' t' :
  sched_inv ws (mkS q fs t ev) -> ws !! i = Some w -> sw_phase w = PhEngine -> sw_download w = Some id ->
  find_first id (g_head q) = Some d -> d_id d' = d_id d -> d_status d' = d_status d ->
  sched_inv (<[i := set_phase (PhEnding d' (end_calls cfg rc now d')) w]> ws)
    (mkS (qm_modify id (fun _ => d') q) fs' t' ev).
Proof.
  intros Hi Hw Hp Hdl Hd Hid Hst. destruct (end_calls_publish cfg rc now d') as [H1 H2].
  assert (d_id d = id) as Eid by (by apply find_first_Some in Hd as [_ ?]).
  set (f x := set_status (d_status x) (if d_id x =? id then d' else x)).
  assert (qm_modify id (fun _ => d') q = qm_modify id f q) as ->.
  { unfold qm_modify. f_equal. apply (modify_first_at id _ _ _ d Hd). unfold f.
    rewrite Eid, Z.eqb_refl, <- Hst. by destruct d'. }
  assert (sw_in_use w = false -> sw_phase w = PhIdle) as Hidle by (by apply (sv_idle _ _ Hi i w)).
  assert (has_entry w) as Hh by (unfold has_entry; by rewrite Hp).
  apply (sched_inv_slot _ _ i w); try done.
  - apply (sched_inv_same_queue _ (on_queue (qm_modify id f) (mkS q fs t ev))); [|done].
    apply sched_inv_modify; [done| |done]. intros x. unfold f.
    destruct (Z.eqb_spec (d_id x) id); cbn [d_id set_status]; congruence.
  - intros E. rewrite (Hidle E) in Hp. done.
  - intros E. by destruct (sv_done _ _ Hi i w Hw E).
  - split; [by rewrite Hid, Eid|done].
Qed.

Lemma end_call_other dl c s :
  is_publish c = false ->
  exists f, keeps_id f /\ (forall d, activep (f d) <-> activep d) /\
    s_q (end_call sql_ok env dl c s) = qm_modify (d_id dl) f (s_q s).
Proof.
  assert (forall q, q = qm_modify (d_id dl) (fun d => d) q) as Hq.
  { intros q. destruct q as [l n]. unfold qm_modify. simpl. f_equal. by rewrite modify_first_id. }
  destruct c; intros Hc; try done; cbn [end_call];
    first [by eexists; split; [|split; [|reflexivity]]|by exists (fun d => d); split; [|split; [|apply Hq]]].
Qed.

(** One call of an ending thread. *)
Lemma sched_inv_call ws s i w dl c calls :
  sched_inv ws s -> ws !! i = Some w -> sw_phase w = PhEnding dl (c :: calls) ->
  sched_inv (<[i := set_phase (PhEnding dl calls) w]> ws) (end_call sql_ok env dl c s).
Proof.
  intros Hi Hw Hp.
  assert (sw_in_use w = false -> sw_phase w = PhIdle) as Hidle by (by apply (sv_idle _ _ Hi i w)).
  pose proof (sv_calls _ _ Hi i w Hw) as Hfit. unfold calls_fit in Hfit. rewrite Hp in Hfit, Hidle.
  destruct Hfit as [Hdl Hone]. destruct (is_publish c) eqn:Ec.
  - destruct c; try done. destruct Hone as [Hst Hnone].
    eapply (sched_inv_end ws s _ i w _ (d_id dl) (set_status status)); try done.
    + unfold has_entry. by rewrite Hp.
    + unfold has_entry. simpl. by rewrite Hnone.
    + intros E. by discriminate (Hidle E).
    + split; [done|]. clear -Hnone. induction calls as [|c calls IH]; [done|].
      apply orb_false_iff in Hnone as [??]. destruct c; try done; by apply IH.
  - destruct (end_call_other dl c s Ec) as (f & Hk & Hf & Eq).
    assert (has_entry (set_phase (PhEnding dl calls) w) <-> has_entry w) as Hh.
    { unfold has_entry. rewrite Hp. simpl. by rewrite Ec. }
    apply (sched_inv_slot _ _ i w); try done.
    + by apply (sched_inv_same_queue _ (on_queue (qm_modify (d_id dl) f) s)); [apply sched_inv_modify|].
    + intros E. by discriminate (Hidle E).
    + intros E. rewrite Hh. by apply (sv_done _ _ Hi i w).
    + split; [done|]. by destruct c.
Qed.

Lemma sched_inv_step st st' :
  sched_inv (fst st) (snd st) -> sched_run sql_ok env safe limit st st' -> sched_inv (fst st') (snd st').
Proof.
  intros Hi (cfg & Hcfg & Hs).
  destruct Hs as [now ok ws s|ws s|ws q fs t ev i w id d d' fs' t' rc now Hw Hp Hdl Hd Hid Hst
    |ws s i w dl c calls Hw Hp|ws s i w dl Hw Hp|ws q fs t ev op t' Hop Hn|ws s]; cbn [fst snd] in *.
  - by apply sched_inv_tick.
  - by apply (sched_inv_same_queue _ s); [|apply report_queue].
  - by eapply sched_inv_return.
  - by eapply sched_inv_call.
  - assert (sw_in_use w = false -> sw_phase w = PhIdle) as Hidle by (by apply (sv_idle _ _ Hi i w)).
    rewrite Hp in Hidle.
    apply (sched_inv_slot ws s i w); try done; [|intros E; by discriminate (Hidle E)|by intros _ ?].
    unfold has_entry. by rewrite Hp.
  - by eapply sched_inv_client.
  - by apply shutdown_inv.
Qed.

Lemma sched_inv_init q fs t :
  qm_wf q -> (forall d, d ∈ g_head q -> d_status d <> DOWNLOAD_ACTIVE) -> 0 <= limit ->
  sched_inv (replicate SCHEDULER_MAX_WORKERS idle_worker) (mkS q fs t []).
Proof.
  intros Hwf Hno Hmax. assert (filter activep (g_head q) = []) as Hnil.
  { destruct (filter activep (g_head q)) as [|x l] eqn:E; [done|].
    assert (x ∈ filter activep (g_head q)) as Hx by (rewrite E; by left).
    apply list_elem_of_filter in Hx as [Ha Hx]. by destruct (Hno x Hx). }
  split; cbn [s_q]; rewrite ?Hnil; try done.
  - by intros i w [-> _]%lookup_replicate.
  - by intros i w [-> _]%lookup_replicate.
  - by intros i w [-> _]%lookup_replicate.
  - by intros i w [-> _]%lookup_replicate.
  - by intros i j w w' [-> _]%lookup_replicate.
  - intros id d [Hd _]%find_first_Some Ha. by destruct (Hno d Hd).
Qed.

(** A tick at or above the limit only reaps. *)
Lemma tick_full cfg now create_ok ws s :
  g_max_concurrent cfg <= Z.of_nat (length (filter activep (g_head (s_q s)))) ->
  scheduler_tick cfg now create_ok ws s = (reap_finished_workers ws, s).
Proof.
  intros Hle. unfold scheduler_tick, queue_manager_count_by_status. rewrite count_loop_filter.
  by rewrite (proj2 (Z.ltb_ge (0 + Z.of_nat (length (filter activep (g_head (s_q s))))) _)) by lia.
Qed.

End Lemmas.

(** ** Properties *)

(** C5. The scheduler has one thread at most in the engine for an entry, and
    never starts too many.  Threads, ticks, client commands, shutdown requests
    and reloads of the configuration interleave; after the engine's return a
    thread makes its calls one at a time, so that ticks and commands fall between
    any two of them.  From a queue with no active entry, when [limit] bounds the
    [max_concurrent] of every configuration the run has seen (with a fixed
    configuration: its own): at most [limit] entries are active; an entry is
    active exactly when a thread has it, that is, is in the engine for it or has
    not yet published its new status; an entry has one such thread; and it is in
    the queue, so that it is not freed under that thread.  A tick starts a thread
    only below the limit of the present configuration.  After it has published,
    a thread still writes the database and broadcasts, and the entry may by then
    have a second thread ([second_thread_while_ending]); a reload that lowers the
    limit stops no download ([reload_lowers_limit]). *)
Theorem scheduler_exclusive sql_ok env safe limit q fs t ws s :
  qm_wf q -> (forall d, d ∈ g_head q -> d_status d <> DOWNLOAD_ACTIVE) -> 0 <= limit ->
  rtc (sched_run sql_ok env safe limit)
    (replicate SCHEDULER_MAX_WORKERS idle_worker, mkS q fs t []) (ws, s) ->
  Z.of_nat (length (filter activep (g_head (s_q s)))) <= limit /\
  (forall d, d ∈ g_head (s_q s) ->
     d_status d = DOWNLOAD_ACTIVE <->
     exists i w, ws !! i = Some w /\ has_entry w /\ sw_download w = Some (d_id d)) /\
  (forall i w, ws !! i = Some w -> has_entry w ->
     exists d, d ∈ g_head (s_q s) /\ sw_download w = Some (d_id d)) /\
  (forall i j w w', ws !! i = Some w -> ws !! j = Some w' -> has_entry w ->
     has_entry w' -> sw_download w = sw_download w' -> i = j) /\
  (forall cfg now create_ok,
     g_max_concurrent cfg <= Z.of_nat (length (filter activep (g_head (s_q s)))) ->
     scheduler_tick cfg now create_ok ws s = (reap_finished_workers ws, s)).
Proof.
  intros Hwf Hno Hmax Hr.
  assert (sched_inv limit ws s) as [].
  { change (sched_inv limit (fst (ws, s)) (snd (ws, s))). revert Hr.
    apply (rtc_invariant _ (fun st => sched_inv limit (fst st) (snd st))).
    { intros a b. apply sched_inv_step. }
    by apply sched_inv_init. }
  split; [done|]. split; [|split; [|split; [done|]]].
  - intros d Hd. pose proof (find_first_elem _ d (wf_nodup _ sv_wf0) Hd) as Hf. split.
    + intros Ha. destruct (sv_served0 _ d Hf Ha) as (i & w & ? & ? & ?). by exists i, w.
    + intros (i & w & Hw & Hp & E). destruct (sv_engine0 i w Hw Hp) as (id & d' & E' & _ & Hd' & Ha).
      rewrite E in E'. injection E' as <-. rewrite Hf in Hd'. injection Hd' as <-. exact Ha.
  - intros i w Hw Hp. destruct (sv_engine0 i w Hw Hp) as (id & d & E & _ & Hd & _).
    apply find_first_Some in Hd as [Hin <-]. by exists d.
  - intros cfg now ok Hle. by apply tick_full.
Qed.

(** [status_to_string] of ipc_socket.c. *)
Definition status_to_string (s : DownloadStatus) : bytes :=
  match s with
  | DOWNLOAD_QUEUED => str "QUEUED"
  | DOWNLOAD_ACTIVE => str "ACTIVE"
  | DOWNLOAD_PAUSED => str "PAUSED"
  | DOWNLOAD_DONE => str "DONE"
  | DOWNLOAD_ERROR => str "ERROR"
  | DOWNLOAD_CANCELED => str "CANCELED"
  end.

(** The fate of a download: success wins over the user's flags, cancel over
    pause, and only a plain failure with attempts left is tried again. *)
Definition verdict (cfg : Config) (rc : Z) (d : Download) : DownloadStatus :=
  if rc =? 0 then DOWNLOAD_DONE
  else if d_cancel_requested d then DOWNLOAD_CANCELED
  else if d_pause_requested d then DOWNLOAD_PAUSED
  else if bool_decide (rc ∈ [-2; -3; -4]) || (g_retry_max_attempts cfg <=? d_retry_count d)
  then DOWNLOAD_ERROR else DOWNLOAD_QUEUED.

Section End.

Context (env : IoEnv) (cfg : Config).

(** What the last database statements of a branch leave. *)
Lemma db_status_spec id text t row :
  find_row (i32 id) t = Some row ->
  exists t', snd (db_update_status always_ok id text (Some t)) = Some t' /\
    find_row (i32 id) t' = Some (set_row_status text row) /\
    rows_of (i32 id) t' = rows_of (i32 id) t.
Proof.
  intros Hr. eexists. split; [reflexivity|]. split; [|done].
  by apply (find_row_update _ _ _ (t_chunks t)).
Qed.

Lemma db_delete_spec id t :
  exists t', snd (db_delete_chunks always_ok id (Some t)) = Some t' /\
    t_downloads t' = t_downloads t /\ rows_of (i32 id) t' = [].
Proof. eexists. split; [reflexivity|]. split; [done|]. apply rows_of_delete. Qed.

Lemma find_row_downloads id t t' :
  t_downloads t' = t_downloads t -> find_row id t' = find_row id t.
Proof. intros E. unfold find_row. by rewrite E. Qed.

(** The three facts every branch has to deliver, for a queue update [f]. *)
Definition ended (id : Z) (q q' : QM) (d : Download) (f : Download -> Download) (status : DownloadStatus)
    (t' : Tables) : Prop :=
  q' = qm_modify id f q /\ keeps_id f /\ d_status (f d) = status /\
  exists row', find_row (i32 id) t' = Some row' /\ row_status row' = status_to_string status.

Lemma publish_ended id status text event num q fs t ev row d f :
  keeps_id f -> find_row (i32 id) t = Some row -> text = status_to_string status ->
  let s' := publish always_ok id status text event num (mkS (qm_modify id f q) fs (Some t) ev) in
  exists t', s_db s' = Some t' /\ s_fs s' = fs /\ s_events s' = ev ++ [mkEvent id event num 1] /\
    rows_of (i32 id) t' = rows_of (i32 id) t /\
    ended id q (s_q s') d (fun x => set_status status (f x)) status t'.
Proof.
  intros Hf Hr ->. destruct (db_status_spec id (status_to_string status) t row Hr) as (t' & E & Hr' & Hrows).
  cbv zeta. exists t'. unfold publish, on_db, on_queue, ipc_broadcast_status, queue_manager_update_status.
  cbn [s_db s_fs s_q s_events]. split; [exact E|]. split; [done|]. split; [done|]. split; [done|].
  split; [by apply qm_modify_compose|]. split; [done|]. split; [done|]. by eexists.
Qed.

(** The canceled branch. *)
Lemma canceled_ended rc now d q fs t ev row :
  rc <> 0 -> d_cancel_requested d = true -> find_row (i32 (d_id d)) t = Some row ->
  let s' := download_thread_end always_ok env cfg rc now d (mkS q fs (Some t) ev) in
  exists t', s_db s' = Some t' /\ s_fs s' = unlink_dest env d fs /\
    s_events s' = ev ++ [mkEvent (d_id d) (str "Canceled") 0 1] /\
    rows_of (i32 (d_id d)) t' = [] /\
    ended (d_id d) q (s_q s') d (fun x => set_status DOWNLOAD_CANCELED (clear_entry x)) DOWNLOAD_CANCELED t'.
Proof.
  intros Hrc Hc Hr. cbv zeta. unfold download_thread_end.
  rewrite (proj2 (Z.eqb_neq rc 0) Hrc), Hc.
  unfold on_queue, on_db, on_files, ipc_broadcast_status, queue_manager_update_status,
    queue_manager_clear_resume_state.
  destruct (db_delete_spec (d_id d) t) as (t1 & E1 & D1 & R1).
  assert (find_row (i32 (d_id d)) t1 = Some row) as Hr1 by (by rewrite (find_row_downloads _ _ _ D1)).
  set (t2 := mkTables (update_rows (i32 (d_id d)) (set_row_size 0) (t_downloads t1)) (t_chunks t1)).
  assert (find_row (i32 (d_id d)) t2 = Some (set_row_size 0 row)) as Hr2.
  { by apply (find_row_update _ _ _ (t_chunks t1)). }
  destruct (db_status_spec (d_id d) (str "CANCELED") t2 _ Hr2) as (t3 & E3 & Hr3 & R3).
  assert (snd (db_update_total_size always_ok (d_id d) 0 (Some t1)) = Some t2) as E2 by done.
  exists t3. unfold unlink_dest. rewrite <- R1.
  destruct (decide (d_dest_path d = [])) as [Hd|Hd]; [rewrite (bool_decide_true _ Hd)|rewrite (bool_decide_false _ Hd)];
    cbn [s_q s_fs s_db s_events]; rewrite E1, E2, E3;
    (split; [done|]; split; [done|]; split; [done|]; split; [exact R3|]);
    (split; [by apply qm_modify_compose|]; split; [done|]; split; [done|]; by eexists).
Qed.

(** What a branch that ends with [status] leaves; [f] is its queue update. *)
Definition fate (d : Download) (q : QM) (fs : filesystem) (t : Tables) (ev : list StatusEvent)
    (status : DownloadStatus) (f : Download -> Download) (s' : SState) : Prop :=
  exists t' event, s_db s' = Some t' /\ ev_id event = d_id d /\ s_events s' = ev ++ [event] /\
    s_fs s' = (if bool_decide (status = DOWNLOAD_CANCELED) then unlink_dest env d fs else fs) /\
    rows_of (i32 (d_id d)) t' =
      (if bool_decide (status = DOWNLOAD_DONE \/ status = DOWNLOAD_CANCELED) then []
       else rows_of (i32 (d_id d)) t) /\
    ended (d_id d) q (s_q s') d f status t'.

Definition retry_ok (now : Z) (d d' : Download) : Prop :=
  d_retry_count d' = d_retry_count d + 1 /\ d_retry_count d' <= g_retry_max_attempts cfg /\
  d_next_retry_at d' = now + retry_backoff_seconds cfg (d_retry_count d + 1).

Lemma publish_fate d status text event num q fs t ev row f :
  keeps_id f -> find_row (i32 (d_id d)) t = Some row -> text = status_to_string status ->
  status <> DOWNLOAD_CANCELED -> status <> DOWNLOAD_DONE ->
  fate d q fs t ev status (fun x => set_status status (f x))
    (publish always_ok (d_id d) status text event num (mkS (qm_modify (d_id d) f q) fs (Some t) ev)).
Proof.
  intros Hf Hr Ht Hc Hd.
  destruct (publish_ended (d_id d) status text event num q fs t ev row d f Hf Hr Ht)
    as (t' & E1 & E2 & E3 & E4 & E5).
  eexists t', _. rewrite (bool_decide_false _ Hc), bool_decide_false by (by intros [?|?]).
  split; [done|]. split; [|split; [exact E3|]]; done.
Qed.

Lemma qm_modify_id id q : qm_modify id (fun x => x) q = q.
Proof.
  destruct q as [l n]. unfold qm_modify. simpl. f_equal. induction l as [|x l IH]; [done|].
  cbn [modify_first]. by rewrite IH; destruct (d_id x =? id).
Qed.

Lemma download_thread_fate rc now d q fs t ev row :
  find_row (i32 (d_id d)) t = Some row ->
  exists f, fate d q fs t ev (verdict cfg rc d) f
              (download_thread_end always_ok env cfg rc now d (mkS q fs (Some t) ev)) /\
    (verdict cfg rc d = DOWNLOAD_QUEUED -> retry_ok now d (f d)).
Proof.
  intros Hr. unfold verdict.
  assert (forall f, keeps_id f -> on_queue (qm_modify (d_id d) f) (mkS q fs (Some t) ev) =
            mkS (qm_modify (d_id d) f q) fs (Some t) ev) as Hon by done.
  destruct (Z.eqb_spec rc 0) as [->|Hrc].
  { destruct (db_delete_spec (d_id d) t) as (t1 & E1 & D1 & R1).
    assert (find_row (i32 (d_id d)) t1 = Some row) as Hr1 by (by rewrite (find_row_downloads _ _ _ D1)).
    destruct (publish_ended (d_id d) DOWNLOAD_DONE (str "DONE") (str "Done") 1 q fs t1 ev row d
                (fun x => set_retry 0 0 (set_chunks [] x)) ltac:(done) Hr1 eq_refl)
      as (t' & E2 & E3 & E4 & E5 & E6).
    exists (fun x => set_status DOWNLOAD_DONE (set_retry 0 0 (set_chunks [] x))). split; [|done].
    eexists t', (mkEvent (d_id d) (str "Done") 1 1). unfold download_thread_end. rewrite Z.eqb_refl, Hon by done.
    replace (on_db (db_delete_chunks always_ok (d_id d)) _)
      with (mkS (qm_modify (d_id d) (fun x => set_retry 0 0 (set_chunks [] x)) q) fs (Some t1) ev)
      by (unfold on_db; cbn [s_q s_fs s_db s_events]; by rewrite E1).
    rewrite bool_decide_false, bool_decide_true by auto. rewrite R1 in E5. done. }
  destruct (d_cancel_requested d) eqn:Ec.
  { destruct (canceled_ended rc now d q fs t ev row Hrc Ec Hr) as (t' & E1 & E2 & E3 & E4 & E5).
    eexists _. split; [|done]. eexists t', _. rewrite !bool_decide_true by auto.
    split; [exact E1|]. split; [|split; [exact E3|]]; [done|]. split; [exact E2|]. split; [exact E4|exact E5]. }
  unfold download_thread_end. rewrite (proj2 (Z.eqb_neq rc 0) Hrc), Ec.
  destruct (d_pause_requested d).
  { eexists. split; [|done]. rewrite <- (qm_modify_id (d_id d) q) at 2. by eapply publish_fate. }
  unfold reset_retry. rewrite !Hon by done.
  destruct (Z.eqb_spec rc (-2)) as [->|H2].
  { eexists. split; [by eapply publish_fate|done]. }
  destruct (Z.eqb_spec rc (-3)) as [->|H3]; [eexists; split; [by eapply publish_fate|done]|].
  destruct (Z.eqb_spec rc (-4)) as [->|H4]; [eexists; split; [by eapply publish_fate|done]|].
  rewrite (bool_decide_false (rc ∈ _)).
  2:{ rewrite !elem_of_cons, elem_of_nil. by intros [?|[?|[?|[]]]]. }
  destruct (Z.ltb_spec (d_retry_count d) (g_retry_max_attempts cfg)) as [Hlt|Hge]; cbn [orb].
  - rewrite (proj2 (Z.leb_gt _ _)) by lia.
    exists (fun x => set_status DOWNLOAD_QUEUED
              (set_retry (d_retry_count d + 1) (now + retry_backoff_seconds cfg (d_retry_count d + 1)) x)).
    split; [by eapply publish_fate|]. intros _. unfold retry_ok. simpl. lia.
  - rewrite (proj2 (Z.leb_le _ _)) by lia. eexists. split; [by eapply publish_fate|done].
Qed.

(** C12. The end of a download.  Whatever the engine returned, the entry in the
    queue and the row in the database get the same status, the one [verdict]
    names; no other entry changes; the recorded chunks are dropped exactly
    after success and after a cancel, and the file is removed exactly after a
    cancel; a failure is tried again at most [max_attempts] times, after the
    backoff; one event goes to the clients. *)
Theorem download_end_spec rc now d q fs t ev row :
  find_first (d_id d) (g_head q) = Some d -> find_row (i32 (d_id d)) t = Some row ->
  let s' := download_thread_end always_ok env cfg rc now d (mkS q fs (Some t) ev) in
  let status := verdict cfg rc d in
  exists d' t' row' event,
    find_first (d_id d) (g_head (s_q s')) = Some d' /\ d_status d' = status /\
    s_db s' = Some t' /\ find_row (i32 (d_id d)) t' = Some row' /\
    row_status row' = status_to_string status /\
    (forall id, id <> d_id d -> find_first id (g_head (s_q s')) = find_first id (g_head q)) /\
    rows_of (i32 (d_id d)) t' =
      (if bool_decide (status = DOWNLOAD_DONE \/ status = DOWNLOAD_CANCELED) then []
       else rows_of (i32 (d_id d)) t) /\
    s_fs s' = (if bool_decide (status = DOWNLOAD_CANCELED) then unlink_dest env d fs else fs) /\
    (status = DOWNLOAD_QUEUED -> retry_ok now d d') /\
    s_events s' = ev ++ [event] /\ ev_id event = d_id d.
Proof.
  intros Hd Hr. cbv zeta. destruct (download_thread_fate rc now d q fs t ev row Hr)
    as (f & (t' & event & Edb & Eid & Eev & Efs & Erows & Eq & Hk & Hst & row' & Hrow' & Htext) & Hretry).
  exists (f d), t', row', event. rewrite Eq. cbn [qm_modify g_head].
  rewrite find_first_modify, decide_True, Hd by done.
  split; [done|]. split; [done|]. split; [done|]. split; [done|]. split; [done|].
  split; [intros id Hne; by rewrite find_first_modify, decide_False by done|]. done.
Qed.

End End.

(** ** The backoff *)

Lemma backoff_shift cfg attempt :
  1 <= attempt <= 31 ->
  retry_backoff_seconds cfg attempt =
    let delay := i32 (g_retry_base_delay_sec cfg * 2 ^ (attempt - 1)) in
    if (g_retry_max_delay_sec cfg <? delay) || (delay <? 0) then g_retry_max_delay_sec cfg else delay.
Proof.
  intros H. unfold retry_backoff_seconds. rewrite (proj2 (Z.ltb_ge 30 (attempt - 1))) by lia.
  by rewrite Z.shiftl_mul_pow2 by lia.
Qed.

(** C39. The retry delay is never negative and never above the configured
    maximum; as long as [base * 2^(attempt-1)] is representable it is that
    product capped at the maximum, so that it grows with the attempts. *)
Theorem retry_backoff_bounds cfg attempt :
  config_sane cfg -> 1 <= attempt ->
  0 <= retry_backoff_seconds cfg attempt <= g_retry_max_delay_sec cfg /\
  (g_retry_base_delay_sec cfg * 2 ^ (attempt - 1) <= INT_MAX ->
     retry_backoff_seconds cfg attempt =
       Z.min (g_retry_base_delay_sec cfg * 2 ^ (attempt - 1)) (g_retry_max_delay_sec cfg)).
Proof.
  intros (_ & _ & Hbase & Hmax & _) Ha. split.
  - unfold retry_backoff_seconds. case_bool; [lia|]. apply orb_false_iff in Heqb as [?%Z.ltb_ge ?%Z.ltb_ge].
    lia.
  - intros Hfit. assert (attempt <= 31) as Hle.
    { destruct (Z.le_gt_cases attempt 31) as [|Hgt]; [done|]. exfalso.
      assert (2 ^ 31 <= 2 ^ (attempt - 1)) by (apply Z.pow_le_mono_r; lia). unfold INT_MAX in *. nia. }
    rewrite backoff_shift by lia. cbv zeta.
    assert (0 <= g_retry_base_delay_sec cfg * 2 ^ (attempt - 1)).
    { apply Z.mul_nonneg_nonneg; [lia|]. apply Z.pow_nonneg. lia. }
    unfold INT_MAX in *. rewrite i32_small by zlia.
    destruct (Z.ltb_spec (g_retry_max_delay_sec cfg) (g_retry_base_delay_sec cfg * 2 ^ (attempt - 1)));
      cbn [orb]; [lia|]. rewrite (proj2 (Z.ltb_ge _ _)); lia.
Qed.

Definition backoff_demo : Config := mkConfig 2 (str "/h/dl") 40 4 600 0.

Lemma retry_backoff_bounds_witness :
  config_sane backoff_demo /\ retry_backoff_seconds backoff_demo 3 = 16.
Proof.
  assert (config_sane backoff_demo) as Hs by (unfold config_sane, INT_MAX, backoff_demo; simpl; zlia).
  split; [exact Hs|].
  refine (eq_trans (proj2 (retry_backoff_bounds backoff_demo 3 Hs _) _) _);
    [lia|vm_compute; discriminate|reflexivity].
Defined.

(** From attempt 31 on the shift overflows: the delay of 4 s becomes 0. *)
Example backoff_overflows : retry_backoff_seconds backoff_demo 31 = 0.
Proof. reflexivity. Qed.

(** ** The scheduler runs *)

Definition sched_fs : filesystem := {[ str "/" := NDir; str "/d" := NDir ]}.
Definition sched_entry : Download :=
  mkDownload 1 (str "http://h/f") (str "/d/f") 0 DOWNLOAD_QUEUED 0 0 false false 0 [] [] false 0 0 None.
Definition sched_queue : QM := mkQM [sched_entry] 2.
Definition sched_start : SState := mkS sched_queue sched_fs (Some empty_tables) [].
Definition sched_ticked : list SchedulerWorker * SState :=
  scheduler_tick backoff_demo 100 true (replicate SCHEDULER_MAX_WORKERS idle_worker) sched_start.

(** The steps below run the model: a tick, the return of the engine with the
    entry paused or failed, and the ending thread's next call. *)
Definition demo_tick (cfg : Config) (now : Z) (st : list SchedulerWorker * SState) :
    list SchedulerWorker * SState :=
  scheduler_tick cfg now true (fst st) (snd st).
Definition demo_return (cfg : Config) (rc now : Z) (i : nat) (st : list SchedulerWorker * SState) :
    list SchedulerWorker * SState :=
  match fst st !! i with
  | Some w =>
      match find_first (sw_download_id w) (g_head (s_q (snd st))) with
      | Some d => (<[i := set_phase (PhEnding d (end_calls cfg rc now d)) w]> (fst st), snd st)
      | None => st
      end
  | None => st
  end.
Definition demo_call (i : nat) (st : list SchedulerWorker * SState) : list SchedulerWorker * SState :=
  match fst st !! i with
  | Some w =>
      match sw_phase w with
      | PhEnding dl (c :: calls) =>
          (<[i := set_phase (PhEnding dl calls) w]> (fst st), end_call always_ok permissive dl c (snd st))
      | _ => st
      end
  | None => st
  end.
Definition demo_client (op : qm_op) (st : list SchedulerWorker * SState) : list SchedulerWorker * SState :=
  let s := snd st in
  let r := qm_apply (fun _ => true) permissive op (s_q s, s_fs s) in
  (fst st, mkS (fst r) (snd r) (s_db s) (s_events s)).

Abbreviation demo_run := (sched_run always_ok permissive (fun _ => true)).

Lemma demo_tick_run limit cfg now st : g_max_concurrent cfg <= limit -> demo_run limit st (demo_tick cfg now st).
Proof. intros H. exists cfg. split; [done|]. destruct st as [ws s]. apply ss_tick. Qed.

Lemma modify_first_const id l d : find_first id l = Some d -> modify_first id (fun _ => d) l = l.
Proof.
  intros Hd. rewrite (modify_first_at id (fun _ => d) (fun x => x) l d Hd eq_refl). apply modify_first_id.
Qed.

Lemma demo_return_run limit cfg rc now i st w :
  g_max_concurrent cfg <= limit -> fst st !! i = Some w -> sw_phase w = PhEngine ->
  sw_download w = Some (sw_download_id w) ->
  is_Some (find_first (sw_download_id w) (g_head (s_q (snd st)))) ->
  demo_run limit st (demo_return cfg rc now i st).
Proof.
  intros Hcfg Hw Hp Hdl [d Hd]. exists cfg. split; [done|]. unfold demo_return. rewrite Hw, Hd.
  destruct st as [ws [[l n] fs t ev]]. cbn [fst snd s_q] in *.
  pose proof (ss_engine always_ok permissive cfg (fun _ => true) ws (mkQM l n) fs t ev i w _ d d fs t rc now
                Hw Hp Hdl Hd eq_refl eq_refl) as H.
  unfold qm_modify in H. cbn [g_head g_next_id] in *. by rewrite (modify_first_const _ _ _ Hd) in H.
Qed.

Lemma demo_call_run limit i st w dl c calls :
  0 <= limit -> fst st !! i = Some w -> sw_phase w = PhEnding dl (c :: calls) ->
  demo_run limit st (demo_call i st).
Proof.
  intros Hl Hw Hp. exists (mkConfig 0 [] 0 0 0 0). split; [done|]. unfold demo_call. rewrite Hw, Hp.
  destruct st as [ws s]. by apply ss_call.
Qed.

Lemma demo_client_run limit op st :
  0 <= limit -> client_op op -> g_next_id (s_q (snd st)) < 2 ^ 32 - 1 ->
  demo_run limit st (demo_client op st).
Proof.
  intros Hl Ho Hn. exists (mkConfig 0 [] 0 0 0 0). split; [done|]. unfold demo_client.
  destruct st as [ws [q fs t ev]]. by apply ss_client.
Qed.

Definition demo_start (q : QM) : list SchedulerWorker * SState :=
  (replicate SCHEDULER_MAX_WORKERS idle_worker, mkS q sched_fs (Some empty_tables) []).

(** The entry is paused while it runs; the engine returns and the thread
    publishes PAUSED. *)
Definition demo_paused : list SchedulerWorker * SState :=
  demo_call 0 (demo_return backoff_demo (-1) 110 0
    (demo_client (OpPause 1) (demo_tick backoff_demo 100 (demo_start sched_queue)))).
(** A resume and a tick before the thread's next call. *)
Definition demo_again : list SchedulerWorker * SState :=
  demo_tick backoff_demo 111 (demo_client (OpResume 1) demo_paused).

Lemma demo_paused_run : rtc (demo_run 2) (demo_start sched_queue) demo_paused.
Proof.
  eapply rtc_l; [by apply (demo_tick_run 2 backoff_demo 100)|].
  eapply rtc_l; [by apply (demo_client_run 2 (OpPause 1))|].
  eapply rtc_l; [eapply (demo_return_run 2 backoff_demo (-1) 110 0)|].
  1: done. 1: by vm_compute. 1: done. 1: done. 1: by eexists.
  eapply rtc_l; [eapply (demo_call_run 2 0)|]. 1: done. 1: by vm_compute. 1: reflexivity.
  apply rtc_refl.
Qed.

(** scheduler.c:102: once PAUSED is published a second thread may start for the
    entry while the first one has yet to write the database. *)
Example second_thread_while_ending :
  rtc (demo_run 2) (demo_start sched_queue) demo_again /\
  exists w w' dl, fst demo_again !! 0%nat = Some w /\ fst demo_again !! 1%nat = Some w' /\
    sw_download w = Some 1 /\ sw_download w' = Some 1 /\ sw_phase w' = PhEngine /\
    sw_phase w = PhEnding dl [EcDbStatus (str "PAUSED"); EcBroadcast (str "Paused") 0 1].
Proof.
  split.
  - eapply rtc_r; [|by apply (demo_tick_run 2 backoff_demo 111)].
    eapply rtc_r; [apply demo_paused_run|by apply (demo_client_run 2 (OpResume 1))].
  - eexists _, _, _. split; [by vm_compute|]. split; [by vm_compute|]. done.
Qed.

(** Two downloads run when a reload lowers the limit to one: both go on. *)
Definition demo_lowered : Config := mkConfig 1 (str "/h/dl") 40 4 600 0.
Definition demo_second : Download :=
  mkDownload 2 (str "http://h/g") (str "/d/g") 0 DOWNLOAD_QUEUED 0 0 false false 0 [] [] false 0 0 None.
Definition demo_two : list SchedulerWorker * SState :=
  demo_tick demo_lowered 102 (demo_tick backoff_demo 101 (demo_tick backoff_demo 100
    (demo_start (mkQM [demo_second; sched_entry] 3)))).

Example reload_lowers_limit :
  rtc (demo_run 2) (demo_start (mkQM [demo_second; sched_entry] 3)) demo_two /\
  g_max_concurrent demo_lowered = 1 /\ length (filter activep (g_head (s_q (snd demo_two)))) = 2%nat.
Proof.
  split; [|split; [done|by vm_compute]].
  eapply rtc_l; [by apply (demo_tick_run 2 backoff_demo 100)|].
  eapply rtc_l; [by apply (demo_tick_run 2 backoff_demo 101)|].
  eapply rtc_l; [by apply (demo_tick_run 2 demo_lowered 102)|]. apply rtc_refl.
Qed.

Lemma scheduler_exclusive_witness :
  exists w, fst sched_ticked !! 0%nat = Some w /\ has_entry w /\
    active_entries (s_q (snd sched_ticked)) = [start_entry sched_entry] /\
    Z.of_nat (length (filter activep (g_head (s_q (snd sched_ticked))))) <= 2 /\
    exists d, d ∈ g_head (s_q (snd sched_ticked)) /\ sw_download w = Some (d_id d).
Proof.
  assert (qm_wf sched_queue) as H1 by (split; [apply (NoDup_singleton 1)|apply Forall_singleton; simpl; lia|simpl; lia]).
  assert (forall d, d ∈ g_head sched_queue -> d_status d <> DOWNLOAD_ACTIVE) as H2.
  { intros d Hd%list_elem_of_singleton. subst d. discriminate. }
  assert (rtc (demo_run 2) (demo_start sched_queue) (fst sched_ticked, snd sched_ticked)) as H3.
  { rewrite <- surjective_pairing. eapply rtc_l; [by apply (demo_tick_run 2 backoff_demo 100)|apply rtc_refl]. }
  destruct (scheduler_exclusive always_ok permissive (fun _ => true) 2 sched_queue sched_fs (Some empty_tables)
              (fst sched_ticked) (snd sched_ticked) H1 H2 ltac:(lia) H3) as (E1 & _ & E3 & _).
  eexists. split; [by vm_compute|]. split; [exact I|]. split; [by vm_compute|]. split; [exact E1|].
  by apply (E3 0%nat).
Defined.

(** A download the user cancels while it runs. *)
Definition sched_canceled : Download := set_flags true false (start_entry sched_entry).
Definition sched_row : DbRow :=
  mkRow 1 (str "http://h/f") (str "/d/f") 0 (str "ACTIVE") 0 5 [] [] [] [] 0 0.
Definition sched_tables : Tables := mkTables [sched_row] [mkDbChunk 1 0 9 4].

Lemma download_end_spec_witness :
  exists fs', fs' = s_fs (download_thread_end always_ok permissive backoff_demo (-1) 100 sched_canceled
      (mkS (mkQM [sched_canceled] 2) (<[str "/d/f" := NReg empty_reg]> sched_fs) (Some sched_tables) [])) /\
    fs' !! str "/d/f" = None /\ verdict backoff_demo (-1) sched_canceled = DOWNLOAD_CANCELED.
Proof.
  destruct (download_end_spec permissive backoff_demo (-1) 100 sched_canceled (mkQM [sched_canceled] 2)
              (<[str "/d/f" := NReg empty_reg]> sched_fs) sched_tables [] sched_row eq_refl
              ltac:(vm_compute; reflexivity))
    as (d' & t' & row' & event & _ & _ & _ & _ & _ & _ & _ & Efs & _).
  eexists. split; [reflexivity|]. rewrite Efs. split; [vm_compute; reflexivity|reflexivity].
Defined.
