(* ===== verification/Wire.v ===== *)
(** * Sockets and the wire format ([ipc_protocol.h], low-level part of [ipc_socket.c])

    A connection is what the kernel will answer to the reads and writes of one
    side: data in pieces of any size, interrupted calls, errors, the end of
    the stream.  The exact-length loops, the length-prefixed strings and the
    message header are functions on it.  Integers are in the byte order of the
    host, little-endian here; [sizeof (MsgHeader)] is 8. *)

From Stdlib Require Import SpecFloat.
From S2P Require Import Prelude.

(** ** Connections *)

(** [RBlock]: nothing to read now; a blocking [read] waits for the next event.
    The end of the list, and empty data, are the end of the stream. *)
Inductive read_event := RData (bs : bytes) | RBlock | REintr | RError.

(** [WSent n]: the next write takes at most [n] bytes.  After the last event
    every write is taken whole. *)
Inductive write_event := WSent (n : nat) | WEintr | WError.

Record Conn := mkConn { c_in : list read_event; c_out : bytes; c_wr : list write_event }.

(** A call that may fail; it answers [None] where the code answers -1. *)
Abbreviation wire A := (Conn -> option A * Conn).

Definition wret {A} (a : A) : wire A := fun c => (Some a, c).
Definition wfail {A} : wire A := fun c => (None, c).
Definition wbind {A B} (m : wire A) (f : A -> wire B) : wire B := fun c =>
  match m c with
  | (Some a, c') => f a c'
  | (None, c') => (None, c')
  end.

(** A call whose result is ignored. *)
Definition attempt {A} (m : wire A) : wire unit := fun c => (Some tt, snd (m c)).

Declare Scope wire_scope.
Delimit Scope wire_scope with wire.
Notation "x <-- m ;; k" := (wbind m (fun x => k))
  (at level 100, m at next level, right associativity) : wire_scope.
Notation "m ;;; k" := (wbind m (fun _ => k)) (at level 100, right associativity) : wire_scope.
#[local] Open Scope wire_scope.

(** ** ipc_read_exact and ipc_write_exact *)

(** What is left of a piece of data. *)
Definition put_back (bs : bytes) (s : list read_event) : list read_event :=
  match bs with [] => s | _ => RData bs :: s end.

Fixpoint read_loop (s : list read_event) (len : nat) : option bytes * list read_event :=
  match len with
  | O => (Some [], s)
  | _ =>
      match s with
      | [] => (None, [])
      | RBlock :: s' | REintr :: s' => read_loop s' len
      | RError :: s' => (None, s')
      | RData [] :: s' => (None, s')
      | RData bs :: s' =>
          if (len <=? length bs)%nat then (Some (take len bs), put_back (drop len bs) s')
          else let '(r, s'') := read_loop s' (len - length bs) in (app bs <$> r, s'')
      end
  end.

Definition ipc_read_exact (len : nat) : wire bytes := fun c =>
  let '(r, s) := read_loop (c_in c) len in (r, mkConn s (c_out c) (c_wr c)).

(** The bytes that go out, whether all of them did, and the events left. *)
Fixpoint write_loop (ev : list write_event) (bs : bytes) : bool * bytes * list write_event :=
  match bs with
  | [] => (true, [], ev)
  | _ =>
      match ev with
      | [] => (true, bs, [])
      | WEintr :: ev' => write_loop ev' bs
      | WError :: ev' => (false, [], ev')
      | WSent O :: ev' => (false, [], ev')
      | WSent n :: ev' =>
          if (length bs <=? n)%nat then (true, bs, ev')
          else let '(ok, out, ev'') := write_loop ev' (drop n bs) in (ok, take n bs ++ out, ev'')
      end
  end.

Definition ipc_write_exact (bs : bytes) : wire unit := fun c =>
  let '(ok, out, ev) := write_loop (c_wr c) bs in
  (if ok then Some tt else None, mkConn (c_in c) (c_out c ++ out) ev).

(** ** Integers, header, strings *)

Definition le (n v : Z) : bytes := Z_to_little_endian n 8 v.
Definition unle (bs : bytes) : Z := little_endian_to_Z 8 bs.

Definition read_u (n : nat) : wire Z := v <-- ipc_read_exact n ;; wret (unle v).
Abbreviation read_u8 := (read_u 1).
Abbreviation read_u32 := (read_u 4).
Abbreviation read_u64 := (read_u 8).

Inductive MsgType :=
| MSG_ADD_DOWNLOAD | MSG_PAUSE | MSG_RESUME | MSG_CANCEL | MSG_LIST | MSG_STATUS_EVENT
| MSG_PROGRESS_EVENT | MSG_SUBSCRIBE | MSG_LIST_ALL | MSG_GET_DETAILS | MSG_RELOAD_CONFIG
| MSG_BROWSER_OFFER | MSG_BROWSER_GET_OFFER | MSG_BROWSER_CONFIRM | MSG_BROWSER_DISMISS
| MSG_BROWSER_SUBSCRIBE_PROGRESS | MSG_BROWSER_PROGRESS_EVENT.

#[global] Instance msg_type_eq_dec : EqDecision MsgType.
Proof. solve_decision. Defined.

Definition msg_types : list MsgType :=
  [MSG_ADD_DOWNLOAD; MSG_PAUSE; MSG_RESUME; MSG_CANCEL; MSG_LIST; MSG_STATUS_EVENT;
   MSG_PROGRESS_EVENT; MSG_SUBSCRIBE; MSG_LIST_ALL; MSG_GET_DETAILS; MSG_RELOAD_CONFIG;
   MSG_BROWSER_OFFER; MSG_BROWSER_GET_OFFER; MSG_BROWSER_CONFIRM; MSG_BROWSER_DISMISS;
   MSG_BROWSER_SUBSCRIBE_PROGRESS; MSG_BROWSER_PROGRESS_EVENT].

(** The enumeration starts at 1. *)
Definition msg_code (t : MsgType) : Z :=
  match t with
  | MSG_ADD_DOWNLOAD => 1 | MSG_PAUSE => 2 | MSG_RESUME => 3 | MSG_CANCEL => 4 | MSG_LIST => 5
  | MSG_STATUS_EVENT => 6 | MSG_PROGRESS_EVENT => 7 | MSG_SUBSCRIBE => 8 | MSG_LIST_ALL => 9
  | MSG_GET_DETAILS => 10 | MSG_RELOAD_CONFIG => 11 | MSG_BROWSER_OFFER => 12
  | MSG_BROWSER_GET_OFFER => 13 | MSG_BROWSER_CONFIRM => 14 | MSG_BROWSER_DISMISS => 15
  | MSG_BROWSER_SUBSCRIBE_PROGRESS => 16 | MSG_BROWSER_PROGRESS_EVENT => 17
  end.

(** The case of a [switch] a received number falls into. *)
Definition msg_of_code (n : Z) : option MsgType :=
  snd <$> list_find (fun t => msg_code t = n) msg_types.

(** [type] is whatever number arrived. *)
Record MsgHeader := mkHeader { h_length : Z; h_type : Z }.

Definition HEADER_SIZE : nat := 8.

Definition encode_header (h : MsgHeader) : bytes := le 4 (h_length h) ++ le 4 (h_type h).
Definition decode_header (bs : bytes) : MsgHeader :=
  mkHeader (unle (take 4 bs)) (unle (take 4 (drop 4 bs))).

Definition IPC_MAX_URL_LEN : Z := 2048.
Definition IPC_MAX_PATH_LEN : Z := 1024.
Definition IPC_MAX_FRAME_SIZE : Z := 16384.

Definition valid_message_header (h : MsgHeader) : bool :=
  if IPC_MAX_FRAME_SIZE <? h_length h then false
  else
    match msg_of_code (h_type h) with
    | Some (MSG_ADD_DOWNLOAD | MSG_BROWSER_OFFER) => h_length h <=? IPC_MAX_FRAME_SIZE
    | Some (MSG_PAUSE | MSG_RESUME | MSG_CANCEL | MSG_GET_DETAILS | MSG_BROWSER_GET_OFFER
           | MSG_BROWSER_DISMISS | MSG_BROWSER_SUBSCRIBE_PROGRESS) => h_length h =? 4
    | Some MSG_BROWSER_CONFIRM => (8 <=? h_length h) && (h_length h <=? 8 + IPC_MAX_PATH_LEN - 1)
    | Some (MSG_LIST | MSG_LIST_ALL | MSG_SUBSCRIBE | MSG_RELOAD_CONFIG) => h_length h =? 0
    | _ => false
    end.

(** The results of the two writes are ignored. *)
Definition write_string (s : bytes) : wire unit :=
  let len := u32 (strlen s) in
  attempt (ipc_write_exact (le 4 len)) ;;;
  (if 0 <? len then attempt (ipc_write_exact (take (Z.to_nat len) s)) else wret tt).

(** A buffer as a C string: up to the first NUL. *)
Definition cstr (s : bytes) : bytes :=
  match strchr s CH_NUL with Some i => take i s | None => s end.

Definition available (s : list read_event) : nat :=
  foldr (fun e n => match e with RData bs => (length bs + n)%nat | _ => n end) O s.

(** The loop that drains a rejected string; every round that succeeds takes
    at least one of the available bytes. *)
Fixpoint drain (fuel : nat) (excess : Z) : wire unit :=
  if excess <=? 0 then wret tt
  else
    match fuel with
    | O => wfail
    | S fuel' =>
        let chunk := Z.to_nat (if excess <? 256 then excess else 256) in
        ipc_read_exact chunk ;;; drain fuel' (excess - Z.of_nat chunk)
    end.

Definition read_string (max_len : Z) : wire bytes :=
  len <-- read_u32 ;;
  let to_read := if max_len <=? len then max_len - 1 else len in
  buf <-- ipc_read_exact (Z.to_nat to_read) ;;
  if max_len <=? len then
    (fun c => drain (S (available (c_in c))) (len - to_read) c) ;;; wfail
  else wret (cstr buf).

(** ** Progress as a number on the wire

    [double] and [float] are the binary64 and binary32 values of the standard
    library's [spec_float], rounded to nearest. *)

Definition f64_of_Z (z : Z) : spec_float := binary_normalize 53 1024 z 0 false.
Definition f64_div (x y : spec_float) : spec_float := SFdiv 53 1024 x y.
Definition f64_lt (x y : spec_float) : bool := SFltb x y.
Definition f32_of_f64 (x : spec_float) : spec_float :=
  match x with
  | S754_finite s m e => binary_normalize 24 128 (cond_Zopp s (Zpos m)) e s
  | _ => x
  end.

(** The 32 bits of a [float]. *)
Definition f32_bits (x : spec_float) : Z :=
  match x with
  | S754_zero s => if s then 2 ^ 31 else 0
  | S754_infinity s => (if s then 2 ^ 31 else 0) + 255 * 2 ^ 23
  | S754_nan => 255 * 2 ^ 23 + 2 ^ 22
  | S754_finite s m e =>
      (if s then 2 ^ 31 else 0) +
      (if Zpos m <? 2 ^ 23 then Zpos m else (e + 150) * 2 ^ 23 + (Zpos m - 2 ^ 23))
  end.

(** [(float)((double)num / (double)den)]. *)
Definition ratio_bits (num den : Z) : Z := f32_bits (f32_of_f64 (f64_div (f64_of_Z num) (f64_of_Z den))).

(** ** Lemmas *)

(** No error and no end of the stream before the last event. *)
Definition clean (s : list read_event) : Prop := Forall (fun e => e <> RError /\ e <> RData []) s.

Definition event_data (e : read_event) : bytes := match e with RData bs => bs | _ => [] end.
Definition payload (s : list read_event) : bytes := concat (map event_data s).

(** The stream delivers [bs], in whatever pieces. *)
Definition feeds (s : list read_event) (bs : bytes) : Prop := clean s /\ payload s = bs.

Definition healthy (ev : list write_event) : Prop := Forall (fun e => e <> WError /\ e <> WSent O) ev.

Lemma feeds_put_back bs s rest : feeds s rest -> feeds (put_back bs s) (bs ++ rest).
Proof.
  intros [Hc <-]. destruct bs as [|b bs]; [done|]. split; [|done]. by constructor.
Qed.

Lemma read_loop_ok s bs rest :
  feeds s (bs ++ rest) -> exists s', read_loop s (length bs) = (Some bs, s') /\ feeds s' rest.
Proof.
  revert bs. induction s as [|e s IH]; intros bs [Hc Hp].
  - destruct bs; [|done]. by exists [].
  - destruct bs as [|b bs]; [by exists (e :: s)|]. apply Forall_cons in Hc as [[He Hne] Hc].
    destruct e as [d| | |]; [|by apply IH|by apply IH|done].
    destruct d as [|x d]; [done|]. cbn [payload map concat event_data] in Hp.
    change (concat (map event_data s)) with (payload s) in Hp.
    remember (b :: bs) as w eqn:Ew. remember (x :: d) as v eqn:Ev.
    assert (read_loop (RData v :: s) (length w) =
      if (length w <=? length v)%nat then (Some (take (length w) v), put_back (drop (length w) v) s)
      else let '(r, s'') := read_loop s (length w - length v) in (app v <$> r, s'')) as -> by by subst.
    destruct (Nat.leb_spec (length w) (length v)) as [Hle|Hgt].
    + assert (v = w ++ drop (length w) v) as Hv.
      { rewrite <- (take_drop (length w) v) at 1. f_equal. apply (f_equal (take (length w))) in Hp.
        rewrite take_app_length in Hp. rewrite take_app_le in Hp by done. by symmetry. }
      exists (put_back (drop (length w) v) s). rewrite Hv at 1. rewrite take_app_length. split; [done|].
      rewrite Hv, <- app_assoc in Hp. apply app_inv_head in Hp. rewrite <- Hp. by apply feeds_put_back.
    + assert (w = v ++ drop (length v) w) as Hw.
      { rewrite <- (take_drop (length v) w) at 1. f_equal. apply (f_equal (take (length v))) in Hp.
        rewrite take_app_length in Hp. rewrite take_app_le in Hp by lia. done. }
      rewrite Hw, <- app_assoc in Hp. apply app_inv_head in Hp.
      destruct (IH (drop (length v) w)) as (s' & E & Hf); [by split|].
      rewrite length_drop in E. rewrite E. exists s'. simpl. by rewrite <- Hw.
Qed.

(** Short of bytes, the loop ends at the end of the stream. *)
Lemma read_loop_short s len :
  clean s -> (length (payload s) < len)%nat -> read_loop s len = (None, []).
Proof.
  revert len. induction s as [|e s IH]; intros len Hc Hl; [destruct len; [simpl in Hl; lia|done]|].
  apply Forall_cons in Hc as [[He Hne] Hc]. destruct len as [|len]; [simpl in Hl; lia|].
  destruct e as [d| | |]; [|by apply IH|by apply IH|done]. destruct d as [|x d]; [done|].
  unfold payload in Hl. cbn [map concat event_data] in Hl. rewrite length_app in Hl.
  cbn [read_loop]. rewrite (proj2 (Nat.leb_gt _ _)) by lia.
  rewrite (IH (S len - length (x :: d))%nat Hc) by (unfold payload; lia). done.
Qed.

Lemma write_loop_ok ev bs :
  healthy ev -> exists ev', write_loop ev bs = (true, bs, ev') /\ healthy ev'.
Proof.
  intros H. revert bs. induction H as [|e ev [He Hn] Hev IH]; intros bs.
  - exists []. split; [by destruct bs|by constructor].
  - destruct bs as [|b bs]; [exists (e :: ev); split; [done|by constructor]|].
    destruct e as [[|n]| |]; [done| |by apply IH|done]. cbn [write_loop].
    destruct (Nat.leb_spec (length (b :: bs)) (S n)) as [Hle|Hgt]; [by exists ev|].
    destruct (IH (drop (S n) (b :: bs))) as (ev' & -> & Hev'). exists ev'. by rewrite take_drop.
Qed.

Lemma read_exact_ok c bs rest :
  feeds (c_in c) (bs ++ rest) ->
  exists s', ipc_read_exact (length bs) c = (Some bs, mkConn s' (c_out c) (c_wr c)) /\ feeds s' rest.
Proof.
  intros H. destruct (read_loop_ok _ _ _ H) as (s' & E & Hf). exists s'. unfold ipc_read_exact. by rewrite E.
Qed.

Lemma write_exact_ok c bs :
  healthy (c_wr c) ->
  exists ev, ipc_write_exact bs c = (Some tt, mkConn (c_in c) (c_out c ++ bs) ev) /\ healthy ev.
Proof.
  intros H. destruct (write_loop_ok _ bs H) as (ev & E & Hev). exists ev. unfold ipc_write_exact. by rewrite E.
Qed.

Lemma length_le n v : length (le (Z.of_nat n) v) = n.
Proof. pose proof (length_Z_to_little_endian (Z.of_nat n) 8 v). unfold le. lia. Qed.

Lemma unle_le n v : 0 <= v < 2 ^ (8 * Z.of_nat n) -> unle (le (Z.of_nat n) v) = v.
Proof.
  intros H. unfold unle, le. rewrite little_endian_to_Z_to_little_endian by lia.
  rewrite Z.mod_small; [done|]. by rewrite Z.mul_comm.
Qed.

Lemma read_u_ok n c v rest :
  0 <= v < 2 ^ (8 * Z.of_nat n) -> feeds (c_in c) (le (Z.of_nat n) v ++ rest) ->
  exists s', read_u n c = (Some v, mkConn s' (c_out c) (c_wr c)) /\ feeds s' rest.
Proof.
  intros Hv H. destruct (read_exact_ok _ _ _ H) as (s' & E & Hf). exists s'. split; [|done].
  rewrite length_le in E. unfold read_u, wbind. rewrite E. unfold wret. by rewrite unle_le.
Qed.

(** A value wider than its field loses its high bits. *)
Lemma read_u_wrap n c v rest :
  feeds (c_in c) (le (Z.of_nat n) v ++ rest) ->
  exists s', read_u n c = (Some (wrap (8 * Z.of_nat n) v), mkConn s' (c_out c) (c_wr c)) /\ feeds s' rest.
Proof.
  intros H. destruct (read_exact_ok _ _ _ H) as (s' & E & Hf). exists s'. split; [|done].
  rewrite length_le in E. unfold read_u, wbind. rewrite E. unfold wret, unle, le, wrap.
  rewrite little_endian_to_Z_to_little_endian by lia. by rewrite (Z.mul_comm (Z.of_nat n)).
Qed.

Lemma available_payload s : available s = length (payload s).
Proof.
  induction s as [|[d| | |] s IH]; try done. unfold payload in *. cbn [map concat event_data available foldr].
  rewrite length_app. change (foldr _ O s) with (available s). by rewrite IH.
Qed.

Lemma drain_ok fuel c bs rest :
  feeds (c_in c) (bs ++ rest) -> (length bs < fuel)%nat ->
  exists s', drain fuel (strlen bs) c = (Some tt, mkConn s' (c_out c) (c_wr c)) /\ feeds s' rest.
Proof.
  revert c bs. induction fuel as [|fuel IH]; intros c bs H Hf; [lia|]. cbn [drain]. unfold strlen.
  destruct (Z.leb_spec (Z.of_nat (length bs)) 0) as [Hz|Hz].
  - destruct bs; [|simpl in Hz; lia]. exists (c_in c). by destruct c.
  - set (chunk := Z.to_nat (if Z.of_nat (length bs) <? 256 then Z.of_nat (length bs) else 256)).
    assert (0 < chunk <= length bs)%nat as Hch.
    { unfold chunk. destruct (Z.ltb_spec (Z.of_nat (length bs)) 256); lia. }
    clearbody chunk. rewrite <- (take_drop chunk bs), <- app_assoc in H.
    destruct (read_exact_ok _ _ _ H) as (s1 & E1 & F1). rewrite length_take_le in E1 by lia.
    unfold wbind. rewrite E1.
    destruct (IH (mkConn s1 (c_out c) (c_wr c)) (drop chunk bs) F1) as (s2 & E2 & F2);
      [rewrite length_drop; lia|].
    exists s2. split; [|done]. unfold strlen in E2. rewrite length_drop in E2.
    replace (Z.of_nat (length bs) - Z.of_nat chunk) with (Z.of_nat (length bs - chunk)) by lia. exact E2.
Qed.

(** A program that only reads sends nothing. *)
Definition reads_only {A} (p : wire A) : Prop := forall c, c_out (snd (p c)) = c_out c.

Lemma reads_only_ret {A} (a : A) : reads_only (wret a).
Proof. by intros c. Qed.

Lemma reads_only_fail {A} : reads_only (@wfail A).
Proof. by intros c. Qed.

Lemma reads_only_bind {A B} (m : wire A) (f : A -> wire B) :
  reads_only m -> (forall a, reads_only (f a)) -> reads_only (wbind m f).
Proof.
  intros Hm Hf c. unfold wbind. specialize (Hm c). destruct (m c) as [[a|] c']; [|done]. by rewrite Hf.
Qed.

Lemma reads_only_exact n : reads_only (ipc_read_exact n).
Proof. intros c. unfold ipc_read_exact. by destruct (read_loop _ _). Qed.

Lemma reads_only_u n : reads_only (read_u n).
Proof. apply reads_only_bind; [apply reads_only_exact|]. intros v. apply reads_only_ret. Qed.

Lemma reads_only_drain fuel n : reads_only (drain fuel n).
Proof.
  revert n. induction fuel as [|fuel IH]; intros n; cbn [drain]; case_bool;
    [apply reads_only_ret|apply reads_only_fail|apply reads_only_ret|].
  apply reads_only_bind; [apply reads_only_exact|]. intros _. apply IH.
Qed.

Lemma reads_only_string max : reads_only (read_string max).
Proof.
  apply reads_only_bind; [apply reads_only_u|]. intros len. apply reads_only_bind; [apply reads_only_exact|].
  intros buf. case_bool; [|apply reads_only_ret]. apply reads_only_bind; [|intros _; apply reads_only_fail].
  intros c. apply reads_only_drain.
Qed.

#[export] Hint Resolve reads_only_ret reads_only_fail reads_only_exact reads_only_u reads_only_string : cdm.

(** ** Properties *)

(** The frame of a string. *)
Definition string_frame (s : bytes) : bytes := le 4 (strlen s) ++ s.

Lemma write_string_ok s c :
  strlen s < 2 ^ 32 -> healthy (c_wr c) ->
  exists ev, write_string s c = (Some tt, mkConn (c_in c) (c_out c ++ string_frame s) ev) /\ healthy ev.
Proof.
  intros Hs Hc. unfold write_string, string_frame, wbind, attempt. pose proof (strlen_nonneg s).
  rewrite (u32_small (strlen s)) by lia.
  destruct (write_exact_ok c (le 4 (strlen s)) Hc) as (e1 & -> & H1). cbn [snd].
  destruct (Z.ltb_spec 0 (strlen s)) as [Hp|Hp].
  - rewrite to_nat_strlen, take_ge by done.
    destruct (write_exact_ok (mkConn (c_in c) (c_out c ++ le 4 (strlen s)) e1) s H1) as (e2 & -> & H2).
    exists e2. cbn [snd c_in c_out]. by rewrite app_assoc.
  - destruct s; [|unfold strlen in *; simpl in *; lia]. exists e1. by rewrite app_nil_r.
Qed.

Lemma cstr_id s : cstring s -> cstr s = s.
Proof.
  intros H. unfold cstr. destruct (strchr s CH_NUL) as [i|] eqn:E; [|done].
  apply strchr_Some in E as [E _]. apply (Forall_lookup_1 _ _ _ _ H) in E. lia.
Qed.

Lemma read_string_ok s max rest c :
  cstring s -> strlen s < 2 ^ 32 -> 0 < max -> feeds (c_in c) (string_frame s ++ rest) ->
  exists s', read_string max c =
      (if strlen s <? max then Some s else None, mkConn s' (c_out c) (c_wr c)) /\ feeds s' rest.
Proof.
  intros Hcs Hs Hm H. unfold string_frame in H. rewrite <- app_assoc in H. pose proof (strlen_nonneg s) as H0.
  destruct (read_u_ok 4 c (strlen s) (s ++ rest)) as (s1 & E1 & F1); [lia|done|].
  unfold read_string, wbind at 1. rewrite E1.
  destruct (Z.leb_spec max (strlen s)) as [Hbig|Hfit].
  - rewrite (proj2 (Z.ltb_ge _ _)) by lia. set (k := Z.to_nat (max - 1)).
    assert (k <= length s)%nat as Hk by (unfold k, strlen in *; lia).
    rewrite <- (take_drop k s), <- app_assoc in F1.
    destruct (read_exact_ok (mkConn s1 (c_out c) (c_wr c)) _ _ F1) as (s2 & E2 & F2).
    rewrite length_take_le in E2 by lia. unfold wbind at 1. rewrite E2. unfold wbind.
    assert (strlen s - (max - 1) = strlen (drop k s)) as ->.
    { unfold strlen in *. rewrite length_drop. unfold k. lia. }
    destruct (drain_ok (S (available s2)) (mkConn s2 (c_out c) (c_wr c)) (drop k s) rest F2)
      as (s3 & E3 & F3).
    { rewrite available_payload. destruct F2 as [_ ->]. rewrite length_app. lia. }
    cbn [c_in c_out c_wr] in *. rewrite E3. by exists s3.
  - rewrite (proj2 (Z.ltb_lt _ _)) by lia. rewrite to_nat_strlen.
    destruct (read_exact_ok (mkConn s1 (c_out c) (c_wr c)) _ _ F1) as (s2 & E2 & F2).
    unfold wbind. rewrite E2. exists s2. unfold wret. by rewrite cstr_id.
Qed.

(** C19. Strings cross a connection unharmed, however the kernel cuts the reads
    and writes and however often it interrupts them: what [write_string] puts
    on the wire, [read_string] gives back; a string that does not fit the
    receiver's buffer is refused, not truncated; and in both cases the receiver
    stands exactly at the byte after the string. *)
Theorem string_transfer s max rest c1 c2 :
  cstring s -> strlen s < 2 ^ 32 -> 0 < max -> healthy (c_wr c1) ->
  feeds (c_in c2) (drop (length (c_out c1)) (c_out (snd (write_string s c1))) ++ rest) ->
  fst (read_string max c2) = (if strlen s <? max then Some s else None) /\
  feeds (c_in (snd (read_string max c2))) rest.
Proof.
  intros Hcs Hs Hm Hw Hf. destruct (write_string_ok s c1 Hs Hw) as (ev & E & _).
  rewrite E in Hf. cbn [snd c_out] in Hf. rewrite drop_app_length in Hf.
  destruct (read_string_ok s max rest c2 Hcs Hs Hm Hf) as (s' & -> & Hf'). done.
Qed.

(** Written one or two bytes at a time with interrupts, read in odd pieces. *)
Definition string_writer : Conn := mkConn [] [9] [WSent 1; WEintr; WSent 2; WSent 1; WEintr].
Definition string_reader : Conn :=
  mkConn [RData [3]; REintr; RData [0; 0]; RBlock; RData [0; 97; 98]; RData [99; 7; 7]] [] [].

Lemma string_transfer_witness :
  fst (read_string 4 string_reader) = Some (str "abc") /\ fst (read_string 3 string_reader) = None /\
  feeds (c_in (snd (read_string 3 string_reader))) [7; 7].
Proof.
  assert (healthy (c_wr string_writer)) as Hh by (repeat constructor; discriminate).
  assert (feeds (c_in string_reader)
    (drop 1 (c_out (snd (write_string (str "abc") string_writer))) ++ [7; 7])) as Hf.
  { split; [repeat constructor; discriminate|vm_compute; reflexivity]. }
  assert (cstring (str "abc")) as Hc by (vm_compute; repeat constructor).
  split; [exact (proj1 (string_transfer (str "abc") 4 [7; 7] string_writer string_reader Hc eq_refl eq_refl Hh Hf))|].
  exact (string_transfer (str "abc") 3 [7; 7] string_writer string_reader Hc eq_refl eq_refl Hh Hf).
Defined.

Lemma msg_of_code_code t : msg_of_code (msg_code t) = Some t.
Proof. by destruct t. Qed.

Lemma msg_code_range t : 1 <= msg_code t <= 17.
Proof. by destruct t. Qed.

Lemma decode_encode_header h :
  is_u32 (h_length h) -> is_u32 (h_type h) -> decode_header (encode_header h) = h.
Proof.
  intros Hl Ht. unfold decode_header, encode_header. pose proof (length_le 4 (h_length h)) as L1.
  pose proof (length_le 4 (h_type h)) as L2. change (Z.of_nat 4) with 4 in *.
  rewrite take_app_le, drop_app_ge, L1, Nat.sub_diag by lia. rewrite !take_ge by (rewrite ?length_drop; lia).
  change (drop 0 (le 4 (h_type h))) with (le 4 (h_type h)).
  change 4 with (Z.of_nat 4). rewrite !unle_le by done. by destruct h.
Qed.

(** The header a client sends for a message of this type and payload. *)
Definition header_of (t : MsgType) (payload_len : Z) : MsgHeader := mkHeader payload_len (msg_code t).

Lemma header_of_roundtrip t n : is_u32 n -> decode_header (encode_header (header_of t n)) = header_of t n.
Proof. intros H. apply decode_encode_header; [done|]. pose proof (msg_code_range t). simpl. zlia. Qed.

Lemma length_encode_header h : length (encode_header h) = HEADER_SIZE.
Proof.
  unfold encode_header. rewrite length_app. pose proof (length_le 4 (h_length h)).
  pose proof (length_le 4 (h_type h)). unfold HEADER_SIZE. change (Z.of_nat 4) with 4 in *. lia.
Qed.
