(* ===== verification/Commands.v ===== *)
(** * Commands on downloads ([src/platform/ipc_socket.c])

    What the messages of a client do to the queue, the files and the database,
    without the wire: [reserve_download], the option object of a request, and
    the pause, resume and cancel cases of [handle_message].  The wire around
    them is Ipc.v. *)

From S2P Require Import Prelude Path FileIo QueueManager Db Config Engine Scheduler Wire.

(** ** JSON

    cJSON is vendored: a parsed object is a function from a key to a value.  A
    number is the exact value [num / den] of its double. *)

Inductive json_value := JString (s : bytes) | JNumber (num : Z) (den : positive) | JOther.

Abbreviation json_object := (bytes -> option json_value).

(** [strncpy] into a zeroed field, when the value is a string. *)
Definition opt_string (root : json_object) (key : bytes) (size : Z) : bytes :=
  match root key with Some (JString s) => strlcpy size s | _ => [] end.

(** [(uint64_t)v->valuedouble] for a positive number below 2^64. *)
Definition opt_number (root : json_object) (key : bytes) : Z :=
  match root key with
  | Some (JNumber num den) => if 0 <? num then u64 (num / Zpos den) else 0
  | _ => 0
  end.

Definition no_options : RequestOptions := mkOpts [] [] [] [] 0.

Definition options_of_object (root : json_object) : RequestOptions :=
  mkOpts (opt_string root (str "cookie") 1024) (opt_string root (str "referrer") 2048)
    (opt_string root (str "extra_headers") 4096) (opt_string root (str "expected_sha256") 65)
    (opt_number root (str "speed_limit_bps")).

Definition parse_options (json_parse : bytes -> option json_object) (text : bytes) : RequestOptions :=
  if bool_decide (text = []) then no_options
  else match json_parse text with
       | Some root => options_of_object root
       | None => no_options
       end.

(** ** reserve_download *)

Definition with_queue (q : QM) (s : SState) : SState := mkS q (s_fs s) (s_db s) (s_events s).
Definition with_files (fs : filesystem) (s : SState) : SState := mkS (s_q s) fs (s_db s) (s_events s).
Definition with_db (d : db) (s : SState) : SState := mkS (s_q s) (s_fs s) d (s_events s).

Section Reserve.

Context (sql_ok : sql -> Tables -> bool) (env : IoEnv) (safe : filesystem -> bytes -> bool).
Context (alloc_d alloc_r : bool) (now : Z).

(** What other processes do to the files between the choice of a name and the
    attempt to create it, when [k] more attempts are left. *)
Context (others : nat -> filesystem -> filesystem).

Definition drop_entry (id : Z) (s : SState) : SState :=
  let '(q, fs) := queue_manager_remove env id (s_q s) (s_fs s) in mkS q fs (s_db s) (s_events s).

Fixpoint reserve_loop (fuel : nat) (url dest : bytes) (opts : option RequestOptions) (s : SState)
    : Z * SState :=
  match fuel with
  | O => (0, s)
  | S fuel' =>
      match path_make_unique (path_exists env (s_fs s)) IPC_MAX_PATH_LEN dest with
      | None => (0, s)
      | Some unique_dest =>
          let '(id, q) := queue_manager_add (safe (s_fs s)) alloc_d alloc_r url unique_dest opts (s_q s) in
          if id =? 0 then (0, with_queue q s)
          else
            let '(claim, fs) := file_preallocate env (others fuel' (s_fs s)) unique_dest 0 in
            let s := with_files fs (with_queue q s) in
            if claim =? 0 then
              let s := on_queue (qm_modify id (set_reserved true)) s in
              let '(rc, d) := db_insert_reserved_download sql_ok now id url unique_dest opts (s_db s) in
              let s := with_db d s in
              if rc =? 0 then (id, s)
              else (0, drop_entry id (on_files (fun fs => unlink env fs unique_dest) s))
            else
              let s := drop_entry id s in
              if claim =? -2 then reserve_loop fuel' url dest opts s else (0, s)
      end
  end.

Definition reserve_download (url dest : bytes) (opts : RequestOptions) (s : SState) : Z * SState :=
  reserve_loop (Z.to_nat 1000000) url dest (Some opts) s.

End Reserve.

(** ** Pause, resume, cancel *)

Inductive IpcResult := IPC_RESULT_OK | IPC_RESULT_NOT_FOUND | IPC_RESULT_REJECTED | IPC_RESULT_ERROR.

#[global] Instance ipc_result_eq_dec : EqDecision IpcResult.
Proof. solve_decision. Defined.

Definition result_code (r : IpcResult) : Z :=
  match r with
  | IPC_RESULT_OK => 0 | IPC_RESULT_NOT_FOUND => 1 | IPC_RESULT_REJECTED => 2 | IPC_RESULT_ERROR => 3
  end.

Section Commands.

Context (sql_ok : sql -> Tables -> bool) (env : IoEnv).

(** The status is read and the command executed under two separate locks;
    [mid] is what the download threads do in between. *)
Context (mid : SState -> SState).

Definition cmd_pause (id : Z) (s : SState) : IpcResult * SState :=
  match queue_manager_get_status id (s_q s) with
  | None => (IPC_RESULT_NOT_FOUND, s)
  | Some before =>
      if bool_decide (before <> DOWNLOAD_ACTIVE /\ before <> DOWNLOAD_QUEUED) then (IPC_RESULT_REJECTED, s)
      else
        let s := mid s in
        let '(was_active, q) := queue_manager_pause id (s_q s) in
        let s := with_queue q s in
        (IPC_RESULT_OK, if was_active then s else on_db (db_update_status sql_ok id (str "PAUSED")) s)
  end.

Definition cmd_resume (id : Z) (s : SState) : IpcResult * SState :=
  match queue_manager_get_status id (s_q s) with
  | None => (IPC_RESULT_NOT_FOUND, s)
  | Some _ =>
      let s := mid s in
      let '(resumed, q) := queue_manager_resume id (s_q s) in
      let s := with_queue q s in
      if resumed then (IPC_RESULT_OK, on_db (db_update_status sql_ok id (str "QUEUED")) s)
      else (IPC_RESULT_REJECTED, s)
  end.

Definition cmd_cancel (id : Z) (s : SState) : IpcResult * SState :=
  match queue_manager_get_status id (s_q s) with
  | None => (IPC_RESULT_NOT_FOUND, s)
  | Some before =>
      if decide (before = DOWNLOAD_DONE) then (IPC_RESULT_REJECTED, s)
      else
        let s := mid s in
        let canceled_path := match queue_manager_find_by_id id (s_q s) with
                             | Some d => strlcpy IPC_MAX_PATH_LEN (d_dest_path d)
                             | None => []
                             end in
        let '(was_active, q) := queue_manager_cancel id (s_q s) in
        let s := with_queue q s in
        if was_active then (IPC_RESULT_OK, s)
        else
          let s := on_queue (queue_manager_clear_resume_state id) s in
          let s := on_db (db_delete_chunks sql_ok id) s in
          let s := on_db (db_update_total_size sql_ok id 0) s in
          let s := if bool_decide (canceled_path = []) then s
                   else on_files (fun fs => unlink env fs canceled_path) s in
          (IPC_RESULT_OK, on_db (db_update_status sql_ok id (str "CANCELED")) s)
  end.

End Commands.

(** [MSG_LIST]: the number of active and queued entries. *)
Definition cmd_list (s : SState) : Z :=
  u32 (queue_manager_count_by_status DOWNLOAD_ACTIVE (s_q s) +
       queue_manager_count_by_status DOWNLOAD_QUEUED (s_q s)).

(** ** Lemmas on reserve_download *)

Lemma path_make_unique_result exists_ size path out :
  path_make_unique exists_ size path = Some out -> exists_ out = false /\ strlen out < size.
Proof.
  unfold path_make_unique. destruct (size =? 0); [done|]. destruct (exists_ path) eqn:E.
  - by intros (k & _ & _ & ? & ? & _)%unique_loop_Some.
  - destruct (Z.leb_spec size (strlen path)); [done|]. by intros [= <-].
Qed.

Section ReserveLemmas.

Context (sql_ok : sql -> Tables -> bool) (env : IoEnv) (safe : filesystem -> bytes -> bool).
Context (alloc_d alloc_r : bool) (now : Z) (others : nat -> filesystem -> filesystem).

Abbreviation reserve := (reserve_loop sql_ok env safe alloc_d alloc_r now others).

(** The entry [queue_manager_add] makes. *)
Definition queued_entry (id : Z) (url p : bytes) (opts : option RequestOptions) : Download :=
  mkDownload id (strlcpy 2048 url) (strlcpy 1024 p) 0 DOWNLOAD_QUEUED 0 0 false false 0
    (replicate 8 0) [] false 0 0 (if request_options_present opts then opts else None).

Lemma queue_add_cases sf a r url p opts q :
  let res := queue_manager_add sf a r url p opts q in
  res = (0, q) \/
  res = (g_next_id q, mkQM (queued_entry (g_next_id q) url p opts :: g_head q) (u32 (g_next_id q + 1))).
Proof.
  unfold queue_manager_add. cbv zeta. destruct (negb (sf p)); [by left|]. destruct (negb a); [by left|].
  destruct (_ && negb r); [by left|]. by right.
Qed.

Lemma preallocate_empty fs p rc fs' :
  file_preallocate env fs p 0 = (rc, fs') ->
  let fs1 := ensure_parent_dirs_exist env fs p in
  (rc <> 0 /\ fs' = fs1) \/ (rc = 0 /\ fs1 !! p = None /\ fs' = <[p := NReg empty_reg]> fs1).
Proof.
  unfold file_preallocate. cbv zeta. set (fs1 := ensure_parent_dirs_exist env fs p). clearbody fs1.
  pose proof (open_excl_spec env fs1 p) as Ho. destruct (open_excl env fs1 p) as [[e|] fs2].
  - destruct Ho as [-> _]. intros [= <- <-]. left. split; [by case_decide|done].
  - destruct Ho as [Hn ->]. intros [= <- <-]. by right.
Qed.

Lemma drop_new id d l n fs t ev :
  d_id d = id -> d_status d <> DOWNLOAD_ACTIVE ->
  drop_entry env id (mkS (mkQM (d :: l) n) fs t ev) = mkS (mkQM l n) (unlink_dest env d fs) t ev.
Proof.
  intros <- Hs. unfold drop_entry, queue_manager_remove. cbn [s_q s_fs s_db s_events g_head g_next_id remove_loop].
  by rewrite Z.eqb_refl, decide_False.
Qed.

(** Adding an entry and dropping it again leaves the queue but for the id. *)
Lemma wf_bump q : qm_wf q -> g_next_id q < 2 ^ 32 - 1 -> qm_wf (mkQM (g_head q) (u32 (g_next_id q + 1))).
Proof.
  intros [Hn Hi Hx] Hb. rewrite u32_small by zlia. split; simpl; [done| |lia].
  eapply Forall_impl; [done|]. intros i ?. cbn beta in *. lia.
Qed.

Lemma wf_add q url p opts :
  qm_wf q -> g_next_id q < 2 ^ 32 - 1 ->
  qm_wf (mkQM (queued_entry (g_next_id q) url p opts :: g_head q) (u32 (g_next_id q + 1))).
Proof.
  intros Hq Hb. pose proof (wf_next _ Hq). rewrite u32_small by zlia.
  apply qm_wf_cons; simpl; [done|by apply wf_next_fresh|lia|lia].
Qed.

(** What a call leaves: nothing, or one more entry with its file and row. *)
Definition reserve_outcome (url : bytes) (opts : option RequestOptions) (s : SState) (id : Z) (s' : SState)
    : Prop :=
  (id = 0 /\ g_head (s_q s') = g_head (s_q s) /\ s_db s' = s_db s) \/
  (exists p, g_next_id (s_q s) <= id < g_next_id (s_q s') /\
     g_head (s_q s') = set_reserved true (queued_entry id url p opts) :: g_head (s_q s) /\
     strlen p < IPC_MAX_PATH_LEN /\ s_fs s' !! p = Some (NReg empty_reg) /\
     db_insert_reserved_download sql_ok now id url p opts (s_db s) = (0, s_db s')).

Lemma reserve_loop_spec fuel url dest opts s :
  qm_wf (s_q s) -> g_next_id (s_q s) + Z.of_nat fuel < 2 ^ 32 ->
  let r := reserve fuel url dest opts s in
  qm_wf (s_q (snd r)) /\ g_next_id (s_q s) <= g_next_id (s_q (snd r)) <= g_next_id (s_q s) + Z.of_nat fuel /\
  s_events (snd r) = s_events s /\
  reserve_outcome url opts s (fst r) (snd r).
Proof.
  revert s. induction fuel as [|fuel IH]; intros s Hwf Hb; cbv zeta.
  { simpl. split; [done|]. split; [lia|]. split; [done|]. by left. }
  cbn [reserve_loop].
  destruct (path_make_unique _ _ dest) as [p|] eqn:Ep;
    [|simpl; split; [done|]; split; [lia|]; split; [done|]; by left].
  apply path_make_unique_result in Ep as [_ Hlen].
  destruct (queue_add_cases (safe (s_fs s)) alloc_d alloc_r url p opts (s_q s)) as [->| ->].
  { simpl. split; [done|]. split; [lia|]. split; [done|]. by left. }
  pose proof (wf_next _ Hwf) as Hid. pose proof (wf_add (s_q s) url p opts Hwf ltac:(zlia)) as Hadd.
  pose proof (wf_bump (s_q s) Hwf ltac:(zlia)) as Hbump. remember (g_next_id (s_q s)) as id eqn:Eid.
  rewrite (proj2 (Z.eqb_neq id 0)) by lia.
  destruct (file_preallocate _ _ _ _) as [claim fs] eqn:Ef.
  assert (u32 (id + 1) = id + 1) as Hnext by (apply u32_small; zlia).
  rewrite Hnext in Hadd, Hbump |- *.
  destruct (preallocate_empty _ _ _ _ Ef) as [(Hc & ->)|(-> & Hnone & ->)].
  - rewrite (proj2 (Z.eqb_neq claim 0) Hc). cbv zeta. unfold with_files, with_queue.
    cbn [s_q s_fs s_db s_events]. rewrite !drop_new by done. cbn [snd fst]. set (fs1 := unlink_dest env _ _).
    destruct (claim =? -2); [|cbn [fst snd s_q g_next_id]; split; [done|]; split; [lia|]; split; [done|]; by left].
    destruct (IH (mkS (mkQM (g_head (s_q s)) (id + 1)) fs1 (s_db s) (s_events s)))
      as (H1 & H2 & H3 & H4); [done|cbn [s_q g_next_id]; lia|]. split; [done|]. cbn [s_q g_next_id s_events] in *.
    split; [lia|]. split; [done|]. destruct H4 as [(? & ? & ?)|(p' & Hr & ?)]; [by left|right].
    exists p'. cbn [s_q g_next_id] in Hr. split; [lia|]. done.
  - rewrite Z.eqb_refl. cbv zeta. unfold with_files, with_queue, on_queue, with_db.
    cbn [s_q s_fs s_db s_events]. unfold qm_modify. cbn [g_head g_next_id modify_first].
    rewrite (proj2 (Z.eqb_eq (d_id (queued_entry id url p opts)) id) eq_refl).
    destruct (db_insert_reserved_download _ _ _ _ _ _ _) as [rc t] eqn:Et.
    assert (rc <> 0 -> t = s_db s) as Hfail.
    { revert Et. unfold db_insert_reserved_download, insert_download, db_exec. destruct (s_db s) as [t0|].
      - repeat case_match; intros [= <- <-]; done.
      - by intros [= <- <-]. }
    destruct (Z.eqb_spec rc 0) as [->|Hrc].
    + cbn [fst snd s_q g_next_id]. split; [destruct Hadd; split; done|]. split; [lia|]. split; [done|].
      right. exists p. cbn [s_q s_fs g_next_id]. split; [lia|]. split; [done|]. split; [done|].
      split; [by rewrite lookup_insert_eq|]. done.
    + unfold on_files. cbn [s_q s_fs s_db s_events]. rewrite !drop_new by done. cbn [fst snd s_q g_next_id].
      split; [done|]. split; [lia|]. split; [done|]. left. auto.
Qed.

Lemma free_path fs p : path_exists env fs p = false -> fs !! p = None /\ env_deny env p = false.
Proof.
  unfold path_exists, lstat. destruct (env_deny env p); [done|]. by destruct (fs !! p).
Qed.

Lemma unlink_created fs p :
  env_deny env p = false -> fs !! p = None -> unlink env (<[p := NReg empty_reg]> fs) p = fs.
Proof.
  intros Hd Hn. unfold unlink. rewrite lookup_insert_eq, Hd. by apply delete_insert_id.
Qed.

Lemma unlink_no_file fs p : fs !! p = None \/ fs !! p = Some NDir -> unlink env fs p = fs.
Proof. unfold unlink. by intros [-> | ->]. Qed.

Lemma unlink_dest_entry d fs p :
  d_dest_path d = p -> p <> [] -> unlink_dest env d fs = unlink env fs p.
Proof. intros <- H. unfold unlink_dest. by rewrite decide_False. Qed.

(** With nobody else at work, the files that were there stay. *)
Definition files_outcome (s : SState) (id : Z) (s' : SState) : Prop :=
  if decide (id = 0) then only_adds_dirs (s_fs s) (s_fs s')
  else exists d l, g_head (s_q s') = d :: l /\ s_fs s !! d_dest_path d = None /\
    only_touches (d_dest_path d) (s_fs s) (s_fs s').

Lemma reserve_loop_files fuel url dest opts s :
  (forall k fs, others k fs = fs) ->
  let r := reserve fuel url dest opts s in files_outcome s (fst r) (snd r).
Proof.
  intros Hothers. revert s. induction fuel as [|fuel IH]; intros s; cbv zeta; [apply only_adds_dirs_refl|].
  cbn [reserve_loop].
  destruct (path_make_unique _ _ dest) as [p|] eqn:Ep; [|apply only_adds_dirs_refl].
  apply path_make_unique_result in Ep as [[Hfree Hdeny]%free_path Hlen].
  destruct (queue_add_cases (safe (s_fs s)) alloc_d alloc_r url p opts (s_q s)) as [->| ->];
    [apply only_adds_dirs_refl|].
  set (id := g_next_id (s_q s)). destruct (Z.eqb_spec id 0) as [E0|E0]; [apply only_adds_dirs_refl|].
  rewrite Hothers. destruct (file_preallocate _ _ _ _) as [claim fs] eqn:Ef.
  set (fs1 := ensure_parent_dirs_exist env (s_fs s) p).
  assert (only_adds_dirs (s_fs s) fs1) as Hadds by apply ensure_parent_only_adds.
  assert (fs1 !! p = None \/ fs1 !! p = Some NDir) as Hp.
  { destruct (Hadds p) as [E|[_ E]]; rewrite E; auto. }
  assert (d_dest_path (queued_entry id url p opts) = p) as Hdest by (by apply strlcpy_id).
  assert (unlink_dest env (queued_entry id url p opts) fs1 = fs1) as Hdrop.
  { unfold unlink_dest. case_decide; [done|]. rewrite Hdest. by apply unlink_no_file. }
  destruct (preallocate_empty _ _ _ _ Ef) as [(Hc & ->)|(-> & Hnone & ->)]; fold fs1.
  - rewrite (proj2 (Z.eqb_neq claim 0) Hc). cbv zeta. unfold with_files, with_queue.
    cbn [s_q s_fs s_db s_events]. rewrite !drop_new, Hdrop by done.
    destruct (claim =? -2); [|done].
    specialize (IH (mkS (mkQM (g_head (s_q s)) (u32 (id + 1))) fs1 (s_db s) (s_events s))).
    cbv zeta in IH. revert IH. unfold files_outcome. cbn [s_fs]. case_decide.
    + intros Ha. by eapply only_adds_dirs_trans.
    + intros (d & l & E & Hn & Ht). exists d, l. split; [done|]. split.
      * destruct (Hadds (d_dest_path d)) as [E'|[? ?]]; congruence.
      * eapply only_touches_trans; [|exact Ht]. intros q _. apply Hadds.
  - rewrite Z.eqb_refl. cbv zeta. unfold with_files, with_queue, on_queue, with_db.
    cbn [s_q s_fs s_db s_events]. unfold qm_modify. cbn [g_head g_next_id modify_first].
    rewrite (proj2 (Z.eqb_eq (d_id (queued_entry id url p opts)) id) eq_refl).
    destruct (db_insert_reserved_download _ _ _ _ _ _ _) as [rc t].
    destruct (Z.eqb_spec rc 0) as [->|Hrc].
    + unfold files_outcome. cbn [fst snd]. rewrite decide_False by done. eexists _, _.
      split; [reflexivity|]. cbn [set_reserved d_dest_path]. rewrite Hdest. split; [done|].
      cbn [s_fs]. apply only_touches_insert. intros q _. apply Hadds.
    + unfold on_files. cbn [s_q s_fs s_db s_events]. rewrite !drop_new by done. unfold files_outcome.
      cbn [fst snd s_fs]. rewrite decide_True by done. fold fs1 in Hnone. rewrite unlink_created by done.
      unfold unlink_dest. cbn [set_reserved d_dest_path]. case_decide; [done|]. rewrite Hdest.
      rewrite unlink_no_file; [done|by left].
Qed.

End ReserveLemmas.

(** ** Properties *)

(** C14. [reserve_download] is all or nothing and never takes what is there.
    When it answers an id, that id is new, the queue has exactly one more entry
    with the url and the options asked for, an empty file was created at its
    destination, where nothing was, and the database has its row; when it
    answers 0, queue and database are as before.  In both cases no existing
    file is changed or removed, as long as no other process interferes. *)
Theorem reserve_download_spec sql_ok env safe a r now url dest opts s :
  qm_wf (s_q s) -> g_next_id (s_q s) + 1000000 < 2 ^ 32 ->
  let res := reserve_download sql_ok env safe a r now (fun _ fs => fs) url dest opts s in
  let s' := snd res in
  qm_wf (s_q s') /\
  (forall q n, s_fs s !! q = Some n -> s_fs s' !! q = Some n) /\
  (fst res = 0 -> g_head (s_q s') = g_head (s_q s) /\ s_db s' = s_db s) /\
  (fst res <> 0 -> (fst res ∉ ids (g_head (s_q s))) /\
     exists p, g_head (s_q s') = set_reserved true (queued_entry (fst res) url p (Some opts)) :: g_head (s_q s) /\
       strlen p < IPC_MAX_PATH_LEN /\ s_fs s !! p = None /\ s_fs s' !! p = Some (NReg empty_reg) /\
       db_insert_reserved_download sql_ok now (fst res) url p (Some opts) (s_db s) = (0, s_db s')).
Proof.
  intros Hwf Hb. cbv zeta. unfold reserve_download.
  pose proof (reserve_loop_files sql_ok env safe a r now (fun _ fs => fs) (Z.to_nat 1000000) url dest
                (Some opts) s ltac:(done)) as Hfiles.
  destruct (reserve_loop_spec sql_ok env safe a r now (fun _ fs => fs) (Z.to_nat 1000000) url dest
              (Some opts) s Hwf ltac:(rewrite Z2Nat.id; lia)) as (H1 & _ & _ & H2).
  destruct (reserve_loop _ _ _ _ _ _ _ _ _ _ _ _) as [id s']. cbn [fst snd] in *. unfold files_outcome in Hfiles.
  pose proof (wf_next _ Hwf). split; [done|].
  destruct H2 as [(-> & Hh & Hd)|(p & Hid & Hh & Hlen & Hp & Hdb)].
  - rewrite decide_True in Hfiles by done. split; [|done]. intros q n Hq. by eapply only_adds_dirs_keeps.
  - rewrite decide_False in Hfiles by lia. destruct Hfiles as (d & l & E & Hn & Ht).
    rewrite Hh in E. injection E as <- <-. cbn [set_reserved queued_entry d_dest_path] in *.
    rewrite strlcpy_id in Hn, Ht by done. split; [|split; [lia|]].
    + intros q n Hq. destruct (decide (q = p)) as [->|Hne]; [congruence|].
      destruct (Ht q Hne) as [?|[? ?]]; congruence.
    + intros _. split; [|by exists p]. intros Hin. pose proof (wf_ids _ Hwf) as Hall.
      rewrite Forall_forall in Hall. specialize (Hall _ Hin). lia.
Qed.

(** A name that is taken, in a queue with one entry. *)
Definition reserve_fs : filesystem :=
  <[str "/d/f.bin" := NReg (reg_pwrite empty_reg 0 [7])]> sched_fs.
Definition reserve_start : SState := mkS sched_queue reserve_fs (Some empty_tables) [].
Definition reserve_demo (others : nat -> filesystem -> filesystem) (fuel : nat) : Z * SState :=
  reserve_loop always_ok permissive (fun _ _ => true) true true 5 others fuel (str "http://h/f.bin")
    (str "/d/f.bin") (Some no_options) reserve_start.

Lemma reserve_download_spec_witness :
  exists res, res = reserve_download always_ok permissive (fun _ _ => true) true true 5 (fun _ fs => fs)
    (str "http://h/f.bin") (str "/d/f.bin") no_options reserve_start /\
  fst res = 2 /\ s_fs (snd res) !! str "/d/f.bin" = Some (NReg (reg_pwrite empty_reg 0 [7])) /\
  s_fs (snd res) !! str "/d/f(1).bin" = Some (NReg empty_reg).
Proof.
  assert (qm_wf sched_queue) as Hwf.
  { split; [apply (NoDup_singleton 1)|apply Forall_singleton; simpl; lia|simpl; lia]. }
  destruct (reserve_download_spec always_ok permissive (fun _ _ => true) true true 5 (str "http://h/f.bin")
              (str "/d/f.bin") no_options reserve_start Hwf ltac:(simpl; lia)) as (_ & Hkeep & _ & _).
  eexists. split; [reflexivity|]. split; [vm_compute; reflexivity|]. split.
  - apply Hkeep. vm_compute. reflexivity.
  - vm_compute. reflexivity.
Defined.

(** Another process takes the chosen name first: the claim fails, and the entry
    is removed together with the file of the other process; the next attempt
    then takes the name. *)
Example reserve_deletes_foreign_file :
  let others (k : nat) fs :=
    if Nat.eqb k 1 then <[str "/d/f(1).bin" := NReg (reg_pwrite empty_reg 0 [9; 9])]> fs else fs in
  fst (reserve_demo others 2) = 3 /\
  s_fs (snd (reserve_demo others 2)) !! str "/d/f(1).bin" = Some (NReg empty_reg).
Proof. vm_compute. done. Qed.
