(* ===== verification/Offers.v ===== *)
(** * Browser offers ([src/platform/ipc_socket.c])

    The 64 slots in which the daemon keeps the downloads a browser extension
    has proposed until a user confirms or dismisses them: parsing and checking
    an offer, the slot operations behind the messages, expiry after ten
    minutes, and the progress record sent to the extension. *)

From S2P Require Import Prelude Path FileIo QueueManager Db Config Engine Scheduler Wire Commands.

(** ** Data *)

Inductive IpcBrowserOfferState := IPC_BROWSER_WAITING | IPC_BROWSER_CONFIRMED | IPC_BROWSER_DISMISSED.

#[global] Instance offer_state_eq_dec : EqDecision IpcBrowserOfferState.
Proof. solve_decision. Defined.

Record IpcBrowserOffer := mkOffer {
  o_offer_id : Z;
  o_download_id : Z;
  o_total_bytes : Z;
  o_state : IpcBrowserOfferState;
  o_request_id : bytes;      (* char[128] *)
  o_url : bytes;             (* char[2048] *)
  o_filename : bytes;        (* char[512] *)
  o_mime : bytes;            (* char[128] *)
  o_referrer : bytes;        (* char[2048] *)
}.

Definition no_offer : IpcBrowserOffer := mkOffer 0 0 0 IPC_BROWSER_WAITING [] [] [] [] [].

#[global] Instance offer_eq_dec : EqDecision IpcBrowserOffer.
Proof. solve_decision. Defined.

Record BrowserOfferSlot := mkSlot { sl_offer : IpcBrowserOffer; sl_touched_at : Z }.

Definition empty_slot : BrowserOfferSlot := mkSlot no_offer 0.

Definition MAX_BROWSER_OFFERS : nat := 64.
Definition BROWSER_OFFER_TTL_SECONDS : Z := 600.

Abbreviation slots := (list BrowserOfferSlot).

Definition slot_id (sl : BrowserOfferSlot) : Z := o_offer_id (sl_offer sl).

(** ** Slots *)

Definition unfinished (status : option DownloadStatus) : bool :=
  match status with
  | Some st => bool_decide (st <> DOWNLOAD_DONE /\ st <> DOWNLOAD_ERROR /\ st <> DOWNLOAD_CANCELED)
  | None => false
  end.

Definition expire_slot (now : Z) (q : QM) (sl : BrowserOfferSlot) : BrowserOfferSlot :=
  if slot_id sl =? 0 then sl
  else if now - sl_touched_at sl <=? BROWSER_OFFER_TTL_SECONDS then sl
  else if bool_decide (o_state (sl_offer sl) = IPC_BROWSER_CONFIRMED)
          && unfinished (queue_manager_get_status (o_download_id (sl_offer sl)) q) then sl
  else empty_slot.

Definition browser_expire_offers (now : Z) (q : QM) (l : slots) : slots := map (expire_slot now q) l.

(** A pointer to a slot is its index. *)
Definition browser_find_offer (id : Z) (l : slots) : option nat :=
  if id =? 0 then None else fst <$> list_find (fun sl => slot_id sl = id) l.

Definition browser_find_request (request_id : bytes) (l : slots) : option nat :=
  fst <$> list_find (fun sl => slot_id sl <> 0 /\ o_request_id (sl_offer sl) = request_id) l.

Definition free_slot (l : slots) : option nat := fst <$> list_find (fun sl => slot_id sl = 0) l.

Definition slot_at (l : slots) (i : nat) : IpcBrowserOffer := sl_offer (nth i l empty_slot).

(** [browser_random_id] at attempt [k]: 0 when /dev/urandom fails. *)
Abbreviation random_source := (nat -> Z).

Fixpoint pick_id (rnd : random_source) (l : slots) (attempt left : nat) : Z :=
  match left with
  | O => 0
  | S left' =>
      let id := rnd attempt in
      let id := if bool_decide (browser_find_offer id l = None) then id else 0 in
      if id =? 0 then pick_id rnd l (S attempt) left' else id
  end.

(** ** Parsing an offer *)

Definition browser_json_string (root : json_object) (key : bytes) (capacity : Z) (required : bool)
    : option bytes :=
  match root key with
  | None => if required then None else Some []
  | Some (JString s) =>
      if (required && bool_decide (s = [])) || (capacity <=? strlen s) then None else Some s
  | Some _ => None
  end.

(** [None] when the member is there and not an acceptable number. *)
Definition json_total (root : json_object) : option Z :=
  match root (str "total_bytes") with
  | None => Some 0
  | Some (JNumber num den) =>
      if (num <? 0) || (9007199254740991 * Zpos den <? num) then None else Some (u64 (num / Zpos den))
  | Some _ => None
  end.

Definition http_url (url : bytes) : bool :=
  strprefix (str "https://") url || strprefix (str "http://") url.

(** The filename test of [browser_parse_offer]. *)
Definition bad_filename (f : bytes) : bool :=
  bool_decide (is_Some (strchr f CH_SLASH)) || bool_decide (is_Some (strchr f CH_BACKSLASH))
  || streq f (str ".") || streq f (str "..").

Definition offer_of_object (root : json_object) : option IpcBrowserOffer :=
  match browser_json_string root (str "request_id") 128 true,
        browser_json_string root (str "url") 2048 true,
        browser_json_string root (str "filename") 512 false,
        browser_json_string root (str "mime") 128 false,
        browser_json_string root (str "referrer") 2048 false,
        json_total root with
  | Some request_id, Some url, Some filename, Some mime, Some referrer, Some total =>
      if negb (http_url url) then None
      else
        let filename := if bool_decide (filename = []) then path_filename_from_url url 512 else filename in
        if bad_filename filename then None
        else Some (mkOffer 0 0 total IPC_BROWSER_WAITING request_id url filename mime referrer)
  | _, _, _, _, _, _ => None
  end.

Definition browser_parse_offer (json_parse : bytes -> option json_object) (json : bytes)
    : option IpcBrowserOffer :=
  match json_parse json with
  | Some root => offer_of_object root
  | None => None
  end.

(** ** The messages *)

Definition set_offer_id (id : Z) (o : IpcBrowserOffer) : IpcBrowserOffer :=
  mkOffer id (o_download_id o) (o_total_bytes o) (o_state o) (o_request_id o) (o_url o) (o_filename o)
    (o_mime o) (o_referrer o).

Definition set_offer_state (st : IpcBrowserOfferState) (o : IpcBrowserOffer) : IpcBrowserOffer :=
  mkOffer (o_offer_id o) (o_download_id o) (o_total_bytes o) st (o_request_id o) (o_url o) (o_filename o)
    (o_mime o) (o_referrer o).

Definition set_download_id (id : Z) (o : IpcBrowserOffer) : IpcBrowserOffer :=
  mkOffer (o_offer_id o) id (o_total_bytes o) (o_state o) (o_request_id o) (o_url o) (o_filename o)
    (o_mime o) (o_referrer o).

(** MSG_BROWSER_OFFER after the payload is read: the response. *)
Definition browser_offer (proposed : option IpcBrowserOffer) (rnd : random_source) (now : Z) (l : slots)
    : IpcBrowserOffer * slots :=
  match proposed with
  | None => (no_offer, l)
  | Some p =>
      match browser_find_request (o_request_id p) l with
      | Some i => if streq (o_url (slot_at l i)) (o_url p) then (slot_at l i, l) else (no_offer, l)
      | None =>
          match free_slot l with
          | None => (no_offer, l)
          | Some i =>
              let id := pick_id rnd l 0 16 in
              if id =? 0 then (no_offer, l)
              else let o := set_offer_id id p in (o, <[i := mkSlot o now]> l)
          end
      end
  end.

Definition browser_get_offer (id now : Z) (l : slots) : IpcBrowserOffer * slots :=
  match browser_find_offer id l with
  | None => (no_offer, l)
  | Some i => (slot_at l i, <[i := mkSlot (slot_at l i) now]> l)
  end.

(** MSG_BROWSER_DISMISS. *)
Definition browser_dismiss (id now : Z) (l : slots) : IpcResult * slots :=
  match browser_find_offer id l with
  | None => (IPC_RESULT_NOT_FOUND, l)
  | Some i =>
      match o_state (slot_at l i) with
      | IPC_BROWSER_WAITING =>
          (IPC_RESULT_OK, <[i := mkSlot (set_offer_state IPC_BROWSER_DISMISSED (slot_at l i)) now]> l)
      | IPC_BROWSER_DISMISSED => (IPC_RESULT_OK, l)
      | IPC_BROWSER_CONFIRMED => (IPC_RESULT_REJECTED, l)
      end
  end.

(** MSG_BROWSER_CONFIRM with a payload that was accepted; [reserve] is
    [reserve_download]. *)
Definition browser_confirm (reserve : bytes -> bytes -> RequestOptions -> SState -> Z * SState)
    (offer_id : Z) (dest : bytes) (now : Z) (l : slots) (s : SState) : Z * slots * SState :=
  match browser_find_offer offer_id l with
  | None => (0, l, s)
  | Some i =>
      let o := slot_at l i in
      match o_state o with
      | IPC_BROWSER_CONFIRMED => (o_download_id o, l, s)
      | IPC_BROWSER_DISMISSED => (0, l, s)
      | IPC_BROWSER_WAITING =>
          let opts := mkOpts [] (strlcpy 2048 (o_referrer o)) [] [] 0 in
          let '(download_id, s) := reserve (o_url o) dest opts s in
          if download_id =? 0 then (0, l, s)
          else
            (download_id,
             <[i := mkSlot (set_offer_state IPC_BROWSER_CONFIRMED (set_download_id download_id o)) now]> l, s)
      end
  end.

(** ** Progress records *)

Record IpcBrowserProgress := mkProgress {
  p_download_id : Z;
  p_bytes_received : Z;
  p_total_bytes : Z;
  p_progress : Z;            (* the bits of a float *)
  p_status : bytes;          (* char[24] *)
  p_error : bytes;           (* char[256] *)
  p_dest_path : bytes;       (* char[1024] *)
}.

Definition chunk_bytes (cs : list DownloadChunk) : Z := fold_left (fun n c => u64 (n + bytes_done c)) cs 0.

Definition snapshot_done (sn : DownloadRuntimeSnapshot) : Z :=
  if decide (rs_status sn = DOWNLOAD_ACTIVE) then rs_bytes_downloaded sn else chunk_bytes (rs_chunks sn).

(** [fraction > 1.0 ? 1.0 : fraction], as a float. *)
Definition snapshot_progress (sn : DownloadRuntimeSnapshot) : Z :=
  if rs_total_size sn =? 0 then 0
  else
    let fraction := f64_div (f64_of_Z (snapshot_done sn)) (f64_of_Z (rs_total_size sn)) in
    f32_bits (f32_of_f64 (if f64_lt (f64_of_Z 1) fraction then f64_of_Z 1 else fraction)).

Definition browser_progress_snapshot (id : Z) (error : option bytes) (q : QM) : IpcBrowserProgress :=
  match queue_manager_get_runtime_snapshot id q with
  | None => mkProgress id 0 0 0 (strlcpy 24 (str "NOT_FOUND")) [] []
  | Some sn =>
      let received :=
        match rs_status sn with
        | DOWNLOAD_ACTIVE => rs_bytes_downloaded sn
        | DOWNLOAD_DONE => if rs_total_size sn =? 0 then rs_bytes_downloaded sn else rs_total_size sn
        | _ => chunk_bytes (rs_chunks sn)
        end in
      mkProgress id received (rs_total_size sn)
        (if decide (rs_status sn = DOWNLOAD_DONE) then ratio_bits 1 1 else snapshot_progress sn)
        (strlcpy 24 (status_to_string (rs_status sn)))
        (match error with Some e => strlcpy 256 e | None => [] end)
        (rs_dest_path sn)
  end.

(** ** The slots as a transition system *)

Inductive offer_op :=
| OpOffer (json : bytes) (rnd : random_source) (now : Z)
| OpGetOffer (id now : Z)
| OpConfirm (id : Z) (dest : bytes) (now : Z)
| OpDismiss (id now : Z)
| OpExpire (now : Z).

Section Runs.

Context (json_parse : bytes -> option json_object).
Context (reserve : bytes -> bytes -> RequestOptions -> SState -> Z * SState).

Definition offer_apply (op : offer_op) (st : slots * SState) : slots * SState :=
  let '(l, s) := st in
  match op with
  | OpOffer json rnd now => (snd (browser_offer (browser_parse_offer json_parse json) rnd now l), s)
  | OpGetOffer id now => (snd (browser_get_offer id now l), s)
  | OpConfirm id dest now => let '(_, l, s) := browser_confirm reserve id dest now l s in (l, s)
  | OpDismiss id now => (snd (browser_dismiss id now l), s)
  | OpExpire now => (browser_expire_offers now (s_q s) l, s)
  end.

Definition offer_run (ops : list offer_op) (st : slots * SState) : slots * SState :=
  fold_left (fun st op => offer_apply op st) ops st.

(** What a stored offer promises to the popup that shows it and to the user
    who confirms it. *)
Record offer_ok (o : IpcBrowserOffer) : Prop := {
  ok_url : http_url (o_url o) = true;
  ok_name : o_filename o <> [] /\ bad_filename (o_filename o) = false;
  ok_request : o_request_id o <> [];
  ok_sizes : strlen (o_request_id o) < 128 /\ strlen (o_url o) < 2048 /\ strlen (o_filename o) < 512 /\
    strlen (o_mime o) < 128 /\ strlen (o_referrer o) < 2048;
  ok_state : o_state o = IPC_BROWSER_CONFIRMED <-> o_download_id o <> 0;
}.

Record offers_wf (l : slots) : Prop := {
  ow_len : length l = MAX_BROWSER_OFFERS;
  ow_id : forall i j a b, l !! i = Some a -> l !! j = Some b -> slot_id a <> 0 -> slot_id a = slot_id b -> i = j;
  ow_req : forall i j a b, l !! i = Some a -> l !! j = Some b -> slot_id a <> 0 -> slot_id b <> 0 ->
    o_request_id (sl_offer a) = o_request_id (sl_offer b) -> i = j;
  ow_ok : forall i a, l !! i = Some a -> slot_id a <> 0 -> offer_ok (sl_offer a);
}.

(** ** Lemmas *)

Lemma slot_at_lookup l i sl : l !! i = Some sl -> slot_at l i = sl_offer sl.
Proof. intros H. unfold slot_at. by rewrite (nth_lookup_Some _ _ _ _ H). Qed.

Lemma find_offer_Some id l i :
  browser_find_offer id l = Some i -> id <> 0 /\ exists sl, l !! i = Some sl /\ slot_id sl = id.
Proof.
  unfold browser_find_offer. destruct (Z.eqb_spec id 0); [done|].
  intros ([j sl] & E & ->)%fmap_Some. apply list_find_Some in E as (? & ? & _). split; [done|]. by exists sl.
Qed.

Lemma find_offer_None id l :
  browser_find_offer id l = None -> id <> 0 -> forall i sl, l !! i = Some sl -> slot_id sl <> id.
Proof.
  unfold browser_find_offer. intros H Hid i sl Hl. rewrite (proj2 (Z.eqb_neq id 0) Hid) in H.
  apply fmap_None, list_find_None in H. rewrite Forall_forall in H. apply H. by eapply list_elem_of_lookup_2.
Qed.

Lemma find_offer_at l i sl :
  offers_wf l -> l !! i = Some sl -> slot_id sl <> 0 -> browser_find_offer (slot_id sl) l = Some i.
Proof.
  intros Hwf Hi Hid. destruct (browser_find_offer (slot_id sl) l) as [j|] eqn:E.
  - apply find_offer_Some in E as (_ & b & Hb & Eb). f_equal. symmetry. by eapply ow_id.
  - by destruct (find_offer_None _ _ E Hid _ _ Hi).
Qed.

Lemma find_request_Some r l i :
  browser_find_request r l = Some i ->
  exists sl, l !! i = Some sl /\ slot_id sl <> 0 /\ o_request_id (sl_offer sl) = r.
Proof.
  unfold browser_find_request. intros ([j sl] & E & ->)%fmap_Some.
  apply list_find_Some in E as (? & [? ?] & _). by exists sl.
Qed.

Lemma find_request_None r l :
  browser_find_request r l = None ->
  forall i sl, l !! i = Some sl -> slot_id sl <> 0 -> o_request_id (sl_offer sl) <> r.
Proof.
  unfold browser_find_request. intros H%fmap_None i sl Hl Hid E. apply list_find_None in H.
  rewrite Forall_forall in H. apply (H sl); [by eapply list_elem_of_lookup_2|done].
Qed.

Lemma free_slot_Some l i : free_slot l = Some i -> exists sl, l !! i = Some sl /\ slot_id sl = 0.
Proof.
  unfold free_slot. intros ([j sl] & E & ->)%fmap_Some. apply list_find_Some in E as (? & ? & _). by exists sl.
Qed.

Lemma pick_id_fresh rnd l attempt left :
  pick_id rnd l attempt left <> 0 -> browser_find_offer (pick_id rnd l attempt left) l = None.
Proof.
  revert attempt. induction left as [|left IH]; intros attempt; [done|]. cbn [pick_id].
  destruct (bool_decide (browser_find_offer (rnd attempt) l = None)) eqn:E.
  - destruct (Z.eqb_spec (rnd attempt) 0); [apply IH|]. intros _. by breflect.
  - apply IH.
Qed.

(** Replacing a slot by one that agrees with no other. *)
Lemma offers_wf_insert l i sl :
  offers_wf l -> (i < length l)%nat ->
  (slot_id sl <> 0 -> offer_ok (sl_offer sl)) ->
  (forall j b, j <> i -> l !! j = Some b -> slot_id b <> 0 -> slot_id sl <> 0 ->
     slot_id b <> slot_id sl /\ o_request_id (sl_offer b) <> o_request_id (sl_offer sl)) ->
  offers_wf (<[i := sl]> l).
Proof.
  intros [Hlen Hid Hreq Hok] Hi Hs Hother.
  assert (forall j a, <[i := sl]> l !! j = Some a -> (j = i /\ a = sl) \/ (j <> i /\ l !! j = Some a)) as Hget.
  { intros j a. destruct (decide (j = i)) as [->|Hne].
    - rewrite list_lookup_insert_eq by done. intros [= <-]. by left.
    - rewrite list_lookup_insert_ne by done. by right. }
  split.
  - by rewrite length_insert.
  - intros j k a b [(-> & ->)|(Hj & Ha)]%Hget [(-> & ->)|(Hk & Hb)]%Hget Hz E; [done| | |by eapply Hid].
    + destruct (Hother k b Hk Hb ltac:(congruence) Hz). congruence.
    + destruct (Hother j a Hj Ha Hz ltac:(congruence)). congruence.
  - intros j k a b [(-> & ->)|(Hj & Ha)]%Hget [(-> & ->)|(Hk & Hb)]%Hget Hz Hz' E; [done| | |by eapply Hreq].
    + destruct (Hother k b Hk Hb Hz' Hz). congruence.
    + destruct (Hother j a Hj Ha Hz Hz'). congruence.
  - intros j a [(-> & ->)|(Hj & Ha)]%Hget Hz; [by apply Hs|by eapply Hok].
Qed.

(** The same offer, with another state or time. *)
Lemma offers_wf_update l i sl o now :
  offers_wf l -> l !! i = Some sl -> o_offer_id o = slot_id sl ->
  o_request_id o = o_request_id (sl_offer sl) ->
  (offer_ok (sl_offer sl) -> offer_ok o) -> offers_wf (<[i := mkSlot o now]> l).
Proof.
  intros Hwf Hi Eid Ereq Hok. apply offers_wf_insert; [done|by eapply lookup_lt_Some| |].
  - intros Hz. apply Hok. eapply (ow_ok l Hwf i); [done|]. unfold slot_id in *. simpl in *. congruence.
  - intros j b Hj Hb Hz Hz'. unfold slot_id in *. simpl in *. rewrite Eid, Ereq in *. split; intros E; apply Hj.
    + eapply (ow_id l Hwf); [exact Hb|exact Hi|done|done].
    + eapply (ow_req l Hwf); [exact Hb|exact Hi|done|done|done].
Qed.

Lemma json_string_result root key cap req s :
  browser_json_string root key cap req = Some s -> 0 < cap -> strlen s < cap /\ (req = true -> s <> []).
Proof.
  unfold browser_json_string. destruct (root key) as [[v| |]|]; try done.
  - destruct (req && bool_decide (v = [])) eqn:E; [done|]. cbn [orb].
    destruct (Z.leb_spec cap (strlen v)); [done|]. intros [= ->] _. split; [done|]. intros ->.
    simpl in E. by breflect.
  - destruct req; [done|]. intros [= <-]. unfold strlen. simpl. done.
Qed.

Lemma path_filename_size url n : 0 < n -> strlen (path_filename_from_url url n) < n.
Proof. intros H. unfold path_filename_from_url. pose proof (strlcpy_length n) as Hl. eapply Z.le_lt_trans; [by apply Hl|lia]. Qed.

Lemma parse_offer_ok json p :
  browser_parse_offer json_parse json = Some p -> offer_ok p.
Proof.
  unfold browser_parse_offer. destruct (json_parse json) as [root|]; [|done]. unfold offer_of_object.
  destruct (browser_json_string root _ 128 true) as [rid|] eqn:E1; [|done].
  destruct (browser_json_string root _ 2048 true) as [url|] eqn:E2; [|done].
  destruct (browser_json_string root _ 512 false) as [name|] eqn:E3; [|done].
  destruct (browser_json_string root (str "mime") 128 false) as [mime|] eqn:E4; [|done].
  destruct (browser_json_string root (str "referrer") 2048 false) as [ref|] eqn:E5; [|done].
  destruct (json_total root) as [total|]; [|done].
  destruct (http_url url) eqn:Eu; [|done]. cbn [negb]. set (f := if bool_decide _ then _ else _).
  destruct (bad_filename f) eqn:Ef; [done|]. intros [= <-].
  apply json_string_result in E1 as [H1 H1']; [|lia]. apply json_string_result in E2 as [H2 _]; [|lia].
  apply json_string_result in E3 as [H3 _]; [|lia]. apply json_string_result in E4 as [H4 _]; [|lia].
  apply json_string_result in E5 as [H5 _]; [|lia].
  assert (f <> [] /\ strlen f < 512) as [Hf Hf'].
  { unfold f. case_bool; [|by breflect]. split; [by apply path_filename_nonempty|by apply path_filename_size]. }
  split; simpl; auto; done.
Qed.

Lemma offer_ok_state o st : o_state o = IPC_BROWSER_WAITING -> st <> IPC_BROWSER_CONFIRMED ->
  offer_ok o -> offer_ok (set_offer_state st o).
Proof.
  intros Hw Hst [? ? ? ? [H1 H2]]. split; try done. simpl. split; [done|]. intros Hd. specialize (H2 Hd). congruence.
Qed.

Lemma offer_ok_confirmed o id : id <> 0 -> offer_ok o ->
  offer_ok (set_offer_state IPC_BROWSER_CONFIRMED (set_download_id id o)).
Proof. intros Hid [? ? ? ? ?]. split; done. Qed.

Lemma offers_wf_empty : offers_wf (replicate MAX_BROWSER_OFFERS empty_slot).
Proof.
  split; [by rewrite length_replicate| | |]; [intros i j a b [-> _]%lookup_replicate _ Hz; done
    |intros i j a b [-> _]%lookup_replicate _ Hz; done|intros i a [-> _]%lookup_replicate Hz; done].
Qed.

Lemma expire_slot_cases now q sl :
  expire_slot now q sl = sl \/ (expire_slot now q sl = empty_slot /\ slot_id sl <> 0).
Proof. unfold expire_slot. repeat case_bool; breflect; auto. Qed.

Lemma offers_wf_expire now q l : offers_wf l -> offers_wf (browser_expire_offers now q l).
Proof.
  intros [Hlen Hid Hreq Hok]. unfold browser_expire_offers.
  assert (forall i a, map (expire_slot now q) l !! i = Some a -> slot_id a <> 0 -> l !! i = Some a) as Hget.
  { intros i a (sl & -> & Hl)%list_lookup_fmap_Some_1 Hz.
    destruct (expire_slot_cases now q sl) as [E|[E _]]; rewrite E in *; done. }
  split; [by rewrite length_map| | |].
  - intros i j a b Ha Hb Hz E. assert (slot_id b <> 0) by congruence. eapply Hid; eauto.
  - intros i j a b Ha Hb Hz Hz' E. eapply Hreq; eauto.
  - intros i a Ha Hz. eapply Hok; eauto.
Qed.

Lemma offers_wf_offer p rnd now l :
  offers_wf l -> (forall o, p = Some o -> offer_ok o) -> offers_wf (snd (browser_offer p rnd now l)).
Proof.
  intros Hwf Hp. unfold browser_offer. destruct p as [o|]; [|done].
  destruct (browser_find_request _ l) as [i|] eqn:Er; [by case_bool|].
  destruct (free_slot l) as [i|] eqn:Ef; [|done]. apply free_slot_Some in Ef as (sl & Hi & Hz).
  set (id := pick_id rnd l 0 16). destruct (Z.eqb_spec id 0); [done|]. cbn [snd].
  pose proof (pick_id_fresh rnd l 0 16 ltac:(done)) as Hfresh. fold id in Hfresh.
  apply offers_wf_insert; [done|by eapply lookup_lt_Some| |].
  - intros _. destruct (Hp o eq_refl). by split.
  - intros j b Hj Hb Hzb _. unfold slot_id at 2. cbn [sl_offer set_offer_id o_offer_id o_request_id]. split.
    + by eapply find_offer_None.
    + by eapply find_request_None.
Qed.

Lemma confirm_cases id dest now l s :
  browser_confirm reserve id dest now l s = (0, l, s) \/
  (exists i sl, l !! i = Some sl /\ slot_id sl = id /\ id <> 0 /\ browser_find_offer id l = Some i /\
     ((o_state (sl_offer sl) = IPC_BROWSER_CONFIRMED /\
       browser_confirm reserve id dest now l s = (o_download_id (sl_offer sl), l, s)) \/
      (o_state (sl_offer sl) = IPC_BROWSER_WAITING /\ exists d s',
         reserve (o_url (sl_offer sl)) dest (mkOpts [] (strlcpy 2048 (o_referrer (sl_offer sl))) [] [] 0) s
           = (d, s') /\
         browser_confirm reserve id dest now l s =
           (d, if d =? 0 then l else <[i := mkSlot (set_offer_state IPC_BROWSER_CONFIRMED
                                                     (set_download_id d (sl_offer sl))) now]> l, s')))).
Proof.
  unfold browser_confirm. destruct (browser_find_offer id l) as [i|] eqn:E; [|by left].
  pose proof (find_offer_Some _ _ _ E) as (Hid & sl & Hl & Esl). rewrite (slot_at_lookup _ _ _ Hl).
  destruct (o_state (sl_offer sl)) eqn:Es; [| |by left]; right; exists i, sl; repeat (split; [done|]).
  - right. split; [done|]. destruct (reserve _ _ _ s) as [d s'] eqn:Er. exists d, s'. split; [done|].
    destruct (Z.eqb_spec d 0) as [->|]; done.
  - left. done.
Qed.

Lemma offers_wf_apply op st : offers_wf (fst st) -> offers_wf (fst (offer_apply op st)).
Proof.
  destruct st as [l s]. intros Hwf. destruct op as [json rnd now|id now|id dest now|id now|now]; cbn [offer_apply fst].
  - apply offers_wf_offer; [done|]. intros o. apply parse_offer_ok.
  - unfold browser_get_offer. destruct (browser_find_offer id l) as [i|] eqn:E; [|done].
    apply find_offer_Some in E as (_ & sl & Hl & _). rewrite (slot_at_lookup _ _ _ Hl).
    by eapply offers_wf_update.
  - destruct (confirm_cases id dest now l s) as [->|(i & sl & Hl & Hid & Hne & _ & H)]; [done|].
    destruct H as [[_ ->]|(Hs & d & s' & _ & ->)]; [done|]. simpl. destruct (Z.eqb_spec d 0); [done|].
    eapply offers_wf_update; [done|done|done|done|]. by apply offer_ok_confirmed.
  - unfold browser_dismiss. destruct (browser_find_offer id l) as [i|] eqn:E; [|done].
    apply find_offer_Some in E as (_ & sl & Hl & _). rewrite (slot_at_lookup _ _ _ Hl).
    destruct (o_state (sl_offer sl)) eqn:Es; [|done|done]. cbn [snd].
    eapply offers_wf_update; [done|done|done|done|]. by apply offer_ok_state.
  - by apply offers_wf_expire.
Qed.

Lemma offers_wf_run ops st : offers_wf (fst st) -> offers_wf (fst (offer_run ops st)).
Proof.
  unfold offer_run. revert st. induction ops as [|op ops IH]; intros st H; [done|]. simpl. apply IH.
  by apply offers_wf_apply.
Qed.

(** *** A decided offer does not change *)

Definition no_expiry (op : offer_op) : Prop := match op with OpExpire _ => False | _ => True end.

Definition decided (o : IpcBrowserOffer) : Prop := o_state o <> IPC_BROWSER_WAITING.

(** What an operation other than expiry does to a slot in use. *)
Lemma apply_keeps op st i sl :
  offers_wf (fst st) -> no_expiry op -> fst st !! i = Some sl -> slot_id sl <> 0 ->
  exists sl', fst (offer_apply op st) !! i = Some sl' /\ slot_id sl' = slot_id sl /\
    o_request_id (sl_offer sl') = o_request_id (sl_offer sl) /\ o_url (sl_offer sl') = o_url (sl_offer sl) /\
    (decided (sl_offer sl) -> sl_offer sl' = sl_offer sl).
Proof.
  destruct st as [l s]. cbn [fst]. intros Hwf Hop Hi Hz.
  assert (forall k sl0 o now, l !! k = Some sl0 -> o_offer_id o = slot_id sl0 ->
            o_request_id o = o_request_id (sl_offer sl0) -> o_url o = o_url (sl_offer sl0) ->
            (decided (sl_offer sl0) -> o = sl_offer sl0) ->
            exists sl', <[k := mkSlot o now]> l !! i = Some sl' /\ slot_id sl' = slot_id sl /\
              o_request_id (sl_offer sl') = o_request_id (sl_offer sl) /\
              o_url (sl_offer sl') = o_url (sl_offer sl) /\ (decided (sl_offer sl) -> sl_offer sl' = sl_offer sl))
    as Hupd.
  { intros k sl0 o now Hk E1 E2 E3 E4. destruct (decide (k = i)) as [->|Hne].
    - rewrite Hi in Hk. injection Hk as <-. rewrite list_lookup_insert_eq by (by eapply lookup_lt_Some).
      exists (mkSlot o now). done.
    - exists sl. rewrite list_lookup_insert_ne by done. done. }
  assert (exists sl', l !! i = Some sl' /\ slot_id sl' = slot_id sl /\
            o_request_id (sl_offer sl') = o_request_id (sl_offer sl) /\
            o_url (sl_offer sl') = o_url (sl_offer sl) /\ (decided (sl_offer sl) -> sl_offer sl' = sl_offer sl))
    as Hsame by (by exists sl).
  destruct op as [json rnd now|id now|id dest now|id now|now]; cbn [offer_apply fst]; [| | | |done].
  - unfold browser_offer. destruct (browser_parse_offer json_parse json) as [p|]; [|done].
    destruct (browser_find_request _ l) as [k|]; [by case_bool|].
    destruct (free_slot l) as [k|] eqn:Ef; [|done]. apply free_slot_Some in Ef as (sl0 & Hk & Hz0).
    destruct (pick_id _ _ _ _ =? 0); [done|]. cbn [snd]. exists sl.
    rewrite list_lookup_insert_ne by congruence. done.
  - unfold browser_get_offer. destruct (browser_find_offer id l) as [k|] eqn:E; [|done].
    apply find_offer_Some in E as (_ & sl0 & Hl & _). rewrite (slot_at_lookup _ _ _ Hl). by eapply Hupd.
  - destruct (confirm_cases id dest now l s) as [->|(k & sl0 & Hl & Hid & Hne & _ & H)]; [done|].
    destruct H as [[_ ->]|(Hs & d & s' & _ & ->)]; [done|]. cbn [fst snd]. destruct (d =? 0); [done|].
    eapply Hupd; [exact Hl|done|done|done|]. intros Hd. by destruct Hd.
  - unfold browser_dismiss. destruct (browser_find_offer id l) as [k|] eqn:E; [|done].
    apply find_offer_Some in E as (_ & sl0 & Hl & _). rewrite (slot_at_lookup _ _ _ Hl).
    destruct (o_state (sl_offer sl0)) eqn:Es; [|done|done]. cbn [snd].
    eapply Hupd; [exact Hl|done|done|done|]. intros Hd. by destruct Hd.
Qed.

Lemma run_keeps ops st i sl :
  offers_wf (fst st) -> Forall no_expiry ops -> fst st !! i = Some sl -> slot_id sl <> 0 ->
  exists sl', fst (offer_run ops st) !! i = Some sl' /\ slot_id sl' = slot_id sl /\
    o_request_id (sl_offer sl') = o_request_id (sl_offer sl) /\ o_url (sl_offer sl') = o_url (sl_offer sl) /\
    (decided (sl_offer sl) -> sl_offer sl' = sl_offer sl).
Proof.
  unfold offer_run. revert st sl. induction ops as [|op ops IH]; intros st sl Hwf Hops Hi Hz; [by exists sl|].
  apply Forall_cons in Hops as [Hop Hops]. simpl.
  destruct (apply_keeps op st i sl Hwf Hop Hi Hz) as (s1 & H1 & E1 & R1 & U1 & D1).
  destruct (IH (offer_apply op st) s1 (offers_wf_apply op st Hwf) Hops H1 ltac:(congruence))
    as (s2 & H2 & E2 & R2 & U2 & D2).
  exists s2. split; [done|]. split; [congruence|]. split; [congruence|]. split; [congruence|].
  intros Hd. pose proof (D1 Hd) as E. rewrite E in D2. rewrite <- E. rewrite E. by apply D2.
Qed.

(** ** Properties *)

(** C18. The offer table stays well formed under every sequence of messages and
    expiries: live offers have different ids and different request ids, carry
    an http(s) url and a file name without separators that is not empty, dot or
    dot-dot, fit their fields, and have a download exactly when confirmed. *)
Theorem offers_invariant ops s :
  offers_wf (fst (offer_run ops (replicate MAX_BROWSER_OFFERS empty_slot, s))).
Proof. apply offers_wf_run, offers_wf_empty. Qed.

(** C17. An offer starts at most one download.  Once a confirmation has answered
    an id, then whatever messages follow, as long as the offer is not expired,
    every further confirmation of the same offer answers that id again, with any
    destination, and changes nothing. *)
Theorem offer_confirmed_once id dest now l s d l1 s1 ops dest' now' :
  offers_wf l -> browser_confirm reserve id dest now l s = (d, l1, s1) -> d <> 0 -> Forall no_expiry ops ->
  let '(l2, s2) := offer_run ops (l1, s1) in
  browser_confirm reserve id dest' now' l2 s2 = (d, l2, s2).
Proof.
  intros Hwf Hc Hd Hops.
  assert (exists i sl, l1 !! i = Some sl /\ slot_id sl = id /\ id <> 0 /\ offers_wf l1 /\
            o_state (sl_offer sl) = IPC_BROWSER_CONFIRMED /\ o_download_id (sl_offer sl) = d) as
    (i & sl & Hl & Hid & Hne & Hwf1 & Hs & Hdl).
  { pose proof (offers_wf_apply (OpConfirm id dest now) (l, s) Hwf) as Hwf1. cbn [offer_apply] in Hwf1.
    rewrite Hc in Hwf1. cbn [fst] in Hwf1.
    destruct (confirm_cases id dest now l s) as [E|(i & sl & Hl & Hid & Hne & _ & H)]; [congruence|].
    destruct H as [[Hs E]|(Hs & x & s' & _ & E)]; rewrite E in Hc; injection Hc as <- <- <-.
    - by exists i, sl.
    - rewrite (proj2 (Z.eqb_neq x 0) Hd) in *. eexists i, _.
      rewrite list_lookup_insert_eq by (by eapply lookup_lt_Some). done. }
  destruct (offer_run ops (l1, s1)) as [l2 s2] eqn:Er.
  destruct (run_keeps ops (l1, s1) i sl Hwf1 Hops Hl ltac:(congruence)) as (sl2 & H2 & E2 & _ & _ & D2).
  pose proof (offers_wf_run ops (l1, s1) Hwf1) as Hwf2. rewrite Er in *. cbn [fst] in *.
  pose proof (find_offer_at l2 i sl2 Hwf2 H2 ltac:(congruence)) as Hf. rewrite E2, Hid in Hf.
  unfold browser_confirm. rewrite Hf, (slot_at_lookup _ _ _ H2), D2 by (by unfold decided; rewrite Hs).
  by rewrite Hs, Hdl.
Qed.

(** Offering again is harmless: a browser that repeats a request gets the
    offer it already has, with the same id, and the table does not change. *)
Theorem offer_repeated p rnd now l o l1 s ops rnd' now' :
  offers_wf l -> offer_ok p -> browser_offer (Some p) rnd now l = (o, l1) -> o_offer_id o <> 0 ->
  Forall no_expiry ops ->
  let '(l2, s2) := offer_run ops (l1, s) in
  exists o', browser_offer (Some p) rnd' now' l2 = (o', l2) /\ o_offer_id o' = o_offer_id o /\
    o_url o' = o_url p.
Proof.
  intros Hwf Hp Hoff Ho Hops.
  assert (exists i sl, l1 !! i = Some sl /\ slot_id sl = o_offer_id o /\
            o_request_id (sl_offer sl) = o_request_id p /\ o_url (sl_offer sl) = o_url p) as
    (i & sl & Hl & Hid & Hreq & Hurl).
  { unfold browser_offer in Hoff. destruct (browser_find_request _ l) as [i|] eqn:Er.
    - apply find_request_Some in Er as (sl & Hl & Hz & Hr). rewrite (slot_at_lookup _ _ _ Hl) in Hoff.
      destruct (streq _ _) eqn:Eu; injection Hoff as <- <-; [|done]. breflect. by exists i, sl.
    - destruct (free_slot l) as [i|] eqn:Ef; [|by injection Hoff as <- <-].
      apply free_slot_Some in Ef as (sl & Hl & _).
      destruct (pick_id rnd l 0 16 =? 0); injection Hoff as <- <-; [done|]. eexists i, _.
      rewrite list_lookup_insert_eq by (by eapply lookup_lt_Some). done. }
  assert (offers_wf l1) as Hwf1.
  { replace l1 with (snd (browser_offer (Some p) rnd now l)) by (by rewrite Hoff).
    apply offers_wf_offer; [done|]. by intros ? [= <-]. }
  destruct (offer_run ops (l1, s)) as [l2 s2] eqn:Er.
  destruct (run_keeps ops (l1, s) i sl Hwf1 Hops Hl ltac:(congruence)) as (sl2 & H2 & E2 & R2 & U2 & _).
  pose proof (offers_wf_run ops (l1, s) Hwf1) as Hwf2. rewrite Er in *. cbn [fst] in *.
  assert (browser_find_request (o_request_id p) l2 = Some i) as Hf.
  { destruct (browser_find_request (o_request_id p) l2) as [j|] eqn:E.
    - apply find_request_Some in E as (b & Hb & Hzb & Hrb). f_equal.
      eapply (ow_req l2 Hwf2); [exact Hb|exact H2|done|congruence|congruence].
    - pose proof (find_request_None _ _ E i sl2 H2). rewrite R2, Hreq in *. by destruct H; [congruence|]. }
  unfold browser_offer. rewrite Hf, (slot_at_lookup _ _ _ H2), U2, Hurl, streq_refl.
  exists (sl_offer sl2). split; [done|]. split; [|congruence]. unfold slot_id in *. congruence.
Qed.

End Runs.

(** One offer, confirmed through [reserve_download]. *)
Definition offer_object : json_object := fun key =>
  if streq key (str "request_id") then Some (JString (str "r1"))
  else if streq key (str "url") then Some (JString (str "https://h/a/f.zip?x=1"))
  else if streq key (str "total_bytes") then Some (JNumber 1000 1)
  else None.

Definition offer_parse (text : bytes) : option json_object :=
  if streq text (str "offer") then Some offer_object else None.

Definition offer_reserve (url dest : bytes) (opts : RequestOptions) (s : SState) : Z * SState :=
  reserve_download always_ok permissive (fun _ _ => true) true true 5 (fun _ fs => fs) url dest opts s.

Definition demo_offer : IpcBrowserOffer :=
  mkOffer 0 0 1000 IPC_BROWSER_WAITING (str "r1") (str "https://h/a/f.zip?x=1") (str "f.zip") [] [].

Example offer_parsed : browser_parse_offer offer_parse (str "offer") = Some demo_offer.
Proof. vm_compute. reflexivity. Qed.

Definition offered : IpcBrowserOffer * slots :=
  browser_offer (Some demo_offer) (fun _ => 77) 100 (replicate MAX_BROWSER_OFFERS empty_slot).

Definition confirmed : Z * slots * SState :=
  browser_confirm offer_reserve 77 (str "/d/f.zip") 110 (snd offered) sched_start.

Definition offer_traffic : list offer_op :=
  [OpDismiss 77 120; OpGetOffer 77 121; OpOffer (str "offer") (fun _ => 78) 122; OpConfirm 77 (str "/d/g") 123].

Lemma offer_confirmed_once_witness :
  fst (fst confirmed) = 2 /\
  (let '(l2, s2) := offer_run offer_parse offer_reserve offer_traffic (snd (fst confirmed), snd confirmed) in
   browser_confirm offer_reserve 77 (str "/d/other") 130 l2 s2 = (2, l2, s2)).
Proof.
  assert (fst (fst confirmed) = 2) as E by (vm_compute; reflexivity). split; [exact E|].
  assert (offers_wf (snd offered)) as Hwf.
  { unfold offered. apply offers_wf_offer; [apply offers_wf_empty|]. intros o [= <-].
    apply (parse_offer_ok offer_parse (str "offer")), offer_parsed. }
  apply (offer_confirmed_once offer_parse offer_reserve 77 (str "/d/f.zip") 110 (snd offered) sched_start 2
           (snd (fst confirmed)) (snd confirmed)).
  - exact Hwf.
  - rewrite <- E. unfold confirmed. destruct (browser_confirm _ _ _ _ _ _) as [[a b] c]. reflexivity.
  - lia.
  - repeat constructor.
Defined.

Lemma offer_repeated_witness :
  o_offer_id (fst offered) = 77 /\
  (let '(l2, _) := offer_run offer_parse offer_reserve offer_traffic (snd offered, sched_start) in
   exists o', browser_offer (Some demo_offer) (fun _ => 5) 200 l2 = (o', l2) /\ o_offer_id o' = 77 /\
     o_url o' = str "https://h/a/f.zip?x=1").
Proof.
  assert (o_offer_id (fst offered) = 77) as E by (vm_compute; reflexivity). split; [exact E|].
  rewrite <- E.
  apply (offer_repeated offer_parse offer_reserve demo_offer (fun _ => 77) 100
           (replicate MAX_BROWSER_OFFERS empty_slot) (fst offered) (snd offered) sched_start offer_traffic
           (fun _ => 5) 200).
  - apply offers_wf_empty.
  - apply (parse_offer_ok offer_parse (str "offer")), offer_parsed.
  - apply surjective_pairing.
  - rewrite E. discriminate.
  - repeat constructor.
Defined.
