(* ===== verification/Ipc.v ===== *)
(** * The IPC server ([src/platform/ipc_socket.c])

    The table of connected clients, [handle_message] with every case on the
    wire, [ipc_server_poll] with the reassembly of headers, and the broadcast
    of status events.  What the messages do is in Commands.v and Offers.v; the
    client side is IpcClient.v. *)

From S2P Require Import Prelude Path FileIo QueueManager Db Config Engine Scheduler Wire Commands Offers.

(** ** Structures on the wire

    Fields at their natural alignment, padding bytes zero. *)

Definition field (n : nat) (s : bytes) : bytes := s ++ replicate (n - length s) 0.

(** Consecutive fields of these sizes. *)
Fixpoint split_fields (sizes : list nat) (bs : bytes) : list bytes :=
  match sizes with
  | [] => []
  | n :: sizes' => take n bs :: split_fields sizes' (drop n bs)
  end.

Definition state_code (st : IpcBrowserOfferState) : Z :=
  match st with IPC_BROWSER_WAITING => 0 | IPC_BROWSER_CONFIRMED => 1 | IPC_BROWSER_DISMISSED => 2 end.

Definition offer_sizes : list nat := [4; 4; 8; 4; 128; 2048; 512; 128; 2048; 4]%nat.

Definition offer_fields (o : IpcBrowserOffer) : list bytes :=
  [le 4 (o_offer_id o); le 4 (o_download_id o); le 8 (o_total_bytes o); le 4 (state_code (o_state o));
   field 128 (o_request_id o); field 2048 (o_url o); field 512 (o_filename o); field 128 (o_mime o);
   field 2048 (o_referrer o); replicate 4 0].

Definition encode_offer (o : IpcBrowserOffer) : bytes := concat (offer_fields o).

Definition progress_sizes : list nat := [4; 4; 8; 8; 4; 24; 256; 1024; 4]%nat.

Definition progress_fields (p : IpcBrowserProgress) : list bytes :=
  [le 4 (p_download_id p); replicate 4 0; le 8 (p_bytes_received p); le 8 (p_total_bytes p);
   le 4 (p_progress p); field 24 (p_status p); field 256 (p_error p); field 1024 (p_dest_path p);
   replicate 4 0].

Definition encode_progress (p : IpcBrowserProgress) : bytes := concat (progress_fields p).

(** ** Server state *)

Definition MAX_CLIENTS : nat := 16.

(** One row of the parallel [g_client_*] arrays; [cl_header] holds the
    [g_client_header_bytes] bytes received so far. *)
Record Client := mkClient {
  cl_fd : Z;
  cl_subscribed : bool;
  cl_browser_download : Z;
  cl_header : bytes;
}.

Definition no_client : Client := mkClient (-1) false 0 [].

Record ClientTable := mkTable { ct_rows : list Client; ct_count : nat }.

Definition live (t : ClientTable) : list Client := take (ct_count t) (ct_rows t).
Definition row_at (t : ClientTable) (i : nat) : Client := nth i (ct_rows t) no_client.

(** [w_conns]: the open descriptors. *)
Record World := mkWorld {
  w_s : SState;
  w_cfg : Config;
  w_table : ClientTable;
  w_offers : slots;
  w_conns : gmap Z Conn;
}.

Definition with_state (s : SState) (w : World) : World :=
  mkWorld s (w_cfg w) (w_table w) (w_offers w) (w_conns w).
Definition with_table (t : ClientTable) (w : World) : World :=
  mkWorld (w_s w) (w_cfg w) t (w_offers w) (w_conns w).
Definition with_offers (l : slots) (w : World) : World :=
  mkWorld (w_s w) (w_cfg w) (w_table w) l (w_conns w).
Definition with_conns (m : gmap Z Conn) (w : World) : World :=
  mkWorld (w_s w) (w_cfg w) (w_table w) (w_offers w) m.

(** ** The client table *)

(** The loop of [remove_client]: [n] rows moved down, from index [i] on. *)
Fixpoint shift_rows (n i : nat) (rows : list Client) : list Client :=
  match n with
  | O => rows
  | S n' => shift_rows n' (S i) (<[i := nth (S i) rows no_client]> rows)
  end.

Definition remove_row (index : nat) (t : ClientTable) : ClientTable :=
  let rows := shift_rows (ct_count t - 1 - index) index (ct_rows t) in
  mkTable (<[(ct_count t - 1)%nat := no_client]> rows) (ct_count t - 1).

Definition remove_client (index : nat) (w : World) : World :=
  with_table (remove_row index (w_table w))
    (with_conns (delete (cl_fd (row_at (w_table w) index)) (w_conns w)) w).

(** The accepted descriptor [fd], with what its peer will send. *)
Definition accept_client (fd : Z) (c : Conn) (w : World) : World :=
  let t := w_table w in
  if (ct_count t <? MAX_CLIENTS)%nat then
    with_table (mkTable (<[ct_count t := mkClient fd false 0 []]> (ct_rows t)) (S (ct_count t)))
      (with_conns (<[fd := c]> (w_conns w)) w)
  else w.

(** The first row of [fd] is updated. *)
Fixpoint update_client (fd : Z) (f : Client -> Client) (n : nat) (rows : list Client) : list Client :=
  match n, rows with
  | S n', r :: rows' => if cl_fd r =? fd then f r :: rows' else r :: update_client fd f n' rows'
  | _, _ => rows
  end.

Definition on_client (fd : Z) (f : Client -> Client) (t : ClientTable) : ClientTable :=
  mkTable (update_client fd f (ct_count t) (ct_rows t)) (ct_count t).

(** ** handle_message

    A handler talks to one connection and may return early. *)

Abbreviation handler A := (Conn -> World -> option A * Conn * World).

Definition hret {A} (a : A) : handler A := fun c w => (Some a, c, w).
Definition hbind {A B} (m : handler A) (f : A -> handler B) : handler B := fun c w =>
  match m c w with
  | (Some a, c', w') => f a c' w'
  | (None, c', w') => (None, c', w')
  end.
Definition io {A} (m : wire A) : handler A := fun c w => let '(r, c') := m c in (r, c', w).
Definition upd {A} (f : World -> A * World) : handler A := fun c w => let '(a, w') := f w in (Some a, c, w').

Declare Scope handler_scope.
Delimit Scope handler_scope with handler.
Notation "x <~ m ;; k" := (hbind m (fun x => k))
  (at level 100, m at next level, right associativity) : handler_scope.
#[local] Open Scope handler_scope.

(** The result of the write is ignored. *)
Definition reply (bs : bytes) : handler unit := io (attempt (ipc_write_exact bs)).

Definition send_command_result (r : IpcResult) : handler unit := reply (le 1 (result_code r)).

(** The status and the progress [send_download_row] reports for a row. *)
Definition listed_status (q : QM) (row : DownloadListRecord) : bytes :=
  match queue_manager_get_runtime_snapshot (lr_id row) q with
  | Some sn => strlcpy 16 (status_to_string (rs_status sn))
  | None => strlcpy 16 (lr_status row)
  end.

Definition listed_progress (q : QM) (row : DownloadListRecord) : Z :=
  let progress := match queue_manager_get_runtime_snapshot (lr_id row) q with
                  | Some sn => snapshot_progress sn
                  | None => 0
                  end in
  if streq (listed_status q row) (str "DONE") then ratio_bits 1 1 else progress.

(** [send_download_row]: [false] stops the listing. *)
Definition send_download_row (q : QM) (row : DownloadListRecord) (c : Conn) : bool * Conn :=
  let '(sent, c) := ipc_write_exact (le 4 (lr_id row)) c in
  match sent with
  | None => (false, c)
  | Some _ =>
      let '(_, c) := write_string (lr_url row) c in
      let '(_, c) := write_string (lr_dest_path row) c in
      let '(_, c) := write_string (listed_status q row) c in
      let '(sent, c) := ipc_write_exact (le 4 (listed_progress q row)) c in
      (match sent with Some _ => true | None => false end, c)
  end.

Definition IPC_LIST_ALL_MAX : Z := 200.

Section Server.

Context (sql_ok : sql -> Tables -> bool) (env : IoEnv).
Context (realpath : filesystem -> bytes -> errno + bytes) (env_home : option bytes).
Context (toml_parse : bytes -> option toml_doc) (json_parse : bytes -> option json_object).
Context (safe : filesystem -> bytes -> bool) (alloc_d alloc_r : bool).
Context (others : nat -> filesystem -> filesystem) (mid : SState -> SState).
(** The clock, the random bytes, and the content of an unset stack word. *)
Context (now : Z) (rnd : random_source) (garbage : Z).

Definition reserve (url dest : bytes) (opts : RequestOptions) (s : SState) : Z * SState :=
  reserve_download sql_ok env safe alloc_d alloc_r now others url dest opts s.

Definition on_state {A} (f : SState -> A * SState) : handler A :=
  upd (fun w => let '(a, s) := f (w_s w) in (a, with_state s w)).

Definition on_offers {A} (f : slots -> A * slots) : handler A :=
  upd (fun w => let '(a, l) := f (w_offers w) in (a, with_offers l w)).

Definition on_add_download : handler unit :=
  url <~ io (read_string IPC_MAX_URL_LEN) ;;
  dest <~ io (read_string IPC_MAX_PATH_LEN) ;;
  options_json <~ io (read_string 8192) ;;
  id <~ on_state (reserve url dest (parse_options json_parse options_json)) ;;
  reply (le 4 id).

(** [length] is [hdr->length]. *)
Definition on_browser_offer (length : Z) : handler unit :=
  json <~ io (ipc_read_exact (Z.to_nat length)) ;;
  o <~ on_offers (browser_offer (browser_parse_offer json_parse (cstr json)) rnd now) ;;
  reply (encode_offer o).

Definition on_browser_get_offer : handler unit :=
  id <~ io read_u32 ;;
  o <~ on_offers (browser_get_offer id now) ;;
  reply (encode_offer o).

Definition on_browser_confirm (length : Z) : handler unit :=
  payload <~ io (ipc_read_exact (Z.to_nat length)) ;;
  let offer_id := unle (take 4 payload) in
  let path_len := unle (take 4 (drop 4 payload)) in
  let path := drop 8 payload in
  download_id <~
    (if (0 <? path_len) && (path_len <? IPC_MAX_PATH_LEN) && (length =? 8 + path_len)
        && negb (bool_decide (is_Some (strchr (take (Z.to_nat path_len) path) CH_NUL)))
     then upd (fun w =>
            let '(d, l, s) := browser_confirm reserve offer_id (take (Z.to_nat path_len) path) now
                                (w_offers w) (w_s w) in
            (d, with_offers l (with_state s w)))
     else hret 0) ;;
  reply (le 4 download_id).

Definition on_browser_dismiss : handler unit :=
  id <~ io read_u32 ;;
  result <~ on_offers (browser_dismiss id now) ;;
  send_command_result result.

Definition track_download (id : Z) (r : Client) : Client :=
  mkClient (cl_fd r) (cl_subscribed r) id (cl_header r).

Definition on_browser_subscribe_progress (fd : Z) : handler unit :=
  id <~ io read_u32 ;;
  event <~ upd (fun w =>
    let event := browser_progress_snapshot id None (s_q (w_s w)) in
    (event, if streq (p_status event) (str "NOT_FOUND") then w
            else with_table (on_client fd (track_download id) (w_table w)) w)) ;;
  reply (encode_progress event).

Definition on_reload_config : handler unit :=
  _ <~ upd (fun w =>
    let '(cfg, fs) := config_init env realpath env_home toml_parse None (s_fs (w_s w)) in
    (tt, mkWorld (with_files fs (w_s w)) cfg (w_table w) (w_offers w) (w_conns w))) ;;
  send_command_result IPC_RESULT_OK.

Definition on_command (cmd : Z -> SState -> IpcResult * SState) : handler unit :=
  id <~ io read_u32 ;;
  result <~ on_state (cmd id) ;;
  send_command_result result.

Definition on_list : handler unit :=
  count <~ upd (fun w => (cmd_list (w_s w), w)) ;;
  reply (le 4 count).

Definition on_list_all : handler unit := fun c w =>
  let d := s_db (w_s w) in
  let n := db_count_downloads IPC_LIST_ALL_MAX d in
  if n <? 0 then reply (le 4 0) c w
  else
    let c := snd (attempt (ipc_write_exact (le 4 n)) c) in
    let '(_, c) := db_visit_downloads (send_download_row (s_q (w_s w))) IPC_LIST_ALL_MAX c d in
    (Some tt, c, w).

(** The result of the read is ignored here: [id] may be unset. *)
Definition read_id_unchecked : wire Z := fun c =>
  match read_u32 c with
  | (Some id, c') => (Some id, c')
  | (None, c') => (Some garbage, c')
  end.

Definition write_details (o : RequestOptions) : wire unit := fun c =>
  let '(_, c) := write_string (cookie o) c in
  let '(_, c) := write_string (referrer o) c in
  let '(_, c) := write_string (extra_headers o) c in
  let '(_, c) := write_string (expected_sha256 o) c in
  attempt (ipc_write_exact (le 8 (speed_limit_bps o))) c.

Definition on_get_details : handler unit :=
  id <~ io read_id_unchecked ;;
  found <~ upd (fun w => (db_get_download_details id (s_db (w_s w)), w)) ;;
  match found with
  | None => reply (le 1 0)
  | Some o => _ <~ reply (le 1 1) ;; io (write_details o)
  end.

Definition set_subscribed (r : Client) : Client := mkClient (cl_fd r) true (cl_browser_download r) (cl_header r).

Definition on_subscribe (fd : Z) : handler unit :=
  upd (fun w => (tt, with_table (on_client fd set_subscribed (w_table w)) w)).

Definition dispatch (fd : Z) (hdr : MsgHeader) : handler unit :=
  match msg_of_code (h_type hdr) with
  | Some MSG_ADD_DOWNLOAD => on_add_download
  | Some MSG_BROWSER_OFFER => on_browser_offer (h_length hdr)
  | Some MSG_BROWSER_GET_OFFER => on_browser_get_offer
  | Some MSG_BROWSER_CONFIRM => on_browser_confirm (h_length hdr)
  | Some MSG_BROWSER_DISMISS => on_browser_dismiss
  | Some MSG_BROWSER_SUBSCRIBE_PROGRESS => on_browser_subscribe_progress fd
  | Some MSG_RELOAD_CONFIG => on_reload_config
  | Some MSG_PAUSE => on_command (cmd_pause sql_ok mid)
  | Some MSG_RESUME => on_command (cmd_resume sql_ok mid)
  | Some MSG_CANCEL => on_command (cmd_cancel sql_ok env mid)
  | Some MSG_LIST => on_list
  | Some MSG_LIST_ALL => on_list_all
  | Some MSG_GET_DETAILS => on_get_details
  | Some MSG_SUBSCRIBE => on_subscribe fd
  | _ => hret tt
  end.

Definition handle_message (fd : Z) (hdr : MsgHeader) (w : World) : World :=
  match w_conns w !! fd with
  | None => w
  | Some c => let '(_, c', w') := dispatch fd hdr c w in with_conns (<[fd := c']> (w_conns w')) w'
  end.

(** ** ipc_server_poll *)

Inductive recv_result := RecvData (bs : bytes) | RecvClosed | RecvAgain | RecvFailed.

(** [recv (fd, ..., remaining, MSG_DONTWAIT)]. *)
Definition recv (remaining : nat) (c : Conn) : recv_result * Conn :=
  match c_in c with
  | [] => (RecvClosed, c)
  | RData [] :: s => (RecvClosed, mkConn s (c_out c) (c_wr c))
  | RData bs :: s => (RecvData (take remaining bs), mkConn (put_back (drop remaining bs) s) (c_out c) (c_wr c))
  | (RBlock | REintr) :: s => (RecvAgain, mkConn s (c_out c) (c_wr c))
  | RError :: s => (RecvFailed, mkConn s (c_out c) (c_wr c))
  end.

Definition set_header (h : bytes) (r : Client) : Client :=
  mkClient (cl_fd r) (cl_subscribed r) (cl_browser_download r) h.

(** The body of the loop for a ready client; [true] when the row was removed
    and the same index comes again. *)
Definition serve_client (i : nat) (w : World) : bool * World :=
  let r := row_at (w_table w) i in
  match w_conns w !! cl_fd r with
  | None => (true, remove_client i w)                                     (* EBADF *)
  | Some c =>
      let '(got, c) := recv (HEADER_SIZE - length (cl_header r)) c in
      let w := with_conns (<[cl_fd r := c]> (w_conns w)) w in
      match got with
      | RecvClosed | RecvFailed => (true, remove_client i w)
      | RecvAgain => (false, w)
      | RecvData bs =>
          let h := cl_header r ++ bs in
          let set h w := with_table (mkTable (<[i := set_header h r]> (ct_rows (w_table w)))
                                             (ct_count (w_table w))) w in
          if negb (length h =? HEADER_SIZE)%nat then (false, set h w)
          else
            let hdr := decode_header h in
            let w := set [] w in
            if negb (valid_message_header hdr) then (true, remove_client i w)
            else (false, handle_message (cl_fd r) hdr w)
      end
  end.

Fixpoint poll_loop (ready : Z -> bool) (fuel i : nat) (w : World) : World :=
  match fuel with
  | O => w
  | S fuel' =>
      if (ct_count (w_table w) <=? i)%nat then w
      else if negb (ready (cl_fd (row_at (w_table w) i))) then poll_loop ready fuel' (S i) w
      else
        let '(removed, w) := serve_client i w in
        poll_loop ready fuel' (if removed then i else S i) w
  end.

(** [sel]: the descriptors [select] reports, [None] for a timeout or an error;
    [acc]: the connection [accept] returns, when the listener is ready. *)
Definition ipc_server_poll (sel : option (Z -> bool)) (acc : option (Z * Conn)) (w : World) : World :=
  let w := with_offers (browser_expire_offers now (s_q (w_s w)) (w_offers w)) w in
  match sel with
  | None => w
  | Some ready =>
      let w := match acc with Some (fd, c) => accept_client fd c w | None => w end in
      poll_loop ready (ct_count (w_table w)) 0 w
  end.

End Server.

(** ** Broadcast *)

(** One [send] that does not block: the number of bytes sent, or -1. *)
Definition send_once (bs : bytes) (c : Conn) : Z * Conn :=
  match c_wr c with
  | [] => (strlen bs, mkConn (c_in c) (c_out c ++ bs) [])
  | WSent n :: ev => (strlen (take n bs), mkConn (c_in c) (c_out c ++ take n bs) ev)
  | (WEintr | WError) :: ev => (-1, mkConn (c_in c) (c_out c) ev)
  end.

Definition status_frame (download_id progress : Z) (text : bytes) : bytes :=
  encode_header (mkHeader (12 + strlen text) (msg_code MSG_STATUS_EVENT)) ++
  le 4 download_id ++ le 4 progress ++ le 4 (strlen text) ++ text.

Definition browser_frame (event : IpcBrowserProgress) : bytes :=
  encode_header (mkHeader 1336 (msg_code MSG_BROWSER_PROGRESS_EVENT)) ++ encode_progress event.

(** The error text of the record the extension gets. *)
Definition event_error (text : bytes) : option bytes :=
  if streq text (str "Error") || streq text (str "Verification failed") then Some text else None.

Section Broadcast.

Context (download_id : Z) (frame bframe : bytes).

Fixpoint broadcast_loop (fuel i : nat) (w : World) : World :=
  match fuel with
  | O => w
  | S fuel' =>
      if (ct_count (w_table w) <=? i)%nat then w
      else
        let r := row_at (w_table w) i in
        let tracks := cl_browser_download r =? download_id in
        if negb (cl_subscribed r) && negb tracks then broadcast_loop fuel' (S i) w
        else
          let bs := if tracks then bframe else frame in
          match w_conns w !! cl_fd r with
          | None => broadcast_loop fuel' i (remove_client i w)
          | Some c =>
              let '(sent, c) := send_once bs c in
              let w := with_conns (<[cl_fd r := c]> (w_conns w)) w in
              if sent =? strlen bs then broadcast_loop fuel' (S i) w
              else broadcast_loop fuel' i (remove_client i w)
          end
  end.

End Broadcast.

(** The event of the scheduler, delivered. *)
Definition broadcast_event (e : StatusEvent) (w : World) : World :=
  if IPC_MAX_FRAME_SIZE <? 12 + strlen (ev_text e) then w
  else
    let event := browser_progress_snapshot (ev_id e) (event_error (ev_text e)) (s_q (w_s w)) in
    broadcast_loop (ev_id e)
      (status_frame (ev_id e) (f32_bits (f32_of_f64 (f64_div (f64_of_Z (ev_num e)) (f64_of_Z (ev_den e)))))
         (ev_text e))
      (browser_frame event) (ct_count (w_table w)) 0 w.

(** [ipc_server_start] clears the tables; [ipc_server_stop] closes the
    descriptors and clears the offers, but leaves the client table. *)
Definition started (s : SState) (cfg : Config) : World :=
  mkWorld s cfg (mkTable (replicate MAX_CLIENTS no_client) 0) (replicate MAX_BROWSER_OFFERS empty_slot) ∅.

Definition ipc_server_stop (w : World) : World :=
  mkWorld (w_s w) (w_cfg w) (w_table w) (replicate MAX_BROWSER_OFFERS empty_slot)
    (foldr (fun r m => delete (cl_fd r) m) (w_conns w) (live (w_table w))).

(** ** Lemmas: the table *)

Lemma length_shift n i rows : length (shift_rows n i rows) = length rows.
Proof. revert i rows. induction n as [|n IH]; intros i rows; [done|]. simpl. by rewrite IH, length_insert. Qed.

Lemma shift_lookup n i rows j :
  (i + n < length rows)%nat ->
  shift_rows n i rows !! j = rows !! (if decide (i <= j < i + n)%nat then S j else j).
Proof.
  revert i rows. induction n as [|n IH]; intros i rows Hl; simpl.
  - by rewrite decide_False by lia.
  - rewrite IH by (rewrite length_insert; lia). destruct (decide (j = i)) as [->|Hne].
    + rewrite decide_False, decide_True by lia. rewrite list_lookup_insert_eq by lia.
      destruct (lookup_lt_is_Some_2 rows (S i)) as [x Hx]; [lia|]. by rewrite (nth_lookup_Some _ _ _ _ Hx).
    + case_decide; [rewrite decide_True by lia|].
      * by rewrite list_lookup_insert_ne by lia.
      * rewrite list_lookup_insert_ne by lia. destruct (decide (i <= j < i + S n)%nat); [lia|done].
Qed.

Lemma live_remove i t :
  (i < ct_count t <= length (ct_rows t))%nat -> live (remove_row i t) = delete i (live t).
Proof.
  intros H. unfold live, remove_row. cbn [ct_rows ct_count]. apply list_eq. intros j.
  destruct (decide (j < ct_count t - 1)%nat) as [Hj|Hj].
  - rewrite lookup_take_lt by lia. rewrite list_lookup_insert_ne by lia. rewrite shift_lookup by lia.
    destruct (decide (j < i)%nat).
    + rewrite decide_False by lia. rewrite list_lookup_delete_lt by lia. by rewrite lookup_take_lt by lia.
    + rewrite decide_True by lia. rewrite list_lookup_delete_ge by lia. by rewrite lookup_take_lt by lia.
  - rewrite lookup_ge_None_2 by (rewrite length_take; lia). symmetry. apply lookup_ge_None_2.
    rewrite length_delete; [rewrite length_take; lia|]. apply lookup_lt_is_Some_2. rewrite length_take. lia.
Qed.

Lemma live_lookup t i :
  (i < ct_count t <= length (ct_rows t))%nat -> live t !! i = Some (row_at t i).
Proof.
  intros H. unfold live, row_at. rewrite lookup_take_lt by lia.
  destruct (lookup_lt_is_Some_2 (ct_rows t) i) as [x Hx]; [lia|]. by rewrite (nth_lookup_Some _ _ _ _ Hx).
Qed.

Lemma elem_of_delete_nodup {A} (l : list A) i x y :
  NoDup l -> l !! i = Some x -> y ∈ delete i l <-> y ∈ l /\ y <> x.
Proof.
  intros Hn Hi. rewrite delete_take_drop. rewrite <- (take_drop_middle l i x Hi) in Hn |- * at 3.
  apply NoDup_app in Hn as (_ & Hd & Hn2). apply NoDup_cons in Hn2 as [Hx _].
  rewrite !elem_of_app, elem_of_cons. split.
  - intros [H|H]; (split; [tauto|]); intros ->; [|done]. apply (Hd x H). by left.
  - tauto.
Qed.

Record table_wf (t : ClientTable) (m : gmap Z Conn) : Prop := {
  tw_len : length (ct_rows t) = MAX_CLIENTS;
  tw_count : (ct_count t <= MAX_CLIENTS)%nat;
  tw_nodup : NoDup (map cl_fd (live t));
  tw_open : forall fd, is_Some (m !! fd) <-> fd ∈ map cl_fd (live t);
  tw_header : Forall (fun r => length (cl_header r) < HEADER_SIZE)%nat (live t);
  tw_spare : drop (ct_count t) (ct_rows t) = replicate (MAX_CLIENTS - ct_count t) no_client;
}.

Lemma table_wf_row t m i :
  table_wf t m -> (i < ct_count t)%nat ->
  live t !! i = Some (row_at t i) /\ is_Some (m !! cl_fd (row_at t i)) /\
  (length (cl_header (row_at t i)) < HEADER_SIZE)%nat.
Proof.
  intros [Hl Hc Hn Ho Hh _] Hi. assert (live t !! i = Some (row_at t i)) as E by (apply live_lookup; lia).
  split; [done|]. split.
  - apply Ho. apply list_elem_of_fmap. exists (row_at t i). split; [done|]. by eapply list_elem_of_lookup_2.
  - by apply (Forall_lookup_1 _ _ _ _ Hh E).
Qed.

Lemma table_wf_remove t m i :
  table_wf t m -> (i < ct_count t)%nat -> table_wf (remove_row i t) (delete (cl_fd (row_at t i)) m).
Proof.
  intros Hwf Hi. destruct (table_wf_row t m i Hwf Hi) as (Ei & _ & _). destruct Hwf as [Hl Hc Hn Ho Hh Hs].
  assert (live (remove_row i t) = delete i (live t)) as El by (apply live_remove; lia).
  assert (map cl_fd (live t) !! i = Some (cl_fd (row_at t i))) as Efd by (by apply list_lookup_fmap_Some_2).
  assert (map cl_fd (live (remove_row i t)) = delete i (map cl_fd (live t))) as Em.
  { rewrite El. apply list_fmap_delete. }
  split.
  - unfold remove_row. cbn [ct_rows]. by rewrite length_insert, length_shift.
  - unfold remove_row. cbn [ct_count]. lia.
  - rewrite Em. by eapply sublist_NoDup; [|apply sublist_delete].
  - intros fd. rewrite Em, (elem_of_delete_nodup _ _ _ _ Hn Efd), <- Ho.
    destruct (decide (fd = cl_fd (row_at t i))) as [->|Hne].
    + rewrite lookup_delete_eq. split; [by intros [? ?]|by intros [_ ?]].
    + rewrite lookup_delete_ne by done. tauto.
  - rewrite El. by apply Forall_delete.
  - unfold remove_row. cbn [ct_rows ct_count]. apply list_eq. intros j. rewrite lookup_drop.
    destruct (decide (j = 0%nat)) as [->|Hj].
    + rewrite Nat.add_0_r, list_lookup_insert_eq by (rewrite length_shift; lia).
      symmetry. apply lookup_replicate_2. lia.
    + rewrite list_lookup_insert_ne by lia. rewrite shift_lookup by lia. rewrite decide_False by lia.
      pose proof (f_equal (fun l => l !! (j - 1)%nat) Hs) as Hj'. cbn beta in Hj'. rewrite lookup_drop in Hj'.
      replace (ct_count t + (j - 1))%nat with (ct_count t - 1 + j)%nat in Hj' by lia. rewrite Hj'.
      destruct (decide (j - 1 < MAX_CLIENTS - ct_count t)%nat).
      * rewrite !lookup_replicate_2 by lia. done.
      * rewrite !lookup_ge_None_2 by (rewrite length_replicate; lia). done.
Qed.

(** Rows changed in place, with their descriptor. *)
Lemma table_wf_rows t m rows :
  table_wf t m ->
  Forall2 (fun r r' => cl_fd r' = cl_fd r /\
    (length (cl_header r) < HEADER_SIZE -> length (cl_header r') < HEADER_SIZE)%nat)
    (live t) (take (ct_count t) rows) ->
  drop (ct_count t) rows = drop (ct_count t) (ct_rows t) -> length rows = length (ct_rows t) ->
  table_wf (mkTable rows (ct_count t)) m.
Proof.
  intros [Hl Hc Hn Ho Hh Hs] H2 Hd Hlen.
  assert (map cl_fd (live (mkTable rows (ct_count t))) = map cl_fd (live t)) as Em.
  { unfold live at 1. cbn [ct_rows ct_count]. clear -H2. induction H2 as [|r r' a b [E _] _ IH]; [done|].
    simpl. by rewrite E, IH. }
  split; cbn [ct_rows ct_count]; rewrite ?Em, ?Hd; try done; [congruence|].
  unfold live. cbn [ct_rows ct_count]. clear -H2 Hh.
  induction H2 as [|r r' a b [_ E] _ IH]; [constructor|]. inversion Hh; subst. constructor; auto.
Qed.

Lemma update_client_rows fd f n rows :
  (forall r, cl_fd (f r) = cl_fd r) -> (forall r, cl_header (f r) = cl_header r) ->
  Forall2 (fun r r' => cl_fd r' = cl_fd r /\
    (length (cl_header r) < HEADER_SIZE -> length (cl_header r') < HEADER_SIZE)%nat)
    (take n rows) (take n (update_client fd f n rows)) /\
  drop n (update_client fd f n rows) = drop n rows /\ length (update_client fd f n rows) = length rows.
Proof.
  intros Hf Hh. revert rows. induction n as [|n IH]; intros rows; [by destruct rows|].
  destruct rows as [|r rows]; [done|]. cbn [update_client]. destruct (cl_fd r =? fd).
  - cbn [take drop length]. split; [|done]. constructor; [by rewrite Hf, Hh|].
    clear. induction (take n rows); by constructor.
  - cbn [take drop length]. destruct (IH rows) as (H1 & H2 & H3). rewrite H2, H3. split; [|done].
    by constructor.
Qed.

Lemma table_wf_on_client t m fd f :
  (forall r, cl_fd (f r) = cl_fd r) -> (forall r, cl_header (f r) = cl_header r) ->
  table_wf t m -> table_wf (on_client fd f t) m.
Proof.
  intros Hf Hh Hwf. destruct (update_client_rows fd f (ct_count t) (ct_rows t) Hf Hh) as (H1 & H2 & H3).
  by apply table_wf_rows.
Qed.

Lemma table_wf_set_header t m i h :
  table_wf t m -> (i < ct_count t)%nat -> (length h < HEADER_SIZE)%nat ->
  table_wf (mkTable (<[i := set_header h (row_at t i)]> (ct_rows t)) (ct_count t)) m.
Proof.
  intros Hwf Hi Hh. pose proof (tw_len _ _ Hwf). pose proof (tw_count _ _ Hwf).
  apply table_wf_rows; [done| |by rewrite drop_insert_lt by lia|by rewrite length_insert].
  rewrite take_insert_lt by lia. unfold live.
  rewrite <- (list_insert_id (take (ct_count t) (ct_rows t)) i (row_at t i)) at 1
    by (apply live_lookup; lia).
  apply Forall2_insert; [|done]. clear. induction (take _ _); by constructor.
Qed.

Lemma table_wf_accept t m fd c :
  table_wf t m -> m !! fd = None -> (ct_count t < MAX_CLIENTS)%nat ->
  table_wf (mkTable (<[ct_count t := mkClient fd false 0 []]> (ct_rows t)) (S (ct_count t))) (<[fd := c]> m).
Proof.
  intros [Hl Hc Hn Ho Hh Hs] Hfd Hlt.
  set (t' := mkTable _ _). assert (live t' = live t ++ [mkClient fd false 0 []]) as El.
  { unfold live, t'. cbn [ct_rows ct_count]. rewrite (take_S_r _ _ (mkClient fd false 0 [])).
    - by rewrite take_insert_ge by lia.
    - apply list_lookup_insert_eq. lia. }
  split; rewrite ?El, ?map_app; cbn [t' ct_rows ct_count map cl_fd].
  - by rewrite length_insert.
  - lia.
  - apply NoDup_app. split; [done|]. split; [|apply NoDup_singleton]. intros x Hx ->%list_elem_of_singleton.
    apply Ho in Hx as [? Hx]. simpl in Hx. congruence.
  - intros g. rewrite elem_of_app, list_elem_of_singleton, <- Ho.
    destruct (decide (g = fd)) as [->|Hne].
    + rewrite lookup_insert_eq. split; [by right|eauto].
    + rewrite lookup_insert_ne by done. split; [by left|]. by intros [?|?].
  - apply Forall_app. split; [done|]. constructor; [|constructor]. unfold HEADER_SIZE. simpl. lia.
  - rewrite drop_insert_lt by lia. apply list_eq. intros j. rewrite lookup_drop.
    pose proof (f_equal (fun l => l !! (S j)) Hs) as Hj'. cbn beta in Hj'. rewrite lookup_drop in Hj'.
    replace (S (ct_count t) + j)%nat with (ct_count t + S j)%nat by lia. rewrite Hj'.
    destruct (decide (S j < MAX_CLIENTS - ct_count t)%nat).
    + rewrite !lookup_replicate_2 by lia. done.
    + rewrite !lookup_ge_None_2 by (rewrite length_replicate; lia). done.
Qed.

(** ** Lemmas: handlers leave the tables in order *)

Definition world_wf (w : World) : Prop := table_wf (w_table w) (w_conns w) /\ offers_wf (w_offers w).

(** A handler touches no other connection and keeps both tables in order. *)
Definition tame {A} (m : handler A) : Prop :=
  forall c w, w_conns (snd (m c w)) = w_conns w /\ (world_wf w -> world_wf (snd (m c w))).

Lemma tame_ret {A} (a : A) : tame (hret a).
Proof. by intros c w. Qed.

Lemma tame_bind {A B} (m : handler A) (f : A -> handler B) :
  tame m -> (forall a, tame (f a)) -> tame (hbind m f).
Proof.
  intros Hm Hf c w. unfold hbind. specialize (Hm c w). destruct (m c w) as [[[a|] c'] w']; [|done].
  cbn [snd] in *. destruct Hm as [E H]. destruct (Hf a c' w') as [E' H']. split; [congruence|auto].
Qed.

Lemma tame_io {A} (m : wire A) : tame (io m).
Proof. intros c w. unfold io. by destruct (m c). Qed.

Lemma tame_upd {A} (f : World -> A * World) :
  (forall w, w_conns (snd (f w)) = w_conns w /\ (world_wf w -> world_wf (snd (f w)))) -> tame (upd f).
Proof. intros H c w. unfold upd. specialize (H w). by destruct (f w). Qed.

Lemma tame_reply bs : tame (reply bs).
Proof. apply tame_io. Qed.

Lemma tame_on_offers {A} (f : slots -> A * slots) :
  (forall l, offers_wf l -> offers_wf (snd (f l))) -> tame (on_offers f).
Proof.
  intros H. apply tame_upd. intros w. specialize (H (w_offers w)). destruct (f (w_offers w)) as [a l].
  split; [done|]. intros [? ?]. split; auto.
Qed.

Lemma tame_on_state {A} (f : SState -> A * SState) : tame (on_state f).
Proof. apply tame_upd. intros w. by destruct (f (w_s w)). Qed.

Lemma tame_on_client fd f :
  (forall r, cl_fd (f r) = cl_fd r) -> (forall r, cl_header (f r) = cl_header r) ->
  forall w, world_wf w -> world_wf (with_table (on_client fd f (w_table w)) w).
Proof. intros Hf Hh w [Ht Ho]. split; [|done]. by apply table_wf_on_client. Qed.

Lemma tame_result r : tame (send_command_result r).
Proof. apply tame_reply. Qed.

Create HintDb tame.
#[export] Hint Resolve tame_ret tame_bind tame_io tame_reply tame_on_state tame_result : tame.

Section ServerLemmas.

Context (sql_ok : sql -> Tables -> bool) (env : IoEnv).
Context (realpath : filesystem -> bytes -> errno + bytes) (env_home : option bytes).
Context (toml_parse : bytes -> option toml_doc) (json_parse : bytes -> option json_object).
Context (safe : filesystem -> bytes -> bool) (alloc_d alloc_r : bool).
Context (others : nat -> filesystem -> filesystem) (mid : SState -> SState).
Context (now : Z) (rnd : random_source) (garbage : Z).

Lemma get_offer_wf id l : offers_wf l -> offers_wf (snd (browser_get_offer id now l)).
Proof. intros H. exact (offers_wf_apply json_parse (fun _ _ _ s => (0, s)) (OpGetOffer id now) (l, sched_start) H). Qed.

Lemma dismiss_wf id l : offers_wf l -> offers_wf (snd (browser_dismiss id now l)).
Proof. intros H. exact (offers_wf_apply json_parse (fun _ _ _ s => (0, s)) (OpDismiss id now) (l, sched_start) H). Qed.

Lemma confirm_wf rsv id dest l s :
  offers_wf l -> offers_wf (snd (fst (browser_confirm rsv id dest now l s))).
Proof.
  intros H. pose proof (offers_wf_apply json_parse rsv (OpConfirm id dest now) (l, s) H) as H'.
  cbn [offer_apply] in H'. by destruct (browser_confirm _ _ _ _ _ _) as [[d l'] s'].
Qed.

Lemma tame_dispatch fd hdr :
  tame (dispatch sql_ok env realpath env_home toml_parse json_parse safe alloc_d alloc_r others mid now rnd
          garbage fd hdr).
Proof.
  unfold dispatch. destruct (msg_of_code (h_type hdr)) as [[]|]; auto with tame;
    unfold on_add_download, on_command, on_list, on_browser_offer, on_browser_get_offer, on_browser_dismiss,
      on_get_details, on_subscribe, on_reload_config, on_browser_subscribe_progress, on_browser_confirm.
  - do 4 (apply tame_bind; [auto with tame|intros ?]). auto with tame.
  - do 2 (apply tame_bind; [auto with tame|intros ?]). auto with tame.
  - do 2 (apply tame_bind; [auto with tame|intros ?]). auto with tame.
  - do 2 (apply tame_bind; [auto with tame|intros ?]). auto with tame.
  - apply tame_bind; [by apply tame_upd|auto with tame].
  - apply tame_upd. intros w. split; [done|]. by apply tame_on_client.
  - intros c w. unfold on_list_all. case_bool; [apply tame_reply|]. by destruct (db_visit_downloads _ _ _ _).
  - apply tame_bind; [auto with tame|]. intros id. apply tame_bind; [by apply tame_upd|].
    intros [o|]; auto with tame.
  - apply tame_bind; [|auto with tame]. apply tame_upd. intros w.
    destruct (config_init _ _ _ _ _) as [cfg fs]. done.
  - apply tame_bind; [auto with tame|]. intros json. apply tame_bind; [|auto with tame].
    apply tame_on_offers. intros l Hl. apply offers_wf_offer; [done|]. intros o. apply parse_offer_ok.
  - apply tame_bind; [auto with tame|]. intros id. apply tame_bind; [|auto with tame].
    apply tame_on_offers. intros l. apply get_offer_wf.
  - apply tame_bind; [auto with tame|]. intros payload. apply tame_bind; [|auto with tame].
    case_bool; [|auto with tame]. apply tame_upd. intros w. set (dest := take _ (drop 8 payload)).
    pose proof (confirm_wf (reserve sql_ok env safe alloc_d alloc_r others now) (unle (take 4 payload)) dest
                  (w_offers w) (w_s w)) as Hc.
    destruct (browser_confirm _ _ _ _ _ _) as [[d l] s]. split; [done|]. intros [? ?]. split; [done|]. by apply Hc.
  - apply tame_bind; [auto with tame|]. intros id. apply tame_bind; [|auto with tame].
    apply tame_on_offers. intros l. apply dismiss_wf.
  - apply tame_bind; [auto with tame|]. intros id. apply tame_bind; [|auto with tame].
    apply tame_upd. intros w. case_bool; split; try done. by apply tame_on_client.
Qed.

Abbreviation handle := (handle_message sql_ok env realpath env_home toml_parse json_parse safe alloc_d
  alloc_r others mid now rnd garbage).
Abbreviation serve := (serve_client sql_ok env realpath env_home toml_parse json_parse safe alloc_d
  alloc_r others mid now rnd garbage).
Abbreviation loop := (poll_loop sql_ok env realpath env_home toml_parse json_parse safe alloc_d
  alloc_r others mid now rnd garbage).
Abbreviation poll := (ipc_server_poll sql_ok env realpath env_home toml_parse json_parse safe alloc_d
  alloc_r others mid now rnd garbage).

Lemma table_wf_conn t m fd c : table_wf t m -> is_Some (m !! fd) -> table_wf t (<[fd := c]> m).
Proof.
  intros [Hl Hc Hn Ho Hh Hs] Hfd. split; try done. intros g. rewrite <- Ho.
  destruct (decide (g = fd)) as [->|Hne]; [by rewrite lookup_insert_eq|by rewrite lookup_insert_ne].
Qed.

Lemma world_wf_conn w fd c :
  world_wf w -> is_Some (w_conns w !! fd) -> world_wf (with_conns (<[fd := c]> (w_conns w)) w).
Proof. intros [Ht Ho] H. split; [by apply table_wf_conn|done]. Qed.

Lemma handle_wf fd hdr w : world_wf w -> world_wf (handle fd hdr w).
Proof.
  intros Hw. unfold handle_message. destruct (w_conns w !! fd) as [c|] eqn:Ec; [|done].
  pose proof (tame_dispatch fd hdr c w) as [E H]. destruct (dispatch _ _ _ _ _ _ _ _ _ _ _ _ _ _ fd hdr c w)
    as [[r c'] w']. cbn [snd] in *. apply world_wf_conn; [auto|]. rewrite E, Ec. by eexists.
Qed.

Lemma remove_wf i w :
  world_wf w -> (i < ct_count (w_table w))%nat -> world_wf (remove_client i w).
Proof. intros [Ht Ho] Hi. split; [by apply table_wf_remove|done]. Qed.

Lemma recv_data n c bs c' : recv n c = (RecvData bs, c') -> (length bs <= n)%nat.
Proof.
  unfold recv. destruct (c_in c) as [|[[|x d]| | |] s]; try discriminate. intros [= <- _].
  rewrite length_take. lia.
Qed.

Lemma serve_wf i w :
  world_wf w -> (i < ct_count (w_table w))%nat -> world_wf (snd (serve i w)).
Proof.
  intros Hw Hi. unfold serve_client. set (r := row_at (w_table w) i).
  destruct (table_wf_row _ _ i (proj1 Hw) Hi) as (_ & [c Hc] & Hh). fold r in Hc, Hh. rewrite Hc.
  destruct (recv _ c) as [got c'] eqn:Er.
  assert (world_wf (with_conns (<[cl_fd r := c']> (w_conns w)) w)) as Hw1
    by (apply world_wf_conn; [done|by eexists]).
  set (w1 := with_conns _ w) in *. assert (w_table w1 = w_table w) as Et by done.
  assert (forall h, (length h < HEADER_SIZE)%nat ->
    world_wf (with_table (mkTable (<[i := set_header h r]> (ct_rows (w_table w1))) (ct_count (w_table w1))) w1))
    as Hset.
  { intros h Hl. destruct Hw1 as [Ht Ho]. split; [|done]. by apply table_wf_set_header. }
  destruct got as [bs| | |]; [|by apply remove_wf|done|by apply remove_wf].
  pose proof (recv_data _ _ _ _ Er) as Hbs.
  destruct (Nat.eqb_spec (length (cl_header r ++ bs)) HEADER_SIZE) as [E|E]; cbn [negb].
  - specialize (Hset [] ltac:(unfold HEADER_SIZE; simpl; lia)).
    destruct (valid_message_header _); cbn [negb snd]; [by apply handle_wf|by apply remove_wf].
  - cbn [snd]. apply Hset. rewrite length_app in *. lia.
Qed.

Lemma poll_loop_wf ready fuel i w : world_wf w -> world_wf (loop ready fuel i w).
Proof.
  revert i w. induction fuel as [|fuel IH]; intros i w Hw; [done|]. cbn [poll_loop].
  destruct (Nat.leb_spec (ct_count (w_table w)) i); [done|]. destruct (negb _); [by apply IH|].
  pose proof (serve_wf i w Hw ltac:(lia)) as Hs. destruct (serve i w) as [removed w']. by apply IH.
Qed.

Lemma accept_wf fd c w : world_wf w -> w_conns w !! fd = None -> world_wf (accept_client fd c w).
Proof.
  intros [Ht Ho] Hfd. unfold accept_client. destruct (Nat.ltb_spec (ct_count (w_table w)) MAX_CLIENTS); [|done].
  split; [|done]. by apply table_wf_accept.
Qed.

Lemma poll_wf sel acc w :
  world_wf w -> (forall fd c, acc = Some (fd, c) -> w_conns w !! fd = None) -> world_wf (poll sel acc w).
Proof.
  intros [Ht Ho] Hacc. unfold ipc_server_poll. set (w1 := with_offers _ w).
  assert (world_wf w1) as Hw1 by (split; [done|by apply offers_wf_expire]).
  destruct sel as [ready|]; [|done]. apply poll_loop_wf. destruct acc as [[fd c]|]; [|done].
  apply accept_wf; [done|by eapply Hacc].
Qed.

End ServerLemmas.

(** ** Lemmas: broadcast *)

Section BroadcastLemmas.

Context (bid : Z) (frame bframe : bytes).

Abbreviation bloop := (broadcast_loop bid frame bframe).

Definition addressed (r : Client) : bool := cl_subscribed r || (cl_browser_download r =? bid).
Definition message (r : Client) : bytes := if cl_browser_download r =? bid then bframe else frame.

(** The whole message goes out at once. *)
Definition takes (r : Client) (c : Conn) : bool := fst (send_once (message r) c) =? strlen (message r).

(** What a broadcast leaves of the connection of a client. *)
Definition conn_after (r : Client) (c : Conn) : option Conn :=
  if addressed r then if takes r c then Some (snd (send_once (message r) c)) else None else Some c.

Definition kept (m : gmap Z Conn) (r : Client) : Prop := is_Some (m !! cl_fd r ≫= conn_after r).

#[local] Instance kept_dec m r : Decision (kept m r).
Proof. unfold kept. apply _. Defined.

Lemma kept_ext (m m' : gmap Z Conn) (l : list Client) :
  (forall r, r ∈ l -> m' !! cl_fd r = m !! cl_fd r) -> filter (kept m') l = filter (kept m) l.
Proof.
  intros H. induction l as [|r l IH]; [done|]. rewrite !filter_cons.
  rewrite IH by (intros x Hx; apply H; by right).
  assert (kept m' r <-> kept m r) as Hk by (unfold kept; by rewrite (H r) by by left).
  repeat case_decide; tauto || congruence.
Qed.

Record broadcast_done (i : nat) (w w' : World) : Prop := {
  bd_live : live (w_table w') = take i (live (w_table w)) ++ filter (kept (w_conns w)) (drop i (live (w_table w)));
  bd_conn : forall r, r ∈ drop i (live (w_table w)) ->
    w_conns w' !! cl_fd r = w_conns w !! cl_fd r ≫= conn_after r;
  bd_other : forall fd, fd ∉ map cl_fd (drop i (live (w_table w))) -> w_conns w' !! fd = w_conns w !! fd;
  bd_state : w_s w' = w_s w /\ w_offers w' = w_offers w;
}.

Lemma drop_live w i :
  world_wf w -> (i < ct_count (w_table w))%nat ->
  drop i (live (w_table w)) = row_at (w_table w) i :: drop (S i) (live (w_table w)) /\
  cl_fd (row_at (w_table w) i) ∉ map cl_fd (drop (S i) (live (w_table w))).
Proof.
  intros [Ht _] Hi. destruct (table_wf_row _ _ i Ht Hi) as (E & _ & _).
  assert (drop i (live (w_table w)) = row_at (w_table w) i :: drop (S i) (live (w_table w))) as Ed
    by (by apply drop_S). split; [exact Ed|].
  pose proof (tw_nodup _ _ Ht) as Hn. rewrite <- (take_drop i (live (w_table w))), Ed, map_app in Hn.
  apply NoDup_app in Hn as (_ & _ & Hn). by apply NoDup_cons in Hn as [? _].
Qed.

Lemma elem_fd r (l : list Client) : r ∈ l -> cl_fd r ∈ map cl_fd l.
Proof. intros H. apply list_elem_of_fmap. by exists r. Qed.

(** One step of the loop: the row at [i] keeps its place. *)
Lemma broadcast_keep i w w1 w' :
  world_wf w -> (i < ct_count (w_table w))%nat -> w_table w1 = w_table w ->
  w_s w1 = w_s w -> w_offers w1 = w_offers w ->
  (forall fd, fd <> cl_fd (row_at (w_table w) i) -> w_conns w1 !! fd = w_conns w !! fd) ->
  w_conns w1 !! cl_fd (row_at (w_table w) i) =
    w_conns w !! cl_fd (row_at (w_table w) i) ≫= conn_after (row_at (w_table w) i) ->
  is_Some (w_conns w1 !! cl_fd (row_at (w_table w) i)) ->
  broadcast_done (S i) w1 w' -> broadcast_done i w w'.
Proof.
  intros Hw Hi Et Es Eo Hne Heq Hsome [Hl Hc Ho [Hs1 Hs2]]. rewrite Et in *.
  destruct (drop_live w i Hw Hi) as [Ed Hfd]. set (r := row_at (w_table w) i) in *.
  assert (forall x, x ∈ drop (S i) (live (w_table w)) -> w_conns w1 !! cl_fd x = w_conns w !! cl_fd x) as Hsame.
  { intros x Hx. apply Hne. intros E. apply Hfd. rewrite <- E. by apply elem_fd. }
  split.
  - rewrite Hl, Ed, filter_cons, decide_True by (unfold kept; by rewrite <- Heq).
    rewrite (kept_ext (w_conns w) (w_conns w1)) by done.
    destruct (table_wf_row _ _ i (proj1 Hw) Hi) as (E & _ & _). by rewrite (take_S_r _ _ _ E), <- app_assoc.
  - intros x. rewrite Ed. intros [->|Hx]%elem_of_cons; [by rewrite Ho|]. rewrite Hc by done. by rewrite Hsame.
  - intros fd. rewrite Ed. cbn [map]. rewrite not_elem_of_cons. intros [H1 H2]. rewrite Ho by done. by apply Hne.
  - split; congruence.
Qed.

(** The row at [i] is dropped. *)
Lemma broadcast_drop i w w1 w' :
  world_wf w -> (i < ct_count (w_table w))%nat ->
  live (w_table w1) = delete i (live (w_table w)) -> w_s w1 = w_s w -> w_offers w1 = w_offers w ->
  (forall fd, fd <> cl_fd (row_at (w_table w) i) -> w_conns w1 !! fd = w_conns w !! fd) ->
  w_conns w1 !! cl_fd (row_at (w_table w) i) = None ->
  w_conns w !! cl_fd (row_at (w_table w) i) ≫= conn_after (row_at (w_table w) i) = None ->
  broadcast_done i w1 w' -> broadcast_done i w w'.
Proof.
  intros Hw Hi El Es Eo Hne Hnone Hafter [Hl Hc Ho [Hs1 Hs2]].
  destruct (drop_live w i Hw Hi) as [Ed Hfd]. set (r := row_at (w_table w) i) in *.
  assert (drop i (live (w_table w1)) = drop (S i) (live (w_table w))) as Ed1.
  { rewrite El, delete_take_drop, drop_app_ge by (rewrite length_take; lia).
    rewrite length_take_le; [by rewrite Nat.sub_diag|].
    destruct (table_wf_row _ _ i (proj1 Hw) Hi) as (E & _ & _). apply lookup_lt_Some in E. lia. }
  assert (take i (live (w_table w1)) = take i (live (w_table w))) as Et1.
  { rewrite El, delete_take_drop, take_app_le; [by rewrite take_take, Nat.min_id|].
    rewrite length_take_le; [done|]. destruct (table_wf_row _ _ i (proj1 Hw) Hi) as (E & _ & _).
    apply lookup_lt_Some in E. lia. }
  assert (forall x, x ∈ drop (S i) (live (w_table w)) -> w_conns w1 !! cl_fd x = w_conns w !! cl_fd x) as Hsame.
  { intros x Hx. apply Hne. intros E. apply Hfd. rewrite <- E. by apply elem_fd. }
  rewrite Ed1 in *. split.
  - rewrite Hl, Et1, Ed, filter_cons, decide_False by (unfold kept; rewrite Hafter; by intros [? ?]).
    by rewrite (kept_ext (w_conns w) (w_conns w1)).
  - intros x. rewrite Ed. intros [->|Hx]%elem_of_cons; [by rewrite Ho, Hafter|].
    rewrite Hc by done. by rewrite Hsame.
  - intros fd. rewrite Ed. cbn [map]. rewrite not_elem_of_cons. intros [H1 H2]. rewrite Ho by done. by apply Hne.
  - split; congruence.
Qed.

Lemma broadcast_loop_spec fuel i w :
  world_wf w -> (ct_count (w_table w) - i <= fuel)%nat -> world_wf (bloop fuel i w) /\ broadcast_done i w (bloop fuel i w).
Proof.
  assert (forall i w, world_wf w -> (ct_count (w_table w) <= i)%nat -> broadcast_done i w w) as Hend.
  { intros j x Hx Hj. assert (length (live (w_table x)) <= j)%nat by (unfold live; rewrite length_take; lia).
    split; rewrite ?(drop_ge (live (w_table x)) j) by done; try done.
    - by rewrite take_ge, app_nil_r.
    - by intros r ?%not_elem_of_nil. }
  revert i w. induction fuel as [|fuel IH]; intros i w Hw Hf; cbn [broadcast_loop];
    [split; [done|]; apply Hend; [done|lia]|].
  destruct (Nat.leb_spec (ct_count (w_table w)) i) as [Hge|Hlt];
    [split; [done|]; by apply Hend|].
  set (r := row_at (w_table w) i).
  destruct (table_wf_row _ _ i (proj1 Hw) Hlt) as (_ & [c Hc] & _). fold r in Hc.
  assert (negb (cl_subscribed r) && negb (cl_browser_download r =? bid) = negb (addressed r)) as ->
    by (unfold addressed; by rewrite negb_orb).
  destruct (addressed r) eqn:Ea; cbn [negb].
  2:{ destruct (IH (S i) w Hw ltac:(lia)) as [H1 H2]. split; [done|].
      apply (broadcast_keep i w w); [done|done|done|done|done|done| | |exact H2]; fold r; rewrite Hc.
      - simpl. unfold conn_after. by rewrite Ea.
      - by eexists. }
  rewrite Hc. change (if cl_browser_download r =? bid then bframe else frame) with (message r).
  destruct (send_once (message r) c) as [sent c'] eqn:Es.
  assert (takes r c = (sent =? strlen (message r))) as Hk by (unfold takes; by rewrite Es).
  set (w1 := with_conns (<[cl_fd r := c']> (w_conns w)) w).
  assert (world_wf w1) as Hw1 by (apply world_wf_conn; [done|by eexists]).
  destruct (sent =? strlen (message r)).
  - destruct (IH (S i) w1 Hw1 ltac:(simpl; lia)) as [H1 H2]. split; [done|].
    eapply broadcast_keep; [done|done| | | | | | |exact H2]; try done; fold r; cbn [w1 with_conns w_conns].
    + intros fd Hfd. by rewrite lookup_insert_ne.
    + rewrite lookup_insert_eq, Hc. simpl. unfold conn_after. by rewrite Ea, Hk, Es.
    + rewrite lookup_insert_eq. by eexists.
  - pose proof (remove_wf i w1 Hw1 Hlt) as Hw2.
    assert (ct_count (w_table (remove_client i w1)) = (ct_count (w_table w) - 1)%nat) as Ecount by done.
    destruct (IH i (remove_client i w1) Hw2 ltac:(lia)) as [H1 H2]. split; [done|].
    eapply broadcast_drop; [done|done| | | | | | |exact H2]; try done; fold r; cbn [w1 with_conns w_conns w_table remove_client with_table].
    + apply live_remove. pose proof (tw_len _ _ (proj1 Hw)). pose proof (tw_count _ _ (proj1 Hw)). lia.
    + intros fd Hfd. by rewrite lookup_delete_ne, lookup_insert_ne by done.
    + by rewrite lookup_delete_eq.
    + rewrite Hc. simpl. unfold conn_after. by rewrite Ea, Hk.
Qed.

End BroadcastLemmas.

(** ** Properties *)

(** The life of a server: polls with whatever select, accept, the clock and
    the random bytes give; broadcasts of the worker threads; and whatever else
    happens to the downloads. *)
Inductive server_step : World -> World -> Prop :=
| st_poll sql_ok env realpath env_home toml_parse json_parse safe alloc_d alloc_r others mid now rnd garbage
    sel acc w :
    (forall fd c, acc = Some (fd, c) -> w_conns w !! fd = None) ->
    server_step w (ipc_server_poll sql_ok env realpath env_home toml_parse json_parse safe alloc_d alloc_r
                     others mid now rnd garbage sel acc w)
| st_broadcast e w : server_step w (broadcast_event e w)
| st_downloads s w : server_step w (with_state s w).

Lemma started_wf s cfg : world_wf (started s cfg).
Proof.
  split; [|apply offers_wf_empty]. split.
  - reflexivity.
  - simpl. unfold MAX_CLIENTS. lia.
  - constructor.
  - intros fd. simpl. rewrite lookup_empty. split; [by intros [? ?]|by intros ?%not_elem_of_nil].
  - constructor.
  - reflexivity.
Qed.

(** C16. The tables of the server stay sound for ever.  After any sequence of
    polls, messages and broadcasts: at most 16 clients; every open descriptor
    belongs to exactly one row, so that none leaks, none is closed twice and no
    row names a closed one; a partial header is shorter than a header, so that
    the next read stays inside its buffer; unused rows are blank; and the offer
    table is well formed. *)
Theorem server_tables_sound s cfg w :
  rtc server_step (started s cfg) w -> world_wf w.
Proof.
  apply (rtc_invariant server_step world_wf).
  - intros a b Ha Hs. destruct Hs as [| |].
    + by apply poll_wf.
    + unfold broadcast_event. case_bool; [done|]. apply broadcast_loop_spec; [done|lia].
    + done.
  - apply started_wf.
Qed.

(** What a client is sent for an event, if anything. *)
Definition event_frame (e : StatusEvent) (q : QM) (r : Client) : bytes :=
  message (ev_id e)
    (status_frame (ev_id e) (f32_bits (f32_of_f64 (f64_div (f64_of_Z (ev_num e)) (f64_of_Z (ev_den e)))))
       (ev_text e))
    (browser_frame (browser_progress_snapshot (ev_id e) (event_error (ev_text e)) q)) r.

(** C25. A status event reaches every client that asked for it, whole, and
    nobody else.  Each live client that subscribed, or follows this download,
    either gets one complete frame appended to its stream, or could not take it
    and is disconnected; every other client is untouched; the clients that stay
    keep their order; the downloads and the offers are not touched. *)
Theorem broadcast_delivers e w :
  world_wf w -> 12 + strlen (ev_text e) <= IPC_MAX_FRAME_SIZE ->
  let w' := broadcast_event e w in
  let wants r := cl_subscribed r || (cl_browser_download r =? ev_id e) in
  live (w_table w') = filter (fun r => is_Some (w_conns w' !! cl_fd r)) (live (w_table w)) /\
  (forall r c, r ∈ live (w_table w) -> w_conns w !! cl_fd r = Some c ->
     let bs := event_frame e (s_q (w_s w)) r in
     w_conns w' !! cl_fd r =
       if wants r then
         if fst (send_once bs c) =? strlen bs then
           Some (mkConn (c_in c) (c_out c ++ bs) (c_wr (snd (send_once bs c))))
         else None
       else Some c) /\
  w_s w' = w_s w /\ w_offers w' = w_offers w.
Proof.
  intros Hw Hlen. cbv zeta. unfold broadcast_event. rewrite (proj2 (Z.ltb_ge _ _)) by lia.
  set (bframe := browser_frame _). set (frame := status_frame _ _ _).
  destruct (broadcast_loop_spec (ev_id e) frame bframe (ct_count (w_table w)) 0 w Hw ltac:(lia))
    as [_ [Hl Hc _ Hs]]. set (w' := broadcast_loop _ _ _ _ _ _) in *. rewrite drop_0 in Hl, Hc. rewrite take_0, app_nil_l in Hl.
  split; [|split; [|exact Hs]].
  - rewrite Hl. clear Hl. revert Hc. generalize (live (w_table w)). intros l Hc.
    induction l as [|r l IH]; [done|]. rewrite !filter_cons, IH by (intros x Hx; apply Hc; by right).
    assert (kept (ev_id e) frame bframe (w_conns w) r <-> is_Some (w_conns w' !! cl_fd r)) as Hk
      by (unfold kept; by rewrite (Hc r) by by left).
    repeat case_decide; tauto || congruence.
  - intros r c Hr Ec. rewrite (Hc r Hr), Ec. cbn [mbind option_bind]. unfold conn_after, addressed, takes.
    change (event_frame e (s_q (w_s w)) r) with (message (ev_id e) frame bframe r).
    destruct (_ || _); [|done]. set (bs := message _ _ _ r).
    destruct (Z.eqb_spec (fst (send_once bs c)) (strlen bs)) as [Hb|Hb]; [|done]. f_equal.
    revert Hb. unfold send_once. destruct (c_wr c) as [|[n| |] ev] eqn:Ew; cbn [fst snd c_wr]; try done.
    + intros Hb. assert (take n bs = bs) as ->; [|done]. apply take_ge. unfold strlen in Hb.
      rewrite length_take in Hb. lia.
    + pose proof (strlen_nonneg bs). lia.
    + pose proof (strlen_nonneg bs). lia.
Qed.

(** Two clients: one subscribes in pieces and reads, one follows download 1 and
    takes no data. *)
Definition ipc_subscriber : Conn :=
  mkConn [RData [0; 0; 0]; RData [0; 8; 0; 0; 0]; RBlock; RBlock; RBlock] [] [].
Definition ipc_follower : Conn :=
  mkConn [RData (encode_header (header_of MSG_BROWSER_SUBSCRIBE_PROGRESS 4)); REintr; RData [1; 0; 0; 0]; RBlock]
    [] [WSent 2000; WSent 3].

Definition ipc_poll (acc : option (Z * Conn)) (w : World) : World :=
  ipc_server_poll always_ok permissive cfg_realpath (Some (str "/h")) (fun _ => None) offer_parse
    (fun _ _ => true) true true (fun _ fs => fs) id 100 (fun _ => 77) 0 (Some (fun _ => true)) acc w.

Definition ipc_demo : World :=
  ipc_poll None (ipc_poll (Some (6, ipc_follower)) (ipc_poll (Some (5, ipc_subscriber))
    (started sched_start backoff_demo))).

Lemma ipc_demo_runs : rtc server_step (started sched_start backoff_demo) ipc_demo.
Proof.
  unfold ipc_demo, ipc_poll.
  eapply rtc_l; [apply (st_poll always_ok permissive cfg_realpath (Some (str "/h")) (fun _ => None) offer_parse
    (fun _ _ => true) true true (fun _ fs => fs) id 100 (fun _ => 77) 0 (Some (fun _ => true)) (Some (5, ipc_subscriber)))|].
  { intros fd c [= <- <-]. reflexivity. }
  eapply rtc_l; [apply (st_poll always_ok permissive cfg_realpath (Some (str "/h")) (fun _ => None) offer_parse
    (fun _ _ => true) true true (fun _ fs => fs) id 100 (fun _ => 77) 0 (Some (fun _ => true)) (Some (6, ipc_follower)))|].
  { intros fd c [= <- <-]. vm_compute. reflexivity. }
  eapply rtc_l; [apply (st_poll always_ok permissive cfg_realpath (Some (str "/h")) (fun _ => None) offer_parse
    (fun _ _ => true) true true (fun _ fs => fs) id 100 (fun _ => 77) 0 (Some (fun _ => true)) None)|].
  { discriminate. }
  apply rtc_refl.
Qed.

Lemma server_tables_sound_witness :
  map cl_fd (live (w_table ipc_demo)) = [5; 6] /\ map cl_subscribed (live (w_table ipc_demo)) = [true; false] /\
  world_wf ipc_demo.
Proof.
  split; [vm_compute; reflexivity|]. split; [vm_compute; reflexivity|].
  exact (server_tables_sound sched_start backoff_demo ipc_demo ipc_demo_runs).
Defined.

Definition ipc_event : StatusEvent := mkEvent 1 (str "Done") 1 1.

Lemma ipc_demo_wf : world_wf ipc_demo.
Proof.
  repeat (apply poll_wf; [|intros fd c; (discriminate || (intros [= <- <-]; vm_compute; reflexivity))]).
  apply started_wf.
Qed.

Lemma broadcast_delivers_witness :
  exists c, w_conns (broadcast_event ipc_event ipc_demo) !! 5 = Some c /\
    c_out c = status_frame 1 (ratio_bits 1 1) (str "Done") /\
    w_conns (broadcast_event ipc_event ipc_demo) !! 6 = None.
Proof.
  destruct (broadcast_delivers ipc_event ipc_demo ipc_demo_wf ltac:(vm_compute; discriminate)) as (_ & H & _).
  assert (mkClient 5 true 0 [] ∈ live (w_table ipc_demo)) as H5 by (vm_compute; left).
  assert (w_conns ipc_demo !! 5 = Some (mkConn [RBlock; RBlock] [] [])) as C5 by (vm_compute; reflexivity).
  exists (mkConn [RBlock; RBlock] (status_frame 1 (ratio_bits 1 1) (str "Done")) []).
  split; [refine (eq_trans (H _ _ H5 C5) _); vm_compute; reflexivity|]. split; [reflexivity|].
  clear H. vm_compute. reflexivity.
Defined.
