(* ===== verification/IpcClient.v ===== *)
(** * The client side of the IPC ([src/platform/ipc_socket.c])

    The request functions the command line, the GUI and the native host call,
    on the client's end of a connection, and what they get from the server of
    Ipc.v.  [None] is the answer -1 (or id 0). *)

From S2P Require Import Prelude Path FileIo QueueManager Db Config Engine Scheduler Wire Commands Offers Ipc.

#[local] Open Scope wire_scope.

(** ** Requests *)

Definition write_header (t : MsgType) (len : Z) : wire unit := ipc_write_exact (encode_header (header_of t len)).

(** A length, then the bytes when there are any. *)
Definition send_counted (s : bytes) : wire unit :=
  ipc_write_exact (le 4 (u32 (strlen s))) ;;;
  (if bool_decide (s = []) then wret tt else ipc_write_exact s).

(** The members [ipc_send_add_download] adds, in order; printing is cJSON's. *)
Definition string_member (key s : bytes) : list (bytes * json_value) :=
  if bool_decide (s = []) then [] else [(key, JString s)].

Definition option_members (o : RequestOptions) : list (bytes * json_value) :=
  string_member (str "cookie") (cookie o) ++ string_member (str "referrer") (referrer o) ++
  string_member (str "extra_headers") (extra_headers o) ++
  string_member (str "expected_sha256") (expected_sha256 o) ++
  (if 0 <? speed_limit_bps o then [(str "speed_limit_bps", JNumber (speed_limit_bps o) 1)] else []).

Definition ipc_send_add_download (json_print : list (bytes * json_value) -> bytes) (url dest_path : bytes)
    (options : option RequestOptions) : wire Z :=
  let json_str := match options with Some o => json_print (option_members o) | None => [] end in
  let payload := u32 (4 + u32 (strlen url) + 4 + u32 (strlen dest_path) + 4 + u32 (strlen json_str)) in
  write_header MSG_ADD_DOWNLOAD payload ;;;
  send_counted url ;;; send_counted dest_path ;;; send_counted json_str ;;; read_u32.

(** The answer of a command: 0 for [IPC_RESULT_OK]. *)
Definition read_result : wire unit := result <-- read_u8 ;; if result =? 0 then wret tt else wfail.

Definition send_id_command (t : MsgType) (id : Z) : wire unit :=
  write_header t 4 ;;; ipc_write_exact (le 4 id) ;;; read_result.

Definition ipc_send_pause (id : Z) : wire unit := send_id_command MSG_PAUSE id.
Definition ipc_send_resume (id : Z) : wire unit := send_id_command MSG_RESUME id.
Definition ipc_send_cancel (id : Z) : wire unit := send_id_command MSG_CANCEL id.

(** [IpcDownloadRecord]; the progress is the bits of the float. *)
Record IpcDownloadRecord := mkRecord {
  ir_id : Z; ir_url : bytes; ir_dest_path : bytes; ir_status : bytes; ir_progress : Z }.

Definition read_record : wire IpcDownloadRecord :=
  id <-- read_u32 ;; url <-- read_string 2048 ;; dest <-- read_string 1024 ;; status <-- read_string 16 ;;
  progress <-- read_u32 ;;
  wret (mkRecord id (strlcpy 2048 url) (strlcpy 1024 dest) (strlcpy 16 status) progress).

(** All [count] records are read; the first [max] are kept. *)
Fixpoint read_records (count max : nat) : wire (list IpcDownloadRecord) :=
  match count with
  | O => wret []
  | S n =>
      r <-- read_record ;;
      rest <-- read_records n (max - 1) ;;
      wret (match max with O => rest | S _ => r :: rest end)
  end.

Definition ipc_send_list_all (max : Z) : wire (list IpcDownloadRecord) :=
  if max <=? 0 then wfail
  else write_header MSG_LIST_ALL 0 ;;;
       (count <-- read_u32 ;; read_records (Z.to_nat count) (Z.to_nat max)).

Definition ipc_send_get_details (id : Z) : wire RequestOptions :=
  write_header MSG_GET_DETAILS 4 ;;; ipc_write_exact (le 4 id) ;;;
  (found <-- read_u8 ;;
   if found =? 0 then wfail
   else
     ck <-- read_string 1024 ;; ref <-- read_string 2048 ;; hdr <-- read_string 4096 ;;
     sha <-- read_string 65 ;; speed <-- read_u64 ;; wret (mkOpts ck ref hdr sha speed)).

Definition ipc_send_subscribe : wire unit := attempt (write_header MSG_SUBSCRIBE 0).

Definition ipc_send_reload_config : wire unit := write_header MSG_RELOAD_CONFIG 0 ;;; read_result.

(** *** Browser requests *)

Definition browser_write_request (t : MsgType) (payload : bytes) : wire unit :=
  if IPC_MAX_FRAME_SIZE <? strlen payload then wfail
  else
    write_header t (strlen payload) ;;;
    (if bool_decide (payload = []) then wret tt else ipc_write_exact payload).

Definition state_of_code (n : Z) : IpcBrowserOfferState :=
  if n =? 1 then IPC_BROWSER_CONFIRMED else if n =? 2 then IPC_BROWSER_DISMISSED else IPC_BROWSER_WAITING.

(** The bytes of a structure, read back. *)
Definition decode_offer (bs : bytes) : IpcBrowserOffer :=
  match split_fields offer_sizes bs with
  | [id; did; total; st; rid; url; name; mime; ref; _] =>
      mkOffer (unle id) (unle did) (unle total) (state_of_code (unle st)) (cstr rid) (cstr url) (cstr name)
        (cstr mime) (cstr ref)
  | _ => no_offer
  end.

Definition decode_progress (bs : bytes) : IpcBrowserProgress :=
  match split_fields progress_sizes bs with
  | [id; _; received; total; progress; status; error; dest; _] =>
      mkProgress (unle id) (unle received) (unle total) (unle progress) (cstr status) (cstr error) (cstr dest)
  | _ => mkProgress 0 0 0 0 [] [] []
  end.

Definition offer_members (o : IpcBrowserOffer) : list (bytes * json_value) :=
  [(str "request_id", JString (o_request_id o)); (str "url", JString (o_url o));
   (str "filename", JString (o_filename o)); (str "mime", JString (o_mime o));
   (str "referrer", JString (o_referrer o)); (str "total_bytes", JNumber (o_total_bytes o) 1)].

Definition read_offer : wire IpcBrowserOffer :=
  bs <-- ipc_read_exact 4888 ;;
  let o := decode_offer bs in
  if o_offer_id o =? 0 then wfail else wret o.

Definition ipc_browser_offer (json_print : list (bytes * json_value) -> bytes) (offer : IpcBrowserOffer)
    : wire IpcBrowserOffer :=
  if bool_decide (o_request_id offer = [] \/ o_url offer = []) then wfail
  else
    let json := json_print (offer_members offer) in
    if IPC_MAX_FRAME_SIZE <? strlen json then wfail
    else browser_write_request MSG_BROWSER_OFFER json ;;; read_offer.

Definition ipc_browser_get_offer (offer_id : Z) : wire IpcBrowserOffer :=
  if offer_id =? 0 then wfail
  else browser_write_request MSG_BROWSER_GET_OFFER (le 4 offer_id) ;;; read_offer.

Definition ipc_browser_confirm (offer_id : Z) (dest_path : bytes) : wire Z :=
  if offer_id =? 0 then wfail
  else if (strlen dest_path =? 0) || (IPC_MAX_PATH_LEN <=? strlen dest_path) then wfail
  else
    browser_write_request MSG_BROWSER_CONFIRM (le 4 offer_id ++ le 4 (strlen dest_path) ++ dest_path) ;;;
    (download_id <-- read_u32 ;; if download_id =? 0 then wfail else wret download_id).

Definition ipc_browser_dismiss (offer_id : Z) : wire unit :=
  if offer_id =? 0 then wfail
  else browser_write_request MSG_BROWSER_DISMISS (le 4 offer_id) ;;; read_result.

Definition ipc_browser_subscribe_progress (download_id : Z) : wire IpcBrowserProgress :=
  if download_id =? 0 then wfail
  else
    browser_write_request MSG_BROWSER_SUBSCRIBE_PROGRESS (le 4 download_id) ;;;
    (bs <-- ipc_read_exact 1336 ;;
     let p := decode_progress bs in
     if streq (p_status p) (str "NOT_FOUND") then wfail else wret p).

(** ** Lemmas *)

Lemma write_exact_out bs c :
  healthy (c_wr c) ->
  exists ev, healthy ev /\ ipc_write_exact bs c = (Some tt, mkConn (c_in c) (c_out c ++ bs) ev).
Proof. intros H. destruct (write_exact_ok c bs H) as (ev & E & Hev). by exists ev. Qed.

Lemma read_result_only : reads_only read_result.
Proof. apply reads_only_bind; [auto with cdm|]. intros r. case_bool; auto with cdm. Qed.

Lemma read_record_only : reads_only read_record.
Proof. unfold read_record. do 5 (apply reads_only_bind; [auto with cdm|intros ?]). auto with cdm. Qed.

Lemma read_records_only n max : reads_only (read_records n max).
Proof.
  revert max. induction n as [|n IH]; intros max; cbn [read_records]; [auto with cdm|].
  apply reads_only_bind; [apply read_record_only|]. intros r. apply reads_only_bind; [apply IH|].
  intros rest. auto with cdm.
Qed.

(** What a request puts on the wire. *)
Definition sent {A} (p : wire A) (c : Conn) : bytes := drop (length (c_out c)) (c_out (snd (p c))).

Lemma reply_ok bs c w :
  healthy (c_wr c) ->
  exists ev, healthy ev /\ reply bs c w = (Some tt, mkConn (c_in c) (c_out c ++ bs) ev, w).
Proof.
  intros H. destruct (write_exact_out bs c H) as (ev & Hev & E). exists ev. split; [done|].
  unfold reply, io, attempt. by rewrite E.
Qed.

Lemma take_header h rest : take 8 (encode_header h ++ rest) = encode_header h.
Proof. apply take_app_length'. by rewrite length_encode_header. Qed.

Lemma drop_header h rest : drop 8 (encode_header h ++ rest) = rest.
Proof. apply drop_app_length'. by rewrite length_encode_header. Qed.

Inductive command := CmdPause | CmdResume | CmdCancel.

Definition command_msg (k : command) : MsgType :=
  match k with CmdPause => MSG_PAUSE | CmdResume => MSG_RESUME | CmdCancel => MSG_CANCEL end.

Definition ipc_send (k : command) (id : Z) : wire unit :=
  match k with
  | CmdPause => ipc_send_pause id | CmdResume => ipc_send_resume id | CmdCancel => ipc_send_cancel id
  end.

Definition run_command sql_ok env mid (k : command) (id : Z) (s : SState) : IpcResult * SState :=
  match k with
  | CmdPause => cmd_pause sql_ok mid id s
  | CmdResume => cmd_resume sql_ok mid id s
  | CmdCancel => cmd_cancel sql_ok env mid id s
  end.

(** The client's side of a command. *)
Lemma send_command_client k id c code rest :
  healthy (c_wr c) -> 0 <= code < 256 ->
  sent (ipc_send k id) c = encode_header (header_of (command_msg k) 4) ++ le 4 id /\
  (feeds (c_in c) (le 1 code ++ rest) ->
     fst (ipc_send k id c) = (if code =? 0 then Some tt else None) /\ feeds (c_in (snd (ipc_send k id c))) rest).
Proof.
  intros Hc Hcode. assert (ipc_send k id = send_id_command (command_msg k) id) as -> by by destruct k.
  unfold sent, send_id_command, write_header, wbind.
  destruct (write_exact_out (encode_header (header_of (command_msg k) 4)) c Hc) as (e1 & H1 & ->).
  destruct (write_exact_out (le 4 id) (mkConn (c_in c) (c_out c ++ encode_header (header_of (command_msg k) 4)) e1) H1)
    as (e2 & H2 & ->). cbn [c_in c_out]. split.
  - rewrite (read_result_only : reads_only read_result). cbn [c_out]. by rewrite <- app_assoc, drop_app_length.
  - intros Hf. unfold read_result, wbind.
    destruct (read_u_ok 1 (mkConn (c_in c) ((c_out c ++ encode_header (header_of (command_msg k) 4)) ++ le 4 id) e2)
                code rest) as (s' & -> & Hf'); [simpl; lia|done|].
    by destruct (code =? 0).
Qed.

(** *** The list of downloads *)

Definition listed (q : QM) (row : DownloadListRecord) : IpcDownloadRecord :=
  mkRecord (u32 (lr_id row)) (lr_url row) (lr_dest_path row) (listed_status q row) (u32 (listed_progress q row)).

Definition row_frame (q : QM) (row : DownloadListRecord) : bytes :=
  le 4 (lr_id row) ++ string_frame (lr_url row) ++ string_frame (lr_dest_path row) ++
  string_frame (listed_status q row) ++ le 4 (listed_progress q row).

Definition row_ok (row : DownloadListRecord) : Prop :=
  cstring (lr_url row) /\ cstring (lr_dest_path row) /\ cstring (lr_status row) /\
  strlen (lr_url row) < 2048 /\ strlen (lr_dest_path row) < 1024 /\ strlen (lr_status row) < 16.

Lemma listed_status_ok q row :
  row_ok row -> cstring (listed_status q row) /\ strlen (listed_status q row) < 16.
Proof.
  intros (_ & _ & Hc & _ & _ & Hl). unfold listed_status.
  destruct (queue_manager_get_runtime_snapshot _ _) as [sn|].
  - split; [|pose proof (strlcpy_length 16 (status_to_string (rs_status sn))); lia].
    apply cstring_take. destruct (rs_status sn); vm_compute; repeat constructor.
  - by rewrite strlcpy_id.
Qed.

Lemma send_row_ok q row c :
  row_ok row -> healthy (c_wr c) ->
  exists ev, healthy ev /\
    send_download_row q row c = (true, mkConn (c_in c) (c_out c ++ row_frame q row) ev).
Proof.
  intros Hrow Hc. destruct (listed_status_ok q row Hrow) as [_ Hst]. destruct Hrow as (_ & _ & _ & H1 & H2 & _).
  unfold send_download_row.
  destruct (write_exact_out (le 4 (lr_id row)) c Hc) as (e1 & W1 & ->).
  destruct (write_string_ok (lr_url row) (mkConn (c_in c) (c_out c ++ le 4 (lr_id row)) e1)) as (e2 & -> & W2);
    [lia|done|].
  edestruct (write_string_ok (lr_dest_path row)) as (e3 & -> & W3); [lia|exact W2|].
  edestruct (write_string_ok (listed_status q row)) as (e4 & -> & W4); [lia|exact W3|].
  edestruct (write_exact_out (le 4 (listed_progress q row))) as (e5 & W5 & ->); [exact W4|].
  exists e5. split; [done|]. cbn [c_in c_out]. unfold row_frame. by rewrite <- !app_assoc.
Qed.

Lemma visit_rows_ok q rows k c :
  Forall (fun r => row_ok (list_record r)) rows -> healthy (c_wr c) ->
  exists n ev, healthy ev /\ visit_loop (send_download_row q) rows k c =
    (n, mkConn (c_in c) (c_out c ++ concat (map (fun r => row_frame q (list_record r)) rows)) ev).
Proof.
  intros H. revert k c. induction H as [|r rows Hr _ IH]; intros k c Hc.
  - exists k, (c_wr c). split; [done|]. simpl. rewrite app_nil_r. by destruct c.
  - cbn [visit_loop map concat]. destruct (send_row_ok q (list_record r) c Hr Hc) as (e1 & W1 & ->).
    edestruct IH as (n & e2 & W2 & ->); [exact W1|]. exists n, e2. split; [done|]. cbn [c_in c_out].
    by rewrite <- app_assoc.
Qed.

Lemma read_record_ok q row c rest :
  row_ok row -> feeds (c_in c) (row_frame q row ++ rest) ->
  exists s', read_record c = (Some (listed q row), mkConn s' (c_out c) (c_wr c)) /\ feeds s' rest.
Proof.
  intros Hrow H. destruct (listed_status_ok q row Hrow) as [Hsc Hst].
  destruct Hrow as (C1 & C2 & _ & H1 & H2 & _). unfold row_frame in H. rewrite <- !app_assoc in H.
  unfold read_record, wbind.
  destruct (read_u_wrap 4 c _ _ H) as (s1 & -> & F1).
  edestruct (read_string_ok (lr_url row) 2048) as (s2 & -> & F2); [exact C1|lia|lia|exact F1|].
  rewrite (proj2 (Z.ltb_lt _ _) H1).
  edestruct (read_string_ok (lr_dest_path row) 1024) as (s3 & -> & F3); [exact C2|lia|lia|exact F2|].
  rewrite (proj2 (Z.ltb_lt _ _) H2).
  edestruct (read_string_ok (listed_status q row) 16) as (s4 & -> & F4); [exact Hsc|lia|lia|exact F3|].
  rewrite (proj2 (Z.ltb_lt _ _) Hst).
  edestruct (read_u_wrap 4) as (s5 & -> & F5); [exact F4|]. exists s5. split; [|done].
  unfold wret, listed. by rewrite !strlcpy_id.
Qed.

Lemma read_records_ok q rows max c rest :
  Forall (fun r => row_ok (list_record r)) rows ->
  feeds (c_in c) (concat (map (fun r => row_frame q (list_record r)) rows) ++ rest) ->
  exists s', read_records (length rows) max c =
      (Some (take max (map (fun r => listed q (list_record r)) rows)), mkConn s' (c_out c) (c_wr c)) /\
    feeds s' rest.
Proof.
  intros Hok. revert max c. induction Hok as [|r rows Hr _ IH]; intros max c H.
  - exists (c_in c). simpl in *. rewrite take_nil. by destruct c.
  - cbn [length read_records map concat] in *. rewrite <- app_assoc in H. unfold wbind.
    destruct (read_record_ok q (list_record r) c _ Hr H) as (s1 & -> & F1).
    edestruct (IH (max - 1)%nat) as (s2 & -> & F2); [exact F1|]. exists s2. split; [|done].
    unfold wret. destruct max as [|max]; cbn [take firstn]; [by rewrite take_0|].
    by replace (S max - 1)%nat with max by lia.
Qed.

Section Rpc.

Context (sql_ok : sql -> Tables -> bool) (env : IoEnv).
Context (realpath : filesystem -> bytes -> errno + bytes) (env_home : option bytes).
Context (toml_parse : bytes -> option toml_doc) (json_parse : bytes -> option json_object).
Context (safe : filesystem -> bytes -> bool) (alloc_d alloc_r : bool).
Context (others : nat -> filesystem -> filesystem) (mid : SState -> SState).
Context (now : Z) (rnd : random_source) (garbage : Z).

Abbreviation handle := (handle_message sql_ok env realpath env_home toml_parse json_parse safe alloc_d
  alloc_r others mid now rnd garbage).

Lemma handle_command k id w fd c rest :
  is_u32 id -> w_conns w !! fd = Some c -> feeds (c_in c) (le 4 id ++ rest) -> healthy (c_wr c) ->
  let r := run_command sql_ok env mid k id (w_s w) in
  let w' := handle fd (header_of (command_msg k) 4) w in
  w_s w' = snd r /\
  exists c', w_conns w' !! fd = Some c' /\ c_out c' = c_out c ++ le 1 (result_code (fst r)) /\ feeds (c_in c') rest.
Proof.
  intros Hid Hc Hf Hh. cbv zeta. unfold handle_message. rewrite Hc. unfold dispatch.
  assert (msg_of_code (h_type (header_of (command_msg k) 4)) = Some (command_msg k)) as -> by by destruct k.
  match goal with |- context [match ?b c w with _ => _ end] => set (body := b) end.
  assert (body = on_command (run_command sql_ok env mid k)) as -> by by destruct k.
  unfold on_command, hbind, io.
  destruct (read_u_ok 4 c id rest) as (s1 & -> & Hf1); [unfold is_u in Hid; simpl; lia|done|].
  unfold on_state, upd. destruct (run_command sql_ok env mid k id (w_s w)) as [res s'] eqn:Er.
  unfold send_command_result.
  destruct (reply_ok (le 1 (result_code res)) (mkConn s1 (c_out c) (c_wr c)) (with_state s' w) Hh) as (ev & _ & ->).
  split; [done|]. eexists. split; [apply lookup_insert_eq|]. done.
Qed.

(** C20. A command means the same on both sides.  The request of
    [ipc_send_pause], [_resume] or [_cancel] is a valid message; the server
    executes exactly that command on exactly that id, consumes exactly its
    bytes and answers one byte; the client answers success exactly when the
    command succeeded, and leaves the connection at the next message.  This
    holds however the kernel cuts the four transfers. *)
Theorem command_rpc k id w fd cs cc rest rest' :
  is_u32 id -> w_conns w !! fd = Some cs -> healthy (c_wr cs) -> healthy (c_wr cc) ->
  feeds (c_in cs) (drop 8 (sent (ipc_send k id) cc) ++ rest) ->
  let hdr := decode_header (take 8 (sent (ipc_send k id) cc)) in
  let r := run_command sql_ok env mid k id (w_s w) in
  let w' := handle fd hdr w in
  valid_message_header hdr = true /\ w_s w' = snd r /\
  exists cs', w_conns w' !! fd = Some cs' /\ feeds (c_in cs') rest /\
    (feeds (c_in cc) (drop (length (c_out cs)) (c_out cs') ++ rest') ->
     fst (ipc_send k id cc) = (if decide (fst r = IPC_RESULT_OK) then Some tt else None) /\
     feeds (c_in (snd (ipc_send k id cc))) rest').
Proof.
  intros Hid Hcs Hs Hc Hf. cbv zeta.
  set (res := fst (run_command sql_ok env mid k id (w_s w))).
  assert (0 <= result_code res < 256) as Hcode by (destruct res; simpl; lia).
  destruct (send_command_client k id cc (result_code res) rest' Hc Hcode) as [Esent Hclient].
  rewrite Esent in *. rewrite take_header, drop_header in *.
  rewrite header_of_roundtrip by (unfold is_u; lia). split; [by destruct k|].
  destruct (handle_command k id w fd cs rest Hid Hcs Hf Hs) as (Hst & cs' & Ecs & Eout & Hrest).
  split; [done|]. exists cs'. split; [done|]. split; [done|]. rewrite Eout, drop_app_length. intros Hf'.
  destruct (Hclient Hf') as [-> Hrest']. split; [|done]. by destruct res.
Qed.

(** The strings of the table are C strings. *)
Definition rows_clean (t : Tables) : Prop :=
  Forall (fun r => cstring (row_url r) /\ cstring (row_dest_path r) /\ cstring (row_status r)) (t_downloads t).

Lemma rows_clean_ok t k :
  rows_clean t -> Forall (fun r => row_ok (list_record r)) (take k (rev (t_downloads t))).
Proof.
  intros H. apply Forall_take. apply Forall_rev in H. eapply Forall_impl; [exact H|].
  intros r (H1 & H2 & H3). unfold row_ok, list_record. cbn [lr_url lr_dest_path lr_status].
  pose proof (strlcpy_length 2048 (row_url r)). pose proof (strlcpy_length 1024 (row_dest_path r)).
  pose proof (strlcpy_length 16 (row_status r)). unfold strlcpy in *.
  repeat split; try (by apply cstring_take); lia.
Qed.

Lemma handle_list_all w fd c t :
  w_conns w !! fd = Some c -> s_db (w_s w) = Some t -> rows_clean t -> healthy (c_wr c) ->
  let rows := take 200 (rev (t_downloads t)) in
  let w' := handle fd (header_of MSG_LIST_ALL 0) w in
  w_s w' = w_s w /\
  exists c', w_conns w' !! fd = Some c' /\ c_in c' = c_in c /\
    c_out c' = c_out c ++ le 4 (Z.of_nat (length rows)) ++
      concat (map (fun r => row_frame (s_q (w_s w)) (list_record r)) rows).
Proof.
  intros Hc Ht Hok Hh rows. cbv zeta. unfold handle_message. rewrite Hc. unfold dispatch.
  change (msg_of_code _) with (Some MSG_LIST_ALL). cbv iota. unfold on_list_all. rewrite Ht.
  assert (db_count_downloads IPC_LIST_ALL_MAX (Some t) = Z.of_nat (length rows)) as ->.
  { unfold db_count_downloads, IPC_LIST_ALL_MAX, rows. rewrite length_take, length_rev.
    change (200 <? 0) with false. cbv iota. destruct (Z.ltb_spec 200 (Z.of_nat (length (t_downloads t)))); lia. }
  rewrite (proj2 (Z.ltb_ge _ _)) by lia. unfold attempt.
  destruct (write_exact_out (le 4 (Z.of_nat (length rows))) c Hh) as (e1 & W1 & ->). cbn [snd].
  unfold db_visit_downloads. change (IPC_LIST_ALL_MAX <=? 0) with false. cbv iota.
  change (Z.to_nat IPC_LIST_ALL_MAX) with 200%nat. fold rows.
  edestruct (visit_rows_ok (s_q (w_s w)) rows 0) as (n & e2 & W2 & ->); [by apply rows_clean_ok|exact W1|].
  split; [done|]. eexists. split; [apply lookup_insert_eq|]. split; [done|]. cbn [c_out].
  by rewrite <- app_assoc.
Qed.

(** A client sees the list the daemon has.  [ipc_send_list_all] gets, in
    order, the most recent downloads of the database (at most 200, and at most
    as many as it asked for), each with its id, url, destination, and the live
    status and progress where the download is in the queue; nothing is lost or
    truncated on the way, whatever pieces the transfers come in, and the
    connection is left at the next message. *)
Theorem list_all_rpc max w fd cs cc t rest' :
  0 < max -> w_conns w !! fd = Some cs -> s_db (w_s w) = Some t -> rows_clean t ->
  healthy (c_wr cs) -> healthy (c_wr cc) ->
  let hdr := decode_header (sent (ipc_send_list_all max) cc) in
  let w' := handle fd hdr w in
  valid_message_header hdr = true /\ w_s w' = w_s w /\
  exists cs', w_conns w' !! fd = Some cs' /\ c_in cs' = c_in cs /\
    (feeds (c_in cc) (drop (length (c_out cs)) (c_out cs') ++ rest') ->
     fst (ipc_send_list_all max cc) =
       Some (take (Z.to_nat max) (map (listed (s_q (w_s w))) (db_list_all_downloads IPC_LIST_ALL_MAX (Some t)))) /\
     feeds (c_in (snd (ipc_send_list_all max cc))) rest').
Proof.
  intros Hmax Hcs Ht Hok Hs Hc. cbv zeta.
  assert (exists ev, healthy ev /\ ipc_send_list_all max cc =
    (count <-- read_u32 ;; read_records (Z.to_nat count) (Z.to_nat max))
      (mkConn (c_in cc) (c_out cc ++ encode_header (header_of MSG_LIST_ALL 0)) ev)) as (ev & Hev & Ecl).
  { unfold ipc_send_list_all, write_header, wbind at 1. rewrite (proj2 (Z.leb_gt _ _)) by lia.
    destruct (write_exact_out (encode_header (header_of MSG_LIST_ALL 0)) cc Hc) as (ev & Hev & ->). by exists ev. }
  assert (sent (ipc_send_list_all max) cc = encode_header (header_of MSG_LIST_ALL 0)) as ->.
  { unfold sent. rewrite Ecl. rewrite (reads_only_bind _ _ (reads_only_u 4) (fun n => read_records_only _ _)).
    cbn [c_out]. by rewrite drop_app_length. }
  rewrite header_of_roundtrip by (unfold is_u; lia). split; [done|].
  destruct (handle_list_all w fd cs t Hcs Ht Hok Hs) as (Hst & cs' & Ecs & Ein & Eout). split; [done|].
  exists cs'. split; [done|]. split; [done|]. rewrite Eout, drop_app_length, <- app_assoc. intros Hf.
  rewrite Ecl. unfold wbind. set (rows := take 200 (rev (t_downloads t))) in *.
  edestruct (read_u_ok 4) as (s1 & -> & F1); [|exact Hf|].
  { unfold rows. rewrite length_take. lia. }
  rewrite Nat2Z.id.
  edestruct (read_records_ok (s_q (w_s w)) rows (Z.to_nat max)) as (s2 & -> & F2);
    [by apply rows_clean_ok|exact F1|]. split; [|done]. cbn [fst]. do 2 f_equal.
  unfold db_list_all_downloads. change (IPC_LIST_ALL_MAX <=? 0) with false. cbv iota.
  change (Z.to_nat IPC_LIST_ALL_MAX) with 200%nat. fold rows. by rewrite map_map.
Qed.

End Rpc.

(** A world with one client on descriptor 5 and two downloads on record. *)
Definition rpc_tables : Tables :=
  mkTables [mkRow 1 (str "http://h/f") (str "/d/f") 0 (str "QUEUED") 0 5 [] [] [] [] 0 0;
            mkRow 2 (str "http://h/g") (str "/d/g") 9 (str "DONE") 0 6 [] [] [] [] 0 0] [].

Definition rpc_world (c : Conn) : World :=
  with_conns {[5 := c]} (with_state (mkS sched_queue sched_fs (Some rpc_tables) []) (started sched_start backoff_demo)).

Definition rpc_handle (hdr : MsgHeader) (w : World) : World :=
  handle_message always_ok permissive cfg_realpath (Some (str "/h")) (fun _ => None) offer_parse
    (fun _ _ => true) true true (fun _ fs => fs) id 100 (fun _ => 77) 0 5 hdr w.

Definition rpc_server : Conn := mkConn [RData [1; 0]; REintr; RData [0; 0; 9]] [] [WSent 1].
Definition rpc_client : Conn := mkConn [RBlock; RData [0]] [] [WSent 3; WEintr; WSent 20].

Lemma command_rpc_witness :
  fst (ipc_send_pause 1 rpc_client) = Some tt /\
  queue_manager_get_status 1 (s_q (w_s (rpc_handle (header_of MSG_PAUSE 4) (rpc_world rpc_server))))
    = Some DOWNLOAD_PAUSED.
Proof.
  destruct (command_rpc always_ok permissive cfg_realpath (Some (str "/h")) (fun _ => None) offer_parse
              (fun _ _ => true) true true (fun _ fs => fs) id 100 (fun _ => 77) 0 CmdPause 1
              (rpc_world rpc_server) 5 rpc_server rpc_client [9] [])
    as (_ & _ & cs' & Ecs & _ & Hclient).
  - unfold is_u. lia.
  - reflexivity.
  - repeat constructor; discriminate.
  - repeat constructor; discriminate.
  - split; [repeat constructor; discriminate|vm_compute; reflexivity].
  - assert (c_out cs' = [0]) as Eout.
    { revert Ecs. vm_compute. intros E. injection E as <-. reflexivity. }
    destruct (Hclient) as [E _].
    { rewrite Eout. split; [repeat constructor; discriminate|vm_compute; reflexivity]. }
    split; [exact E|vm_compute; reflexivity].
Defined.

Definition list_reply : bytes :=
  le 4 2 ++ concat (map (fun r => row_frame sched_queue (list_record r)) (rev (t_downloads rpc_tables))).
Definition list_server : Conn := mkConn [RData [9]] [] [WSent 7; WSent 50].
Definition list_client : Conn := mkConn [RData (take 11 list_reply); REintr; RData (drop 11 list_reply)] [] [].

Lemma list_all_rpc_witness :
  fst (ipc_send_list_all 10 list_client) =
    Some [mkRecord 2 (str "http://h/g") (str "/d/g") (str "DONE") (ratio_bits 1 1);
          mkRecord 1 (str "http://h/f") (str "/d/f") (str "QUEUED") 0].
Proof.
  destruct (list_all_rpc always_ok permissive cfg_realpath (Some (str "/h")) (fun _ => None) offer_parse
              (fun _ _ => true) true true (fun _ fs => fs) id 100 (fun _ => 77) 0 10
              (rpc_world list_server) 5 list_server list_client rpc_tables [])
    as (_ & _ & cs' & Ecs & _ & Hclient).
  - lia.
  - reflexivity.
  - reflexivity.
  - repeat constructor.
  - repeat constructor; discriminate.
  - constructor.
  - assert (c_out cs' = list_reply) as Eout.
    { revert Ecs. vm_compute. intros E. injection E as <-. reflexivity. }
    destruct Hclient as [E _].
    { rewrite Eout. split; [repeat constructor; discriminate|vm_compute; reflexivity]. }
    etransitivity; [exact E|]. vm_compute. reflexivity.
Defined.

(** ** What the code does not do *)

(** An url that does not fit is drained, but the handler returns without the
    other two strings and without an answer: the next header is read from the
    middle of the old message. *)
Example oversized_url_desynchronises :
  let rest := string_frame (str "/d/f") ++ string_frame [] in
  let c := mkConn [RData (string_frame (repeat 97 2048) ++ rest)] [] [] in
  let w' := rpc_handle (header_of MSG_ADD_DOWNLOAD 2064) (rpc_world c) in
  exists c', w_conns w' !! 5 = Some c' /\ c_in c' = [RData rest] /\ c_out c' = [] /\
    decode_header (take 8 rest) = mkHeader 4 1714381871.
Proof.
  exists (mkConn [RData (string_frame (str "/d/f") ++ string_frame [])] [] []). vm_compute. done.
Qed.

(** A request for details that ends early is answered for whatever id was on
    the stack. *)
Example details_of_unset_id :
  let handle g := handle_message always_ok permissive cfg_realpath (Some (str "/h")) (fun _ => None) offer_parse
    (fun _ _ => true) true true (fun _ fs => fs) id 100 (fun _ => 77) g 5 (header_of MSG_GET_DETAILS 4)
    (rpc_world (mkConn [RData [1]] [] [])) in
  c_out <$> w_conns (handle 7) !! 5 = Some [0] /\ c_out <$> w_conns (handle 2) !! 5 <> Some [0].
Proof. vm_compute. split; [reflexivity|discriminate]. Qed.

(** The rows survive [ipc_server_stop] while their descriptors are closed; the
    threads that end afterwards still broadcast to them. *)
Example stop_keeps_rows :
  map cl_fd (live (w_table (ipc_server_stop ipc_demo))) = [5; 6] /\
  w_conns (ipc_server_stop ipc_demo) !! 5 = None.
Proof. vm_compute. done. Qed.
