(* ===== verification/OfferRpc.v ===== *)
(** * Browser requests end to end ([src/platform/ipc_socket.c])

    The five requests a browser extension and its popup make, from the call of
    the client function to the answer it returns, against the server of Ipc.v:
    the structures survive the wire, and a call means the same on both sides. *)

From S2P Require Import Prelude Path FileIo QueueManager Db Config Engine Scheduler Wire Commands Offers Ipc IpcClient.

#[local] Open Scope wire_scope.

(** ** Structures on the wire, and back *)

(** A string in a [char[n]]. *)
Definition text (n : Z) (s : bytes) : Prop := cstring s /\ strlen s < n.

#[global] Instance text_dec n s : Decision (text n s).
Proof. unfold text. apply _. Defined.

(** For closed strings. *)
Ltac text_tac := apply (bool_decide_unpack _); vm_compute; exact I.

Record offer_fits (o : IpcBrowserOffer) : Prop := {
  of_ids : is_u32 (o_offer_id o) /\ is_u32 (o_download_id o) /\ is_u64 (o_total_bytes o);
  of_texts : text 128 (o_request_id o) /\ text 2048 (o_url o) /\ text 512 (o_filename o) /\
    text 128 (o_mime o) /\ text 2048 (o_referrer o);
}.

Record progress_fits (p : IpcBrowserProgress) : Prop := {
  pf_numbers : is_u32 (p_download_id p) /\ is_u64 (p_bytes_received p) /\ is_u64 (p_total_bytes p);
  pf_texts : text 24 (p_status p) /\ text 256 (p_error p) /\ text 1024 (p_dest_path p);
}.

Definition has_sizes (sizes : list nat) (fs : list bytes) : Prop := Forall2 (fun n f => length f = n) sizes fs.

Lemma split_fields_concat sizes fs : has_sizes sizes fs -> split_fields sizes (concat fs) = fs.
Proof.
  induction 1 as [|n f sizes fs Hf _ IH]; [done|]. cbn [split_fields concat].
  by rewrite take_app_length', drop_app_length', IH.
Qed.

Lemma length_concat_sizes sizes fs : has_sizes sizes fs -> length (concat fs) = sum_list sizes.
Proof. induction 1 as [|n f sizes fs Hf _ IH]; [done|]. cbn [concat sum_list]. by rewrite length_app, Hf, IH. Qed.

Lemma length_field n s : (length s <= n)%nat -> length (field n s) = n.
Proof. intros H. unfold field. rewrite length_app, length_replicate. lia. Qed.

Lemma cstr_field n s : text (Z.of_nat n) s -> cstr (field n s) = s.
Proof.
  intros [Hc Hl]. unfold field, strlen in *. destruct (n - length s)%nat as [|k] eqn:E; [lia|].
  assert (strchr (s ++ replicate (S k) 0) CH_NUL = Some (length s)) as Hs.
  { clear -Hc. induction Hc as [|c s Hx _ IH]; [done|]. cbn [app strchr length].
    rewrite (proj2 (Z.eqb_neq c 0)) by lia. by rewrite IH. }
  unfold cstr. rewrite Hs. apply take_app_length.
Qed.

Lemma text_length n s : text (Z.of_nat n) s -> (length s <= n)%nat.
Proof. intros [_ H]. unfold strlen in H. lia. Qed.

Lemma length_le4 v : length (le 4 v) = 4%nat.
Proof. exact (length_le 4 v). Qed.

Lemma length_le8 v : length (le 8 v) = 8%nat.
Proof. exact (length_le 8 v). Qed.

Lemma unle_le4 v : is_u32 v -> unle (le 4 v) = v.
Proof. intros H. by apply (unle_le 4). Qed.

Lemma unle_le8 v : is_u64 v -> unle (le 8 v) = v.
Proof. intros H. by apply (unle_le 8). Qed.

Lemma unle_le4_wrap v : unle (le 4 v) = u32 v.
Proof. unfold unle, le, wrap. by rewrite little_endian_to_Z_to_little_endian by lia. Qed.

(** The progress is a [float]: its 32 bits arrive. *)
Definition wire_progress (p : IpcBrowserProgress) : IpcBrowserProgress :=
  mkProgress (p_download_id p) (p_bytes_received p) (p_total_bytes p) (u32 (p_progress p)) (p_status p)
    (p_error p) (p_dest_path p).

Lemma state_of_code_code st : state_of_code (state_code st) = st.
Proof. by destruct st. Qed.

Lemma state_code_u32 st : is_u32 (state_code st).
Proof. by destruct st. Qed.

Ltac sizes_tac :=
  repeat (apply Forall2_cons; split);
    [..|constructor]; rewrite ?length_le4, ?length_le8, ?length_replicate; try done; apply length_field; by apply text_length.

Lemma offer_sizes_ok o : offer_fits o -> has_sizes offer_sizes (offer_fields o).
Proof. intros [_ (H1 & H2 & H3 & H4 & H5)]. sizes_tac. Qed.

Lemma progress_sizes_ok p : progress_fits p -> has_sizes progress_sizes (progress_fields p).
Proof. intros [_ (H1 & H2 & H3)]. sizes_tac. Qed.

Lemma decode_encode_offer o : offer_fits o -> decode_offer (encode_offer o) = o.
Proof.
  intros Ho. unfold decode_offer, encode_offer. rewrite split_fields_concat by (by apply offer_sizes_ok).
  destruct Ho as [(H1 & H2 & H3) (H4 & H5 & H6 & H7 & H8)]. unfold offer_fields.
  rewrite !unle_le4 by (done || apply state_code_u32). rewrite unle_le8, state_of_code_code, !cstr_field by done.
  by destruct o.
Qed.

Lemma decode_encode_progress p : progress_fits p -> decode_progress (encode_progress p) = wire_progress p.
Proof.
  intros Hp. unfold decode_progress, encode_progress. rewrite split_fields_concat by (by apply progress_sizes_ok).
  destruct Hp as [(H1 & H2 & H3) (H5 & H6 & H7)]. unfold progress_fields.
  rewrite unle_le4, !unle_le8, !cstr_field, unle_le4_wrap by done. by destruct p.
Qed.

Lemma length_encode_offer o : offer_fits o -> length (encode_offer o) = 4888%nat.
Proof. intros H. unfold encode_offer. by rewrite (length_concat_sizes _ _ (offer_sizes_ok o H)). Qed.

Lemma length_encode_progress p : progress_fits p -> length (encode_progress p) = 1336%nat.
Proof. intros H. unfold encode_progress. by rewrite (length_concat_sizes _ _ (progress_sizes_ok p H)). Qed.

(** ** The calls and their meaning *)

Inductive browser_call :=
| CallOffer (o : IpcBrowserOffer)
| CallGet (id : Z)
| CallConfirm (id : Z) (dest : bytes)
| CallDismiss (id : Z)
| CallSubscribe (id : Z).

Inductive browser_reply :=
| ReplyOffer (o : IpcBrowserOffer)
| ReplyDownload (id : Z)
| ReplyResult (r : IpcResult)
| ReplyProgress (p : IpcBrowserProgress).

(** What a client function returns; [None] is its -1. *)
Definition call_client (json_print : list (bytes * json_value) -> bytes) (k : browser_call) : wire browser_reply :=
  match k with
  | CallOffer o => r <-- ipc_browser_offer json_print o ;; wret (ReplyOffer r)
  | CallGet id => r <-- ipc_browser_get_offer id ;; wret (ReplyOffer r)
  | CallConfirm id dest => d <-- ipc_browser_confirm id dest ;; wret (ReplyDownload d)
  | CallDismiss id => ipc_browser_dismiss id ;;; wret (ReplyResult IPC_RESULT_OK)
  | CallSubscribe id => p <-- ipc_browser_subscribe_progress id ;; wret (ReplyProgress p)
  end.

(** The replies a client function takes for a success. *)
Definition accepted (r : browser_reply) : option browser_reply :=
  match r with
  | ReplyOffer o => if o_offer_id o =? 0 then None else Some r
  | ReplyDownload d => if d =? 0 then None else Some r
  | ReplyResult IPC_RESULT_OK => Some r
  | ReplyResult _ => None
  | ReplyProgress p => if streq (p_status p) (str "NOT_FOUND") then None else Some (ReplyProgress (wire_progress p))
  end.

Definition reply_bytes (r : browser_reply) : bytes :=
  match r with
  | ReplyOffer o => encode_offer o
  | ReplyDownload d => le 4 d
  | ReplyResult r => le 1 (result_code r)
  | ReplyProgress p => encode_progress p
  end.

Definition reply_fits (r : browser_reply) : Prop :=
  match r with
  | ReplyOffer o => offer_fits o
  | ReplyDownload d => is_u32 d
  | ReplyResult _ => True
  | ReplyProgress p => progress_fits p
  end.

(** A parsed object; a key that occurs twice means its first value. *)
Definition object_of (ms : list (bytes * json_value)) : json_object := fun key =>
  m ← list_find (fun m => fst m = key) ms; Some (snd (snd m)).

Definition fresh_offer (o : IpcBrowserOffer) (filename : bytes) : IpcBrowserOffer :=
  mkOffer 0 0 (o_total_bytes o) IPC_BROWSER_WAITING (o_request_id o) (o_url o) filename (o_mime o) (o_referrer o).

Definition saved_name (o : IpcBrowserOffer) : bytes :=
  if bool_decide (o_filename o = []) then path_filename_from_url (o_url o) 512 else o_filename o.

Definition texts_fit (o : IpcBrowserOffer) : Prop :=
  text 128 (o_request_id o) /\ text 2048 (o_url o) /\ text 512 (o_filename o) /\
  text 128 (o_mime o) /\ text 2048 (o_referrer o).

Lemma member_text root key n required s :
  root key = Some (JString s) -> text n s -> (required = true -> s <> []) ->
  browser_json_string root key n required = Some s.
Proof.
  intros Hk [_ Hl] Hr. unfold browser_json_string. rewrite Hk.
  rewrite (proj2 (Z.leb_gt n (strlen s))) by done. rewrite orb_false_r.
  destruct required; [|done]. rewrite bool_decide_eq_false_2 by auto. done.
Qed.

(** The daemon understands the offer the extension made, or refuses it. *)
Lemma offer_understood o :
  texts_fit o -> o_request_id o <> [] -> o_url o <> [] -> 0 <= o_total_bytes o ->
  offer_of_object (object_of (offer_members o)) =
    (if (o_total_bytes o <=? 9007199254740991) && http_url (o_url o) && negb (bad_filename (saved_name o))
     then Some (fresh_offer o (saved_name o)) else None).
Proof.
  intros (H1 & H2 & H3 & H4 & H5) Hr Hu Ht. unfold offer_of_object.
  rewrite (member_text _ (str "request_id") _ _ (o_request_id o)) by done.
  rewrite (member_text _ (str "url") _ _ (o_url o)) by done.
  rewrite (member_text _ (str "filename") _ _ (o_filename o)) by done.
  rewrite (member_text _ (str "mime") _ _ (o_mime o)) by done.
  rewrite (member_text _ (str "referrer") _ _ (o_referrer o)) by done.
  assert (json_total (object_of (offer_members o)) =
    if o_total_bytes o <=? 9007199254740991 then Some (o_total_bytes o) else None) as ->.
  { unfold json_total. change (object_of (offer_members o) (str "total_bytes"))
      with (Some (JNumber (o_total_bytes o) 1)). cbv iota. rewrite (proj2 (Z.ltb_ge (o_total_bytes o) 0)) by done.
    rewrite Z.mul_1_r, Z.div_1_r. cbn [orb].
    destruct (Z.leb_spec (o_total_bytes o) 9007199254740991) as [Hs|Hs].
    - rewrite (proj2 (Z.ltb_ge _ _)), u64_small by zlia. done.
    - by rewrite (proj2 (Z.ltb_lt _ _)). }
  destruct (o_total_bytes o <=? 9007199254740991); [|done]. cbn [andb].
  destruct (http_url (o_url o)); [|done]. cbn [negb andb]. fold (saved_name o).
  by destruct (bad_filename (saved_name o)).
Qed.

(** ** The two sides *)

Definition id_request (t : MsgType) (id : Z) : MsgType * bytes := (t, le 4 id).

(** The server's tables hold what fits its structures. *)
Definition download_clean (d : Download) : Prop :=
  is_u64 (d_total_size d) /\ is_u64 (d_bytes_downloaded d) /\ text 1024 (d_dest_path d).

Record world_clean (w : World) : Prop := {
  wc_offers : Forall (fun sl => offer_fits (sl_offer sl)) (w_offers w);
  wc_queue : Forall download_clean (g_head (s_q (w_s w)));
  wc_ids : qm_wf (s_q (w_s w)) /\ g_next_id (s_q (w_s w)) + 1000000 < 2 ^ 32;
}.

Section Calls.

Context (sql_ok : sql -> Tables -> bool) (env : IoEnv).
Context (realpath : filesystem -> bytes -> errno + bytes) (env_home : option bytes).
Context (toml_parse : bytes -> option toml_doc).
(** cJSON: [json_print] writes an object of such members, [json_parse] reads
    it back. *)
Context (json_print : list (bytes * json_value) -> bytes) (json_parse : bytes -> option json_object).
Context (safe : filesystem -> bytes -> bool) (alloc_d alloc_r : bool).
Context (others : nat -> filesystem -> filesystem) (mid : SState -> SState).
Context (now : Z) (rnd : random_source) (garbage : Z).

Abbreviation handle := (handle_message sql_ok env realpath env_home toml_parse json_parse safe alloc_d
  alloc_r others mid now rnd garbage).
Abbreviation dispatched := (dispatch sql_ok env realpath env_home toml_parse json_parse safe alloc_d
  alloc_r others mid now rnd garbage).
Abbreviation reserved := (reserve sql_ok env safe alloc_d alloc_r others now).

Definition request (k : browser_call) : MsgType * bytes :=
  match k with
  | CallOffer o => (MSG_BROWSER_OFFER, json_print (offer_members o))
  | CallGet id => id_request MSG_BROWSER_GET_OFFER id
  | CallConfirm id dest => (MSG_BROWSER_CONFIRM, le 4 id ++ le 4 (strlen dest) ++ dest)
  | CallDismiss id => id_request MSG_BROWSER_DISMISS id
  | CallSubscribe id => id_request MSG_BROWSER_SUBSCRIBE_PROGRESS id
  end.

(** A proper call: a nonzero id, strings that fit; an offer that can be
    printed and read back. *)
Definition call_ok (k : browser_call) : Prop :=
  match k with
  | CallOffer o =>
      texts_fit o /\ 0 <= o_total_bytes o /\ o_request_id o <> [] /\ o_url o <> [] /\
      let json := json_print (offer_members o) in
      cstring json /\ strlen json <= IPC_MAX_FRAME_SIZE /\ json_parse json = Some (object_of (offer_members o))
  | CallConfirm id dest => id <> 0 /\ is_u32 id /\ text IPC_MAX_PATH_LEN dest /\ dest <> []
  | CallGet id | CallDismiss id | CallSubscribe id => id <> 0 /\ is_u32 id
  end.

(** The meaning of a call made on the connection [fd]. *)
Definition call_effect (fd : Z) (k : browser_call) (w : World) : browser_reply * World :=
  match k with
  | CallOffer o =>
      let '(r, l) := browser_offer (offer_of_object (object_of (offer_members o))) rnd now (w_offers w) in
      (ReplyOffer r, with_offers l w)
  | CallGet id => let '(r, l) := browser_get_offer id now (w_offers w) in (ReplyOffer r, with_offers l w)
  | CallConfirm id dest =>
      let '(d, l, s) := browser_confirm reserved id dest now (w_offers w) (w_s w) in
      (ReplyDownload d, with_offers l (with_state s w))
  | CallDismiss id => let '(r, l) := browser_dismiss id now (w_offers w) in (ReplyResult r, with_offers l w)
  | CallSubscribe id =>
      let event := browser_progress_snapshot id None (s_q (w_s w)) in
      (ReplyProgress event,
       if streq (p_status event) (str "NOT_FOUND") then w
       else with_table (on_client fd (track_download id) (w_table w)) w)
  end.

Lemma strlen_le4 v : strlen (le 4 v) = 4.
Proof. unfold strlen. by rewrite length_le4. Qed.

Lemma request_size k : call_ok k -> 0 <= strlen (snd (request k)) <= IPC_MAX_FRAME_SIZE.
Proof.
  split; [apply strlen_nonneg|].
  destruct k; cbn [request snd id_request]; rewrite ?strlen_app, ?strlen_le4; try done; [by apply H|].
  destruct H as (_ & _ & [_ Hl] & _). unfold IPC_MAX_PATH_LEN, IPC_MAX_FRAME_SIZE in *. lia.
Qed.

Lemma request_valid k :
  call_ok k -> valid_message_header (header_of (fst (request k)) (strlen (snd (request k)))) = true.
Proof.
  intros Hk. pose proof (request_size k Hk) as Hs. unfold valid_message_header, header_of.
  cbn [h_length h_type]. rewrite (proj2 (Z.ltb_ge _ _)) by lia. rewrite msg_of_code_code.
  destruct k; cbn [request fst snd id_request] in *; rewrite ?strlen_app, ?strlen_le4 in *; try done.
  - apply Z.leb_le. lia.
  - destruct Hk as (_ & _ & [_ Hl] & _). unfold IPC_MAX_PATH_LEN in *. pose proof (strlen_nonneg dest).
    apply andb_true_iff. split; apply Z.leb_le; lia.
Qed.

(** The server's side. *)
Lemma handle_call fd k w c rest :
  call_ok k -> feeds (c_in c) (snd (request k) ++ rest) -> healthy (c_wr c) ->
  exists s' ev, feeds s' rest /\
    dispatched fd (header_of (fst (request k)) (strlen (snd (request k)))) c w =
      (Some tt, mkConn s' (c_out c ++ reply_bytes (fst (call_effect fd k w))) ev, snd (call_effect fd k w)).
Proof.
  intros Hk Hf Hh.
  assert (forall id, is_u32 id -> feeds (c_in c) (le 4 id ++ rest) ->
    exists s', read_u32 c = (Some id, mkConn s' (c_out c) (c_wr c)) /\ feeds s' rest) as Hid.
  { intros id Hid. apply (read_u_ok 4); simpl. exact Hid. }
  unfold dispatch, header_of. cbn [h_type h_length]. rewrite msg_of_code_code.
  destruct k as [o|id|id dest|id|id]; cbn [request fst snd id_request call_effect] in *.
  - destruct Hk as (_ & _ & _ & _ & Hc & Hl & Hp). destruct (read_exact_ok _ _ _ Hf) as (s1 & E1 & F1).
    unfold on_browser_offer, hbind, io, on_offers, upd. rewrite to_nat_strlen, E1, cstr_id by done.
    unfold browser_parse_offer. rewrite Hp. destruct (browser_offer _ _ _ _) as [r l].
    destruct (reply_ok (encode_offer r) (mkConn s1 (c_out c) (c_wr c)) (with_offers l w) Hh) as (ev & _ & ->).
    by exists s1, ev.
  - destruct (Hid id) as (s1 & E1 & F1); [apply Hk|done|].
    unfold on_browser_get_offer, hbind, io, on_offers, upd. rewrite E1.
    destruct (browser_get_offer _ _ _) as [r l].
    destruct (reply_ok (encode_offer r) (mkConn s1 (c_out c) (c_wr c)) (with_offers l w) Hh) as (ev & _ & ->).
    by exists s1, ev.
  - destruct Hk as (Hz & Hu & [Hc Hl] & Hne). destruct (read_exact_ok _ _ _ Hf) as (s1 & E1 & F1).
    unfold on_browser_confirm, hbind, io, upd. rewrite to_nat_strlen, E1.
    rewrite (take_app_length' (le 4 id)), (drop_app_length' (le 4 id)), (take_app_length' (le 4 (strlen dest)))
      by (by rewrite length_le4).
    replace (drop 8 (le 4 id ++ le 4 (strlen dest) ++ dest)) with dest
      by (rewrite app_assoc, drop_app_length'; [done|]; by rewrite length_app, !length_le4).
    assert (0 < strlen dest) as Hpos by (destruct dest; [done|]; unfold strlen; simpl; lia).
    unfold IPC_MAX_PATH_LEN in *. rewrite !unle_le4, !strlen_app, !strlen_le4 by (done || (unfold is_u; lia)).
    rewrite to_nat_strlen, firstn_all. replace (4 + (4 + strlen dest)) with (8 + strlen dest) by lia.
    rewrite (proj2 (Z.ltb_lt 0 _)), (proj2 (Z.ltb_lt (strlen dest) _)), Z.eqb_refl by done. cbn [andb].
    assert (strchr dest CH_NUL = None) as ->.
    { apply strchr_None. intros Hin. unfold cstring in Hc. rewrite Forall_forall in Hc. specialize (Hc _ Hin). lia. }
    rewrite bool_decide_eq_false_2 by (by intros [? ?]). cbn [negb].
    destruct (browser_confirm _ _ _ _ _ _) as [[d l] s].
    destruct (reply_ok (le 4 d) (mkConn s1 (c_out c) (c_wr c)) (with_offers l (with_state s w)) Hh) as (ev & _ & ->).
    by exists s1, ev.
  - destruct (Hid id) as (s1 & E1 & F1); [apply Hk|done|].
    unfold on_browser_dismiss, hbind, io, on_offers, upd. rewrite E1.
    destruct (browser_dismiss _ _ _) as [r l]. unfold send_command_result.
    destruct (reply_ok (le 1 (result_code r)) (mkConn s1 (c_out c) (c_wr c)) (with_offers l w) Hh) as (ev & _ & ->).
    by exists s1, ev.
  - destruct (Hid id) as (s1 & E1 & F1); [apply Hk|done|].
    unfold on_browser_subscribe_progress, hbind, io, upd. rewrite E1. cbv zeta.
    set (event := browser_progress_snapshot _ _ _).
    match goal with |- context [if ?b then w else ?x] => set (w' := if b then w else x) end.
    destruct (reply_ok (encode_progress event) (mkConn s1 (c_out c) (c_wr c)) w' Hh) as (ev & _ & ->).
    by exists s1, ev.
Qed.

(** The client's side: what goes out, and what comes of the answer. *)
Definition read_reply (k : browser_call) : wire browser_reply :=
  match k with
  | CallOffer _ | CallGet _ => o <-- read_offer ;; wret (ReplyOffer o)
  | CallConfirm _ _ => d <-- read_u32 ;; if d =? 0 then wfail else wret (ReplyDownload d)
  | CallDismiss _ => read_result ;;; wret (ReplyResult IPC_RESULT_OK)
  | CallSubscribe _ =>
      bs <-- ipc_read_exact 1336 ;;
      let p := decode_progress bs in
      if streq (p_status p) (str "NOT_FOUND") then wfail else wret (ReplyProgress p)
  end.

Definition answers (k : browser_call) (r : browser_reply) : Prop :=
  match k, r with
  | (CallOffer _ | CallGet _), ReplyOffer _ | CallConfirm _ _, ReplyDownload _
  | CallDismiss _, ReplyResult _ | CallSubscribe _, ReplyProgress _ => True
  | _, _ => False
  end.

Lemma read_reply_only k : reads_only (read_reply k).
Proof.
  destruct k; cbn [read_reply]; apply reads_only_bind; try apply reads_only_ret; auto with cdm.
  1,2: apply reads_only_bind; [auto with cdm|]; intros bs; cbv zeta; case_bool; auto with cdm.
  - intros d. case_bool; auto with cdm.
  - apply read_result_only.
  - intros bs. cbv zeta. case_bool; auto with cdm.
Qed.

Lemma write_request_ok t payload c :
  strlen payload <= IPC_MAX_FRAME_SIZE -> healthy (c_wr c) ->
  exists ev, healthy ev /\ browser_write_request t payload c =
    (Some tt, mkConn (c_in c) (c_out c ++ encode_header (header_of t (strlen payload)) ++ payload) ev).
Proof.
  intros Hl Hc. unfold browser_write_request. rewrite (proj2 (Z.ltb_ge _ _)) by done.
  unfold write_header, wbind. edestruct (write_exact_out (encode_header (header_of t (strlen payload))) c Hc) as (e1 & H1 & ->).
  case_bool_decide as Hp.
  - subst payload. exists e1. split; [done|]. unfold wret. by rewrite app_nil_r.
  - edestruct (write_exact_out payload) as (e2 & H2 & ->); [exact H1|]. exists e2. split; [done|].
    cbn [c_in c_out]. by rewrite app_assoc.
Qed.

(** A client function is its request, then the reading of the answer. *)
Lemma call_client_request k c :
  call_ok k -> call_client json_print k c = (browser_write_request (fst (request k)) (snd (request k)) ;;; read_reply k) c.
Proof.
  intros Hk. unfold wbind.
  destruct k as [o|id|id dest|id|id]; cbn [call_client request fst snd id_request read_reply]; unfold wbind.
  - destruct Hk as (_ & _ & Hr & Hu & _ & Hl & _). unfold ipc_browser_offer.
    rewrite bool_decide_eq_false_2 by tauto. cbv zeta. rewrite (proj2 (Z.ltb_ge _ _)) by done. unfold wbind.
    by destruct (browser_write_request _ _ _) as [[[]|] c1].
  - unfold ipc_browser_get_offer. rewrite (proj2 (Z.eqb_neq id 0)) by apply Hk. unfold wbind.
    by destruct (browser_write_request _ _ _) as [[[]|] c1].
  - destruct Hk as (Hz & _ & [_ Hl] & Hne). unfold ipc_browser_confirm. rewrite (proj2 (Z.eqb_neq id 0)) by done.
    assert (0 < strlen dest) as Hpos by (destruct dest; [done|]; unfold strlen; simpl; lia).
    rewrite (proj2 (Z.eqb_neq (strlen dest) 0)), (proj2 (Z.leb_gt IPC_MAX_PATH_LEN (strlen dest))) by lia.
    cbn [orb]. unfold wbind. destruct (browser_write_request _ _ _) as [[[]|] c1]; [|done].
    destruct (read_u32 c1) as [[d|] c2]; [|done]. by destruct (d =? 0).
  - unfold ipc_browser_dismiss. rewrite (proj2 (Z.eqb_neq id 0)) by apply Hk. unfold wbind.
    by destruct (browser_write_request _ _ _) as [[[]|] c1].
  - unfold ipc_browser_subscribe_progress. rewrite (proj2 (Z.eqb_neq id 0)) by apply Hk. unfold wbind.
    destruct (browser_write_request _ _ _) as [[[]|] c1]; [|done].
    destruct (ipc_read_exact 1336 c1) as [[bs|] c2]; [|done]. cbv zeta. by destruct (streq _ _).
Qed.

Lemma result_code_range r : 0 <= result_code r < 256.
Proof. by destruct r. Qed.

Lemma read_offer_ok o c rest :
  offer_fits o -> feeds (c_in c) (encode_offer o ++ rest) ->
  exists s', feeds s' rest /\
    read_offer c = (if o_offer_id o =? 0 then None else Some o, mkConn s' (c_out c) (c_wr c)).
Proof.
  intros Hfit Hf. destruct (read_exact_ok _ _ _ Hf) as (s1 & E1 & F1). rewrite length_encode_offer in E1 by done.
  exists s1. split; [done|]. unfold read_offer, wbind. rewrite E1. cbv zeta. rewrite decode_encode_offer by done.
  by destruct (o_offer_id o =? 0).
Qed.

Lemma read_reply_ok k r c rest :
  answers k r -> reply_fits r -> feeds (c_in c) (reply_bytes r ++ rest) ->
  exists s', feeds s' rest /\ read_reply k c = (accepted r, mkConn s' (c_out c) (c_wr c)).
Proof.
  intros Ha Hfit Hf. destruct r as [o|d|res|p]; cbn [reply_fits reply_bytes accepted] in *.
  - destruct (read_offer_ok o c rest Hfit Hf) as (s1 & F1 & E1). exists s1. split; [done|].
    destruct k; try done; cbn [read_reply]; unfold wbind; rewrite E1; by destruct (o_offer_id o =? 0).
  - destruct (read_u_ok 4 c d rest Hfit Hf) as (s1 & E1 & F1). exists s1. split; [done|].
    destruct k; try done; cbn [read_reply]; unfold wbind; rewrite E1; by destruct (d =? 0).
  - destruct (read_u_ok 1 c (result_code res) rest (result_code_range res) Hf) as (s1 & E1 & F1).
    exists s1. split; [done|].
    destruct k; try done; cbn [read_reply]; unfold read_result, wbind; rewrite E1; by destruct res.
  - destruct (read_exact_ok _ _ _ Hf) as (s1 & E1 & F1). rewrite length_encode_progress in E1 by done.
    exists s1. split; [done|]. destruct k; try done; cbn [read_reply]; unfold wbind; rewrite E1.
    cbv zeta. rewrite decode_encode_progress by done. cbn [wire_progress p_status]. by destruct (streq _ _).
Qed.

(** ** What a call answers fits its structure *)

Context (rnd_u32 : forall k, is_u32 (rnd k)).

Lemma no_offer_fits : offer_fits no_offer.
Proof. split; cbn [no_offer o_offer_id o_download_id o_total_bytes o_request_id o_url o_filename o_mime o_referrer];
  [by repeat split|]. repeat (split; [text_tac|]). text_tac. Qed.

Lemma slot_at_fits l i sl :
  Forall (fun sl => offer_fits (sl_offer sl)) l -> l !! i = Some sl -> offer_fits (slot_at l i).
Proof. intros H Hl. rewrite (slot_at_lookup _ _ _ Hl). by apply (Forall_lookup_1 _ _ _ _ H Hl). Qed.

Lemma pick_id_u32 l attempt n : is_u32 (pick_id rnd l attempt n).
Proof.
  revert attempt. induction n as [|n IH]; intros attempt; cbn [pick_id]; [unfold is_u; lia|].
  case_bool_decide; [|apply IH]. case_bool; [apply IH|apply rnd_u32].
Qed.

Lemma saved_name_text o : texts_fit o -> text 512 (saved_name o).
Proof.
  intros (_ & Hu & Hf & _ & _). unfold saved_name. case_bool_decide; [|done].
  unfold path_filename_from_url. set (name := match strrchr _ _ with Some _ => _ | None => _ end).
  assert (cstring name) as Hn by (unfold name; destruct (strrchr _ _); [apply cstring_drop|]; apply Hu).
  set (t := match strchr _ _ with Some _ => _ | None => _ end).
  assert (cstring t) as Ht by (unfold t; destruct (strchr _ _); repeat apply cstring_take; done).
  split; [|pose proof (strlcpy_length 512 (if decide (t = []) then strlcpy 512 (str "download.bin") else t)); lia].
  apply cstring_take. case_decide; [|done]. apply cstring_take. vm_compute. repeat constructor.
Qed.

Lemma browser_offer_fits o w :
  world_clean w -> call_ok (CallOffer o) ->
  offer_fits (fst (browser_offer (offer_of_object (object_of (offer_members o))) rnd now (w_offers w))).
Proof.
  intros [Hw _ _] (Ht & H0 & Hr & Hu & _). rewrite offer_understood by done.
  destruct (Z.leb_spec (o_total_bytes o) 9007199254740991) as [Hb|]; [|apply no_offer_fits].
  destruct (_ && _ && _); [|apply no_offer_fits]. unfold browser_offer.
  destruct (browser_find_request _ _) as [i|] eqn:Ef.
  - apply find_request_Some in Ef as (sl & Hl & _). destruct (streq _ _); [|apply no_offer_fits].
    by eapply slot_at_fits.
  - destruct (free_slot _); [|apply no_offer_fits]. cbv zeta.
    pose proof (pick_id_u32 (w_offers w) 0 16) as Hid. destruct (_ =? 0); [apply no_offer_fits|].
    pose proof (saved_name_text o Ht). destruct Ht as (H1 & H2 & _ & H4 & H5).
    split; cbn [fst set_offer_id fresh_offer o_offer_id o_download_id o_total_bytes o_request_id o_url o_filename
                o_mime o_referrer]; [|done].
    split; [done|]. split; [done|zlia].
Qed.

Lemma chunk_bytes_u64 cs : is_u64 (chunk_bytes cs).
Proof.
  unfold chunk_bytes. assert (is_u64 0) as H by done. revert H. generalize 0.
  induction cs as [|c cs IH]; intros n Hn; [done|]. apply IH. apply u64_range.
Qed.

Lemma find_first_clean id l d : Forall download_clean l -> find_first id l = Some d -> download_clean d.
Proof.
  induction 1 as [|x l Hx _ IH]; [done|]. cbn [find_first]. destruct (d_id x =? id); [by intros [= <-]|done].
Qed.

Lemma progress_snapshot_fits id q :
  is_u32 id -> Forall download_clean (g_head q) -> progress_fits (browser_progress_snapshot id None q).
Proof.
  intros Hid Hq. unfold browser_progress_snapshot, queue_manager_get_runtime_snapshot.
  destruct (find_first id (g_head q)) as [d|] eqn:E; cbn [fmap option_fmap option_map].
  - destruct (find_first_clean _ _ _ Hq E) as (Ht & Hb & Hd).
    split; cbn [p_download_id p_bytes_received p_total_bytes p_status p_error p_dest_path rs_status rs_total_size
                rs_bytes_downloaded rs_dest_path rs_chunks].
    + split; [done|]. split; [|done].
      destruct (d_status d); try done; try apply chunk_bytes_u64. by case_bool.
    + split; [by destruct (d_status d); text_tac|]. split; [text_tac|done].
  - split; cbn [p_download_id p_bytes_received p_total_bytes p_status p_error p_dest_path]; [by split|].
    repeat (split; [text_tac|]). text_tac.
Qed.

Lemma call_effect_answers fd k w : answers k (fst (call_effect fd k w)).
Proof.
  destruct k; cbn [call_effect]; try done; [by destruct (browser_offer _ _ _ _)|by destruct (browser_get_offer _ _ _)|
    by destruct (browser_confirm _ _ _ _ _ _) as [[??]?]|by destruct (browser_dismiss _ _ _)].
Qed.

Lemma confirm_fits id dest w :
  world_clean w -> is_u32 (fst (fst (browser_confirm reserved id dest now (w_offers w) (w_s w)))).
Proof.
  intros [Hw _ [Hwf Hb]]. unfold browser_confirm. destruct (browser_find_offer _ _) as [i|] eqn:Ef; [|done].
  apply find_offer_Some in Ef as (_ & sl & Hl & _). pose proof (slot_at_fits _ _ _ Hw Hl) as [(_ & Hd & _) _].
  destruct (o_state _); [|exact Hd|unfold is_u; cbn [fst]; lia]. unfold reserve, reserve_download.
  match goal with |- context [reserve_loop ?a ?b ?c ?d ?e ?f ?g ?n ?u ?de ?o ?s] =>
    pose proof (reserve_loop_spec a b c d e f g n u de o s Hwf ltac:(lia)) as (Hwf' & Hn & _ & Hout);
    destruct (reserve_loop a b c d e f g n u de o s) as [d' s'] end.
  cbn [fst snd] in *. destruct (Z.eqb_spec d' 0) as [->|Hne]; [done|]. cbn [fst].
  destruct Hout as [[Hz _]|(p & Hr & _)]; [done|]. pose proof (wf_next _ Hwf). zpow. lia.
Qed.

Lemma call_effect_fits fd k w : world_clean w -> call_ok k -> reply_fits (fst (call_effect fd k w)).
Proof.
  intros Hw Hk. destruct k as [o|id|id dest|id|id]; cbn [call_effect].
  - pose proof (browser_offer_fits o w Hw Hk). by destruct (browser_offer _ _ _ _).
  - unfold browser_get_offer. destruct (browser_find_offer _ _) as [i|] eqn:Ef; [|apply no_offer_fits].
    apply find_offer_Some in Ef as (_ & sl & Hl & _). by eapply slot_at_fits; [apply Hw|].
  - pose proof (confirm_fits id dest w Hw). by destruct (browser_confirm _ _ _ _ _ _) as [[??]?].
  - by destruct (browser_dismiss _ _ _).
  - apply progress_snapshot_fits; [apply Hk|apply Hw].
Qed.

Lemma call_effect_conns fd k w : w_conns (snd (call_effect fd k w)) = w_conns w.
Proof.
  destruct k; cbn [call_effect]; try (by destruct (browser_offer _ _ _ _)); try (by destruct (browser_get_offer _ _ _));
    try (by destruct (browser_dismiss _ _ _)); [by destruct (browser_confirm _ _ _ _ _ _) as [[??]?]|].
  cbn [snd]. by case_bool.
Qed.

(** C21. A browser request means the same on both sides.  Whatever client
    function is called, its request is a message the server accepts; the server
    does to its offers, downloads and client table exactly what the call means
    ([call_effect]), consumes exactly the bytes of the request and writes one
    answer; and the client returns that answer unharmed when it is a success
    (the offer with all its strings and 64-bit sizes, the id of the download,
    the progress record), a failure otherwise, with the connection at the next
    message.  This holds however the kernel cuts the transfers. *)
Theorem browser_rpc k w fd cs cc rest rest' :
  call_ok k -> world_clean w -> w_conns w !! fd = Some cs -> healthy (c_wr cs) -> healthy (c_wr cc) ->
  feeds (c_in cs) (drop 8 (sent (call_client json_print k) cc) ++ rest) ->
  let hdr := decode_header (take 8 (sent (call_client json_print k) cc)) in
  let '(r, w') := call_effect fd k w in
  valid_message_header hdr = true /\
  exists cs', handle fd hdr w = with_conns (<[fd := cs']> (w_conns w)) w' /\ feeds (c_in cs') rest /\
    (feeds (c_in cc) (drop (length (c_out cs)) (c_out cs') ++ rest') ->
     fst (call_client json_print k cc) = accepted r /\ feeds (c_in (snd (call_client json_print k cc))) rest').
Proof.
  intros Hk Hw Hcs Hs Hc Hf. cbv zeta. pose proof (request_size k Hk) as Hsize.
  destruct (write_request_ok (fst (request k)) (snd (request k)) cc (proj2 Hsize) Hc) as (ev & Hev & Ew).
  assert (sent (call_client json_print k) cc =
    encode_header (header_of (fst (request k)) (strlen (snd (request k)))) ++ snd (request k)) as Esent.
  { unfold sent. rewrite call_client_request by done. unfold wbind. rewrite Ew.
    rewrite (read_reply_only k). cbn [c_out]. by rewrite drop_app_length. }
  rewrite Esent, drop_header in Hf. rewrite Esent, take_header.
  rewrite header_of_roundtrip by (unfold IPC_MAX_FRAME_SIZE in *; zlia).
  destruct (handle_call fd k w cs rest Hk Hf Hs) as (s1 & ev1 & F1 & E1).
  pose proof (call_effect_answers fd k w) as Hans. pose proof (call_effect_fits fd k w Hw Hk) as Hfits.
  pose proof (call_effect_conns fd k w) as Hconns.
  destruct (call_effect fd k w) as [r w'] eqn:Eeff. cbn [fst snd] in *.
  split; [by apply request_valid|]. eexists. split; [|split].
  - unfold handle_message. rewrite Hcs, E1, Hconns. reflexivity.
  - exact F1.
  - cbn [c_out]. rewrite drop_app_length. intros Hf'. rewrite call_client_request by done. unfold wbind. rewrite Ew.
    match goal with |- context [read_reply k ?c] =>
      destruct (read_reply_ok k r c rest' Hans Hfits Hf') as (s2 & F2 & ->) end. done.
Qed.

End Calls.

(** An extension that offers a file, over cut and interrupted transfers. *)
Definition ext_offer : IpcBrowserOffer :=
  mkOffer 0 0 5000000000 IPC_BROWSER_WAITING (str "r1") (str "https://h/a/f.zip?x=1") [] (str "application/zip") [].

(** One object, printed and parsed. *)
Definition ext_print (ms : list (bytes * json_value)) : bytes := str "{offer}".
Definition ext_parse (t : bytes) : option json_object :=
  if streq t (str "{offer}") then Some (object_of (offer_members ext_offer)) else None.

Definition ext_server : Conn := mkConn [RData (str "{of"); RBlock; RData (str "fer}!")] [] [WSent 100; WEintr].
Definition ext_reply : IpcBrowserOffer := set_offer_id 77 (fresh_offer ext_offer (str "f.zip")).
Definition ext_client : Conn :=
  mkConn [RData (take 700 (encode_offer ext_reply)); REintr; RData (drop 700 (encode_offer ext_reply))] [] [WSent 3].

Lemma ext_world_clean : world_clean (rpc_world ext_server).
Proof.
  split.
  - apply Forall_replicate, no_offer_fits.
  - repeat constructor; (discriminate || text_tac || (vm_compute; discriminate)).
  - split; [|vm_compute; reflexivity]. split; vm_compute; repeat constructor; try done; by intros ?%elem_of_nil.
Qed.

Lemma browser_rpc_witness :
  fst (call_client ext_print (CallOffer ext_offer) ext_client) = Some (ReplyOffer ext_reply).
Proof.
  assert (call_ok ext_print ext_parse (CallOffer ext_offer)) as Hk.
  { split; [repeat (split; [text_tac|]); text_tac|]. split; [vm_compute; discriminate|].
    split; [discriminate|]. split; [discriminate|]. cbv zeta.
    split; [apply (bool_decide_unpack _); vm_compute; exact I|]. split; [vm_compute; discriminate|reflexivity]. }
  assert (fst (call_effect always_ok permissive (fun _ _ => true) true true (fun _ fs => fs) 100 (fun _ => 77) 5
    (CallOffer ext_offer) (rpc_world ext_server)) = ReplyOffer ext_reply) as Heff by (vm_compute; reflexivity).
  assert (c_out <$> w_conns (handle_message always_ok permissive cfg_realpath (Some (str "/h")) (fun _ => None) ext_parse
    (fun _ _ => true) true true (fun _ fs => fs) id 100 (fun _ => 77) 0 5
    (decode_header (take 8 (sent (call_client ext_print (CallOffer ext_offer)) ext_client))) (rpc_world ext_server)) !! 5
    = Some (encode_offer ext_reply)) as Hout by (vm_compute; reflexivity).
  assert (feeds (c_in ext_client) (encode_offer ext_reply ++ [])) as Hin
    by (split; [repeat constructor; discriminate|vm_compute; reflexivity]).
  assert (w_conns (rpc_world ext_server) !! 5 = Some ext_server) as Hconn by (vm_compute; reflexivity).
  assert (forall k : nat, is_u32 ((fun _ => 77) k)) as Hrnd by (intros _; unfold is_u; lia).
  pose proof (browser_rpc always_ok permissive cfg_realpath (Some (str "/h")) (fun _ => None) ext_print ext_parse
    (fun _ _ => true) true true (fun _ fs => fs) id 100 (fun _ => 77) 0 Hrnd (CallOffer ext_offer)
    (rpc_world ext_server) 5 ext_server ext_client (str "!") [] Hk ext_world_clean Hconn) as H.
  destruct (call_effect always_ok permissive (fun _ _ => true) true true (fun _ fs => fs) 100 (fun _ => 77) 5
    (CallOffer ext_offer) (rpc_world ext_server)) as [r w'] eqn:E.
  cbn [fst] in Heff. subst r.
  destruct H as (_ & cs' & Hw & _ & Hclient).
  - repeat constructor; discriminate.
  - repeat constructor; discriminate.
  - split; [repeat constructor; discriminate|vm_compute; reflexivity].
  - rewrite Hw in Hout. unfold with_conns in Hout. cbn [w_conns] in Hout. rewrite lookup_insert_eq in Hout.
    injection Hout as Hout. rewrite Hout in Hclient. destruct (Hclient Hin) as [-> _]. vm_compute. reflexivity.
Defined.
