(* ===== verification/Daemon.v ===== *)
(** * The daemon between two crashes ([src/daemon/daemon.c] and its parts)

    The queue in memory and the rows of the database are updated separately, by
    the scheduler, the download threads, the engine and the clients' commands.
    [daemon_step] puts them together, with the crash that loses the memory and
    the restart that reads the database again.  The relation [mirrored] ties the
    two sides: what a restart brings back is what the queue held.

    A command and the end of a thread are one step each; what happens when they
    overlap is the subject of the examples at the end. *)

From S2P Require Import Prelude Path FileIo QueueManager Db Config Pool PoolMirror Engine Scheduler Commands.

(** ** What the engine does to its entry and to the tables *)

(** The part of an entry that never changes. *)
Definition record_of (d : Download) : Z * bytes * bytes * bool * option RequestOptions :=
  (d_id d, d_url d, d_dest_path d, d_reserved_file d, d_request d).

Definition kept (d d' : Download) : Prop := record_of d' = record_of d /\ d_status d' = d_status d.

(** The tables of downloads agree up to the sizes. *)
Definition rows_follow (t t' : db) : Prop :=
  map (set_row_size 0) <$> (t_downloads <$> t') = map (set_row_size 0) <$> (t_downloads <$> t).

Definition engine_effect (d : Download) (t : db) (d' : Download) (t' : db) : Prop :=
  kept d d' /\ rows_follow t t'.

Lemma engine_effect_refl d t : engine_effect d t d t.
Proof. done. Qed.

Lemma engine_effect_trans d1 t1 d2 t2 d3 t3 :
  engine_effect d1 t1 d2 t2 -> engine_effect d2 t2 d3 t3 -> engine_effect d1 t1 d3 t3.
Proof. unfold engine_effect, kept, rows_follow. intuition congruence. Qed.

(** The statements the engine executes. *)
Definition engine_statement (s : sql) : bool :=
  match s with InsertDownload _ _ _ _ _ _ _ _ _ _ | UpdateStatus _ _ => false | _ => true end.

Lemma follow_exec sql_ok s t : engine_statement s = true -> rows_follow t (snd (db_exec sql_ok s t)).
Proof.
  intros Hs. unfold rows_follow, db_exec. destruct t as [t|]; [|done]. destruct (sql_ok s t); [|done].
  destruct (sql_apply s t) as [t'|] eqn:E; [|done]. simpl. f_equal.
  destruct s; try done; simpl in E; repeat case_match; simplify_eq; simpl; try done.
  unfold update_rows. rewrite map_map. apply map_ext. intros r. by case_match.
Qed.

Section Effects.

Context (sql_ok : sql -> Tables -> bool) (env : IoEnv).

Definition st_effect (st st' : EState) : Prop :=
  engine_effect (fst (fst st)) (snd st) (fst (fst st')) (snd st').

Lemma st_effect_trans a b c : st_effect a b -> st_effect b c -> st_effect a c.
Proof. apply engine_effect_trans. Qed.

Lemma follow_trans t1 t2 t3 : rows_follow t1 t2 -> rows_follow t2 t3 -> rows_follow t1 t3.
Proof. unfold rows_follow. congruence. Qed.

Lemma effect_clear b st : st_effect st (clear_resume_state sql_ok env b st).
Proof.
  destruct st as [[d fs] t]. split; [done|]. simpl.
  eapply follow_trans; [|by apply follow_exec]. by apply follow_exec.
Qed.

Lemma follow_plan id rs t : rows_follow t (persist_plan sql_ok id rs t).
Proof.
  revert t. induction rs as [|r rs IH]; intros t; [done|]. simpl.
  eapply follow_trans; [|apply IH]. by apply follow_exec.
Qed.

Lemma follow_flush id cs live t : rows_follow t (snd (flush_loop sql_ok id cs live t)).
Proof.
  revert live t. induction cs as [|c cs IH]; intros [|b live] t; try done. cbn [flush_loop].
  set (t1 := snd (db_update_chunk_progress sql_ok id (range_start c) b t)).
  assert (rows_follow t t1) as H1 by by apply follow_exec. specialize (IH live t1).
  destruct (flush_loop sql_ok id cs live t1) as [cs' t2]. eapply follow_trans; [exact H1|exact IH].
Qed.

Lemma effect_flush st : st_effect st (engine_flush sql_ok st).
Proof.
  destruct st as [[d fs] t]. unfold engine_flush.
  pose proof (follow_flush (d_id d) (d_chunks d) (d_chunk_live_bytes d) t) as H.
  destruct (flush_loop _ _ _ _ _) as [cs t']. split; done.
Qed.

Context (read_error : bytes -> option Z) (stack : bytes) (sv : HttpServer) (max_block : Z).

Lemma effect_verify info st : st_effect st (snd (verify sql_ok env read_error stack info st)).
Proof. unfold verify. case_bool; [apply engine_effect_refl|apply effect_clear]. Qed.

Lemma effect_finish ok info st rc st' :
  engine_finish sql_ok env read_error stack ok info st = (rc, st') -> st_effect st st'.
Proof.
  unfold engine_finish. destruct (negb ok); [intros [= <- <-]; apply engine_effect_refl|].
  intros E. pose proof (effect_verify info st) as H. by rewrite E in H.
Qed.

Lemma effect_prepare_resume info st :
  st_effect st (prepared_st (prepare_resume sql_ok env read_error stack info st)).
Proof.
  destruct st as [[d fs] t]. unfold prepare_resume.
  destruct (resume_loop _ _ _ _) as [[rs dl] live].
  case_decide; [|done]. pose proof (effect_verify info (set_bytes dl (set_live live d), fs, t)) as Hv.
  destruct (verify _ _ _ _ _ _) as [rc st]. exact Hv.
Qed.

Lemma effect_prepare_fresh info st : st_effect st (prepared_st (prepare_fresh sql_ok env info st)).
Proof.
  destruct st as [[d fs] t]. unfold prepare_fresh. destruct (if _ && _ then _ else _) as [rc fs'].
  case_bool; [done|]. case_bool; [done|]. split; [done|]. simpl.
  eapply follow_trans; [|apply follow_plan]. by apply follow_exec.
Qed.

Lemma effect_prepare head st :
  st_effect st (prepared_st (engine_prepare sql_ok env read_error stack head st)).
Proof.
  destruct st as [[d fs] t]. unfold engine_prepare.
  case_bool; [apply effect_clear|]. case_bool; [done|]. destruct head as [info|]; [|done].
  set (restart := _ && (_ || _)).
  destruct (if restart then _ else _) as [[d1 fs1] t1] eqn:E.
  assert (st_effect (d, fs, t) (d1, fs1, t1)) as Hf.
  { rewrite <- E. case_bool; [apply effect_clear|done]. }
  eapply st_effect_trans; [exact Hf|].
  set (st2 := (set_total _ d1, fs1, _)).
  assert (st_effect (d1, fs1, t1) st2) as H2 by (split; [done|by apply follow_exec]).
  eapply st_effect_trans; [exact H2|].
  case_bool; [apply effect_prepare_resume|apply effect_prepare_fresh].
Qed.

#[local] Existing Instance engine_listener.

Lemma effect_pool use_pool ranges slots st ok st' ub :
  worker_pool_run sql_ok env sv max_block use_pool ranges slots st ok st' ub -> st_effect st st'.
Proof.
  intros Hrun. destruct Hrun as [d fs t|d fs t f st e ptrs Hopen Hf He Hp Hr Hj]; [done|].
  subst e. unfold st_effect. cbn [fst snd].
  assert (engine_effect d t (e_d (sh_listener (fst st))) (e_db (sh_listener (fst st)))) as [? ?]; [|done].
  apply (listener_reachable (H := engine_listener sql_ok)
           (fun e => engine_effect d t (e_d e) (e_db e))) in Hr; [exact Hr| | | | |done].
  - intros e a b c He. eapply engine_effect_trans; [exact He|]. simpl. unfold on_rebalance_split, append_tail, shrink_victim.
    destruct (shrink_chunk _ _ _) as [found cs].
    set (t1 := if found then _ else _).
    assert (rows_follow (e_db e) t1) as H1 by (subst t1; case_bool; [by apply follow_exec|done]).
    case_bool; split; try done. eapply follow_trans; [exact H1|]. by apply follow_exec.
  - intros e p n He. by destruct p.
  - done.
  - intros e e' He Hc. destruct Hc; [|done]. eapply engine_effect_trans; [exact He|].
    split; [done|by apply follow_exec].
Qed.

(** A run of the engine changes nothing else of the entry and of the rows. *)
Lemma engine_run_effect head st rc st' ub :
  engine_run_download sql_ok env read_error stack sv max_block head st rc st' ub -> st_effect st st'.
Proof.
  pose proof (effect_prepare head) as Hprep. intros Hrun.
  destruct Hrun as [st rc st' Hp|po st ranges sm st1 ok st2 ub info rc st3 Hi Hp Hw _ Hf
    |po st ranges sm st1 st2 ub ok st3 ub' info rc st4 Hi Hp Hw _ _ Hw2 Hf];
    specialize (Hprep st); rewrite Hp in Hprep; cbn [prepared_st] in Hprep; [exact Hprep| |].
  - eapply st_effect_trans; [exact Hprep|]. eapply st_effect_trans; [by eapply effect_pool|].
    eapply st_effect_trans; [apply effect_flush|]. by eapply effect_finish.
  - eapply st_effect_trans; [exact Hprep|]. eapply st_effect_trans; [by eapply effect_pool|].
    eapply st_effect_trans; [apply effect_flush|].
    eapply st_effect_trans; [|by eapply effect_finish]. apply effect_pool in Hw2.
    destruct (engine_flush sql_ok st2) as [[d2 fs2] t2]. exact Hw2.
Qed.

End Effects.

(** ** The daemon as a transition system *)

Definition idle_workers : list SchedulerWorker := replicate SCHEDULER_MAX_WORKERS idle_worker.

Definition alone : SState -> SState := fun s => s.

Section Daemon.

Context (env : IoEnv) (cfg : Config) (safe : filesystem -> bytes -> bool).

(** The commands of the clients: what [handle_message] does to the downloads. *)
Inductive command :=
| CmdAdd (alloc_d alloc_r : bool) (now : Z) (others : nat -> filesystem -> filesystem)
    (url dest : bytes) (opts : RequestOptions)
| CmdPause (id : Z)
| CmdResume (id : Z)
| CmdCancel (id : Z).

Definition run_one (c : command) (s : SState) : SState :=
  match c with
  | CmdAdd alloc_d alloc_r now others url dest opts =>
      snd (reserve_download always_ok env safe alloc_d alloc_r now others url dest opts s)
  | CmdPause id => snd (cmd_pause always_ok alone id s)
  | CmdResume id => snd (cmd_resume always_ok alone id s)
  | CmdCancel id => snd (cmd_cancel always_ok env alone id s)
  end.

(** Options as [parse_options] makes them, and room for the ids of one call. *)
Definition command_ok (c : command) (s : SState) : Prop :=
  match c with
  | CmdAdd _ _ _ _ _ _ opts => options_fit opts /\ g_next_id (s_q s) + 1000000 < 2 ^ 31
  | _ => True
  end.

(** [dn_engine] is any progress of an engine, [dn_crash] a crash (or an exit)
    and the next start; the files may change at any time. *)
Inductive daemon_step : list SchedulerWorker * SState -> list SchedulerWorker * SState -> Prop :=
| dn_tick now create_ok ws s :
    daemon_step (ws, s) (scheduler_tick cfg now create_ok ws s)
| dn_report ws s : daemon_step (ws, s) (ws, scheduler_report_progress always_ok s)
| dn_engine ws q fs t ev id d d' t' :
    find_first id (g_head q) = Some d -> engine_effect d t d' t' ->
    daemon_step (ws, mkS q fs t ev) (ws, mkS (qm_modify id (fun _ => d') q) fs t' ev)
| dn_end ws s i w id d rc now :
    ws !! i = Some w -> sw_phase w = PhEngine -> sw_download w = Some id ->
    find_first id (g_head (s_q s)) = Some d ->
    daemon_step (ws, s)
      (<[i := mkSW (sw_download w) (sw_download_id w) true (sw_in_use w) PhReturned]> ws,
       download_thread_end always_ok env cfg rc now d s)
| dn_command ws s c : command_ok c s -> daemon_step (ws, s) (ws, run_one c s)
| dn_files ws s fs : daemon_step (ws, s) (ws, with_files fs s)
| dn_crash ws s :
    daemon_step (ws, s)
      (idle_workers, mkS (daemon_restore (s_db s) qm_init) (s_fs s) (s_db s) []).

(** ** What a restart brings back *)

Definition restart_status (s : DownloadStatus) : DownloadStatus :=
  match s with DOWNLOAD_ACTIVE => DOWNLOAD_QUEUED | s => s end.

(** The row says of the download what the entry says. *)
Definition mirrors (d : Download) (r : DbRow) : Prop :=
  record_of (restore_row r None) = record_of d /\
  (row_status r = str "DONE" <-> d_status d = DOWNLOAD_DONE) /\
  (d_status d <> DOWNLOAD_DONE -> status_of_text (row_status r) = restart_status (d_status d)).

(** Ids that fit the signed column, each once. *)
Definition rows_wf (rows : list DbRow) : Prop :=
  NoDup (row_ids rows) /\ Forall (fun i => 0 < i < 2 ^ 31) (row_ids rows).

Record mirrored (q : QM) (rows : list DbRow) : Prop := {
  mi_rows : rows_wf rows;
  mi_entry : forall d, d ∈ g_head q -> exists r, r ∈ rows /\ row_id r = d_id d /\ mirrors d r;
  mi_row : forall r, r ∈ rows -> row_status r <> str "DONE" -> row_id r ∈ ids (g_head q);
  mi_next : Forall (fun i => i < g_next_id q) (row_ids rows);
}.

Definition daemon_inv (s : SState) : Prop :=
  qm_wf (s_q s) /\ exists t, s_db s = Some t /\ mirrored (s_q s) (t_downloads t).

(** *** Updates of one entry and its row *)

Definition row_same (g : DbRow -> DbRow) : Prop :=
  forall r, row_id (g r) = row_id r /\ record_of (restore_row (g r) None) = record_of (restore_row r None).

Lemma row_ids_update id g rows : row_same g -> row_ids (update_rows id g rows) = row_ids rows.
Proof.
  intros Hg. unfold row_ids, update_rows. rewrite map_map. apply map_ext. intros r.
  case_match; [apply Hg|done].
Qed.

Lemma elem_modify d id f q :
  keeps_id f -> qm_wf q -> d ∈ g_head (qm_modify id f q) ->
  exists d0, d0 ∈ g_head q /\ d_id d = d_id d0 /\ d = (if decide (d_id d0 = id) then f d0 else d0).
Proof.
  intros Hf Hwf Hd. pose proof (qm_wf_modify id f q Hf Hwf) as [Hn _ _].
  pose proof (find_first_elem _ _ Hn Hd) as E. cbn [qm_modify g_head] in E.
  rewrite find_first_modify in E by done. case_decide as Hi.
  - apply fmap_Some in E as (d0 & [Hd0 E0]%find_first_Some & ->). exists d0. rewrite Hf.
    rewrite decide_True by done. done.
  - apply find_first_Some in E as [Hin _]. exists d. by rewrite decide_False.
Qed.

Lemma mirrored_update q rows id f g :
  qm_wf q -> mirrored q rows -> id ∈ ids (g_head q) -> keeps_id f -> row_same g ->
  (forall d r, d ∈ g_head q -> d_id d = id -> mirrors d r -> mirrors (f d) (g r)) ->
  mirrored (qm_modify id f q) (update_rows id g rows).
Proof.
  intros Hwf [[Hn Hr] He Hrow Hx] Hid Hf Hg Hm. split.
  - split; by rewrite row_ids_update.
  - intros d (d0 & Hd0 & E & ->)%elem_modify; try done.
    destruct (He d0 Hd0) as (r & Hin & Er & Hmir).
    exists (if row_id r =? id then g r else r). split; [|split].
    + by apply (list_elem_of_fmap_2 (fun r => if row_id r =? id then g r else r)).
    + rewrite E. destruct (row_id r =? id); by rewrite ?(proj1 (Hg r)).
    + rewrite Er. destruct (Z.eqb_spec (d_id d0) id); case_decide; try done. by apply Hm.
  - intros r (r0 & -> & Hin)%list_elem_of_fmap Hs. cbn [qm_modify g_head]. rewrite modify_first_ids by done.
    destruct (Z.eqb_spec (row_id r0) id) as [E|]; [|by apply Hrow].
    rewrite (proj1 (Hg r0)). by rewrite E.
  - by rewrite row_ids_update.
Qed.

(** Only the entry changes. *)
Lemma mirrored_entry q rows id f :
  qm_wf q -> mirrored q rows -> keeps_id f ->
  (forall d r, d ∈ g_head q -> d_id d = id -> mirrors d r -> mirrors (f d) r) ->
  mirrored (qm_modify id f q) rows.
Proof.
  intros Hwf [Hr He Hrow Hx] Hf Hm. split; [done| | |done].
  - intros d (d0 & Hd0 & E & ->)%elem_modify; try done.
    destruct (He d0 Hd0) as (r & Hin & Er & Hmir). exists r. split; [done|]. split; [congruence|].
    case_decide; [by apply Hm|done].
  - intros r Hin Hs. cbn [qm_modify g_head]. rewrite modify_first_ids by done. by apply Hrow.
Qed.

(** Only sizes change. *)
Lemma mirrored_follow q t t' :
  rows_follow (Some t) (Some t') -> mirrored q (t_downloads t) -> mirrored q (t_downloads t').
Proof.
  unfold rows_follow. simpl. intros [= E] [[Hn Hr] He Hrow Hx].
  assert (row_ids (t_downloads t') = row_ids (t_downloads t)) as Eids.
  { unfold row_ids. transitivity (map row_id (map (set_row_size 0) (t_downloads t'))).
    - by rewrite map_map.
    - by rewrite E, map_map. }
  assert (forall a b, map (set_row_size 0) a = map (set_row_size 0) b ->
            forall r, r ∈ a -> exists r', r' ∈ b /\ set_row_size 0 r' = set_row_size 0 r) as Hin.
  { intros a b Eab r Hra. apply (list_elem_of_fmap_2 (set_row_size 0)) in Hra.
    change (set_row_size 0 <$> a) with (map (set_row_size 0) a) in Hra. rewrite Eab in Hra.
    apply list_elem_of_fmap in Hra as (r' & ? & ?). by exists r'. }
  split.
  - split; by rewrite Eids.
  - intros d Hd. destruct (He d Hd) as (r & Hr1 & Er & Hm).
    destruct (Hin _ _ (eq_sym E) r Hr1) as (r' & Hr' & Es). exists r'. split; [done|].
    unfold set_row_size in Es. injection Es as E1 E2 E3 E4 E5 E6 E7 E8 E9 E10 E11 E12.
    split; [congruence|]. revert Hm. unfold mirrors, restore_row, record_of, details_of_row. simpl.
    by rewrite E1, E2, E3, E4, E7, E8, E9, E10, E11, E12.
  - intros r Hr1 Hs. destruct (Hin _ _ E r Hr1) as (r' & Hr' & Es).
    unfold set_row_size in Es. injection Es as E1 E2 E3 E4 E5 E6 E7 E8 E9 E10 E11 E12.
    rewrite <- E1. apply Hrow; [done|congruence].
  - by rewrite Eids.
Qed.

(** *** The invariant under the pieces of a step *)

Lemma entry_unique q d d0 : qm_wf q -> find_first (d_id d) (g_head q) = Some d0 -> d ∈ g_head q -> d = d0.
Proof. intros [Hn _ _] Hd0 Hd. rewrite (find_first_elem _ _ Hn Hd) in Hd0. congruence. Qed.

Lemma elem_ids id q d : find_first id (g_head q) = Some d -> id ∈ ids (g_head q).
Proof. intros [Hin <-]%find_first_Some. by apply list_elem_of_fmap_2. Qed.

(** A change that a restart does not see. *)
Definition unseen (d d' : Download) : Prop :=
  record_of d' = record_of d /\ restart_status (d_status d') = restart_status (d_status d).

Lemma mirrors_unseen d d' r : unseen d d' -> mirrors d r -> mirrors d' r.
Proof.
  intros [E1 E2] (H1 & H2 & H3). split; [congruence|].
  assert (d_status d' = DOWNLOAD_DONE <-> d_status d = DOWNLOAD_DONE) as E3.
  { by destruct (d_status d), (d_status d'). }
  split; [by rewrite H2, E3|]. rewrite E2. intros Hd. apply H3. by rewrite <- E3.
Qed.

Lemma inv_entry s id d f :
  daemon_inv s -> find_first id (g_head (s_q s)) = Some d -> keeps_id f -> unseen d (f d) ->
  daemon_inv (on_queue (qm_modify id f) s).
Proof.
  intros (Hwf & t & Ht & Hm) Hd Hf Hu. split; [by apply qm_wf_modify|]. exists t. split; [done|].
  apply mirrored_entry; [done|done|done|]. intros x r Hx <-.
  rewrite (entry_unique _ _ _ Hwf Hd Hx). by apply mirrors_unseen.
Qed.

Definition text_of (st : DownloadStatus) (text : bytes) : Prop :=
  (text = str "DONE" <-> st = DOWNLOAD_DONE) /\
  (st <> DOWNLOAD_DONE -> status_of_text text = restart_status st).

Lemma text_of_status st : st <> DOWNLOAD_ACTIVE -> text_of st (status_to_string st).
Proof. by destruct st. Qed.

(** The entry and its row get a new status. *)
Lemma inv_status s id d f text :
  daemon_inv s -> find_first id (g_head (s_q s)) = Some d -> keeps_id f ->
  record_of (f d) = record_of d -> text_of (d_status (f d)) text ->
  daemon_inv (on_db (db_update_status always_ok id text) (on_queue (qm_modify id f) s)).
Proof.
  intros (Hwf & t & Ht & Hm) Hd Hf Hrec [Hx1 Hx2]. split; [by apply qm_wf_modify|].
  unfold on_db, on_queue. cbn [s_q s_db]. rewrite Ht. eexists. split; [reflexivity|].
  pose proof (elem_ids _ _ _ Hd) as Hid. pose proof Hm as [[_ Hr] He _ _].
  replace (i32 id) with id.
  2:{ apply list_elem_of_fmap in Hid as (x & -> & Hx). destruct (He x Hx) as (r & Hin & <- & _).
      rewrite Forall_forall in Hr. specialize (Hr (row_id r)).
      rewrite i32_small; [done|]. specialize (Hr ltac:(by apply list_elem_of_fmap_2)). lia. }
  apply mirrored_update; try done. intros x r Hx <- (H1 & H2 & H3).
  rewrite (entry_unique _ _ _ Hwf Hd Hx) in *. split; [|split; [exact Hx1|exact Hx2]].
  rewrite Hrec, <- H1. done.
Qed.

Lemma inv_exec s stmt :
  daemon_inv s -> engine_statement stmt = true -> daemon_inv (on_db (db_exec always_ok stmt) s).
Proof.
  intros (Hwf & t & Ht & Hm) Hs. split; [done|]. unfold on_db. cbn [s_q s_db].
  pose proof (follow_exec always_ok stmt (Some t) Hs) as Hf. rewrite Ht.
  destruct (snd (db_exec _ _ _)) as [t'|]; [|done]. exists t'. split; [done|].
  by eapply mirrored_follow.
Qed.

Lemma inv_broadcast s id text n m : daemon_inv s -> daemon_inv (ipc_broadcast_status id text n m s).
Proof. done. Qed.

Lemma inv_same s s' : daemon_inv s -> s_q s' = s_q s -> s_db s' = s_db s -> daemon_inv s'.
Proof. intros Hi E1 E2. unfold daemon_inv. by rewrite E1, E2. Qed.

(** *** The steps *)

Lemma inv_publish s id d status text event num :
  daemon_inv s -> find_first id (g_head (s_q s)) = Some d -> text_of status text ->
  daemon_inv (publish always_ok id status text event num s).
Proof.
  intros Hi Hd Ht. apply inv_broadcast. by apply (inv_status s id d (set_status status)).
Qed.

Lemma find_after id f s d :
  keeps_id f -> find_first id (g_head (s_q s)) = Some d ->
  find_first id (g_head (s_q (on_queue (qm_modify id f) s))) = Some (f d).
Proof. intros Hf Hd. simpl. by rewrite find_first_modify, decide_True, Hd. Qed.

(** A queue update that a restart does not see, then the new status. *)
Lemma inv_publish_after s id d f status text event num :
  daemon_inv s -> find_first id (g_head (s_q s)) = Some d -> keeps_id f -> unseen d (f d) ->
  text_of status text ->
  daemon_inv (publish always_ok id status text event num (on_queue (qm_modify id f) s)).
Proof.
  intros Hi Hd Hf Hu Ht. eapply inv_publish; [by eapply inv_entry|by apply find_after|done].
Qed.

Lemma inv_end rc now d s :
  daemon_inv s -> find_first (d_id d) (g_head (s_q s)) = Some d ->
  daemon_inv (download_thread_end always_ok env cfg rc now d s).
Proof.
  intros Hi Hd. unfold download_thread_end, reset_retry.
  destruct (rc =? 0).
  { set (f := fun d => set_retry 0 0 (set_chunks [] d)).
    eapply inv_publish; [|by apply (find_after _ f)|by apply (text_of_status DOWNLOAD_DONE)].
    apply (inv_exec _ (DeleteChunks _)); [|done]. by eapply inv_entry. }
  destruct (d_cancel_requested d).
  { apply inv_broadcast. unfold queue_manager_clear_resume_state.
    set (s1 := on_db (db_update_total_size _ _ _) _).
    assert (daemon_inv s1) as H1.
    { apply (inv_exec _ (UpdateTotalSize _ _)); [|done]. apply (inv_exec _ (DeleteChunks _)); [|done].
      by eapply inv_entry. }
    assert (find_first (d_id d) (g_head (s_q s1)) = Some (clear_entry d)) as Hd1 by by apply (find_after _ clear_entry).
    pose proof (inv_status s1 (d_id d) _ (set_status DOWNLOAD_CANCELED) (str "CANCELED") H1 Hd1
                  ltac:(done) ltac:(done) (text_of_status DOWNLOAD_CANCELED ltac:(done))) as H2.
    apply (inv_same _ _ H2); by case_bool_decide. }
  destruct (d_pause_requested d); [by eapply inv_publish; [..|apply (text_of_status DOWNLOAD_PAUSED)]|].
  repeat case_bool;
    (eapply inv_publish_after; [done|done|done|done|by apply (text_of_status DOWNLOAD_ERROR) ||
       by apply (text_of_status DOWNLOAD_QUEUED)]).
Qed.

Lemma inv_tick now ok ws s : daemon_inv s -> daemon_inv (snd (scheduler_tick cfg now ok ws s)).
Proof.
  intros Hi. unfold scheduler_tick. case_bool; [done|].
  destruct (queue_manager_find_next_queued now (s_q s)) as [d|] eqn:En; [|done].
  destruct (next_queued_found _ _ _ (proj1 Hi) En) as [Hd Hq].
  assert (unseen d (start_entry d)) as H1 by (split; [done|]; by rewrite Hq).
  assert (daemon_inv (on_queue (qm_modify (d_id d) start_entry) s)) as Hs by by eapply inv_entry.
  assert (daemon_inv (on_queue (qm_modify (d_id d) (set_status DOWNLOAD_QUEUED))
            (on_queue (qm_modify (d_id d) start_entry) s))) as Hback.
  { eapply inv_entry; [done|by apply (find_after _ start_entry)|done|done]. }
  destruct (free_worker _); [|done]. by case_bool.
Qed.

Lemma inv_report s : daemon_inv s -> daemon_inv (scheduler_report_progress always_ok s).
Proof.
  intros Hi. unfold scheduler_report_progress.
  set (snaps := queue_manager_snapshot_active_progress _ _).
  set (cs := queue_manager_snapshot_chunk_progress _ _). clearbody snaps cs.
  set (s1 := foldl _ s snaps). assert (daemon_inv s1) as H1.
  { subst s1. revert s Hi. induction snaps as [|p snaps IH]; intros s Hi; [done|]. simpl. apply IH.
    by case_bool. }
  clearbody s1. revert s1 H1. induction cs as [|c cs IH]; intros s1 H1; [done|]. simpl. apply IH.
  by apply (inv_exec _ (UpdateChunkProgress _ _ _)).
Qed.

Lemma inv_engine q fs t ev id d d' t' :
  daemon_inv (mkS q fs t ev) -> find_first id (g_head q) = Some d -> engine_effect d t d' t' ->
  daemon_inv (mkS (qm_modify id (fun _ => d') q) fs t' ev).
Proof.
  intros (Hwf & t0 & Ht & Hm) Hd [[Hrec Hst] Hf]. cbn [s_q s_db] in *. subst t.
  assert (exists t1, t' = Some t1) as [t1 ->] by (destruct t' as [t1|]; [by exists t1|done]).
  assert (daemon_inv (mkS q fs (Some t1) ev)) as Hi.
  { split; [done|]. exists t1. split; [done|]. by eapply mirrored_follow. }
  assert (d_id d' = id) as Hid'.
  { apply find_first_Some in Hd as [_ <-]. by injection Hrec. }
  replace (qm_modify id (fun _ => d') q) with (qm_modify id (fun x => if d_id x =? id then d' else x) q).
  - apply (inv_entry (mkS q fs (Some t1) ev) id d); [done|done| |].
    + intros x. by destruct (Z.eqb_spec (d_id x) id) as [->|].
    + pose proof (find_first_Some _ _ _ Hd) as [_ ->]. rewrite Z.eqb_refl. split; [done|]. by rewrite Hst.
  - unfold qm_modify. f_equal. apply modify_first_ext. intros x ->. by rewrite Z.eqb_refl.
Qed.

Lemma get_status_found id s st :
  queue_manager_get_status id (s_q s) = Some st ->
  exists d, find_first id (g_head (s_q s)) = Some d /\ d_status d = st.
Proof. unfold queue_manager_get_status. destruct (find_first _ _) as [d|]; [|done]. intros [= <-]. by exists d. Qed.

Lemma inv_pause id s : daemon_inv s -> daemon_inv (snd (cmd_pause always_ok alone id s)).
Proof.
  intros Hi. unfold cmd_pause, alone. destruct (queue_manager_get_status _ _) as [st|] eqn:E; [|done].
  apply get_status_found in E as (d & Hd & <-). case_bool_decide as Hst; [done|].
  unfold queue_manager_pause, is_active. rewrite Hd.
  change (with_queue _ s) with (on_queue (qm_modify id pause_entry) s). case_bool_decide as Ha; cbn [snd].
  - eapply inv_entry; [done|done|apply keeps_pause|]. unfold pause_entry. rewrite Ha. by split; simpl; rewrite ?Ha.
  - assert (d_status d = DOWNLOAD_QUEUED) as Hq by (destruct (d_status d); try done; by destruct Hst).
    eapply inv_status; [done|done|apply keeps_pause| |]; unfold pause_entry; rewrite Hq; [done|].
    by apply (text_of_status DOWNLOAD_PAUSED).
Qed.

Lemma inv_resume id s : daemon_inv s -> daemon_inv (snd (cmd_resume always_ok alone id s)).
Proof.
  intros Hi. unfold cmd_resume, alone. destruct (queue_manager_get_status _ _) as [st|] eqn:E; [|done].
  apply get_status_found in E as (d & Hd & <-). unfold queue_manager_resume. rewrite Hd.
  change (with_queue _ s) with (on_queue (qm_modify id resume_entry) s).
  assert (resumable d = true -> resume_entry d = set_status DOWNLOAD_QUEUED (set_retry 0 0 (set_flags false false d)))
    as Hres by (unfold resume_entry; by intros ->).
  destruct (resumable d) eqn:Er; cbn [snd].
  - eapply inv_status; [done|done|apply keeps_resume| |]; rewrite (Hres eq_refl); [done|].
    by apply (text_of_status DOWNLOAD_QUEUED).
  - eapply inv_entry; [done|done|apply keeps_resume|]. unfold resume_entry. by rewrite Er.
Qed.

Lemma inv_cancel id s : daemon_inv s -> daemon_inv (snd (cmd_cancel always_ok env alone id s)).
Proof.
  intros Hi. unfold cmd_cancel, alone. destruct (queue_manager_get_status _ _) as [st|] eqn:E; [|done].
  apply get_status_found in E as (d & Hd & <-). case_decide; [done|].
  unfold queue_manager_cancel, is_active. rewrite Hd.
  change (with_queue _ s) with (on_queue (qm_modify id cancel_entry) s).
  case_bool_decide as Ha; cbn [snd].
  - eapply inv_entry; [done|done|apply keeps_cancel|]. unfold cancel_entry. by rewrite decide_True.
  - set (path := match queue_manager_find_by_id _ _ with Some _ => _ | None => _ end). clearbody path.
    set (s1 := on_db (db_update_total_size always_ok id 0) (on_db (db_delete_chunks always_ok id) s)).
    assert (daemon_inv s1) as H1.
    { apply (inv_exec _ (UpdateTotalSize _ _)); [|done]. by apply (inv_exec _ (DeleteChunks _)). }
    assert (keeps_id (fun d => clear_entry (cancel_entry d))) as Hk by (intros x; apply keeps_cancel).
    assert (cancel_entry d = set_status DOWNLOAD_CANCELED d) as Ec by (unfold cancel_entry; by rewrite decide_False).
    assert (daemon_inv (on_db (db_update_status always_ok id (str "CANCELED"))
              (on_queue (qm_modify id (fun d => clear_entry (cancel_entry d))) s1))) as H2.
    { apply (inv_status s1 id d); [done|done|done|by rewrite Ec|].
      rewrite Ec. by apply (text_of_status DOWNLOAD_CANCELED). }
    apply (inv_same _ _ H2); case_bool_decide; try done;
      unfold on_db, on_queue, on_files, queue_manager_clear_resume_state; cbn [s_q];
      by rewrite qm_modify_compose by apply keeps_cancel.
Qed.

(** *** A new download *)

Lemma insert_row_Permutation r rows : insert_row r rows ≡ₚ r :: rows.
Proof.
  induction rows as [|x rows IH]; [done|]. cbn [insert_row]. case_match; [done|]. rewrite IH. constructor.
Qed.

Lemma mirrored_new q rows d r next :
  mirrored q rows -> row_id r = d_id d -> mirrors d r -> g_next_id q <= d_id d < next -> 0 < d_id d < 2 ^ 31 ->
  mirrored (mkQM (d :: g_head q) next) (insert_row r rows).
Proof.
  intros [[Hn Hr] He Hrow Hx] Hid Hm Hb Hpos. pose proof (insert_row_Permutation r rows) as Hp.
  assert (row_ids (insert_row r rows) ≡ₚ row_id r :: row_ids rows) as Hpi by (unfold row_ids; by rewrite Hp).
  split.
  - split; rewrite Hpi.
    + constructor; [|done]. intros Hin. rewrite Forall_forall in Hx. specialize (Hx _ Hin). simpl in Hx. lia.
    + constructor; [by rewrite Hid|done].
  - cbn [g_head]. intros x [->|Hin]%elem_of_cons.
    + exists r. split; [rewrite Hp; by left|done].
    + destruct (He x Hin) as (r' & ? & ?). exists r'. split; [rewrite Hp; by right|done].
  - cbn [g_head ids]. intros x Hin Hs. rewrite Hp in Hin. apply elem_of_cons in Hin as [->|Hin].
    + rewrite Hid. by left.
    + right. by apply Hrow.
  - rewrite Hpi. cbn [g_next_id]. constructor; [lia|]. eapply Forall_impl; [exact Hx|]. intros i ?. cbn beta in *. lia.
Qed.

Lemma inv_add alloc_d alloc_r now others url dest opts s :
  options_fit opts -> g_next_id (s_q s) + 1000000 < 2 ^ 31 -> daemon_inv s ->
  daemon_inv (snd (reserve_download always_ok env safe alloc_d alloc_r now others url dest opts s)).
Proof.
  intros Hfit Hb (Hwf & t & Ht & Hm). unfold reserve_download.
  destruct (reserve_loop_spec always_ok env safe alloc_d alloc_r now others (Z.to_nat 1000000) url dest
              (Some opts) s Hwf ltac:(zlia)) as (Hwf' & Hnext & _ & Ho).
  set (res := reserve_loop _ _ _ _ _ _ _ _ _ _ _ _) in *. clearbody res. destruct res as [id s'].
  cbn [fst snd] in *. split; [done|]. rewrite Z2Nat.id in Hnext by lia.
  destruct Ho as [(_ & Eh & Ed)|(p & Hid & Eh & Hlen & _ & Edb)].
  - exists t. split; [congruence|]. destruct Hm as [Hr He Hrow Hx]. split; rewrite ?Eh; try done.
    eapply Forall_impl; [exact Hx|]. intros i ?. cbn beta in *. lia.
  - assert (0 < id) as Hpos by (pose proof (wf_next _ Hwf); lia). rewrite Ht in Edb.
    unfold db_insert_reserved_download, insert_download in Edb. cbn [db_exec always_ok sql_apply] in Edb.
    assert (i32 id = id) as Ei by (apply i32_small; lia). rewrite Ei in Edb. injection Edb as Edb.
    eexists. split; [by rewrite <- Edb|]. cbn [t_downloads].
    rewrite filter_all.
    2:{ apply Forall_forall. intros r Hr. pose proof (mi_next _ _ Hm) as Hx. rewrite Forall_forall in Hx.
        specialize (Hx (row_id r) ltac:(by apply list_elem_of_fmap_2)). cbn beta in *. lia. }
    destruct (s_q s') as [h n] eqn:Eq. cbn [g_head g_next_id] in *. subst h.
    apply mirrored_new; [done|done| |cbn; lia|cbn; lia].
    split; [|split; [done|done]]. set (row := mkRow _ _ _ _ _ _ _ _ _ _ _ _ _).
    change (record_of (restore_row row None)) with
      (u32 id, strlcpy 2048 url, strlcpy 1024 p, true,
       if request_options_present (Some (details_of_row row)) then Some (details_of_row row) else None).
    by rewrite (details_roundtrip opts row Hfit), u32_small by (done || zlia).
Qed.

(** *** The restart *)

Lemma add_existing_rows d rows q :
  Forall (fun i => 0 < i < 2 ^ 31) (row_ids rows) ->
  let q' := fold_left (fun q r => queue_manager_add_existing (restore_row r d) q) rows q in
  g_head q' = rev (map (fun r => restore_row r d) rows) ++ g_head q /\
  g_next_id q <= g_next_id q' /\ Forall (fun i => i < g_next_id q') (row_ids rows).
Proof.
  revert q. induction rows as [|r rows IH]; intros q Hr; [simpl; split; [done|]; split; [lia|constructor]|].
  apply Forall_cons in Hr as [Hid Hr]. cbv zeta in *. cbn [fold_left map rev].
  set (q1 := queue_manager_add_existing (restore_row r d) q). destruct (IH q1 Hr) as (E & Hle & Hx).
  assert (g_next_id q <= g_next_id q1 /\ row_id r < g_next_id q1) as [H1 H2].
  { subst q1. unfold queue_manager_add_existing. cbn [g_next_id restore_row d_id].
    rewrite !u32_small by zlia. case_match; lia. }
  split; [|split; [lia|constructor; [lia|done]]]. rewrite E. subst q1. cbn [queue_manager_add_existing g_head].
  by rewrite <- app_assoc.
Qed.

Lemma restored_id r d : 0 < row_id r < 2 ^ 31 -> d_id (restore_row r d) = row_id r.
Proof. intros H. apply u32_small. zlia. Qed.

Lemma filter_row_ids (P : DbRow -> Prop) `{!forall x, Decision (P x)} rows :
  rows_wf rows -> rows_wf (filter P rows).
Proof.
  intros [Hn Hr]. split.
  - eapply sublist_NoDup; [exact Hn|]. apply (fmap_sublist row_id), sublist_filter.
  - rewrite Forall_forall in Hr |- *. intros i (r & -> & [_ Hin]%list_elem_of_filter)%list_elem_of_fmap.
    apply Hr. by apply list_elem_of_fmap_2.
Qed.

Lemma mirrors_restored r d : mirrors (restore_row r d) r \/ row_status r = str "DONE".
Proof.
  destruct (decide (row_status r = str "DONE")) as [E|E]; [by right|left].
  assert (status_of_text (row_status r) <> DOWNLOAD_DONE /\ status_of_text (row_status r) <> DOWNLOAD_ACTIVE)
    as [H1 H2] by (unfold status_of_text; by repeat case_match).
  split; [done|]. change (d_status (restore_row r d)) with (status_of_text (row_status r)). split; [done|].
  intros _. by destruct (status_of_text _).
Qed.

Lemma restart_mirrored t :
  rows_wf (t_downloads t) ->
  let q := daemon_restore (Some t) qm_init in
  qm_wf q /\ mirrored q (t_downloads t) /\
  g_head q = rev (map (fun r => restore_row r (Some t))
                    (filter (fun r => row_status r <> str "DONE") (t_downloads t))).
Proof.
  intros Hwf. cbv zeta. pose proof Hwf as [Hn Hr]. unfold daemon_restore, db_restore_queue. cbn [snd].
  set (rows := filter _ (t_downloads t)).
  assert (rows_wf rows) as [Hn' Hr'] by by apply filter_row_ids.
  pose proof (add_existing_rows (Some t) rows qm_init Hr') as (E & Hle & Hx). cbv zeta in *.
  set (q1 := fold_left _ rows qm_init) in *. cbn [qm_init g_head g_next_id] in *. rewrite app_nil_r in E.
  unfold queue_manager_seed_next_id. set (n := if _ <? _ then _ else _).
  assert (g_next_id q1 <= n) as Hn1 by (subst n; case_match; lia).
  assert (Forall (fun i => i < n) (row_ids (t_downloads t))) as Hall.
  { apply Forall_forall. intros i (r & -> & Hin)%list_elem_of_fmap. subst n.
    pose proof (max_id_ge _ _ Hin) as Hmax.
    assert (0 <= max_id (t_downloads t) < 2 ^ 31) as Hsmall.
    { apply max_id_small. apply Forall_map in Hr. eapply Forall_impl; [exact Hr|]. intros x ?. cbn beta in *. lia. }
    unfold db_get_max_id. rewrite (u32_small (max_id _)) by zlia. rewrite u32_small by zlia.
    destruct (Z.ltb_spec (g_next_id q1) (max_id (t_downloads t) + 1)); lia. }
  assert (ids (g_head q1) = rev (row_ids rows)) as Eids.
  { rewrite E. unfold ids, row_ids. rewrite map_rev, map_map. f_equal. apply map_ext_in. intros r Hin.
    apply list_elem_of_In in Hin. apply restored_id. rewrite Forall_forall in Hr'. apply Hr'.
    by apply list_elem_of_fmap_2. }
  assert (forall i, i ∈ ids (g_head q1) <-> i ∈ row_ids rows) as Hin.
  { intros i. rewrite Eids. by rewrite <- Permutation_rev. }
  split; [|split; [|exact E]].
  - split; cbn [g_head g_next_id].
    + rewrite Eids. by rewrite <- Permutation_rev.
    + apply Forall_forall. intros i Hi. apply Hin in Hi. rewrite Forall_forall in Hr', Hx.
      specialize (Hr' i Hi). specialize (Hx i Hi). cbn beta in *. lia.
    + lia.
  - split; cbn [g_head g_next_id]; [done| | |exact Hall].
    + intros d Hd. rewrite E, <- Permutation_rev in Hd.
      apply list_elem_of_fmap in Hd as (r & -> & Hrin). exists r.
      apply list_elem_of_filter in Hrin as [Hs Hrin]. split; [done|]. split.
      * symmetry. apply restored_id. rewrite Forall_forall in Hr. apply Hr. by apply list_elem_of_fmap_2.
      * by destruct (mirrors_restored r (Some t)).
    + intros r Hrin Hs. apply Hin. apply list_elem_of_fmap_2. by apply list_elem_of_filter.
Qed.

Lemma row_unique rows r r' :
  NoDup (row_ids rows) -> r ∈ rows -> r' ∈ rows -> row_id r = row_id r' -> r = r'.
Proof.
  induction rows as [|x rows IH]; [by intros _ ?%not_elem_of_nil|]. intros [Hx Hn]%NoDup_cons.
  intros [->|Hr]%elem_of_cons [->|Hr']%elem_of_cons E; [done| | |by apply IH]; destruct Hx.
  - rewrite E. by apply list_elem_of_fmap_2.
  - rewrite <- E. by apply list_elem_of_fmap_2.
Qed.

(** The entries of the restored queue. *)
Lemma restored_elem t d :
  rows_wf (t_downloads t) ->
  d ∈ g_head (daemon_restore (Some t) qm_init) <->
  exists r, d = restore_row r (Some t) /\ d_id d = row_id r /\ r ∈ t_downloads t /\ row_status r <> str "DONE".
Proof.
  intros Hwf. destruct (restart_mirrored t Hwf) as (_ & _ & ->). rewrite <- Permutation_rev.
  assert (forall r, r ∈ t_downloads t -> d_id (restore_row r (Some t)) = row_id r) as Hid.
  { intros r Hin. apply restored_id. destruct Hwf as [_ Hb]. rewrite Forall_forall in Hb. apply Hb.
    by apply list_elem_of_fmap_2. }
  split.
  - intros (r & -> & [? ?]%list_elem_of_filter)%list_elem_of_fmap. exists r. auto.
  - intros (r & -> & _ & ? & ?). apply (list_elem_of_fmap_2 (fun r => restore_row r (Some t))).
    by apply list_elem_of_filter.
Qed.

(** *** Every step *)

Lemma daemon_inv_step st st' : daemon_inv (snd st) -> daemon_step st st' -> daemon_inv (snd st').
Proof.
  intros Hi Hs. destruct Hs as [now ok ws s|ws s|ws q fs t ev id d d' t' Hd He
    |ws s i w id d rc now Hw Hp Hdl Hd|ws s c Hc|ws s fs|ws s]; cbn [snd] in *.
  - by apply inv_tick.
  - by apply inv_report.
  - by eapply inv_engine.
  - pose proof (find_first_Some _ _ _ Hd) as [_ <-]. by apply inv_end.
  - destruct c as [a r now others url dest opts|id|id|id]; cbn [run_one command_ok] in *.
    + destruct Hc. by apply inv_add.
    + by apply inv_pause.
    + by apply inv_resume.
    + by apply inv_cancel.
  - exact Hi.
  - destruct Hi as (Hwf & t & Ht & Hm). rewrite Ht.
    destruct (restart_mirrored t (mi_rows _ _ Hm)) as (H1 & H2 & _). split; [exact H1|]. by exists t.
Qed.

Definition daemon_start (fs : filesystem) (t : Tables) : list SchedulerWorker * SState :=
  (idle_workers, mkS (daemon_restore (Some t) qm_init) fs (Some t) []).

(** C9. A crash loses no download and invents none, as long as nothing overlaps the end of a
    download and the database accepts every statement. The steps of a run are ticks, progress of
    the engines, ends of downloads, client commands, changes of the files by others, and earlier
    crashes; the end of a download (from the engine's return to the last broadcast) and a
    command are one step each, so that a crash or another command falls between them and not
    inside. After any sequence of such steps, from any database the daemon may start with, the
    queue a restart would build from the database has an entry for exactly the downloads of the
    present queue that are not done, with the same id, URL, destination, options and claim on
    the file, and with the same status, except that a running download is queued again. A
    command that runs while the thread of its download ends is excluded, and must be:
    [pause_overlaps_end] and [cancel_overlaps_end] show queue and row differ after it. *)
Theorem restart_keeps_downloads fs t0 ws s :
  rows_wf (t_downloads t0) -> rtc daemon_step (daemon_start fs t0) (ws, s) ->
  let q' := daemon_restore (s_db s) qm_init in
  qm_wf q' /\
  forall id,
    match find_first id (g_head (s_q s)) with
    | Some d =>
        if decide (d_status d = DOWNLOAD_DONE) then find_first id (g_head q') = None
        else exists d', find_first id (g_head q') = Some d' /\ record_of d' = record_of d /\
               d_status d' = restart_status (d_status d)
    | None => find_first id (g_head q') = None
    end.
Proof.
  intros H0 Hr.
  assert (daemon_inv s) as (Hwf & t & Ht & [Hrows He Hrow _]).
  { change (daemon_inv (snd (ws, s))). revert Hr.
    apply (rtc_invariant _ (fun st => daemon_inv (snd st))); [intros a b; apply daemon_inv_step|].
    destruct (restart_mirrored t0 H0) as (H1 & H2 & _). split; [exact H1|]. by exists t0. }
  cbv zeta. rewrite Ht. destruct (restart_mirrored t Hrows) as (Hwf' & _ & _). split; [done|].
  set (q' := daemon_restore _ _) in *. intros id.
  destruct (find_first id (g_head (s_q s))) as [d|] eqn:Ed.
  - pose proof (find_first_Some _ _ _ Ed) as [Hd <-]. destruct (He d Hd) as (r & Hin & Er & H1 & H2 & H3).
    case_decide as Hdone.
    + destruct (find_first (d_id d) (g_head q')) as [d'|] eqn:Ed'; [|done].
      apply find_first_Some in Ed' as [(r' & _ & Eid & Hin' & Hs)%restored_elem E]; [|done].
      rewrite (row_unique _ r' r (proj1 Hrows) Hin' Hin) in Hs by congruence. by destruct Hs; apply H2.
    + exists (restore_row r (Some t)). split; [|split; [exact H1|by apply H3]].
      assert (d_id (restore_row r (Some t)) = d_id d) as E by by injection H1.
      rewrite <- E. apply find_first_elem; [by destruct Hwf'|]. apply restored_elem; [done|]. exists r.
      split; [done|]. split; [by rewrite E|]. split; [done|]. by rewrite H2.
  - destruct (find_first id (g_head q')) as [d'|] eqn:Ed'; [|done].
    apply find_first_Some in Ed' as [(r & _ & Eid & Hin & Hs)%restored_elem E]; [|done].
    apply find_first_None in Ed. destruct Ed. rewrite <- E, Eid. by apply Hrow.
Qed.

End Daemon.

(** ** The daemon runs *)

Definition two_rows : Tables :=
  let row i st := mkRow i (str "http://h/a") (str "/d/a") 0 st 0 5 [] [] [] [] 0 1 in
  mkTables [row 4 (str "PAUSED"); row 9 (str "DONE")] [].

Definition any_path : filesystem -> bytes -> bool := fun _ _ => true.

Definition resumed_state : SState :=
  run_one permissive any_path (CmdResume 4) (snd (daemon_start sched_fs two_rows)).
Definition running_state : list SchedulerWorker * SState :=
  scheduler_tick backoff_demo 100 true idle_workers resumed_state.

Lemma restart_keeps_downloads_witness :
  (d_status <$> find_first 4 (g_head (s_q (snd running_state)))) = Some DOWNLOAD_ACTIVE /\
  exists d', find_first 4 (g_head (daemon_restore (s_db (snd running_state)) qm_init)) = Some d' /\
    d_status d' = DOWNLOAD_QUEUED /\ d_url d' = str "http://h/a".
Proof.
  assert (rows_wf (t_downloads two_rows)) as Hwf.
  { split; [by repeat (constructor; [by repeat (apply not_elem_of_cons; split; [done|]); apply not_elem_of_nil|]); constructor|].
    repeat constructor; simpl; lia. }
  assert (rtc (daemon_step permissive backoff_demo any_path) (daemon_start sched_fs two_rows)
            (fst running_state, snd running_state)) as Hr.
  { eapply rtc_l; [by apply (dn_command _ _ _ _ _ (CmdResume 4))|].
    eapply rtc_l; [apply (dn_tick _ _ _ 100 true)|]. rewrite <- surjective_pairing. apply rtc_refl. }
  pose proof (restart_keeps_downloads permissive backoff_demo any_path sched_fs two_rows
                (fst running_state) (snd running_state) Hwf Hr) as [_ H].
  specialize (H 4). cbv zeta in H.
  assert ((d_status <$> find_first 4 (g_head (s_q (snd running_state)))) = Some DOWNLOAD_ACTIVE /\
          (d_url <$> find_first 4 (g_head (s_q (snd running_state)))) = Some (str "http://h/a")) as [E1 E2]
    by (vm_compute; done).
  destruct (find_first 4 (g_head (s_q (snd running_state)))) as [d|]; [|done]. injection E1 as E1.
  injection E2 as E2. split; [by simpl; rewrite E1|]. rewrite E1 in H. rewrite decide_False in H by done.
  destruct H as (d' & Hd' & Hrec & Hst). exists d'. split; [exact Hd'|]. split; [exact Hst|].
  injection Hrec as _ Hu _ _ _. congruence.
Defined.

(** A pause that overlaps the successful end of the download: the queue says
    DONE, the row says PAUSED, and the next start brings the finished download
    back as a paused one. *)
Definition overlapping_pause : SState :=
  snd (cmd_pause always_ok
         (fun s => match find_first 4 (g_head (s_q s)) with
                   | Some d => download_thread_end always_ok permissive backoff_demo 0 200 d s
                   | None => s
                   end) 4 (snd running_state)).

Example pause_overlaps_end :
  (d_status <$> find_first 4 (g_head (s_q overlapping_pause))) = Some DOWNLOAD_DONE /\
  (d_status <$> find_first 4 (g_head (daemon_restore (s_db overlapping_pause) qm_init))) =
    Some DOWNLOAD_PAUSED.
Proof. vm_compute. done. Qed.

(** A cancel that overlaps it removes the complete file. *)
Definition overlapping_cancel : SState :=
  snd (cmd_cancel always_ok permissive
         (fun s => match find_first 4 (g_head (s_q s)) with
                   | Some d => download_thread_end always_ok permissive backoff_demo 0 200 d s
                   | None => s
                   end) 4
         (with_files (<[str "/d/a" := NReg (reg_pwrite empty_reg 0 [7])]> sched_fs) (snd running_state))).

Example cancel_overlaps_end :
  (d_status <$> find_first 4 (g_head (s_q overlapping_cancel))) = Some DOWNLOAD_CANCELED /\
  s_fs overlapping_cancel !! str "/d/a" = None.
Proof. vm_compute. done. Qed.
