(* ===== verification/Outcome.v ===== *)
(** * What the end of a download means (engine and scheduler together)

    The body of a worker thread, [download_thread_fn]: a run of the engine and
    then the branch of its result.  The theorem ties what the queue, the database
    and the clients are told to what is on the disk. *)

From S2P Require Import Prelude Path FileIo QueueManager Sha256 Finalize Pool PoolInv Db Config Engine Scheduler Daemon.

(** ** Rows that follow each other *)

Lemma list_find_row id (l l' : list DbRow) :
  map (set_row_size 0) l' = map (set_row_size 0) l ->
  is_Some (list_find (fun r => row_id r = id) l) -> is_Some (list_find (fun r => row_id r = id) l').
Proof.
  revert l'. induction l as [|r l IH]; intros [|r' l'] E; try done. cbn in E |- *.
  assert (row_id r' = row_id r /\ map (set_row_size 0) l' = map (set_row_size 0) l) as [Eid El] by (injection E; auto).
  rewrite Eid.
  case_decide; [by eexists|]. intros [x Hx]. destruct (list_find _ l) as [y|] eqn:Ey; [|done].
  destruct (IH l' El) as [z ->]; [by eexists|]. by eexists.
Qed.

Lemma follow_find_row id t t' row :
  rows_follow (Some t) t' -> find_row id t = Some row ->
  exists t1 row1, t' = Some t1 /\ find_row id t1 = Some row1.
Proof.
  unfold rows_follow, find_row. intros E Hrow. destruct t' as [t1|]; [|done]. cbn in E. injection E as E.
  destruct (list_find (fun r => row_id r = id) (t_downloads t)) as [[i r]|] eqn:Ei; [|done].
  destruct (list_find_row id _ _ E) as [[j r1] Hj]; [by rewrite Ei|]. exists t1, r1. by rewrite Hj.
Qed.

Lemma status_text_inj a b : status_to_string a = status_to_string b -> a = b.
Proof. destruct a, b; try done; intros E; vm_compute in E; discriminate E. Qed.

Lemma verdict_done cfg rc d : verdict cfg rc d = DOWNLOAD_DONE -> rc = 0.
Proof. unfold verdict. destruct (Z.eqb_spec rc 0); [done|]. by repeat case_match. Qed.

Lemma unlink_gone env fs p x : env_deny env p = false -> unlink env fs p !! p = Some x -> x = NDir.
Proof.
  intros Hd. unfold unlink. destruct (fs !! p) as [n|] eqn:E; [|congruence].
  destruct n; rewrite ?Hd, ?lookup_delete_eq; congruence.
Qed.

Lemma unlink_dest_other env d fs p : p <> d_dest_path d -> unlink_dest env d fs !! p = fs !! p.
Proof.
  intros Hp. unfold unlink_dest. case_decide; [done|]. unfold unlink.
  destruct (fs !! d_dest_path d) as [n|]; [|done]. destruct n; try done; case_bool; rewrite ?lookup_delete_ne by done; done.
Qed.

Section Outcome.

Context (env : IoEnv) (cfg : Config).
Context (read_error : bytes -> option Z) (stack : bytes) (sv : HttpServer) (max_block : Z).

(** [download_thread_fn]: the engine works on the entry [d] of the queue and on
    the files and the database it shares with the rest of the daemon.  A client
    may raise a flag after the engine has looked at them for the last time.  By
    the time the thread reads them, the queue and the events are [q] and [ev], the
    entry is [d'].  The calls that follow ([Scheduler.end_calls]) are made without
    interruption here.  [ub] is that of the engine's run. *)
Inductive download_thread_fn (now : Z) (head : option FileInfo) (d : Download) (fs : filesystem) (t : db)
    (q : QM) (ev : list StatusEvent) : bool -> Z -> Download -> SState -> Prop :=
| thread_fn ub rc d1 fs' t' cancel pause d' :
    engine_run_download always_ok env read_error stack sv max_block head (d, fs, t) rc (d1, fs', t') ub ->
    d' = set_flags (d_cancel_requested d1 || cancel) (d_pause_requested d1 || pause) d1 ->
    find_first (d_id d) (g_head q) = Some d' ->
    download_thread_fn now head d fs t q ev ub rc d'
      (download_thread_end always_ok env cfg rc now d' (mkS q fs' t' ev)).

(** C4. What the row of a download says is true of the disk. The conditions are those of
    [engine_success_correct]: the server's contract, a HEAD that reports the length or none,
    resume data that cover the resource and count only correct bytes, and no use of an
    uninitialised progress pointer; every database statement succeeds; and the calls the thread
    makes after it has read the flags are made without interruption (what a command in between
    does is shown by [Daemon.pause_overlaps_end] and [Daemon.cancel_overlaps_end]). Whatever the
    worker thread did before (a fresh start, a resume, a restart, the fallback to one
    connection, under any interleaving, with the user's flags set at any time until they are
    read): the queue entry and the database row get the same status; when the row says DONE, the
    file at the destination has exactly the bytes and the length of the resource, and the
    requested digest, and no chunk is left to resume; when it says CANCELED, there is no file at
    the destination (unless it may not be removed); the download was its own destination all
    along, and no other file has changed. *)
Theorem row_tells_truth content clen now head d fs t q ev rc d' s' row :
  length stack = 64%nat -> 0 <= clen < 2 ^ 60 ->
  http_contract sv content clen -> 0 <= max_block <= STEAL_THRESHOLD ->
  (forall info, head = Some info -> size_ok clen info) -> resume_ok content clen d fs ->
  find_row (i32 (d_id d)) t = Some row ->
  download_thread_fn now head d fs (Some t) q ev false rc d' s' ->
  exists e t1 row1,
    find_first (d_id d) (g_head (s_q s')) = Some e /\ s_db s' = Some t1 /\
    find_row (i32 (d_id d)) t1 = Some row1 /\ row_status row1 = status_to_string (d_status e) /\
    (row_status row1 = str "DONE" -> delivered content clen d (s_fs s') /\ rows_of (i32 (d_id d)) t1 = []) /\
    (row_status row1 = str "CANCELED" -> d_dest_path d <> [] -> env_deny env (d_dest_path d) = false ->
       forall x, s_fs s' !! d_dest_path d = Some x -> x = NDir) /\
    d_dest_path d' = d_dest_path d /\
    (forall p, p <> d_dest_path d -> s_fs s' !! p = fs !! p \/ (fs !! p = None /\ s_fs s' !! p = Some NDir)).
Proof.
  intros Hst Hcl Hhttp Hmb Hsz Hres Hrow Hrun. remember false as b eqn:Eb in Hrun. clear Eb. destruct Hrun as [ub rc d1 fs' t' cancel pause d' Hrun Hd1 Hq].
  assert (head_ok head) as Hh by (intros info E; destruct (Hsz info E); zlia).
  destruct (run_frame _ _ _ _ _ _ _ _ _ _ _ _ _ _ _ Hh Hrun) as [(Hid1 & Hdest1 & _) Htouch].
  cbn [d_of fst] in Hid1, Hdest1.
  assert (d_id d' = d_id d /\ d_dest_path d' = d_dest_path d) as [Hid Hdest] by (by subst d').
  destruct (engine_run_effect _ _ _ _ _ _ _ _ _ _ _ Hrun) as [_ Hfollow]. cbn [snd] in Hfollow.
  destruct (follow_find_row _ _ _ _ Hfollow Hrow) as (t1 & row1 & -> & Hrow1).
  rewrite <- Hid in Hrow1. destruct (download_thread_fate env cfg rc now d' q fs' t1 ev row1 Hrow1)
    as (f & (t2 & event & Edb & _ & _ & Efs & Erows & Eq & Hk & Hstat & row2 & Hrow2 & Htext) & _).
  rewrite Hid in Erows, Hrow2.
  exists (f d'), t2, row2. rewrite Eq, Hid. cbn [qm_modify g_head]. rewrite find_first_modify, decide_True, Hq by done.
  rewrite Htext, Hstat, Efs. do 4 (split; [done|]). split; [|split; [|split; [done|]]].
  - intros E. apply (status_text_inj _ DOWNLOAD_DONE) in E. rewrite bool_decide_eq_false_2 by (rewrite E; done).
    rewrite bool_decide_eq_true_2 in Erows by auto. split; [|done].
    assert (rc = 0) as -> by (by apply (verdict_done cfg rc d')).
    eapply (run_delivers always_ok env read_error stack sv max_block); try done.
  - intros E Hne Hdeny x. apply (status_text_inj _ DOWNLOAD_CANCELED) in E. rewrite bool_decide_eq_true_2 by done.
    unfold unlink_dest. rewrite Hdest, decide_False by done. by apply unlink_gone.
  - unfold fs_of in Htouch. cbn [fst snd] in Htouch. intros p Hp. destruct (Htouch p Hp) as [Hkeep|[Hnone Hdir]].
    + left. rewrite <- Hkeep. destruct (bool_decide (verdict cfg rc d' = _)); [|done]. apply unlink_dest_other. congruence.
    + right. split; [done|]. rewrite <- Hdir. destruct (bool_decide (verdict cfg rc d' = _)); [|done]. apply unlink_dest_other. congruence.
Qed.

End Outcome.

(** A download that was killed after its last byte: both chunks are complete. *)
Definition complete_download : Download :=
  mkDownload 1 (str "http://h/f") (str "/d/f") 12 DOWNLOAD_ACTIVE 0 0 false false 12
    [6; 6; 0; 0; 0; 0; 0; 0] [mkChunk 0 5 6; mkChunk 6 11 6] false 0 0 None.
Definition complete_file : regular := reg_pwrite empty_reg 0 (map (fun i => demo_content (Z.of_nat i)) (seq 0 12)).
Definition complete_fs : filesystem := <[str "/d/f" := NReg complete_file]> demo_fs.
Definition complete_row : DbRow := mkRow 1 (str "http://h/f") (str "/d/f") 12 (str "ACTIVE") 0 5 [] [] [] [] 0 0.
Definition complete_tables : Tables := mkTables [complete_row] [mkDbChunk 1 0 5 6; mkDbChunk 1 6 11 6].

Lemma complete_resume_ok : resume_ok demo_content 12 complete_download complete_fs.
Proof.
  intros _. exists complete_file. split; [vm_compute; reflexivity|]. split.
  - done.
  - cbn. lia.
  - intros c [->|[->|Hc%not_elem_of_nil]%elem_of_cons]%elem_of_cons; cbn; [lia|lia|done].
  - intros o Ho. destruct (decide (o <= 5)).
    + exists (mkChunk 0 5 6). split; [by left|cbn; lia].
    + exists (mkChunk 6 11 6). split; [by right; left|cbn; lia].
  - intros c o Hc Ho He. assert (0 <= o < 12) as H12.
    { apply elem_of_cons in Hc as [->|[->|Hc%not_elem_of_nil]%elem_of_cons]; cbn in Ho, He; [lia|lia|done]. }
    assert (o = 0 \/ o = 1 \/ o = 2 \/ o = 3 \/ o = 4 \/ o = 5 \/ o = 6 \/ o = 7 \/ o = 8 \/ o = 9 \/ o = 10 \/ o = 11) as H by lia.
    repeat destruct H as [->|H]; try subst o; vm_compute; reflexivity.
Qed.

Definition complete_run : prepared :=
  engine_prepare always_ok permissive (fun _ => None) (replicate 64 0) (Some demo_info)
    (complete_download, complete_fs, Some complete_tables).

Lemma row_tells_truth_witness :
  exists rc d' s', download_thread_fn permissive cfg_demo (fun _ => None) (replicate 64 0) (demo_server 12) 2 100
      (Some demo_info) complete_download complete_fs (Some complete_tables) (mkQM [complete_download] 2) [] false rc d' s' /\
    delivered demo_content 12 complete_download (s_fs s').
Proof.
  assert (exists d' fs' t', complete_run = Early 0 (d', fs', t') /\ d' = complete_download) as (d' & fs' & t' & Hp & Hd)
    by (vm_compute; eauto 8).
  subst d'. set (s' := download_thread_end always_ok permissive cfg_demo 0 100 complete_download (mkS (mkQM [complete_download] 2) fs' t' [])).
  assert (Hrun : download_thread_fn permissive cfg_demo (fun _ => None) (replicate 64 0) (demo_server 12) 2 100
      (Some demo_info) complete_download complete_fs (Some complete_tables) (mkQM [complete_download] 2) [] false 0 complete_download s').
  { apply (thread_fn _ _ _ _ _ _ _ _ _ _ _ _ _ _ _ complete_download _ _ false false); [|reflexivity|reflexivity].
    apply er_early. exact Hp. }
  exists 0, complete_download, s'. split; [exact Hrun|].
  destruct (row_tells_truth permissive cfg_demo (fun _ => None) (replicate 64 0) (demo_server 12) 2 demo_content 12 100
              (Some demo_info) complete_download complete_fs complete_tables (mkQM [complete_download] 2) [] 0 complete_download s'
              complete_row) as (e & t1 & row1 & He & Ht1 & Hr1 & Htext & Hdone & _).
  - reflexivity.
  - lia.
  - exact (demo_contract 12).
  - unfold STEAL_THRESHOLD. lia.
  - intros info E. injection E as <-. left. reflexivity.
  - exact complete_resume_ok.
  - vm_compute. reflexivity.
  - exact Hrun.
  - apply Hdone. rewrite Htext. subst s'. vm_compute in He. injection He as <-. reflexivity.
Defined.
