(* ===== verification/GuiClient.v ===== *)
(** * The GUI's connection to the daemon ([src/gui/gui_client.c])

    A command connection used by the controller thread, a listener connection
    whose thread turns status events into entries of a ring of 512, and the
    reconnections of both.  The ring buffers of gui_controller.c are the same
    data structure and are modelled here too, next to the bounded queue they
    implement. *)

From S2P Require Import Prelude Path FileIo QueueManager Db Config Engine Scheduler Wire Commands Offers Ipc IpcClient.

#[local] Open Scope wire_scope.

(** ** Ring buffers *)

Record Ring (A : Type) := mkRing { r_buf : list A; r_head : nat; r_tail : nat; r_count : nat }.
Arguments mkRing {A}.
Arguments r_buf {A}.
Arguments r_head {A}.
Arguments r_tail {A}.
Arguments r_count {A}.

Section Ring.

Context {A : Type} (cap : nat) (blank : A).

Definition ring_init : Ring A := mkRing (replicate cap blank) 0 0 0.

(** [buf[tail] = x; tail = (tail + 1) % cap; count++]. *)
Definition ring_store (x : A) (r : Ring A) : Ring A :=
  mkRing (<[r_tail r := x]> (r_buf r)) (r_head r) (Nat.modulo (r_tail r + 1) cap) (r_count r + 1).

Definition ring_drop (r : Ring A) : Ring A :=
  mkRing (r_buf r) (Nat.modulo (r_head r + 1) cap) (r_tail r) (r_count r - 1).

(** gui_client.c: a full ring loses its oldest entry. *)
Definition ring_push_drop (x : A) (r : Ring A) : Ring A :=
  ring_store x (if Nat.eqb (r_count r) cap then ring_drop r else r).

(** gui_controller.c: a full ring refuses the entry. *)
Definition ring_push (x : A) (r : Ring A) : bool * Ring A :=
  if Nat.eqb (r_count r) cap then (false, r) else (true, ring_store x r).

Definition ring_pop (r : Ring A) : option A * Ring A :=
  if Nat.eqb (r_count r) 0 then (None, r)
  else (Some (nth (r_head r) (r_buf r) blank), ring_drop r).

(** The bounded queue it implements. *)
Definition ring_contents (r : Ring A) : list A :=
  map (fun i => nth (Nat.modulo (r_head r + i) cap) (r_buf r) blank) (seq 0 (r_count r)).

Record ring_wf (r : Ring A) : Prop := {
  rw_len : length (r_buf r) = cap;
  rw_head : (r_head r < cap)%nat;
  rw_count : (r_count r <= cap)%nat;
  rw_tail : r_tail r = Nat.modulo (r_head r + r_count r) cap;
}.

Lemma mod_wrap h i :
  (h < cap)%nat -> (i <= cap)%nat ->
  Nat.modulo (h + i) cap = (if decide (h + i < cap)%nat then h + i else h + i - cap)%nat.
Proof.
  intros Hh Hi. case_decide; [by apply Nat.mod_small|]. symmetry. apply (Nat.mod_unique _ _ 1); lia.
Qed.

Lemma ring_wf_init : (0 < cap)%nat -> ring_wf ring_init /\ ring_contents ring_init = [].
Proof.
  intros H. split; [|done]. split; [apply length_replicate|done|cbn; lia|].
  symmetry. by apply Nat.mod_small.
Qed.

Lemma ring_store_spec x r :
  ring_wf r -> (r_count r < cap)%nat ->
  ring_wf (ring_store x r) /\ ring_contents (ring_store x r) = ring_contents r ++ [x].
Proof.
  intros [Hl Hh Hc Ht] Hn. assert (r_tail r < cap)%nat as Htl.
  { rewrite Ht. apply Nat.mod_upper_bound. lia. }
  split.
  - split; simpl; [by rewrite length_insert|done|lia|]. rewrite Ht, Nat.Div0.add_mod_idemp_l. f_equal. lia.
  - unfold ring_contents, ring_store. cbn [r_buf r_head r_count]. rewrite Nat.add_1_r, seq_S, map_app.
    cbn [map]. f_equal.
    + apply map_ext_in. intros i Hi%in_seq. rewrite !nth_lookup, list_lookup_insert_ne; [done|].
      rewrite Ht, !mod_wrap by lia. repeat case_decide; lia.
    + rewrite nth_lookup, Nat.add_0_l, <- Ht, list_lookup_insert_eq by lia. done.
Qed.

Lemma ring_drop_spec r x l :
  ring_wf r -> ring_contents r = x :: l ->
  nth (r_head r) (r_buf r) blank = x /\ ring_wf (ring_drop r) /\ ring_contents (ring_drop r) = l.
Proof.
  intros [Hl Hh Hc Ht] E. unfold ring_contents in E. destruct (r_count r) as [|n] eqn:En; [done|].
  cbn [seq map] in E. injection E as E1 E2. rewrite Nat.add_0_r, Nat.mod_small in E1 by done.
  split; [done|]. split.
  - split; simpl; rewrite ?En; [done| |lia|].
    + apply Nat.mod_upper_bound. lia.
    + rewrite Ht, Nat.Div0.add_mod_idemp_l. f_equal. lia.
  - rewrite <- E2. unfold ring_contents, ring_drop. cbn [r_buf r_head r_count].
    rewrite En. replace (S n - 1)%nat with n by lia. rewrite <- seq_shift, map_map. apply map_ext. intros i.
    rewrite Nat.Div0.add_mod_idemp_l. f_equal. f_equal. lia.
Qed.

Lemma ring_contents_length r : length (ring_contents r) = r_count r.
Proof. unfold ring_contents. by rewrite length_map, length_seq. Qed.

(** *** A sequence of operations *)

Inductive ring_op := OpPush (x : A) | OpPushDrop (x : A) | OpPop.

Definition ring_apply (o : ring_op) (r : Ring A) : (bool + option A) * Ring A :=
  match o with
  | OpPush x => let '(ok, r) := ring_push x r in (inl ok, r)
  | OpPushDrop x => (inl true, ring_push_drop x r)
  | OpPop => let '(x, r) := ring_pop r in (inr x, r)
  end.

Definition queue_apply (o : ring_op) (l : list A) : (bool + option A) * list A :=
  match o with
  | OpPush x => if (length l <? cap)%nat then (inl true, l ++ [x]) else (inl false, l)
  | OpPushDrop x => (inl true, (if (length l <? cap)%nat then l else drop 1 l) ++ [x])
  | OpPop => (inr (head l), drop 1 l)
  end.

Fixpoint run_ops {S} (apply : ring_op -> S -> (bool + option A) * S) (ops : list ring_op) (s : S)
    : list (bool + option A) * S :=
  match ops with
  | [] => ([], s)
  | o :: ops' =>
      let '(out, s) := apply o s in
      let '(outs, s) := run_ops apply ops' s in (out :: outs, s)
  end.

Lemma ring_op_refines o r :
  (0 < cap)%nat -> ring_wf r ->
  let '(out, r') := ring_apply o r in
  ring_wf r' /\ queue_apply o (ring_contents r) = (out, ring_contents r').
Proof.
  intros Hcap Hw. pose proof (ring_contents_length r) as Hlen. pose proof (rw_count _ Hw) as Hc.
  destruct o as [x|x|]; cbn [ring_apply queue_apply]; unfold ring_push, ring_push_drop, ring_pop; rewrite ?Hlen.
  - destruct (Nat.eqb_spec (r_count r) cap) as [E|E].
    + rewrite (proj2 (Nat.ltb_ge _ _)) by lia. done.
    + rewrite (proj2 (Nat.ltb_lt _ _)) by lia. destruct (ring_store_spec x r Hw) as [? ->]; [lia|done].
  - destruct (Nat.eqb_spec (r_count r) cap) as [E|E].
    + rewrite (proj2 (Nat.ltb_ge _ _)) by lia. destruct (ring_contents r) as [|y l] eqn:El; [simpl in Hlen; lia|].
      destruct (ring_drop_spec r y l Hw El) as (_ & Hw' & E').
      destruct (ring_store_spec x _ Hw') as [? ->]; [simpl; lia|]. by rewrite E'.
    + rewrite (proj2 (Nat.ltb_lt _ _)) by lia. destruct (ring_store_spec x r Hw) as [? ->]; [lia|done].
  - destruct (Nat.eqb_spec (r_count r) 0) as [E|E].
    + split; [done|]. destruct (ring_contents r); [done|simpl in Hlen; lia].
    + destruct (ring_contents r) as [|y l] eqn:El; [simpl in Hlen; lia|].
      destruct (ring_drop_spec r y l Hw El) as (-> & Hw' & ->). done.
Qed.

Lemma ring_run_refines ops r :
  (0 < cap)%nat -> ring_wf r ->
  let '(outs, r') := run_ops ring_apply ops r in
  ring_wf r' /\ run_ops queue_apply ops (ring_contents r) = (outs, ring_contents r').
Proof.
  intros Hcap. revert r. induction ops as [|o ops IH]; intros r Hw; [done|]. cbn [run_ops].
  pose proof (ring_op_refines o r Hcap Hw) as H. destruct (ring_apply o r) as [out r1]. destruct H as [Hw1 ->].
  specialize (IH r1 Hw1). destruct (run_ops ring_apply ops r1) as [outs r2]. destruct IH as [Hw2 ->]. done.
Qed.

End Ring.

(** ** State *)

Definition GUI_EVENT_QUEUE_CAP : nat := 512.

Inductive GuiClientEventType :=
| GUI_EVT_STATUS_UPDATE | GUI_EVT_CONNECTION_LOST | GUI_EVT_CONNECTION_RESTORED.

(** The progress is the bits of the float. *)
Record GuiClientEvent := mkGuiEvent {
  ge_type : GuiClientEventType; ge_download_id : Z; ge_status : bytes; ge_progress : Z }.

Definition zero_event : GuiClientEvent := mkGuiEvent GUI_EVT_STATUS_UPDATE 0 [] 0.

(** The descriptors ([None] for -1), [g_was_connected], the ring; [gc_dials] is
    what the next attempts to connect will give. *)
Record GuiClient := mkGC {
  gc_cmd : option Conn;
  gc_listener : option Conn;
  gc_connected : bool;
  gc_events : Ring GuiClientEvent;
  gc_dials : list (option Conn);
}.

Definition with_cmd (c : option Conn) (g : GuiClient) : GuiClient :=
  mkGC c (gc_listener g) (gc_connected g) (gc_events g) (gc_dials g).
Definition with_listener (c : option Conn) (g : GuiClient) : GuiClient :=
  mkGC (gc_cmd g) c (gc_connected g) (gc_events g) (gc_dials g).
Definition with_connected (b : bool) (g : GuiClient) : GuiClient :=
  mkGC (gc_cmd g) (gc_listener g) b (gc_events g) (gc_dials g).

Definition push_event (e : GuiClientEvent) (g : GuiClient) : GuiClient :=
  mkGC (gc_cmd g) (gc_listener g) (gc_connected g)
    (ring_push_drop GUI_EVENT_QUEUE_CAP e (gc_events g)) (gc_dials g).

Definition gui_client_poll_event (g : GuiClient) : option GuiClientEvent * GuiClient :=
  let '(e, r) := ring_pop GUI_EVENT_QUEUE_CAP zero_event (gc_events g) in
  (e, mkGC (gc_cmd g) (gc_listener g) (gc_connected g) r (gc_dials g)).

(** [ipc_client_connect]. *)
Definition dial (g : GuiClient) : option Conn * GuiClient :=
  (match gc_dials g with c :: _ => c | [] => None end,
   mkGC (gc_cmd g) (gc_listener g) (gc_connected g) (gc_events g) (drop 1 (gc_dials g))).

Definition note_lost (g : GuiClient) : GuiClient :=
  let was := gc_connected g in
  let g := with_connected false g in
  if was then push_event (mkGuiEvent GUI_EVT_CONNECTION_LOST 0 [] 0) g else g.

Definition note_restored (g : GuiClient) : GuiClient :=
  let was := gc_connected g in
  let g := with_connected true g in
  if was then g else push_event (mkGuiEvent GUI_EVT_CONNECTION_RESTORED 0 [] 0) g.

(** ** normalize_status *)

Definition status_map : list (bytes * bytes) :=
  [(str "Downloading", str "ACTIVE"); (str "Retrying", str "QUEUED"); (str "Paused", str "PAUSED");
   (str "Canceled", str "CANCELED"); (str "Error", str "ERROR"); (str "Verification failed", str "ERROR");
   (str "Done", str "DONE")].

Definition to_upper (c : Z) : Z := if (97 <=? c) && (c <=? 122) then c - 97 + 65 else c.

Definition normalize_status (raw : bytes) (out_size : Z) : bytes :=
  match list_find (fun p => streq raw p.1 = true) status_map with
  | Some (_, (_, canonical)) => strlcpy out_size canonical
  | None => map to_upper (strlcpy out_size raw)
  end.

Section Client.

(** What a buffer of [n] bytes holds after a read into it has failed. *)
Context (garbage : nat -> Conn -> bytes).

(** ** The listener thread *)

(** A read whose result is not looked at. *)
Definition read_into (n : nat) (c : Conn) : bytes * Conn :=
  match ipc_read_exact n c with
  | (Some bs, c') => (bs, c')
  | (None, c') => (garbage n c, c')
  end.

(** [char raw_status[32]] after the text of length [slen]. *)
Definition read_status_text (slen : Z) (c : Conn) : bytes * Conn :=
  if slen <=? 0 then ([], c)
  else if slen <? 32 then let '(bs, c) := read_into (Z.to_nat slen) c in (cstr bs, c)
  else ([], snd (drain (S (available (c_in c))) slen c)).

Definition read_status_event (c : Conn) : GuiClientEvent * Conn :=
  let '(id, c) := read_into 4 c in
  let '(progress, c) := read_into 4 c in
  let '(slen, c) := read_into 4 c in
  let '(raw_status, c) := read_status_text (unle slen) c in
  (mkGuiEvent GUI_EVT_STATUS_UPDATE (unle id)
     (if bool_decide (raw_status = []) then [] else normalize_status raw_status 16) (unle progress), c).

(** One round of [listener_thread_fn]; [running] is [g_running] after the read. *)
Definition listener_round (running : bool) (g : GuiClient) : GuiClient :=
  let '(hdr, c) := match gc_listener g with
                   | Some c => let '(h, c) := ipc_read_exact HEADER_SIZE c in (h, Some c)
                   | None => (None, None)
                   end in
  let g := with_listener c g in
  match hdr, c with
  | Some hdr, Some c =>
      if h_type (decode_header hdr) =? msg_code MSG_STATUS_EVENT then
        let '(e, c) := read_status_event c in push_event e (with_listener (Some c) g)
      else g
  | _, _ =>
      let g := note_lost g in
      if negb running then g
      else
        let '(c, g) := dial (with_listener None g) in
        match c with
        | Some c => note_restored (with_listener (Some (snd (ipc_send_subscribe c))) g)
        | None => g
        end
  end.

(** ** Connecting *)

Definition gui_client_connect (thread_ok : bool) (g : GuiClient) : bool * GuiClient :=
  let '(cmd, g) := dial g in
  match cmd with
  | None => (false, with_cmd None g)
  | Some cmd =>
      let '(lst, g) := dial g in
      match lst with
      | None => (false, with_cmd None (with_listener None g))
      | Some lst =>
          let g := with_connected true (with_cmd (Some cmd) (with_listener (Some (snd (ipc_send_subscribe lst))) g)) in
          if thread_ok then (true, g) else (false, with_cmd None (with_listener None g))
      end
  end.

Definition gui_client_disconnect (g : GuiClient) : GuiClient := with_cmd None (with_listener None g).

(** ** Commands *)

(** [if (g_cmd_fd < 0) g_cmd_fd = ...]. *)
Definition ensure_cmd (g : GuiClient) : option Conn * GuiClient :=
  match gc_cmd g with
  | Some c => (Some c, g)
  | None =>
      let '(c, g) := dial g in
      match c with
      | Some c => (Some c, note_restored (with_cmd (Some c) g))
      | None => (None, g)
      end
  end.

Fixpoint retry_loop (attempts : nat) (fn : wire unit) (g : GuiClient) : bool * GuiClient :=
  match attempts with
  | O => (false, note_lost g)
  | S n =>
      match ensure_cmd g with
      | (None, g) => retry_loop n fn g
      | (Some c, g) =>
          match fn c with
          | (Some _, c) => (true, with_cmd (Some c) g)
          | (None, c) => retry_loop n fn (with_cmd None g)
          end
      end
  end.

Definition send_with_retry (fn : wire unit) (g : GuiClient) : bool * GuiClient := retry_loop 2 fn g.

Definition gui_client_pause (id : Z) : GuiClient -> bool * GuiClient := send_with_retry (ipc_send_pause id).
Definition gui_client_resume (id : Z) : GuiClient -> bool * GuiClient := send_with_retry (ipc_send_resume id).
Definition gui_client_cancel (id : Z) : GuiClient -> bool * GuiClient := send_with_retry (ipc_send_cancel id).
Definition gui_client_reload_config : GuiClient -> bool * GuiClient := send_with_retry ipc_send_reload_config.

(** Success, the id written to [*out_id] ([None] when it is not written). *)
Definition gui_client_add_download (json_print : list (bytes * json_value) -> bytes) (url dest : bytes)
    (opts : option RequestOptions) (g : GuiClient) : bool * option Z * GuiClient :=
  match ensure_cmd g with
  | (None, g) => (false, None, note_lost g)
  | (Some c, g) =>
      let '(id, c) := ipc_send_add_download json_print url dest opts c in
      let id := default 0 id in
      if id =? 0 then (false, Some 0, note_lost (with_cmd None g))
      else (true, Some id, with_cmd (Some c) g)
  end.

(** ** The list *)

(** A longer string is cut, and its rest stays in the stream. *)
Definition read_string_local (max_len : Z) : wire bytes :=
  len <-- read_u32 ;;
  let len := if max_len <=? len then max_len - 1 else len in
  buf <-- ipc_read_exact (Z.to_nat len) ;; wret (cstr buf).

Definition read_gui_record : wire IpcDownloadRecord :=
  id <-- read_u32 ;; url <-- read_string_local IPC_MAX_URL_LEN ;;
  dest <-- read_string_local IPC_MAX_PATH_LEN ;; status <-- read_string_local 16 ;; progress <-- read_u32 ;;
  wret (mkRecord id (strlcpy 2048 url) (strlcpy 1024 dest) (strlcpy 16 status) progress).

Fixpoint read_gui_records (n : nat) : wire (list IpcDownloadRecord) :=
  match n with
  | O => wret []
  | S n => r <-- read_gui_record ;; rest <-- read_gui_records n ;; wret (r :: rest)
  end.

(** [calloc_ok] tells whether room for so many records can be had. *)
Context (calloc_ok : Z -> bool).

Definition gui_client_list_all (g : GuiClient) : option (list IpcDownloadRecord) * GuiClient :=
  match ensure_cmd g with
  | (None, g) => (None, note_lost g)
  | (Some c, g) =>
      match (write_header MSG_LIST_ALL 0 ;;; read_u32) c with
      | (None, _) => (None, note_lost (with_cmd None g))
      | (Some count, c) =>
          let g := with_cmd (Some c) g in
          let n := i32 count in
          if n =? 0 then (Some [], g)
          else if negb (calloc_ok (u64 n)) then (None, g)
          else
            match read_gui_records (Z.to_nat n) c with
            | (Some rs, c) => (Some rs, with_cmd (Some c) g)
            | (None, _) => (None, note_lost (with_cmd None g))
            end
      end
  end.

Definition gui_client_get_details (id : Z) (g : GuiClient) : option RequestOptions * GuiClient :=
  match ensure_cmd g with
  | (None, g) => (None, note_lost g)
  | (Some c, g) => let '(d, c) := ipc_send_get_details id c in (d, with_cmd (Some c) g)
  end.

End Client.

(** ** Lemmas *)

Lemma read_into_ok garbage c bs rest :
  feeds (c_in c) (bs ++ rest) ->
  exists s, read_into garbage (length bs) c = (bs, mkConn s (c_out c) (c_wr c)) /\ feeds s rest.
Proof.
  intros H. destruct (read_exact_ok c bs rest H) as (s & E & F). exists s. unfold read_into. by rewrite E.
Qed.

Lemma read_into_u garbage n c v rest :
  0 <= v < 2 ^ (8 * Z.of_nat n) -> feeds (c_in c) (le (Z.of_nat n) v ++ rest) ->
  exists s bs, read_into garbage n c = (bs, mkConn s (c_out c) (c_wr c)) /\ unle bs = v /\ feeds s rest.
Proof.
  intros Hv H. destruct (read_into_ok garbage c _ rest H) as (s & E & F). rewrite length_le in E by lia.
  exists s, (le (Z.of_nat n) v). split; [exact E|]. split; [by apply unle_le|done].
Qed.

(** A frame of [ipc_broadcast_status] becomes one event of the ring. *)
Lemma read_status_event_ok garbage c id bits text rest :
  is_u32 id -> is_u32 bits -> cstring text -> 0 < strlen text < 32 ->
  feeds (c_in c) (le 4 id ++ le 4 bits ++ le 4 (strlen text) ++ text ++ rest) ->
  exists s, read_status_event garbage c =
      (mkGuiEvent GUI_EVT_STATUS_UPDATE id (normalize_status text 16) bits, mkConn s (c_out c) (c_wr c)) /\
    feeds s rest.
Proof.
  intros Hid Hbits Hcs Hlen H. unfold read_status_event.
  destruct (read_into_u garbage 4 c id _ ltac:(zlia) H) as (s1 & b1 & -> & E1 & F1).
  destruct (read_into_u garbage 4 (mkConn s1 (c_out c) (c_wr c)) bits _ ltac:(zlia) F1) as (s2 & b2 & -> & E2 & F2).
  cbn [c_out c_wr].
  destruct (read_into_u garbage 4 (mkConn s2 (c_out c) (c_wr c)) (strlen text) _ ltac:(zlia) F2)
    as (s3 & b3 & -> & E3 & F3).
  cbn [c_out c_wr]. rewrite E1, E2, E3. unfold read_status_text.
  rewrite (proj2 (Z.leb_gt _ _)), (proj2 (Z.ltb_lt _ _)), to_nat_strlen by lia.
  destruct (read_into_ok garbage (mkConn s3 (c_out c) (c_wr c)) text rest F3) as (s4 & -> & F4).
  exists s4. cbn [c_out c_wr]. rewrite cstr_id by done.
  rewrite bool_decide_false; [done|]. intros ->. unfold strlen in Hlen. simpl in Hlen. lia.
Qed.

Lemma listener_round_event garbage running g c id bits text rest :
  gc_listener g = Some c -> is_u32 id -> is_u32 bits -> cstring text -> 0 < strlen text < 32 ->
  feeds (c_in c) (status_frame id bits text ++ rest) ->
  exists s, listener_round garbage running g =
      push_event (mkGuiEvent GUI_EVT_STATUS_UPDATE id (normalize_status text 16) bits)
        (with_listener (Some (mkConn s (c_out c) (c_wr c))) g) /\ feeds s rest.
Proof.
  intros Hl Hid Hbits Hcs Hlen H. unfold listener_round. rewrite Hl.
  set (hdr := mkHeader (12 + strlen text) (msg_code MSG_STATUS_EVENT)).
  unfold status_frame in H. fold hdr in H. rewrite <- !app_assoc in H.
  destruct (read_exact_ok c _ _ H) as (s1 & E1 & F1). rewrite length_encode_header in E1. rewrite E1.
  rewrite decode_encode_header by (simpl; zlia). rewrite Z.eqb_refl.
  destruct (read_status_event_ok garbage (mkConn s1 (c_out c) (c_wr c)) id bits text rest
              Hid Hbits Hcs Hlen F1) as (s2 & -> & F2).
  by exists s2.
Qed.

(** ** Properties *)

(** The rings of the GUI are bounded queues.  From the empty ring of any
    capacity, any sequence of insertions that refuse (gui_controller.c),
    insertions that drop the oldest entry (gui_client.c) and removals answers
    exactly what a list of at most that length answers, and ends with the same
    contents: no entry is duplicated, reordered or lost otherwise. *)
Theorem gui_rings_are_bounded_queues {A} (cap : nat) (blank : A) ops :
  (0 < cap)%nat ->
  let '(outs, r) := run_ops (ring_apply cap blank) ops (ring_init cap blank) in
  run_ops (queue_apply cap) ops [] = (outs, ring_contents cap blank r) /\
  (length (ring_contents cap blank r) <= cap)%nat.
Proof.
  intros Hcap. destruct (ring_wf_init cap blank Hcap) as [Hw E].
  pose proof (ring_run_refines cap blank ops _ Hcap Hw) as H. rewrite E in H.
  destruct (run_ops _ ops _) as [outs r]. destruct H as [Hw' ->]. split; [done|].
  rewrite ring_contents_length. by destruct Hw'.
Qed.

Definition ring_demo : list (ring_op (A := Z)) :=
  [OpPush 1; OpPush 2; OpPush 3; OpPop; OpPushDrop 4; OpPushDrop 5; OpPop; OpPop; OpPop].

Lemma gui_rings_are_bounded_queues_witness :
  fst (run_ops (ring_apply 2 0) ring_demo (ring_init 2 0)) =
    [inl true; inl true; inl false; inr (Some 1); inl true; inl true; inr (Some 4); inr (Some 5); inr None] /\
  run_ops (queue_apply 2) ring_demo [] =
    (fst (run_ops (ring_apply 2 0) ring_demo (ring_init 2 0)), []).
Proof.
  split; [vm_compute; reflexivity|].
  pose proof (gui_rings_are_bounded_queues 2 0 ring_demo ltac:(lia)) as H.
  assert (ring_contents 2 0 (snd (run_ops (ring_apply 2 0) ring_demo (ring_init 2 0))) = []) as E
    by (vm_compute; reflexivity).
  destruct (run_ops (ring_apply 2 0) ring_demo (ring_init 2 0)) as [outs r]. cbn [fst snd] in *.
  rewrite E in H. exact (proj1 H).
Defined.
