(* ===== verification/GuiView.v ===== *)
(** * The GUI between the connection and the screen
    ([src/gui/gui_model.c], [gui_controller.c], event loop of [gui_nuklear.c])

    The table of rows on screen, the controller thread with its ring of events
    to the GUI thread and its ring of commands from it, and the loop of the GUI
    thread that applies the events.  Drawing is not modelled. *)

From S2P Require Import Prelude Path FileIo QueueManager Db Config Engine Scheduler Wire Commands Offers Ipc IpcClient GuiClient.

(** ** gui_model.c *)

Definition GUI_MODEL_MAX_ROWS : nat := 256.

Record GuiRow := mkGuiRow {
  gr_id : Z; gr_url : bytes; gr_dest_path : bytes; gr_status : bytes; gr_progress : Z }.

(** The used part of [g_rows]. *)
Abbreviation GuiModel := (list GuiRow).

Definition gui_model_init : GuiModel := [].

Definition row_of_record (r : IpcDownloadRecord) : GuiRow :=
  mkGuiRow (ir_id r) (strlcpy 2048 (ir_url r)) (strlcpy 1024 (ir_dest_path r)) (strlcpy 16 (ir_status r))
    (ir_progress r).

Definition gui_model_apply_snapshot (records : list IpcDownloadRecord) : GuiModel :=
  map row_of_record (take GUI_MODEL_MAX_ROWS records).

(** The loops that update the first row with an id. *)
Fixpoint update_row (id : Z) (f : GuiRow -> GuiRow) (rows : GuiModel) : GuiModel :=
  match rows with
  | [] => []
  | r :: rows' => if gr_id r =? id then f r :: rows' else r :: update_row id f rows'
  end.

Definition gui_model_apply_status_update (id : Z) (status : bytes) (progress : Z) (rows : GuiModel) : GuiModel :=
  update_row id (fun r =>
    mkGuiRow (gr_id r) (gr_url r) (gr_dest_path r)
      (if bool_decide (status = []) then gr_status r else strlcpy 16 status) progress) rows.

Definition gui_model_apply_optimistic (id : Z) (new_status : bytes) (rows : GuiModel) : GuiModel :=
  update_row id (fun r =>
    mkGuiRow (gr_id r) (gr_url r) (gr_dest_path r) (strlcpy 16 new_status) (gr_progress r)) rows.

Definition gui_model_for_each_row {S} (fn : GuiRow -> S -> S) (rows : GuiModel) (s : S) : S :=
  fold_left (fun s r => fn r s) rows s.

Definition gui_model_snapshot_rows (max : nat) (rows : GuiModel) : list GuiRow := take max rows.

Definition gui_model_add_local_row (id : Z) (url dest_path : bytes) (rows : GuiModel) : GuiModel :=
  if (length rows <? GUI_MODEL_MAX_ROWS)%nat then
    mkGuiRow id (strlcpy 2048 url) (strlcpy 1024 dest_path) (str "QUEUED") 0 :: rows
  else rows.

(** ** gui_controller.c: events *)

Definition GUI_CONTROLLER_EVENT_CAP : nat := 256.
Definition GUI_CONTROLLER_COMMAND_CAP : nat := 64.
Definition GUI_CONTROLLER_MAX_ROWS : nat := 256.

Inductive GuiControllerOperation :=
| GUI_CONTROLLER_OPERATION_ADD | GUI_CONTROLLER_OPERATION_PAUSE
| GUI_CONTROLLER_OPERATION_RESUME | GUI_CONTROLLER_OPERATION_CANCEL.

(** The tagged union of gui_controller.h. *)
Inductive GuiControllerEvent :=
| CtrlOperation (operation : GuiControllerOperation) (id : Z) (url dest_path : bytes) (succeeded : bool)
| CtrlStatus (id : Z) (status : bytes) (progress : Z)
| CtrlSnapshot (records : list IpcDownloadRecord)
| CtrlDetails (id : Z) (found : bool) (details : RequestOptions)
| CtrlConnection (connected : bool)
| CtrlError (message : bytes).

Definition blank_event : GuiControllerEvent := CtrlOperation GUI_CONTROLLER_OPERATION_ADD 0 [] [] false.

Abbreviation event_ring := (Ring GuiControllerEvent).

Definition gui_controller_publish (e : GuiControllerEvent) (r : event_ring) : bool * event_ring :=
  ring_push GUI_CONTROLLER_EVENT_CAP e r.

Definition gui_controller_poll (r : event_ring) : option GuiControllerEvent * event_ring :=
  ring_pop GUI_CONTROLLER_EVENT_CAP blank_event r.

(** ** Commands

    A command carries four strings in arrays of its own and, in its options,
    pointers to them.  Storing a command in the ring redirects the pointers to
    the arrays of the slot; taking it out copies the struct, pointers included. *)

Inductive option_ptr := PtrNull | PtrOwn | PtrSlot (i : nat).

Record CommandOptions := mkCommandOptions {
  co_cookie : option_ptr; co_referrer : option_ptr; co_extra_headers : option_ptr;
  co_expected_sha256 : option_ptr; co_speed_limit_bps : Z }.

Inductive GuiControllerCommandType :=
| GUI_CONTROLLER_COMMAND_ADD | GUI_CONTROLLER_COMMAND_PAUSE | GUI_CONTROLLER_COMMAND_RESUME
| GUI_CONTROLLER_COMMAND_CANCEL | GUI_CONTROLLER_COMMAND_DETAILS.

Record GuiControllerCommand := mkCommand {
  cc_type : GuiControllerCommandType;
  cc_id : Z;
  cc_url : bytes;
  cc_dest_path : bytes;
  cc_options : CommandOptions;
  cc_cookie : bytes;
  cc_referrer : bytes;
  cc_extra_headers : bytes;
  cc_expected_sha256 : bytes;
}.

Abbreviation command_ring := (Ring GuiControllerCommand).

Definition no_pointers : CommandOptions := mkCommandOptions PtrNull PtrNull PtrNull PtrNull 0.

Definition blank_command (t : GuiControllerCommandType) (id : Z) : GuiControllerCommand :=
  mkCommand t id [] [] no_pointers [] [] [] [].

Definition redirect (i : nat) (p : option_ptr) : option_ptr :=
  match p with PtrNull => PtrNull | _ => PtrSlot i end.

Definition enqueue_command (c : GuiControllerCommand) (r : command_ring) : bool * command_ring :=
  let o := cc_options c in
  let i := r_tail r in
  ring_push GUI_CONTROLLER_COMMAND_CAP
    (mkCommand (cc_type c) (cc_id c) (cc_url c) (cc_dest_path c)
       (mkCommandOptions (redirect i (co_cookie o)) (redirect i (co_referrer o))
          (redirect i (co_extra_headers o)) (redirect i (co_expected_sha256 o)) (co_speed_limit_bps o))
       (cc_cookie c) (cc_referrer c) (cc_extra_headers c) (cc_expected_sha256 c)) r.

Definition dequeue_command (r : command_ring) : option GuiControllerCommand * command_ring :=
  ring_pop GUI_CONTROLLER_COMMAND_CAP (blank_command GUI_CONTROLLER_COMMAND_ADD 0) r.

(** [IpcDownloadOptions]: [None] is a null pointer. *)
Record IpcDownloadOptions := mkIpcOptions {
  io_cookie : option bytes; io_referrer : option bytes; io_extra_headers : option bytes;
  io_expected_sha256 : option bytes; io_speed_limit_bps : Z }.

Definition own_copy (p : option bytes) : option_ptr := match p with Some _ => PtrOwn | None => PtrNull end.
Definition field_copy (size : Z) (p : option bytes) : bytes := strlcpy size (default [] p).

Definition gui_controller_enqueue_add (url dest_path : bytes) (options : option IpcDownloadOptions)
    (r : command_ring) : bool * command_ring :=
  let o := default (mkIpcOptions None None None None 0) options in
  enqueue_command
    (mkCommand GUI_CONTROLLER_COMMAND_ADD 0 (strlcpy 2048 url) (strlcpy 1024 dest_path)
       (mkCommandOptions (own_copy (io_cookie o)) (own_copy (io_referrer o)) (own_copy (io_extra_headers o))
          (own_copy (io_expected_sha256 o)) (io_speed_limit_bps o))
       (field_copy 1024 (io_cookie o)) (field_copy 2048 (io_referrer o)) (field_copy 4096 (io_extra_headers o))
       (field_copy 65 (io_expected_sha256 o))) r.

Definition enqueue_id_command (t : GuiControllerCommandType) (id : Z) (r : command_ring) : bool * command_ring :=
  enqueue_command (blank_command t id) r.

Definition gui_controller_enqueue_pause := enqueue_id_command GUI_CONTROLLER_COMMAND_PAUSE.
Definition gui_controller_enqueue_resume := enqueue_id_command GUI_CONTROLLER_COMMAND_RESUME.
Definition gui_controller_enqueue_cancel := enqueue_id_command GUI_CONTROLLER_COMMAND_CANCEL.
Definition gui_controller_enqueue_details := enqueue_id_command GUI_CONTROLLER_COMMAND_DETAILS.

(** What the pointers of a command that was taken out lead to. *)
Definition follow (field : GuiControllerCommand -> bytes) (slots : list GuiControllerCommand)
    (c : GuiControllerCommand) (p : option_ptr) : bytes :=
  match p with
  | PtrNull => []
  | PtrOwn => field c
  | PtrSlot i => field (nth i slots (blank_command GUI_CONTROLLER_COMMAND_ADD 0))
  end.

Definition null (p : option_ptr) : bool := match p with PtrNull => true | _ => false end.

(** The options [process_command] passes on, [None] for NULL. *)
Definition command_options (slots : list GuiControllerCommand) (c : GuiControllerCommand)
    : option RequestOptions :=
  let o := cc_options c in
  if null (co_cookie o) && null (co_referrer o) && null (co_extra_headers o) && null (co_expected_sha256 o)
     && negb (0 <? co_speed_limit_bps o)
  then None
  else Some (mkOpts (follow cc_cookie slots c (co_cookie o)) (follow cc_referrer slots c (co_referrer o))
               (follow cc_extra_headers slots c (co_extra_headers o))
               (follow cc_expected_sha256 slots c (co_expected_sha256 o)) (co_speed_limit_bps o)).

(** ** The controller thread *)

Record Gui := mkGui { gu_client : GuiClient; gu_events : event_ring; gu_commands : command_ring }.

Definition gui_controller_init (g : GuiClient) : Gui :=
  mkGui g (ring_init GUI_CONTROLLER_EVENT_CAP blank_event)
    (ring_init GUI_CONTROLLER_COMMAND_CAP (blank_command GUI_CONTROLLER_COMMAND_ADD 0)).

Definition on_client {A} (f : GuiClient -> A * GuiClient) (g : Gui) : A * Gui :=
  let '(a, c) := f (gu_client g) in (a, mkGui c (gu_events g) (gu_commands g)).

(** An event that does not fit is dropped. *)
Definition publish_event (e : GuiControllerEvent) (g : Gui) : Gui :=
  mkGui (gu_client g) (snd (gui_controller_publish e (gu_events g))) (gu_commands g).

Definition publish_operation (op : GuiControllerOperation) (id : Z) (url dest_path : bytes) (succeeded : bool)
    : Gui -> Gui :=
  publish_event (CtrlOperation op id (strlcpy 2048 url) (strlcpy 1024 dest_path) succeeded).

Definition publish_error (message : bytes) : Gui -> Gui := publish_event (CtrlError (strlcpy 256 message)).

Definition translate_event (e : GuiClientEvent) : GuiControllerEvent :=
  match ge_type e with
  | GUI_EVT_STATUS_UPDATE => CtrlStatus (ge_download_id e) (strlcpy 16 (ge_status e)) (ge_progress e)
  | GUI_EVT_CONNECTION_RESTORED => CtrlConnection true
  | GUI_EVT_CONNECTION_LOST => CtrlConnection false
  end.

(** Every round takes one entry of the ring. *)
Fixpoint publish_client_loop (fuel : nat) (g : Gui) : Gui :=
  match fuel with
  | O => g
  | S fuel' =>
      match on_client gui_client_poll_event g with
      | (Some e, g) => publish_client_loop fuel' (publish_event (translate_event e) g)
      | (None, g) => g
      end
  end.

Definition publish_client_events (g : Gui) : Gui :=
  publish_client_loop (r_count (gc_events (gu_client g))) g.

Section Controller.

Context (calloc_ok : Z -> bool) (json_print : list (bytes * json_value) -> bytes).

Definition publish_snapshot (g : Gui) : Gui :=
  match on_client (gui_client_list_all calloc_ok) g with
  | (Some records, g) => publish_event (CtrlSnapshot (take GUI_CONTROLLER_MAX_ROWS records)) g
  | (None, g) => g
  end.

Definition finish_operation (op : GuiControllerOperation) (id : Z) (succeeded : bool) (g : Gui) : Gui :=
  let g := publish_operation op id [] [] succeeded g in
  if succeeded then g else publish_error (str "Download operation failed") g.

Definition process_command (c : GuiControllerCommand) (g : Gui) : Gui :=
  match cc_type c with
  | GUI_CONTROLLER_COMMAND_ADD =>
      let opts := command_options (r_buf (gu_commands g)) c in
      let '((succeeded, id), g) :=
        on_client (gui_client_add_download json_print (cc_url c) (cc_dest_path c) opts) g in
      let g := publish_operation GUI_CONTROLLER_OPERATION_ADD (default 0 id) (cc_url c) (cc_dest_path c)
                 succeeded g in
      if succeeded then g else publish_error (str "Download could not be added") g
  | GUI_CONTROLLER_COMMAND_PAUSE =>
      let '(ok, g) := on_client (gui_client_pause (cc_id c)) g in
      finish_operation GUI_CONTROLLER_OPERATION_PAUSE (cc_id c) ok g
  | GUI_CONTROLLER_COMMAND_RESUME =>
      let '(ok, g) := on_client (gui_client_resume (cc_id c)) g in
      finish_operation GUI_CONTROLLER_OPERATION_RESUME (cc_id c) ok g
  | GUI_CONTROLLER_COMMAND_CANCEL =>
      let '(ok, g) := on_client (gui_client_cancel (cc_id c)) g in
      finish_operation GUI_CONTROLLER_OPERATION_CANCEL (cc_id c) ok g
  | GUI_CONTROLLER_COMMAND_DETAILS =>
      let '(details, g) := on_client (gui_client_get_details (cc_id c)) g in
      let g := publish_event (CtrlDetails (cc_id c) (bool_decide (is_Some details))
                                (default no_options details)) g in
      match details with
      | Some _ => g
      | None => publish_error (str "Download details are unavailable") g
      end
  end.

(** [while (dequeue_command(&command)) process_command(&command);]: nothing
    puts a command in the ring meanwhile here. *)
Fixpoint command_loop (fuel : nat) (g : Gui) : Gui :=
  match fuel with
  | O => g
  | S fuel' =>
      match dequeue_command (gu_commands g) with
      | (Some c, r) => command_loop fuel' (process_command c (mkGui (gu_client g) (gu_events g) r))
      | (None, _) => g
      end
  end.

(** One round of [controller_thread_fn]: the new value of [refresh_elapsed]. *)
Definition controller_round (refresh_elapsed : Z) (g : Gui) : Z * Gui :=
  let g := publish_client_events g in
  let '(elapsed, g) := if 2000 <=? refresh_elapsed then (0, publish_snapshot g) else (refresh_elapsed, g) in
  (elapsed + 50, command_loop (r_count (gu_commands g)) g).

End Controller.

(** ** The event loop of the GUI thread *)

(** The part of [UiState] the events change; the toast is shown when open. *)
Record UiState := mkUi {
  ui_rows : GuiModel;
  ui_connected : bool;
  ui_selected_id : Z;
  ui_details : RequestOptions;
  ui_details_found : bool;
  ui_error : bytes;
  ui_toast : GuiRow;
  ui_toast_open : bool;
}.

Definition with_rows (rows : GuiModel) (ui : UiState) : UiState :=
  mkUi rows (ui_connected ui) (ui_selected_id ui) (ui_details ui) (ui_details_found ui) (ui_error ui)
    (ui_toast ui) (ui_toast_open ui).

Definition find_gui_row (id : Z) (rows : GuiModel) : option GuiRow :=
  snd <$> list_find (fun r => gr_id r = id) rows.

Definition maybe_complete (old : option GuiRow) (status : bytes) (ui : UiState) : UiState :=
  match old with
  | Some r =>
      if negb (streq (gr_status r) (str "DONE")) && streq status (str "DONE") then
        mkUi (ui_rows ui) (ui_connected ui) (ui_selected_id ui) (ui_details ui) (ui_details_found ui)
          (ui_error ui) (mkGuiRow (gr_id r) (gr_url r) (gr_dest_path r) (str "DONE") (ratio_bits 1 1)) true
      else ui
  | None => ui
  end.

Definition apply_event (e : GuiControllerEvent) (ui : UiState) : UiState :=
  match e with
  | CtrlStatus id status progress =>
      let ui := maybe_complete (find_gui_row id (gui_model_snapshot_rows GUI_MODEL_MAX_ROWS (ui_rows ui))) status ui in
      with_rows (gui_model_apply_status_update id status progress (ui_rows ui)) ui
  | CtrlSnapshot records =>
      let previous := gui_model_snapshot_rows GUI_MODEL_MAX_ROWS (ui_rows ui) in
      let ui := fold_left (fun ui r => maybe_complete (find_gui_row (ir_id r) previous) (ir_status r) ui) records ui in
      with_rows (gui_model_apply_snapshot records) ui
  | CtrlConnection connected =>
      mkUi (ui_rows ui) connected (ui_selected_id ui) (ui_details ui) (ui_details_found ui) (ui_error ui)
        (ui_toast ui) (ui_toast_open ui)
  | CtrlOperation op id url dest succeeded =>
      if succeeded then
        with_rows (match op with
                   | GUI_CONTROLLER_OPERATION_ADD => gui_model_add_local_row id url dest (ui_rows ui)
                   | GUI_CONTROLLER_OPERATION_PAUSE => gui_model_apply_optimistic id (str "PAUSED") (ui_rows ui)
                   | GUI_CONTROLLER_OPERATION_RESUME => gui_model_apply_optimistic id (str "QUEUED") (ui_rows ui)
                   | GUI_CONTROLLER_OPERATION_CANCEL => gui_model_apply_optimistic id (str "CANCELED") (ui_rows ui)
                   end) ui
      else ui
  | CtrlDetails id found details =>
      if id =? ui_selected_id ui then
        mkUi (ui_rows ui) (ui_connected ui) (ui_selected_id ui) details found (ui_error ui)
          (ui_toast ui) (ui_toast_open ui)
      else ui
  | CtrlError message =>
      mkUi (ui_rows ui) (ui_connected ui) (ui_selected_id ui) (ui_details ui) (ui_details_found ui)
        (strlcpy 256 message) (ui_toast ui) (ui_toast_open ui)
  end.

Fixpoint consume_loop (fuel : nat) (r : event_ring) (ui : UiState) : event_ring * UiState :=
  match fuel with
  | O => (r, ui)
  | S fuel' =>
      match gui_controller_poll r with
      | (Some e, r) => consume_loop fuel' r (apply_event e ui)
      | (None, r) => (r, ui)
      end
  end.

Definition consume_events (r : event_ring) (ui : UiState) : event_ring * UiState :=
  consume_loop (r_count r) r ui.

(** ** Lemmas *)

(** The event that ends a download, as the GUI reads it. *)
Lemma end_event sql_ok env cfg rc now d s :
  exists text num,
    s_events (download_thread_end sql_ok env cfg rc now d s) = s_events s ++ [mkEvent (d_id d) text num 1] /\
    cstring text /\ 0 < strlen text < 32 /\
    normalize_status text 16 = status_to_string (verdict cfg rc d).
Proof.
  unfold download_thread_end, verdict, publish, reset_retry.
  assert (forall t, t ∈ map fst status_map -> cstring t /\ 0 < strlen t < 32) as Ht.
  { intros t. unfold status_map. cbn [map fst]. rewrite !elem_of_cons, elem_of_nil.
    intros Hin. repeat (destruct Hin as [->|Hin]; [split; [vm_compute; repeat constructor|vm_compute; done]|]). done. }
  assert (forall t st num, t ∈ map fst status_map -> normalize_status t 16 = status_to_string st ->
    exists text num0, s_events s ++ [mkEvent (d_id d) t num 1] = s_events s ++ [mkEvent (d_id d) text num0 1] /\
      cstring text /\ 0 < strlen text < 32 /\ normalize_status text 16 = status_to_string st) as Hd.
  { intros t st num Hin E. exists t, num. destruct (Ht t Hin). done. }
  destruct (rc =? 0) eqn:E0; [apply Hd; [by repeat constructor|reflexivity]|].
  destruct (d_cancel_requested d); [case_bool_decide; apply Hd; (by repeat constructor) || reflexivity|].
  destruct (d_pause_requested d); [apply Hd; [by repeat constructor|reflexivity]|].
  destruct (Z.eqb_spec rc (-2)) as [->|H2]; [apply Hd; [by repeat constructor|reflexivity]|].
  destruct (Z.eqb_spec rc (-3)) as [->|H3]; [apply Hd; [by repeat constructor|reflexivity]|].
  destruct (Z.eqb_spec rc (-4)) as [->|H4]; [apply Hd; [by repeat constructor|reflexivity]|].
  cbn [orb]. rewrite (bool_decide_false (rc ∈ _)).
  2:{ rewrite !elem_of_cons, elem_of_nil. by intros [?|[?|[?|[]]]]. }
  destruct (Z.ltb_spec (d_retry_count d) (g_retry_max_attempts cfg)); cbn [orb].
  - rewrite (proj2 (Z.leb_gt _ _)) by lia. apply Hd; [by repeat constructor|reflexivity].
  - rewrite (proj2 (Z.leb_le _ _)) by lia. apply Hd; [by repeat constructor|reflexivity].
Qed.

Lemma pop_one {A} cap (blank : A) r x :
  ring_wf cap r -> ring_contents cap blank r = [x] ->
  ring_pop cap blank r = (Some x, ring_drop cap r) /\ ring_wf cap (ring_drop cap r) /\
  ring_contents cap blank (ring_drop cap r) = [] /\ r_count r = 1%nat.
Proof.
  intros Hw E. pose proof (ring_contents_length cap blank r) as Hl. rewrite E in Hl. simpl in Hl.
  destruct (ring_drop_spec cap blank r x [] Hw E) as (E1 & Hw' & E2).
  unfold ring_pop. rewrite <- Hl. cbn [Nat.eqb]. by rewrite E1.
Qed.

Lemma push_one {A} cap (blank : A) r x :
  (0 < cap)%nat -> ring_wf cap r -> ring_contents cap blank r = [] ->
  ring_push_drop cap x r = ring_store cap x r /\ ring_push cap x r = (true, ring_store cap x r) /\
  ring_wf cap (ring_store cap x r) /\ ring_contents cap blank (ring_store cap x r) = [x].
Proof.
  intros Hcap Hw E. pose proof (ring_contents_length cap blank r) as Hl. rewrite E in Hl. simpl in Hl.
  destruct (ring_store_spec cap blank x r Hw) as [Hw' E']; [lia|]. rewrite E in E'.
  unfold ring_push_drop, ring_push. rewrite <- Hl. destruct cap; [lia|]. done.
Qed.

Lemma pop_head {A} cap (blank : A) r x l :
  ring_wf cap r -> ring_contents cap blank r = x :: l ->
  ring_pop cap blank r = (Some x, ring_drop cap r) /\ ring_wf cap (ring_drop cap r) /\
  ring_contents cap blank (ring_drop cap r) = l /\ r_count r = S (length l).
Proof.
  intros Hw E. pose proof (ring_contents_length cap blank r) as Hl. rewrite E in Hl. simpl in Hl.
  destruct (ring_drop_spec cap blank r x l Hw E) as (E1 & Hw' & E2).
  unfold ring_pop. rewrite <- Hl. cbn [Nat.eqb]. by rewrite E1.
Qed.

Lemma push_room {A} cap (blank : A) r x :
  ring_wf cap r -> (r_count r < cap)%nat ->
  ring_push_drop cap x r = ring_store cap x r /\ ring_push cap x r = (true, ring_store cap x r) /\
  ring_wf cap (ring_store cap x r) /\ ring_contents cap blank (ring_store cap x r) = ring_contents cap blank r ++ [x].
Proof.
  intros Hw Hc. destruct (ring_store_spec cap blank x r Hw Hc) as [Hw' E'].
  unfold ring_push_drop, ring_push. rewrite (proj2 (Nat.eqb_neq _ _)) by lia. done.
Qed.

(** What the rings hold, the oldest first; that both have room: for one more
    event of the listener, and for moving all of these. *)
Abbreviation client_events g := (ring_contents GUI_EVENT_QUEUE_CAP zero_event (gc_events (gu_client g))).
Abbreviation controller_events r := (ring_contents GUI_CONTROLLER_EVENT_CAP blank_event r).

Record rings_have_room (g : Gui) : Prop := {
  rr_client : ring_wf GUI_EVENT_QUEUE_CAP (gc_events (gu_client g));
  rr_controller : ring_wf GUI_CONTROLLER_EVENT_CAP (gu_events g);
  rr_one_more : (length (client_events g) < GUI_EVENT_QUEUE_CAP)%nat;
  rr_all : (length (client_events g) + length (controller_events (gu_events g)) < GUI_CONTROLLER_EVENT_CAP)%nat;
}.

(** The screen after the events that were already under way. *)
Definition pending_screen (g : Gui) (ui : UiState) : UiState :=
  fold_left (fun ui e => apply_event e ui) (controller_events (gu_events g) ++ map translate_event (client_events g)) ui.

Lemma consume_contents r ui :
  ring_wf GUI_CONTROLLER_EVENT_CAP r ->
  snd (consume_events r ui) = fold_left (fun ui e => apply_event e ui) (controller_events r) ui.
Proof.
  unfold consume_events. rewrite <- (ring_contents_length GUI_CONTROLLER_EVENT_CAP blank_event r).
  remember (controller_events r) as l eqn:E. symmetry in E. revert r ui E. induction l as [|e l IH]; intros r ui E Hw; [done|].
  destruct (pop_head _ blank_event r e l Hw E) as (Q & Hw' & E' & _). cbn [length consume_loop fold_left].
  unfold gui_controller_poll. rewrite Q. by apply IH.
Qed.

Lemma publish_contents l g :
  client_events g = l -> ring_wf GUI_EVENT_QUEUE_CAP (gc_events (gu_client g)) ->
  ring_wf GUI_CONTROLLER_EVENT_CAP (gu_events g) ->
  (length l + length (controller_events (gu_events g)) <= GUI_CONTROLLER_EVENT_CAP)%nat ->
  let g1 := publish_client_events g in
  ring_wf GUI_CONTROLLER_EVENT_CAP (gu_events g1) /\
  controller_events (gu_events g1) = controller_events (gu_events g) ++ map translate_event l.
Proof.
  cbv zeta. unfold publish_client_events. intros E.
  rewrite <- (ring_contents_length GUI_EVENT_QUEUE_CAP zero_event), E.
  revert g E. induction l as [|e l IH]; intros g E Hw1 Hw2 Hc; [by rewrite app_nil_r|].
  destruct (pop_head _ zero_event _ e l Hw1 E) as (Q & Hw' & E' & _). cbn [length publish_client_loop].
  unfold on_client, gui_client_poll_event. rewrite Q. unfold publish_event, gui_controller_publish.
  cbn [gu_client gu_events gu_commands]. cbn [length] in Hc. pose proof (ring_contents_length GUI_CONTROLLER_EVENT_CAP blank_event (gu_events g)) as Hl.
  destruct (push_room GUI_CONTROLLER_EVENT_CAP blank_event (gu_events g) (translate_event e) Hw2 ltac:(lia)) as (_ & P & W & C).
  rewrite P. cbn [snd]. match goal with |- context [publish_client_loop _ ?g1] => specialize (IH g1) end.
  cbn [gu_client gc_events gu_events gu_commands] in IH. rewrite C in IH.
  destruct IH as [HW HC]; [done|done|done|rewrite length_app; simpl; lia|].
  split; [exact HW|]. rewrite HC, <- app_assoc. done.
Qed.

(** One event of the listener goes through to the rows. *)
Lemma event_to_rows e g ui :
  rings_have_room g ->
  let g1 := publish_client_events (mkGui (push_event e (gu_client g)) (gu_events g) (gu_commands g)) in
  snd (consume_events (gu_events g1) ui) = apply_event (translate_event e) (pending_screen g ui).
Proof.
  intros [Hw1 Hw2 Hr Ha]. cbv zeta.
  pose proof (ring_contents_length GUI_EVENT_QUEUE_CAP zero_event (gc_events (gu_client g))) as Hl.
  destruct (push_room GUI_EVENT_QUEUE_CAP zero_event (gc_events (gu_client g)) e Hw1 ltac:(lia)) as (P1 & _ & W1 & C1).
  unfold push_event. rewrite P1. match goal with |- context [publish_client_events ?g0] =>
    destruct (publish_contents (client_events g ++ [e]) g0) as [HW HC] end; [exact C1|exact W1|exact Hw2| |].
  { rewrite length_app. simpl. lia. }
  rewrite consume_contents by exact HW. rewrite HC. unfold pending_screen. cbn [gu_events].
  by rewrite map_app, app_assoc, fold_left_app.
Qed.

Lemma find_update_row id id' f rows :
  (forall r, gr_id (f r) = gr_id r) ->
  find_gui_row id' (update_row id f rows) =
    (if decide (id' = id) then f <$> find_gui_row id rows else find_gui_row id' rows).
Proof.
  intros Hf. unfold find_gui_row. induction rows as [|r rows IH]; cbn [update_row]; [by case_decide|].
  destruct (Z.eqb_spec (gr_id r) id) as [E|E]; cbn [list_find].
  - rewrite !Hf, (decide_True _ _ E). destruct (decide (id' = id)) as [->|Hne]; [by rewrite decide_True|].
    rewrite !decide_False by congruence. done.
  - rewrite (decide_False (P := gr_id r = id)) by done. destruct (decide (gr_id r = id')) as [E'|E'].
    + rewrite decide_False by congruence. done.
    + revert IH. destruct (list_find _ (update_row id f rows)) as [[i x]|], (list_find (fun r => gr_id r = id) rows) as [[j y]|],
        (list_find (fun r => gr_id r = id') rows) as [[k z]|]; simpl; case_decide; intros IH; try done; by simplify_eq.
Qed.

Lemma find_row_short id n rows :
  (length rows <= n)%nat -> find_gui_row id (gui_model_snapshot_rows n rows) = find_gui_row id rows.
Proof. intros H. unfold gui_model_snapshot_rows. by rewrite take_ge. Qed.

Lemma maybe_complete_rows old st ui : ui_rows (maybe_complete old st ui) = ui_rows ui.
Proof. unfold maybe_complete. destruct old; [|done]. by case_bool. Qed.

(** ** Properties *)

(** C26. The GUI shows the fate of a download.  The event with which a finished thread ends
    travels as a frame over the listener connection, through the two rings and the event loop.
    When the listener is connected, neither ring is full (the client's has room for this event,
    the controller's for all that are under way: an event that meets a full ring is dropped),
    and the screen as the events under way leave it has at most 256 rows, one of them that of
    the download, then that row gets exactly the status the queue and the database have, keeps
    its URL and destination, no other row changes, and the completion toast opens for this
    download exactly when it was not done before and is done now. *)
Theorem gui_shows_verdict sql_ok env cfg garbage rc now d s g c bits rest ui0 r :
  is_u32 (d_id d) -> is_u32 bits -> gc_listener (gu_client g) = Some c -> rings_have_room g ->
  let ui := pending_screen g ui0 in
  (length (ui_rows ui) <= GUI_MODEL_MAX_ROWS)%nat -> find_gui_row (d_id d) (ui_rows ui) = Some r ->
  let status := status_to_string (verdict cfg rc d) in
  exists e, s_events (download_thread_end sql_ok env cfg rc now d s) = s_events s ++ [e] /\
    (feeds (c_in c) (status_frame (ev_id e) bits (ev_text e) ++ rest) ->
     let g1 := publish_client_events
                 (mkGui (listener_round garbage true (gu_client g)) (gu_events g) (gu_commands g)) in
     let ui' := snd (consume_events (gu_events g1) ui0) in
     find_gui_row (d_id d) (ui_rows ui') = Some (mkGuiRow (gr_id r) (gr_url r) (gr_dest_path r) status bits) /\
     (forall id, id <> d_id d -> find_gui_row id (ui_rows ui') = find_gui_row id (ui_rows ui)) /\
     (if decide (gr_status r <> str "DONE" /\ status = str "DONE")
      then ui_toast_open ui' = true /\ gr_id (ui_toast ui') = gr_id r
      else ui_toast_open ui' = ui_toast_open ui /\ ui_toast ui' = ui_toast ui)).
Proof.
  intros Hid Hbits Hl Hroom ui Hlen Hr. cbv zeta.
  destruct (end_event sql_ok env cfg rc now d s) as (text & num & Ev & Hcs & Hsz & Hnorm).
  eexists. split; [exact Ev|]. cbn [ev_id ev_text]. intros Hf.
  destruct (listener_round_event garbage true (gu_client g) c (d_id d) bits text rest Hl Hid Hbits Hcs Hsz Hf)
    as (s0 & -> & _).
  set (cl := with_listener _ (gu_client g)).
  assert (rings_have_room (mkGui cl (gu_events g) (gu_commands g))) as Hroom' by (destruct Hroom; by split).
  pose proof (event_to_rows (mkGuiEvent GUI_EVT_STATUS_UPDATE (d_id d) (normalize_status text 16) bits)
                (mkGui cl (gu_events g) (gu_commands g)) ui0 Hroom') as H.
  cbv zeta in H. cbn [gu_client gu_events gu_commands] in H. rewrite H. clear H.
  change (pending_screen (mkGui cl (gu_events g) (gu_commands g)) ui0) with ui. clearbody ui.
  rewrite Hnorm. unfold translate_event. cbn [ge_type ge_download_id ge_status ge_progress].
  set (st := status_to_string (verdict cfg rc d)).
  assert (strlcpy 16 st = st /\ st <> []) as [Es Hne] by (subst st; by destruct (verdict cfg rc d)).
  rewrite Es. cbn [apply_event]. rewrite find_row_short, Hr by done.
  unfold gui_model_apply_status_update, with_rows. cbn [ui_rows ui_toast ui_toast_open].
  rewrite maybe_complete_rows. split; [|split].
  - rewrite find_update_row, decide_True, Hr by done. simpl. by rewrite bool_decide_false, Es.
  - intros id Hid'. by rewrite find_update_row, decide_False by done.
  - unfold maybe_complete. case_decide as Hd.
    + destruct Hd as [Hd1 Hd2]. rewrite (proj2 (streq_false _ _) Hd1), Hd2. rewrite streq_refl. done.
    + destruct (streq (gr_status r) (str "DONE")) eqn:Ea; [done|].
      destruct (streq st (str "DONE")) eqn:Eb; [|done]. destruct Hd.
      split; [by apply streq_false|by apply streq_true].
Qed.

(** ** The GUI runs *)

Definition gui_row : GuiRow := mkGuiRow 1 (str "http://h/f") (str "/d/f") (str "ACTIVE") 0.
Definition gui_screen : UiState := mkUi [gui_row] true 0 no_options false [] gui_row false.
Definition gui_idle (c : Conn) : Gui :=
  gui_controller_init (mkGC None (Some c) true (ring_init GUI_EVENT_QUEUE_CAP zero_event) []).

(** The frame of the cancel of Scheduler.v, in two pieces and with an interrupt. *)
Definition gui_stream : Conn :=
  let frame := status_frame 1 0 (str "Canceled") in
  mkConn [RData (take 11 frame); REintr; RBlock; RData (drop 11 frame)] [] [].

(** A progress report of the download is still in the client's ring. *)
Definition gui_behind : Gui :=
  let g := gui_idle gui_stream in
  mkGui (push_event (mkGuiEvent GUI_EVT_STATUS_UPDATE 1 (str "ACTIVE") 7) (gu_client g)) (gu_events g) (gu_commands g).

Lemma gui_behind_room : rings_have_room gui_behind.
Proof.
  destruct (ring_wf_init GUI_EVENT_QUEUE_CAP zero_event ltac:(unfold GUI_EVENT_QUEUE_CAP; lia)) as [W1 C1].
  destruct (ring_wf_init GUI_CONTROLLER_EVENT_CAP blank_event ltac:(unfold GUI_CONTROLLER_EVENT_CAP; lia)) as [W2 C2].
  destruct (push_one GUI_EVENT_QUEUE_CAP zero_event _ (mkGuiEvent GUI_EVT_STATUS_UPDATE 1 (str "ACTIVE") 7)
    ltac:(unfold GUI_EVENT_QUEUE_CAP; lia) W1 C1) as (P & _ & W & C).
  unfold gui_behind, gui_idle, gui_controller_init, push_event.
  split; cbn [gu_client gu_events gc_events]; rewrite ?P, ?C, ?C2; [done|done| |];
    unfold GUI_EVENT_QUEUE_CAP, GUI_CONTROLLER_EVENT_CAP; simpl; lia.
Qed.

Lemma gui_shows_verdict_witness :
  exists ui', ui' = snd (consume_events (gu_events (publish_client_events
      (mkGui (listener_round (fun _ _ => []) true (gu_client gui_behind))
         (gu_events gui_behind) (gu_commands gui_behind)))) gui_screen) /\
    find_gui_row 1 (ui_rows ui') = Some (mkGuiRow 1 (str "http://h/f") (str "/d/f") (str "CANCELED") 0).
Proof.
  eexists. split; [reflexivity|].
  assert (length (ui_rows (pending_screen gui_behind gui_screen)) <= GUI_MODEL_MAX_ROWS)%nat as Hn
    by (vm_compute; lia).
  assert (find_gui_row (d_id sched_canceled) (ui_rows (pending_screen gui_behind gui_screen)) =
    Some (mkGuiRow 1 (str "http://h/f") (str "/d/f") (str "ACTIVE") 7)) as Hr by (vm_compute; reflexivity).
  destruct (gui_shows_verdict always_ok permissive backoff_demo (fun _ _ => []) (-1) 100 sched_canceled
    (mkS (mkQM [sched_canceled] 2) sched_fs (Some sched_tables) []) gui_behind gui_stream 0 [] gui_screen
    _ ltac:(vm_compute; done) ltac:(vm_compute; done) eq_refl gui_behind_room Hn Hr)
    as (e & Ee & H).
  assert (e = mkEvent 1 (str "Canceled") 0 1) as ->.
  { assert (s_events (download_thread_end always_ok permissive backoff_demo (-1) 100 sched_canceled
              (mkS (mkQM [sched_canceled] 2) sched_fs (Some sched_tables) [])) = [mkEvent 1 (str "Canceled") 0 1])
      as E by (vm_compute; reflexivity). rewrite E in Ee. simpl in Ee. by injection Ee. }
  apply H. split; [repeat constructor; discriminate|]. vm_compute. reflexivity.
Defined.

(** A daemon that answers "rejected" twice: the GUI takes the answers for a dead
    connection, asks again over a new one, and reports a lost connection. *)
Definition rejecting : Conn := mkConn [RData [result_code IPC_RESULT_REJECTED]] [] [].

Example rejection_reported_as_lost :
  let g := mkGC (Some rejecting) None true (ring_init GUI_EVENT_QUEUE_CAP zero_event) [Some rejecting] in
  let '(ok, g') := gui_client_pause 7 g in
  ok = false /\ fst (gui_client_poll_event g') = Some (mkGuiEvent GUI_EVT_CONNECTION_LOST 0 [] 0).
Proof. vm_compute. done. Qed.

(** A command taken out of the ring still points to its slot: when the ring
    fills up before it is sent, it is sent with the cookie of another one. *)
Definition alias_add (cookie : bytes) (r : command_ring) : command_ring :=
  snd (gui_controller_enqueue_add (str "http://h/a") (str "/d/a")
         (Some (mkIpcOptions (Some cookie) None None None 0)) r).

Example dequeued_options_alias :
  let r0 := ring_init GUI_CONTROLLER_COMMAND_CAP (blank_command GUI_CONTROLLER_COMMAND_ADD 0) in
  match dequeue_command (alias_add (str "mine") r0) with
  | (Some c, r) =>
      let r' := Nat.iter 64 (alias_add (str "theirs")) r in
      (cookie <$> command_options (r_buf r) c) = Some (str "mine") /\
      (cookie <$> command_options (r_buf r') c) = Some (str "theirs")
  | (None, _) => False
  end.
Proof. vm_compute. done. Qed.
