(* ===== verification/Autostart.v ===== *)
(** * Login autostart ([src/platform/daemon_autostart.c])

    [cdm daemon enable|disable|status] edits the desktop entry in the user's
    autostart directory: reading and rewriting "key=value" lines, and deciding
    between the user's entry and the system's.  The environment variables, the
    own path of the executable and the permissions are parameters. *)

From S2P Require Import Prelude Path FileIo.

Definition PATH_MAX : Z := 4096.
Definition MAX_ENTRY_SIZE : Z := 65536.
Definition ENTRY_NAME : bytes := str "cdm-daemon.desktop".

(** ** Text *)

(** The pieces between separators; what follows the last separator only when it
    is not empty (the loops stop at the end of the string). *)
Fixpoint pieces (sep : Z) (cur s : bytes) : list bytes :=
  match s with
  | [] => match cur with [] => [] | _ => [cur] end
  | c :: s' => if c =? sep then cur :: pieces sep [] s' else pieces sep (cur ++ [c]) s'
  end.

Definition lines_of (content : bytes) : list bytes := pieces CH_NL [] content.

Definition DESKTOP_ENTRY : bytes := str "[Desktop Entry]".

(** [line] is "key=value". *)
Definition line_value (key line : bytes) : option bytes :=
  if (strlen key <? strlen line) && strprefix key line && bool_decide (line !! length key = Some 61)
  then Some (drop (S (length key)) line) else None.

(** The loop of [key_value]: inside the section, and the last value found. *)
Fixpoint key_loop (key : bytes) (size : Z) (section : bool) (value : option bytes) (ls : list bytes)
    : option bytes :=
  match ls with
  | [] => value
  | line :: ls' =>
      if (2 <=? strlen line) && bool_decide (head line = Some 91) then
        key_loop key size (streq line DESKTOP_ENTRY) value ls'
      else if section then
        match line_value key line with
        | Some v => key_loop key size section (Some (strlcpy size v)) ls'
        | None => key_loop key size section value ls'
        end
      else key_loop key size section value ls'
  end.

Definition key_value (content key : bytes) (size : Z) : option bytes :=
  key_loop key size false None (lines_of content).

(** [append]: the text so far, [None] when it does not fit. *)
Definition append (capacity : Z) (data out : bytes) : option bytes :=
  if capacity - strlen out <=? strlen data then None else Some (out ++ data).

Definition text_line (s : bytes) : bytes := s ++ [CH_NL].

Definition hidden_line (hidden : bool) : bytes := if hidden then str "Hidden=true" else str "Hidden=false".

(** ** toggle_hidden *)

Section Toggle.

(** [get_self_exe_path], empty when it fails. *)
Context (exe : bytes) (capacity : Z) (hidden : bool).

Record Toggle := mkToggle {
  tg_section : bool; tg_has_section : bool; tg_changed : bool; tg_extras : bool; tg_out : bytes }.

(** The keys an enabled entry needs and [source] lacks. *)
Record Needs := mkNeeds { need_type : bool; need_name : bool; need_exec : bool }.

Definition needs_of (source : bytes) : Needs :=
  mkNeeds (negb hidden && bool_decide (key_value source (str "Type") 32 = None))
    (negb hidden && bool_decide (key_value source (str "Name") 256 = None))
    (negb hidden && bool_decide (key_value source (str "Exec") PATH_MAX = None)).

Definition exec_line : bytes := str "Exec=" ++ exe ++ str " daemon".

(** The [extra] buffer has [PATH_MAX + 32] bytes. *)
Definition append_extras (n : Needs) (out : bytes) : option bytes :=
  out ← (if need_type n then append capacity (text_line (str "Type=Application")) out else Some out);
  out ← (if need_name n then append capacity (text_line (str "Name=Core Download Manager Daemon")) out
         else Some out);
  if need_exec n then
    if PATH_MAX + 32 <=? strlen (text_line exec_line) then None
    else append capacity (text_line exec_line) out
  else Some out.

Definition append_hidden (out : bytes) : option bytes := append capacity (text_line (hidden_line hidden)) out.

(** [strncmp(line, "Hidden=", 7) == 0] on a line of at least 7 bytes. *)
Definition is_hidden_line (line : bytes) : bool := strprefix (str "Hidden=") line.

(** One round of the loop. *)
Definition toggle_line (n : Needs) (line : bytes) (t : Toggle) : option Toggle :=
  let heading := bool_decide (head line = Some 91) in
  out ← (if heading && tg_section t && negb (tg_changed t) then append_hidden (tg_out t) else Some (tg_out t));
  let changed := tg_changed t || (heading && tg_section t) in
  out ← (if heading && tg_section t && negb (tg_extras t) then append_extras n out else Some out);
  let extras := tg_extras t || (heading && tg_section t) in
  let section := if heading then streq line DESKTOP_ENTRY else tg_section t in
  let has_section := if heading then tg_has_section t || section else tg_has_section t in
  if section && is_hidden_line line then
    if changed then Some (mkToggle section has_section changed extras out)
    else out ← append_hidden out; Some (mkToggle section has_section true extras out)
  else
    out ← append capacity line out;
    out ← append capacity [CH_NL] out;
    Some (mkToggle section has_section changed extras out).

Fixpoint toggle_loop (n : Needs) (ls : list bytes) (t : Toggle) : option Toggle :=
  match ls with
  | [] => Some t
  | line :: ls' => t ← toggle_line n line t; toggle_loop n ls' t
  end.

Definition toggle_hidden (source : bytes) : option bytes :=
  let n := needs_of source in
  if need_exec n && negb (bool_decide (head exe = Some CH_SLASH)) then None
  else
    t ← toggle_loop n (lines_of source) (mkToggle false false false false []);
    if negb (tg_has_section t) then None
    else
      out ← (if tg_changed t then Some (tg_out t) else append_hidden (tg_out t));
      if tg_extras t then Some out else append_extras n out.

End Toggle.

(** ** Entries *)

Section Autostart.

Context (env : IoEnv).
(** [getenv]; [access (p, X_OK)]; the owner of a path is the user; the content
    of a new file can be written. *)
Context (xdg_config_home home xdg_config_dirs path_var : option bytes).
Context (x_ok owned : bytes -> bool) (write_ok : bool) (exe : bytes).

Definition join_entry (size : Z) (base suffix : bytes) : option bytes :=
  let p := base ++ CH_SLASH :: suffix in
  if strlen p <? size then Some p else None.

Definition absolute (p : bytes) : bool := bool_decide (head p = Some CH_SLASH).

Definition user_entry_path : option bytes :=
  config ← match xdg_config_home with
           | Some c => if absolute c then Some c else
               match home with
               | Some h => if absolute h then join_entry PATH_MAX h (str ".config") else None
               | None => None
               end
           | None =>
               match home with
               | Some h => if absolute h then join_entry PATH_MAX h (str ".config") else None
               | None => None
               end
           end;
  autostart ← join_entry PATH_MAX config (str "autostart");
  join_entry PATH_MAX autostart ENTRY_NAME.

(** The first existing entry of the system directories. *)
Fixpoint system_loop (fs : filesystem) (parts : list bytes) : option bytes :=
  match parts with
  | [] => None
  | part :: parts' =>
      match (if absolute part && (strlen part <? PATH_MAX)
             then dir ← join_entry PATH_MAX part (str "autostart"); join_entry PATH_MAX dir ENTRY_NAME
             else None) with
      | Some candidate => if access_ok env fs candidate then Some candidate else system_loop fs parts'
      | None => system_loop fs parts'
      end
  end.

Definition system_entry_path (fs : filesystem) : option bytes :=
  let dirs := match xdg_config_dirs with
              | Some d => if bool_decide (d = []) then str "/etc/xdg" else d
              | None => str "/etc/xdg"
              end in
  system_loop fs (pieces 58 [] dirs).

Inductive entry := NoEntry | BadEntry | EntryText (content : bytes).

(** The buffer ends at its first NUL. *)
Definition until_nul (s : bytes) : bytes :=
  match strchr s CH_NUL with Some i => take i s | None => s end.

Definition read_entry (path : bytes) (user_file : bool) (fs : filesystem) : entry :=
  match lstat env fs path with
  | inl e => if decide (e = ENOENT) then NoEntry else BadEntry
  | inr (NReg f) =>
      if (MAX_ENTRY_SIZE <? reg_size f) || (user_file && negb (owned path)) then BadEntry
      else EntryText (until_nul (reg_content f))
  | inr _ => BadEntry
  end.

(** [strtok_r] skips empty pieces. *)
Definition executable (value : bytes) : bool :=
  if bool_decide (value = []) then false
  else if bool_decide (CH_SLASH ∈ value) then x_ok value
  else
    match path_var with
    | None => false
    | Some path =>
        existsb (fun dir => match join_entry PATH_MAX dir value with Some c => x_ok c | None => false end)
          (filter (fun p => p <> []) (pieces 58 [] path))
    end.

Definition entry_enabled (content : bytes) : bool :=
  bool_decide (key_value content (str "Type") 32 = Some (str "Application")) &&
  match key_value content (str "Exec") PATH_MAX with Some (_ :: _) => true | _ => false end &&
  negb (bool_decide (key_value content (str "Hidden") 16 = Some (str "true"))) &&
  match key_value content (str "TryExec") PATH_MAX with Some v => executable v | None => true end.

(** [None] is -1. *)
Definition system_entry_enabled (fs : filesystem) : option bool :=
  match system_entry_path fs with
  | None => Some false
  | Some path =>
      match read_entry path false fs with
      | EntryText content => Some (entry_enabled content)
      | _ => None
      end
  end.

Definition ensure_user_dir (p : bytes) (fs : filesystem) : bool * filesystem :=
  match strrchr p CH_SLASH with
  | None => (false, fs)
  | Some i =>
      let dir := take i p in
      let '(ok, fs) := match lstat env fs dir with
                       | inl ENOENT => file_ensure_directory env fs dir
                       | inl _ => (false, fs)
                       | inr _ => (true, fs)
                       end in
      (ok && match lstat env fs dir with inr NDir => owned dir | _ => false end, fs)
  end.

(** A temporary file takes the place of the entry in one step. *)
Definition write_entry (path content : bytes) (fs : filesystem) : bool * filesystem :=
  let '(ok, fs) := ensure_user_dir path fs in
  if negb ok then (false, fs)
  else
    match read_entry path true fs with
    | BadEntry => (false, fs)
    | _ =>
        if PATH_MAX <=? strlen path + strlen (str ".tmp.XXXXXX") then (false, fs)
        else if write_ok then (true, <[path := NReg (reg_pwrite empty_reg 0 content)]> fs)
        else (false, fs)
    end.

Inductive AutostartAction := AUTOSTART_WROTE | AUTOSTART_UPDATED | AUTOSTART_REMOVED | AUTOSTART_USING_SYSTEM.

Definition disabled_entry : bytes :=
  text_line (str "[Desktop Entry]") ++ text_line (str "Type=Application") ++
  text_line (str "Name=Core Download Manager Daemon") ++ text_line (str "Hidden=true") ++
  text_line (str "X-CDM-Generated=true").

Definition enabled_entry : bytes :=
  text_line (str "[Desktop Entry]") ++ text_line (str "Type=Application") ++
  text_line (str "Name=Core Download Manager Daemon") ++ text_line (exec_line exe) ++
  text_line (str "TryExec=" ++ exe) ++ text_line (str "Terminal=false") ++ text_line (str "NoDisplay=true") ++
  text_line (str "Hidden=false") ++ text_line (str "X-CDM-Generated=true").

(** The part of [set_enabled] for an entry that is not there or was made by
    this program; [had_entry] whether there was one. *)
Definition write_fresh (enabled had_entry : bool) (path : bytes) (fs : filesystem)
    : option AutostartAction * filesystem :=
  let done_ := if had_entry then AUTOSTART_UPDATED else AUTOSTART_WROTE in
  if negb enabled then
    let '(ok, fs) := write_entry path disabled_entry fs in (if ok then Some done_ else None, fs)
  else
    match system_entry_enabled fs with
    | None => (None, fs)
    | Some true => (Some AUTOSTART_USING_SYSTEM, fs)
    | Some false =>
        if negb (absolute exe) then (None, fs)
        else if PATH_MAX * 2 <=? strlen enabled_entry then (None, fs)
        else let '(ok, fs) := write_entry path enabled_entry fs in (if ok then Some done_ else None, fs)
    end.

Definition generated (content : bytes) : bool :=
  bool_decide (key_value content (str "X-CDM-Generated") 16 = Some (str "true")).

Definition set_enabled (enabled : bool) (fs : filesystem) : option AutostartAction * filesystem :=
  match user_entry_path with
  | None => (None, fs)
  | Some path =>
      match read_entry path true fs with
      | BadEntry => (None, fs)
      | NoEntry => write_fresh enabled false path fs
      | EntryText current =>
          if enabled && generated current then
            match system_entry_enabled fs with
            | None => (None, fs)
            | Some true =>
                if env_deny env path then (None, fs) else (Some AUTOSTART_REMOVED, unlink env fs path)
            | Some false => write_fresh enabled true path fs
            end
          else
            match toggle_hidden exe (MAX_ENTRY_SIZE + 128) (negb enabled) current with
            | None => (None, fs)
            | Some updated =>
                let '(ok, fs) := write_entry path updated fs in (if ok then Some AUTOSTART_UPDATED else None, fs)
            end
      end
  end.

(** What [show_status] prints: [None] for an error, [Some None] without an
    entry. *)
Definition autostart_status (fs : filesystem) : option (option bool) :=
  match user_entry_path with
  | None => None
  | Some path =>
      match read_entry path true fs with
      | BadEntry => None
      | EntryText content => Some (Some (entry_enabled content))
      | NoEntry =>
          match system_entry_path fs with
          | None => Some None
          | Some spath =>
              match read_entry spath false fs with
              | EntryText content => Some (Some (entry_enabled content))
              | _ => None
              end
          end
      end
  end.

(** The exit status; [status] reads only (what it prints about the process of
    the daemon is left out). *)
Definition daemon_autostart_command (action : bytes) (fs : filesystem) : Z * filesystem :=
  let finish r := match fst r with Some _ => (0, snd r) | None => (1, snd r) end in
  if streq action (str "enable") then finish (set_enabled true fs)
  else if streq action (str "disable") then finish (set_enabled false fs)
  else if streq action (str "status") then (match autostart_status fs with Some _ => 0 | None => 1 end, fs)
  else (1, fs).

End Autostart.

(** ** Lemmas: lines *)

Definition join (ls : list bytes) : bytes := concat (map text_line ls).

Lemma join_app a b : join (a ++ b) = join a ++ join b.
Proof. unfold join. by rewrite map_app, concat_app. Qed.

Lemma pieces_line sep cur l rest :
  sep ∉ l -> pieces sep cur (l ++ sep :: rest) = (cur ++ l) :: pieces sep [] rest.
Proof.
  revert cur. induction l as [|c l IH]; intros cur Hn; cbn [app pieces].
  - by rewrite Z.eqb_refl, app_nil_r.
  - apply not_elem_of_cons in Hn as [Hc Hn]. rewrite (proj2 (Z.eqb_neq c sep)) by done.
    by rewrite IH, <- app_assoc.
Qed.

Lemma lines_of_join ls : Forall (fun l => CH_NL ∉ l) ls -> lines_of (join ls) = ls.
Proof.
  unfold lines_of, join. induction 1 as [|l ls Hl _ IH]; [done|]. cbn [map concat]. unfold text_line at 1.
  rewrite <- app_assoc. cbn [app]. by rewrite pieces_line, IH.
Qed.

Lemma pieces_free sep cur s : sep ∉ cur -> Forall (fun l => sep ∉ l) (pieces sep cur s).
Proof.
  revert cur. induction s as [|c s IH]; intros cur Hc; cbn [pieces].
  - destruct cur; [constructor|by constructor].
  - destruct (Z.eqb_spec c sep) as [->|Hne]; [constructor; [done|apply IH, not_elem_of_nil]|].
    apply IH. rewrite elem_of_app, list_elem_of_singleton. intros [?|?]; congruence.
Qed.

Lemma lines_of_free s : Forall (fun l => CH_NL ∉ l) (lines_of s).
Proof. apply pieces_free, not_elem_of_nil. Qed.

Lemma line_value_Some key line v : line_value key line = Some v <-> line = key ++ 61 :: v.
Proof.
  unfold line_value. split.
  - destruct (_ && _) eqn:E; [|done]. intros [= <-]. apply andb_true_iff in E as [[_ E1]%andb_true_iff E2].
    apply strprefix_spec in E1 as [t ->]. apply bool_decide_eq_true in E2.
    rewrite lookup_app_r, Nat.sub_diag in E2 by lia. destruct t as [|x t]; [done|]. injection E2 as ->.
    f_equal. f_equal. rewrite drop_app_ge by lia. by replace (S (length key) - length key)%nat with 1%nat by lia.
  - intros ->. rewrite strlen_app. rewrite (proj2 (Z.ltb_lt _ _)).
    2:{ unfold strlen. simpl. lia. }
    rewrite (proj2 (strprefix_spec _ _)) by eauto. rewrite bool_decide_true.
    2:{ by rewrite lookup_app_r, Nat.sub_diag by lia. }
    cbn [andb]. rewrite drop_app_ge by lia. by replace (S (length key) - length key)%nat with 1%nat by lia.
Qed.

(** A line has one key. *)
Lemma line_key_unique k k' v v' : 61 ∉ k -> 61 ∉ k' -> k ++ 61 :: v = k' ++ 61 :: v' -> k = k' /\ v = v'.
Proof.
  revert k'. induction k as [|c k IH]; intros [|c' k'] Hk Hk' E; simpl in E; injection E.
  - by intros ->.
  - intros _ <-. destruct Hk'. by left.
  - intros _ ->. destruct Hk. by left.
  - intros E' ->. apply not_elem_of_cons in Hk as [_ Hk], Hk' as [_ Hk'].
    destruct (IH k' Hk Hk' E') as [-> ->]. done.
Qed.

Lemma line_value_other k k' v : 61 ∉ k -> 61 ∉ k' -> k <> k' -> line_value k (k' ++ 61 :: v) = None.
Proof.
  intros Hk Hk' Hne. destruct (line_value k _) as [u|] eqn:E; [|done].
  apply line_value_Some in E. by destruct (line_key_unique k' k v u Hk' Hk E).
Qed.

Lemma line_value_same k v : line_value k (k ++ 61 :: v) = Some v.
Proof. by apply line_value_Some. Qed.

(** *** The scan as a fold *)

Definition heading (line : bytes) : bool := bool_decide (head line = Some 91).

Definition key_step (key : bytes) (size : Z) (st : bool * option bytes) (line : bytes) : bool * option bytes :=
  if (2 <=? strlen line) && heading line then (streq line DESKTOP_ENTRY, snd st)
  else if fst st then
    (true, match line_value key line with Some v => Some (strlcpy size v) | None => snd st end)
  else st.

Lemma key_loop_fold key size ls s v :
  key_loop key size s v ls = snd (fold_left (key_step key size) ls (s, v)).
Proof.
  revert s v. induction ls as [|l ls IH]; intros s v; [done|]. cbn [key_loop fold_left]. unfold key_step at 2.
  cbn [fst snd]. fold (heading l). destruct (_ && heading l); [by rewrite IH|].
  destruct s; [|by rewrite IH]. by destruct (line_value key l); rewrite IH.
Qed.

(** Once found, found; and whatever the size of the buffer. *)
Lemma key_fold_none key size ls st :
  snd (fold_left (key_step key size) ls st) = None -> snd st = None.
Proof.
  revert st. induction ls as [|l ls IH]; intros st H; [done|]. apply IH in H. unfold key_step in H.
  destruct (_ && _); [done|]. destruct (fst st); [|done]. by destruct (line_value key l).
Qed.

Lemma key_fold_size key n m ls s v w :
  (v = None <-> w = None) ->
  fst (fold_left (key_step key n) ls (s, v)) = fst (fold_left (key_step key m) ls (s, w)) /\
  (snd (fold_left (key_step key n) ls (s, v)) = None <-> snd (fold_left (key_step key m) ls (s, w)) = None).
Proof.
  revert s v w. induction ls as [|l ls IH]; intros s v w H; [done|]. cbn [fold_left]. unfold key_step at 2 4 6 8.
  cbn [fst snd]. destruct (_ && _); [by apply IH|]. destruct s; [|by apply IH]. apply IH.
  by destruct (line_value key l).
Qed.

Lemma key_value_size content key n m : key_value content key n = None <-> key_value content key m = None.
Proof. unfold key_value. rewrite !key_loop_fold. by apply key_fold_size. Qed.

(** ** Lemmas: toggle_hidden *)

Lemma append_Some cap data out o : append cap data out = Some o -> o = out ++ data.
Proof. unfold append. case_match; [done|]. by intros [= <-]. Qed.

Definition HIDDEN : bytes := str "Hidden".

Lemma hidden_line_text b : hidden_line b = HIDDEN ++ 61 :: (if b then str "true" else str "false").
Proof. destruct b; vm_compute; reflexivity. Qed.

Lemma hidden_line_plain b : heading (hidden_line b) = false.
Proof. by destruct b. Qed.

(** By computation on a literal. *)
Lemma not_elem_str c (s : bytes) : bool_decide (c ∈ s) = false -> c ∉ s.
Proof. by intros ?%bool_decide_eq_false. Qed.

Section ToggleLemmas.

Context (exe : bytes) (capacity : Z) (hidden : bool) (source : bytes).
Hypothesis exe_line : CH_NL ∉ exe.
Hypothesis no_bracket : Forall (fun l => l <> [91]) (lines_of source).

Abbreviation n := (needs_of hidden source).

Definition extra_lines : list bytes :=
  (if need_type n then [str "Type=Application"] else []) ++
  (if need_name n then [str "Name=Core Download Manager Daemon"] else []) ++
  (if need_exec n then [exec_line exe] else []).

(** What one round of the loop puts out. *)
Definition emitted (line : bytes) (t : Toggle) : list bytes :=
  let changed := tg_changed t || (heading line && tg_section t) in
  let section := if heading line then streq line DESKTOP_ENTRY else tg_section t in
  (if heading line && tg_section t && negb (tg_changed t) then [hidden_line hidden] else []) ++
  (if heading line && tg_section t && negb (tg_extras t) then extra_lines else []) ++
  (if section && is_hidden_line line then if changed then [] else [hidden_line hidden] else [line]).

Definition after_line (line : bytes) (t : Toggle) (out : bytes) : Toggle :=
  let section := if heading line then streq line DESKTOP_ENTRY else tg_section t in
  mkToggle section (if heading line then tg_has_section t || section else tg_has_section t)
    (tg_changed t || (heading line && tg_section t) || (section && is_hidden_line line))
    (tg_extras t || (heading line && tg_section t)) out.

Lemma append_extras_out out o : append_extras exe capacity n out = Some o -> o = out ++ join extra_lines.
Proof.
  unfold append_extras, extra_lines. destruct (need_type n), (need_name n), (need_exec n); cbn [mbind option_bind app];
    repeat match goal with
           | |- context [append ?c ?d ?x] => destruct (append c d x) as [?|] eqn:?; [|done]; cbn [mbind option_bind]
           | H : append _ _ _ = Some _ |- _ => apply append_Some in H as ->
           | |- context [if ?b then _ else _] => destruct b; [done|]
           end; intros E; simplify_eq; try (apply append_Some in E as ->);
    unfold join; cbn [map concat]; rewrite ?app_nil_r, <- ?app_assoc; done.
Qed.

Lemma append_hidden_out out o :
  append_hidden capacity hidden out = Some o -> o = out ++ join [hidden_line hidden].
Proof. intros E. apply append_Some in E as ->. unfold join. cbn [map concat]. by rewrite app_nil_r. Qed.

Lemma toggle_line_out line t t' :
  toggle_line exe capacity hidden n line t = Some t' ->
  t' = after_line line t (tg_out t ++ join (emitted line t)).
Proof.
  unfold toggle_line, emitted, after_line. fold (heading line).
  set (sec := if heading line then _ else _). rewrite !join_app.
  destruct (if heading line && tg_section t && negb (tg_changed t) then append_hidden _ _ _ else _)
    as [o1|] eqn:E1; [|done]. cbn [mbind option_bind].
  assert (o1 = tg_out t ++ join (if heading line && tg_section t && negb (tg_changed t)
                                 then [hidden_line hidden] else [])) as ->.
  { destruct (_ && negb (tg_changed t)); [by apply append_hidden_out|]. injection E1 as <-. by rewrite app_nil_r. }
  destruct (if heading line && tg_section t && negb (tg_extras t) then append_extras _ _ _ _ else _)
    as [o2|] eqn:E2; [|done]. cbn [mbind option_bind]. rewrite app_assoc.
  assert (o2 = (tg_out t ++ join (if heading line && tg_section t && negb (tg_changed t)
                                 then [hidden_line hidden] else [])) ++
               join (if heading line && tg_section t && negb (tg_extras t) then extra_lines else [])) as ->.
  { destruct (heading line && tg_section t && negb (tg_extras t)); [by apply append_extras_out|].
    injection E2 as <-. by rewrite app_nil_r. }
  rewrite (app_assoc (tg_out t ++ _)). set (o := (_ ++ _) ++ _). clearbody o. clear E1 E2.
  destruct (sec && is_hidden_line line).
  - destruct (tg_changed t || heading line && tg_section t); cbn [orb].
    + intros [= <-]. by rewrite app_nil_r.
    + destruct (append_hidden _ _ _) as [o3|] eqn:E3; [|done]. intros [= <-]. by rewrite (append_hidden_out _ _ E3).
  - rewrite orb_false_r. destruct (append _ line o) as [o3|] eqn:E3; [|done]. cbn [mbind option_bind].
    destruct (append _ _ o3) as [o4|] eqn:E4; [|done]. intros [= <-].
    apply append_Some in E3 as ->. apply append_Some in E4 as ->.
    unfold join, text_line. cbn [map concat]. by rewrite app_nil_r, app_assoc.
Qed.

(** *** What a reader of the new text finds *)

Definition hidden_text : bytes := if hidden then str "true" else str "false".

Lemma key_step_plain k size v line :
  heading line = false ->
  key_step k size (true, v) line =
    (true, match line_value k line with Some u => Some (strlcpy size u) | None => v end).
Proof. intros H. unfold key_step. by rewrite H, andb_false_r. Qed.

Lemma hidden_line_value k size v :
  61 ∉ k ->
  key_step k size (true, v) (hidden_line hidden) =
    (true, if decide (k = HIDDEN) then Some (strlcpy size hidden_text) else v).
Proof.
  intros Hk. rewrite key_step_plain by apply hidden_line_plain. rewrite hidden_line_text. fold hidden_text.
  case_decide as Hd.
  - by rewrite Hd, line_value_same.
  - rewrite line_value_other; [done|done| |done]. by apply not_elem_str.
Qed.

(** The value of a key the new lines give. *)
Definition extra_of (k : bytes) (size : Z) : option bytes :=
  if decide (k = str "Type") then if need_type n then Some (strlcpy size (str "Application")) else None
  else if decide (k = str "Name") then
    if need_name n then Some (strlcpy size (str "Core Download Manager Daemon")) else None
  else if decide (k = str "Exec") then
    if need_exec n then Some (strlcpy size (exe ++ str " daemon")) else None
  else None.

Lemma extra_value k size v (key value : bytes) line (need : bool) :
  61 ∉ k -> 61 ∉ key -> line = key ++ 61 :: value -> heading line = false ->
  fold_left (key_step k size) (if need then [line] else []) (true, v) =
    (true, if need then if decide (k = key) then Some (strlcpy size value) else v else v).
Proof.
  intros Hk Hkey -> Hh. destruct need; [|done]. cbn [fold_left]. rewrite key_step_plain by done.
  case_decide as Hd; [by rewrite Hd, line_value_same|by rewrite line_value_other].
Qed.

Lemma extras_value k size v :
  61 ∉ k ->
  fold_left (key_step k size) extra_lines (true, v) =
    (true, match extra_of k size with Some x => Some x | None => v end).
Proof.
  intros Hk. unfold extra_lines, extra_of. rewrite !fold_left_app.
  rewrite (extra_value k size v (str "Type") (str "Application")) by done || by apply not_elem_str.
  rewrite (extra_value k size _ (str "Name") (str "Core Download Manager Daemon")) by done || by apply not_elem_str.
  rewrite (extra_value k size _ (str "Exec") (exe ++ str " daemon")) by done || by apply not_elem_str.
  f_equal. repeat case_decide; subst; try done; by destruct (need_type n), (need_name n), (need_exec n).
Qed.

Context (k : bytes) (size hsize : Z).
Hypothesis k_key : 61 ∉ k.
Hypothesis k_other : k <> HIDDEN.

(** Source and output read so far are in the same section; the output has the
    values of the source, then those of the new lines. *)
Record tg_inv (E : list bytes) (src : bool * option bytes) (t : Toggle) : Prop := {
  ti_out : tg_out t = join E;
  ti_free : Forall (fun l => CH_NL ∉ l) E;
  ti_sec : fst src = tg_section t;
  ti_key : fold_left (key_step k size) E (false, None) =
    (tg_section t, match snd src with Some v => Some v | None => if tg_extras t then extra_of k size else None end);
  ti_hidden : fold_left (key_step HIDDEN hsize) E (false, None) =
    (tg_section t, if tg_changed t then Some (strlcpy hsize hidden_text) else None);
  ti_changed : tg_changed t = false -> tg_has_section t = tg_section t;
  ti_extras : tg_extras t = false -> tg_has_section t = tg_section t;
}.

Lemma extra_free : Forall (fun l => CH_NL ∉ l) extra_lines.
Proof.
  unfold extra_lines. repeat apply Forall_app_2; case_match; repeat constructor; try by apply not_elem_str.
  unfold exec_line. rewrite !elem_of_app. intros [|[|]]; [by apply (not_elem_str 10 (str "Exec="))|done|
    by apply (not_elem_str 10 (str " daemon"))].
Qed.

Lemma hidden_free : Forall (fun l => CH_NL ∉ l) [hidden_line hidden].
Proof. constructor; [|constructor]. destruct hidden; by apply not_elem_str. Qed.

Lemma emitted_free line t : CH_NL ∉ line -> Forall (fun l => CH_NL ∉ l) (emitted line t).
Proof.
  intros Hl. unfold emitted. pose proof extra_free. pose proof hidden_free.
  repeat apply Forall_app_2; repeat case_match; try done; by constructor.
Qed.

Lemma hidden_line_not_heading line : is_hidden_line line = true -> heading line = false.
Proof. intros [t ->]%strprefix_spec. done. Qed.

Lemma hidden_line_key line :
  line_value HIDDEN line = None \/ is_hidden_line line = true /\ line_value k line = None.
Proof.
  destruct (line_value HIDDEN line) as [v|] eqn:E; [right|by left]. apply line_value_Some in E as ->. split.
  - apply strprefix_spec. by exists v.
  - apply line_value_other; [done|by apply not_elem_str|done].
Qed.

(** The lines put in before a heading. *)
Lemma before_heading t v w :
  (extra_of k size <> None -> v = None) ->
  let E := (if negb (tg_changed t) then [hidden_line hidden] else []) ++
           (if negb (tg_extras t) then extra_lines else []) in
  fold_left (key_step k size) E (true, match v with Some x => Some x | None => if tg_extras t then extra_of k size else None end) =
    (true, match v with Some x => Some x | None => extra_of k size end) /\
  fold_left (key_step HIDDEN hsize) E (true, if tg_changed t then Some (strlcpy hsize hidden_text) else w) =
    (true, Some (strlcpy hsize hidden_text)).
Proof.
  intros Hx. cbv zeta. rewrite !fold_left_app.
  assert (61 ∉ HIDDEN) as HH by by apply not_elem_str.
  assert (extra_of HIDDEN hsize = None) as Eh by done.
  destruct (tg_changed t), (tg_extras t); cbn [negb fold_left];
    rewrite ?hidden_line_value, ?decide_True, ?(decide_False (P := k = HIDDEN)), ?extras_value, ?Eh by done;
    (split; [|done]); try (by destruct v); destruct (extra_of k size) as [x|];
    try (rewrite Hx by done); by destruct v.
Qed.

Lemma tg_step_heading E src t line :
  heading line = true -> tg_inv E src t -> line <> [91] -> CH_NL ∉ line -> (extra_of k size <> None -> snd src = None) ->
  tg_inv (E ++ emitted line t) (key_step k size src line)
    (after_line line t (tg_out t ++ join (emitted line t))).
Proof.
  intros Eh [Ho Hf Hs Hk Hh Hc He] Hline Hnl Hx.
  assert (tg_out (after_line line t (tg_out t ++ join (emitted line t))) = join (E ++ emitted line t)) as Ho'.
  { simpl. by rewrite join_app, Ho. }
  assert (Forall (fun l => CH_NL ∉ l) (E ++ emitted line t)) as Hf'.
  { apply Forall_app_2; [done|by apply emitted_free]. }
  assert ((2 <=? strlen line) = true) as H2.
  { unfold heading in Eh. apply bool_decide_eq_true in Eh. destruct line as [|c [|c' l]]; try done.
    - simpl in Eh. injection Eh as ->. done.
    - apply Z.leb_le. unfold strlen. cbn [length]. lia. }
  assert (is_hidden_line line = false) as Hh'.
  { destruct (is_hidden_line line) eqn:Ei; [|done]. by rewrite (hidden_line_not_heading _ Ei) in Eh. }
  assert (forall key sz st, key_step key sz st line = (streq line DESKTOP_ENTRY, snd st)) as Hst.
  { intros key sz st. unfold key_step. by rewrite Eh, H2. }
  assert (emitted line t = (if tg_section t then
      (if negb (tg_changed t) then [hidden_line hidden] else []) ++
      (if negb (tg_extras t) then extra_lines else []) else []) ++ [line]) as Eem.
  { unfold emitted. rewrite Eh, Hh'. rewrite andb_false_r. by destruct (tg_section t), (tg_changed t), (tg_extras t). }
  pose proof (before_heading t (snd src) None Hx) as [B1 B2].
  split; try done; rewrite ?Hst; unfold after_line; rewrite ?Eh, ?Hh'; cbn [tg_section tg_extras tg_changed tg_has_section fst snd]; try done.
  + rewrite fold_left_app, Eem, fold_left_app, Hk. cbn [fold_left]. rewrite Hst.
    destruct (tg_section t); cbn [fold_left]; rewrite ?B1; f_equal;
      destruct (tg_extras t), (snd src); cbn [andb orb snd]; done.
  + rewrite fold_left_app, Eem, fold_left_app, Hh, andb_false_r, orb_false_r. cbn [fold_left]. rewrite Hst.
    destruct (tg_section t); cbn [fold_left]; rewrite ?B2; f_equal; destruct (tg_changed t); done.
  + rewrite andb_false_r, orb_false_r. cbn [andb]. intros [Hc1 Hs1]%orb_false_iff.
    rewrite Hc, Hs1 by done. done.
  + cbn [andb]. intros [He1 Hs1]%orb_false_iff. rewrite He, Hs1 by done. done.
Qed.

Lemma tg_step_plain E src t line :
  heading line = false -> tg_inv E src t -> CH_NL ∉ line ->
  tg_inv (E ++ emitted line t) (key_step k size src line)
    (after_line line t (tg_out t ++ join (emitted line t))).
Proof.
  intros Eh [Ho Hf Hs Hk Hh Hc He] Hnl.
  assert (tg_out (after_line line t (tg_out t ++ join (emitted line t))) = join (E ++ emitted line t)) as Ho'.
  { simpl. by rewrite join_app, Ho. }
  assert (Forall (fun l => CH_NL ∉ l) (E ++ emitted line t)) as Hf'.
  { apply Forall_app_2; [done|by apply emitted_free]. }
  assert (emitted line t = if tg_section t && is_hidden_line line then
            if tg_changed t then [] else [hidden_line hidden] else [line]) as Eem.
  { unfold emitted. rewrite Eh. cbn [andb app]. by rewrite orb_false_r. }
  assert (forall key sz v, key_step key sz (true, v) line =
            (true, match line_value key line with Some u => Some (strlcpy sz u) | None => v end)) as Hst.
  { intros key sz v. by apply key_step_plain. }
  assert (forall key sz v, key_step key sz (false, v) line = (false, v)) as Hst0.
  { intros key sz v. unfold key_step. by rewrite Eh, andb_false_r. }
  assert (61 ∉ HIDDEN) as HH by by apply not_elem_str.
  pose proof (hidden_line_key line) as Hhk.
  destruct src as [sec vs]. cbn [fst snd] in *. subst sec.
  split; try done; unfold after_line; rewrite ?Eh; cbn [tg_section tg_extras tg_changed tg_has_section andb];
    rewrite ?orb_false_r.
  + destruct (tg_section t); by rewrite ?Hst, ?Hst0.
  + rewrite fold_left_app, Hk, Eem. destruct (tg_section t); cbn [andb]; [|cbn [fold_left]; by rewrite !Hst0].
    rewrite Hst. cbn [snd]. destruct (is_hidden_line line) eqn:Ei.
    * assert (line_value k line = None) as ->.
      { apply strprefix_spec in Ei as [v ->].
        apply (line_value_other k HIDDEN v); [done|done|done]. }
      destruct (tg_changed t); [done|]. cbn [fold_left]. by rewrite hidden_line_value, decide_False.
    * cbn [fold_left]. rewrite Hst. by destruct (line_value k line).
  + rewrite fold_left_app, Hh, Eem. destruct (tg_section t); cbn [andb];
      [|cbn [fold_left]; by rewrite !Hst0, orb_false_r].
    destruct (is_hidden_line line) eqn:Ei.
    * rewrite orb_true_r. destruct (tg_changed t); [done|]. cbn [fold_left].
      by rewrite hidden_line_value, decide_True.
    * rewrite orb_false_r. cbn [fold_left]. rewrite Hst.
      destruct Hhk as [->|[? _]]; [done|congruence].
  + intros [Hc1 _]%orb_false_iff. by apply Hc.
  + exact He.
Qed.

Lemma tg_step E src t line :
  tg_inv E src t -> line <> [91] -> CH_NL ∉ line -> (extra_of k size <> None -> snd src = None) ->
  tg_inv (E ++ emitted line t) (key_step k size src line)
    (after_line line t (tg_out t ++ join (emitted line t))).
Proof.
  intros. destruct (heading line) eqn:Eh; [by apply tg_step_heading|by apply tg_step_plain].
Qed.

Lemma tg_loop ls : forall E src t t',
  tg_inv E src t -> Forall (fun l => l <> [91]) ls -> Forall (fun l => CH_NL ∉ l) ls ->
  (extra_of k size <> None -> snd (fold_left (key_step k size) ls src) = None) ->
  toggle_loop exe capacity hidden n ls t = Some t' ->
  exists E', tg_inv E' (fold_left (key_step k size) ls src) t'.
Proof.
  induction ls as [|line ls IH]; intros E src t t' Hi Hb Hf Hx Ht.
  { injection Ht as <-. by exists E. }
  apply Forall_cons in Hb as [Hb1 Hb], Hf as [Hf1 Hf]. cbn [toggle_loop] in Ht.
  destruct (toggle_line _ _ _ _ line t) as [t1|] eqn:E1; [|done]. apply toggle_line_out in E1 as ->.
  cbn [mbind option_bind fold_left] in *. eapply IH; [|done|done|exact Hx|exact Ht].
  apply tg_step; try done. intros Hne. apply Hx, key_fold_none in Hne. by apply (key_fold_none k size [line]).
Qed.

Lemma extra_missing : extra_of k size <> None -> key_value source k size = None.
Proof.
  unfold extra_of. simpl.
  repeat case_decide; subst; try done; (destruct hidden; [done|]); cbn [negb andb];
    case_bool_decide as Hn; try done; intros _; exact (proj1 (key_value_size _ _ _ _) Hn).
Qed.

Lemma toggled_values out :
  toggle_hidden exe capacity hidden source = Some out ->
  key_value out HIDDEN hsize = Some (strlcpy hsize hidden_text) /\
  key_value out k size = match key_value source k size with Some v => Some v | None => extra_of k size end.
Proof.
  unfold toggle_hidden. destruct (need_exec _ && _); [done|].
  destruct (toggle_loop _ _ _ _ (lines_of source) _) as [t|] eqn:Et; [|done]. cbn [mbind option_bind].
  assert (tg_inv [] (false, None) (mkToggle false false false false [])) as H0 by (split; try done; constructor).
  pose proof extra_missing as Hx. unfold key_value in Hx at 1. rewrite key_loop_fold in Hx.
  destruct (tg_loop _ _ _ _ _ H0 no_bracket (lines_of_free source) Hx Et) as (E & [Ho Hf _ Hk Hh Hc He]).
  unfold key_value at 3. rewrite (key_loop_fold k size (lines_of source)).
  set (v := snd (fold_left (key_step k size) (lines_of source) (false, None))) in *.
  destruct (tg_has_section t); [|done]. cbn [negb]. intros Hout.
  assert (exists E', out = join E' /\ Forall (fun l => CH_NL ∉ l) E' /\
    snd (fold_left (key_step HIDDEN hsize) E' (false, None)) = Some (strlcpy hsize hidden_text) /\
    snd (fold_left (key_step k size) E' (false, None)) = match v with Some u => Some u | None => extra_of k size end)
    as (E' & -> & Hf' & H1 & H2).
  2:{ unfold key_value. by rewrite !key_loop_fold, lines_of_join. }
  pose proof (before_heading t v None Hx) as [B1 B2].
  set (M := (if negb (tg_changed t) then [hidden_line hidden] else []) ++
            (if negb (tg_extras t) then extra_lines else [])) in *.
  exists (E ++ M). pose proof hidden_free. pose proof extra_free. split; [|split].
  - subst M. rewrite !join_app, <- Ho. destruct (tg_changed t); cbn [negb].
    + cbn [mbind option_bind] in Hout. destruct (tg_extras t); cbn [negb].
      * injection Hout as <-. by rewrite !app_nil_r.
      * by apply append_extras_out in Hout.
    + destruct (append_hidden _ _ _) as [o|] eqn:Eo; [|done]. apply append_hidden_out in Eo as ->.
      cbn [mbind option_bind] in Hout. destruct (tg_extras t); cbn [negb].
      * injection Hout as <-. by rewrite app_nil_r.
      * apply append_extras_out in Hout as ->. by rewrite <- app_assoc.
  - subst M. repeat apply Forall_app_2; repeat case_match; done || constructor.
  - rewrite !fold_left_app, Hk, Hh. destruct (tg_section t).
    + by rewrite B1, B2.
    + assert (tg_changed t = true /\ tg_extras t = true) as [E1 E2].
      { destruct (tg_changed t); [|by specialize (Hc eq_refl)]. destruct (tg_extras t); [done|by specialize (He eq_refl)]. }
      subst M. rewrite E1, E2. done.
Qed.

End ToggleLemmas.

(** *** No NUL comes in *)

Definition no_nul (s : bytes) : Prop := Forall (fun c => c <> CH_NUL) s.

Lemma pieces_forall (P : Z -> Prop) sep cur s :
  Forall P cur -> Forall P s -> Forall (Forall P) (pieces sep cur s).
Proof.
  revert cur. induction s as [|c s IH]; intros cur Hc Hs; cbn [pieces].
  - destruct cur; [constructor|by constructor].
  - apply Forall_cons in Hs as [Hc1 Hs]. case_match; [constructor; [done|by apply IH]|].
    apply IH; [|done]. apply Forall_app_2; [done|by constructor].
Qed.

Lemma no_nul_join ls : Forall no_nul ls -> no_nul (join ls).
Proof.
  unfold join. induction 1 as [|l ls Hl _ IH]; [constructor|]. cbn [map concat]. apply Forall_app_2; [|done].
  apply Forall_app_2; [done|]. by repeat constructor.
Qed.

Lemma no_nul_literal s : forallb (fun c => negb (c =? CH_NUL)) s = true -> no_nul s.
Proof.
  intros H. apply Forall_forall. intros c Hc. rewrite forallb_forall in H. apply list_elem_of_In in Hc.
  specialize (H c Hc). by destruct (Z.eqb_spec c 0).
Qed.

Lemma no_nul_extra exe hidden source : no_nul exe -> Forall no_nul (extra_lines exe hidden source).
Proof.
  intros He. assert (no_nul (exec_line exe)) as Hx.
  { apply Forall_app_2; [by apply no_nul_literal|]. apply Forall_app_2; [done|by apply no_nul_literal]. }
  unfold extra_lines. repeat apply Forall_app_2; case_match; try apply Forall_nil_2;
    (apply Forall_cons_2; [|apply Forall_nil_2]); try done; by apply no_nul_literal.
Qed.

Lemma no_nul_hidden b : Forall no_nul [hidden_line b].
Proof. constructor; [|constructor]. by destruct b; apply no_nul_literal. Qed.

Lemma no_nul_loop exe cap hidden source ls : forall t t',
  no_nul exe -> Forall no_nul ls -> no_nul (tg_out t) ->
  toggle_loop exe cap hidden (needs_of hidden source) ls t = Some t' -> no_nul (tg_out t').
Proof.
  induction ls as [|l ls IH]; intros t t' He Hl Ho Ht; [by injection Ht as <-|].
  apply Forall_cons in Hl as [Hl1 Hl]. cbn [toggle_loop] in Ht.
  destruct (toggle_line _ _ _ _ l t) as [t1|] eqn:E1; [|done]. apply toggle_line_out in E1 as ->.
  eapply IH; [done|done| |exact Ht]. cbn [tg_out after_line]. apply Forall_app_2; [done|].
  apply no_nul_join. unfold emitted. pose proof (no_nul_extra exe hidden source He).
  pose proof (no_nul_hidden hidden). repeat apply Forall_app_2; repeat case_match; try done; by constructor.
Qed.

Lemma no_nul_toggled exe cap hidden source out :
  no_nul exe -> no_nul source -> toggle_hidden exe cap hidden source = Some out -> no_nul out.
Proof.
  intros He Hs. unfold toggle_hidden. destruct (need_exec _ && _); [done|].
  destruct (toggle_loop _ _ _ _ (lines_of source) _) as [t|] eqn:Et; [|done]. cbn [mbind option_bind].
  apply no_nul_loop in Et; [|done|by apply pieces_forall|constructor].
  destruct (negb (tg_has_section t)); [done|].
  assert (forall o, (if tg_changed t then Some (tg_out t) else append_hidden cap hidden (tg_out t)) = Some o ->
            no_nul o) as Hh.
  { intros o. destruct (tg_changed t); [by intros [= <-]|]. intros ->%append_hidden_out.
    apply Forall_app_2; [done|]. apply no_nul_join, no_nul_hidden. }
  destruct (if tg_changed t then _ else _) as [o|]; [|done]. specialize (Hh o eq_refl). cbn [mbind option_bind].
  destruct (tg_extras t); [by intros [= <-]|]. intros ->%append_extras_out.
  apply Forall_app_2; [done|]. by apply no_nul_join, no_nul_extra.
Qed.

(** ** Properties *)

(** The value of a key in the edited text. *)
Lemma toggled_value exe cap hidden source out k size :
  CH_NL ∉ exe -> Forall (fun l => l <> [91]) (lines_of source) -> 61 ∉ k ->
  toggle_hidden exe cap hidden source = Some out ->
  key_value out k size =
    if decide (k = HIDDEN) then Some (strlcpy size (if hidden then str "true" else str "false"))
    else
      match key_value source k size with
      | Some v => Some v
      | None =>
          if hidden then None
          else if decide (k = str "Type") then Some (strlcpy size (str "Application"))
          else if decide (k = str "Name") then Some (strlcpy size (str "Core Download Manager Daemon"))
          else if decide (k = str "Exec") then Some (strlcpy size (exe ++ str " daemon"))
          else None
      end.
Proof.
  intros He Hb Hk Ht. case_decide as Hd.
  - subst k. by destruct (toggled_values exe cap hidden source He Hb [] 0 size ltac:(apply not_elem_of_nil)
                            ltac:(done) out Ht).
  - destruct (toggled_values exe cap hidden source He Hb k size 0 Hk Hd out Ht) as [_ ->].
    destruct (key_value source k size) as [v|] eqn:Ev; [done|]. unfold extra_of, needs_of. cbn [need_type need_name need_exec].
    assert (forall m, key_value source k m = None) as Hnone by (intros m; by apply (key_value_size _ _ size)).
    destruct hidden; [by repeat case_decide|]. cbn [negb andb].
    repeat case_decide; subst; rewrite ?bool_decide_true; done.
Qed.

(** Editing a desktop entry changes what it should and keeps the rest.  When
    [toggle_hidden] succeeds, the new text says [Hidden] as asked; every other
    key has the value the old text gave it; and an entry that is enabled gets a
    type, a name and a command where it had none.  (No line of the text is a
    lone bracket, which the two parsers of the file read differently, and the
    path of the executable has no line break.) *)
Theorem toggle_hidden_spec exe cap hidden source out k size :
  CH_NL ∉ exe -> Forall (fun l => l <> [91]) (lines_of source) -> 61 ∉ k ->
  toggle_hidden exe cap hidden source = Some out ->
  key_value out k size =
    if decide (k = HIDDEN) then Some (strlcpy size (if hidden then str "true" else str "false"))
    else
      match key_value source k size with
      | Some v => Some v
      | None =>
          if hidden then None
          else if decide (k = str "Type") then Some (strlcpy size (str "Application"))
          else if decide (k = str "Name") then Some (strlcpy size (str "Core Download Manager Daemon"))
          else if decide (k = str "Exec") then Some (strlcpy size (exe ++ str " daemon"))
          else None
      end.
Proof. apply toggled_value. Qed.

(** A text made of one section. *)
Definition kv_line (p : bytes * bytes) : bytes := p.1 ++ 61 :: p.2.

Definition kv_ok (p : bytes * bytes) : Prop :=
  (61 ∉ p.1) /\ p.1 <> [] /\ head p.1 <> Some 91 /\ (CH_NL ∉ p.1) /\ (CH_NL ∉ p.2).

Lemma kv_value kvs key size :
  Forall kv_ok kvs -> 61 ∉ key ->
  key_value (join (DESKTOP_ENTRY :: map kv_line kvs)) key size =
    fold_left (fun v p => if decide (key = p.1) then Some (strlcpy size p.2) else v) kvs None.
Proof.
  intros Hk Hkey. unfold key_value. rewrite lines_of_join, key_loop_fold.
  2:{ constructor; [by apply not_elem_str|]. apply Forall_map. eapply Forall_impl; [exact Hk|].
      intros [k v] (H1 & _ & _ & H2 & H3). cbn [fst snd] in *. unfold kv_line. cbn [fst snd].
      rewrite elem_of_app, elem_of_cons. by intros [?|[?|?]]. }
  cbn [fold_left]. change (key_step key size (false, None) DESKTOP_ENTRY) with (true, @None bytes).
  generalize (@None bytes). induction Hk as [|[k v] kvs (H1 & H2 & H3 & _ & _) Hk IH]; intros w; [done|].
  cbn [map fold_left fst snd] in *. rewrite key_step_plain.
  2:{ unfold heading, kv_line. destruct k as [|c k]; [done|]. simpl in *. by apply bool_decide_eq_false. }
  unfold kv_line. cbn [fst snd]. rewrite IH. do 3 f_equal. case_decide as Hd.
  - by rewrite Hd, line_value_same.
  - by rewrite line_value_other.
Qed.

Section Effect.

Context (env : IoEnv) (xdg_config_home home xdg_config_dirs path_var : option bytes).
Context (x_ok owned : bytes -> bool) (write_ok : bool) (exe : bytes).

Abbreviation set := (set_enabled env xdg_config_home home xdg_config_dirs path_var x_ok owned write_ok exe).
Abbreviation status := (autostart_status env xdg_config_home home xdg_config_dirs path_var x_ok owned).
Abbreviation enabled_by := (entry_enabled path_var x_ok).

Lemma write_entry_read path content fs fs' :
  write_entry env owned write_ok path content fs = (true, fs') -> no_nul content -> owned path = true ->
  env_deny env path = false -> (forall f, fs' !! path = Some (NReg f) -> reg_size f <= MAX_ENTRY_SIZE) ->
  read_entry env owned path true fs' = EntryText content.
Proof.
  unfold write_entry. destruct (ensure_user_dir env owned path fs) as [ok fs1]. destruct (negb ok); [done|].
  destruct (read_entry env owned path true fs1); try done; case_bool; try done;
    (destruct write_ok; [|done]); intros [= <-] Hn Ho Hd Hsz;
    unfold read_entry, lstat; rewrite Hd, lookup_insert_eq; specialize (Hsz _ (lookup_insert_eq _ _ _));
    rewrite (proj2 (Z.ltb_ge _ _)) by done; rewrite Ho; cbn [orb andb negb]; f_equal;
    rewrite content_of_written; unfold until_nul;
    (destruct (strchr content CH_NUL) as [i|] eqn:E; [|done]); apply strchr_Some in E as [E _];
    by apply (Forall_lookup_1 _ _ _ _ Hn) in E.
Qed.

Lemma read_entry_env path b fs :
  read_entry env owned path b fs <> BadEntry -> env_deny env path = false.
Proof. unfold read_entry, lstat. by destruct (env_deny env path). Qed.

Lemma read_entry_text path fs c :
  read_entry env owned path true fs = EntryText c -> owned path = true /\ no_nul c /\ exists f, fs !! path = Some (NReg f).
Proof.
  unfold read_entry, lstat. destruct (env_deny env path); [by case_decide|].
  destruct (fs !! path) as [[f| | |]|] eqn:Ef; try done; [|by case_decide].
  destruct (owned path); [|by rewrite orb_true_r]. case_bool; [done|]. intros [= <-]. split; [done|].
  split; [|by exists f]. unfold until_nul. destruct (strchr (reg_content f) CH_NUL) as [i|] eqn:E.
  - apply strchr_Some in E as [_ E]. apply Forall_forall. intros x Hx ->. exact (E Hx).
  - apply strchr_None in E. apply Forall_forall. intros x Hx ->. exact (E Hx).
Qed.

(** The user's entry, where it says something about it, can be started. *)
Definition runnable (content : bytes) : Prop :=
  (key_value content (str "Type") 32 = None \/ key_value content (str "Type") 32 = Some (str "Application")) /\
  (forall v, key_value content (str "Exec") PATH_MAX = Some v -> v <> []) /\
  (forall v, key_value content (str "TryExec") PATH_MAX = Some v -> executable path_var x_ok v = true).

Hypothesis exe_clean : (CH_NL ∉ exe) /\ no_nul exe /\ strlen exe < PATH_MAX.

Lemma toggled_enabled enabled cap source out :
  Forall (fun l => l <> [91]) (lines_of source) -> (enabled = true -> runnable source) ->
  toggle_hidden exe cap (negb enabled) source = Some out -> enabled_by out = enabled.
Proof.
  intros Hb Hrun Ht. destruct exe_clean as (He & _ & _).
  pose proof (fun k size Hk => toggled_value exe cap (negb enabled) source out k size He Hb Hk Ht) as H.
  unfold entry_enabled. rewrite !H by by apply not_elem_str.
  rewrite (decide_True (P := str "Hidden" = HIDDEN)) by done.
  rewrite !(decide_False (P := _ = HIDDEN)) by done.
  destruct enabled; cbn [negb]; [|by rewrite andb_false_r].
  destruct (Hrun eq_refl) as (H1 & H2 & H3).
  rewrite (decide_True (P := str "Type" = str "Type")), (decide_True (P := str "Exec" = str "Exec")) by done.
  rewrite !decide_False by done.
  assert (bool_decide ((match key_value source (str "Type") 32 with
    | Some v => Some v | None => Some (strlcpy 32 (str "Application")) end) = Some (str "Application")) = true) as ->.
  { by destruct H1 as [->| ->]. }
  destruct (key_value source (str "Exec") PATH_MAX) as [v|] eqn:Ev.
  - destruct v; [by destruct (H2 _ eq_refl)|]. cbn [andb negb].
    destruct (key_value source (str "TryExec") PATH_MAX) as [w|]; [by apply H3|done].
  - assert (exists c v, strlcpy PATH_MAX (exe ++ str " daemon") = c :: v) as (c & v & ->).
    { unfold strlcpy, PATH_MAX. destruct exe; simpl; eauto. }
    cbn [andb negb]. destruct (key_value source (str "TryExec") PATH_MAX) as [w|]; [by apply H3|done].
Qed.

Lemma disabled_entry_off : enabled_by disabled_entry = false.
Proof. vm_compute. reflexivity. Qed.

Lemma enabled_entry_on :
  absolute exe = true -> x_ok exe = true -> enabled_by (enabled_entry exe) = true /\ no_nul (enabled_entry exe).
Proof.
  intros Ha Hx. destruct exe_clean as (Hnl & Hnul & Hlen).
  set (kvs := [(str "Type", str "Application"); (str "Name", str "Core Download Manager Daemon");
               (str "Exec", exe ++ str " daemon"); (str "TryExec", exe); (str "Terminal", str "false");
               (str "NoDisplay", str "true"); (str "Hidden", str "false"); (str "X-CDM-Generated", str "true")]).
  assert (enabled_entry exe = join (DESKTOP_ENTRY :: map kv_line kvs)) as E.
  { unfold enabled_entry, join, exec_line. cbn [map concat kvs]. by rewrite app_nil_r. }
  assert (Forall kv_ok kvs) as Hok.
  { subst kvs. repeat (apply Forall_cons_2; [split; [by apply not_elem_str|]; split; [done|]; split; [done|];
      split; [by apply not_elem_str|]; try by apply not_elem_str|]); [| |apply Forall_nil_2]; cbn [snd]; [|done].
    rewrite elem_of_app. intros [?|H]; [done|]. revert H. by apply not_elem_str. }
  split.
  - rewrite E.
    assert (forall key size v, (61 ∉ key) ->
      fold_left (fun v p => if decide (key = p.1) then Some (strlcpy size p.2) else v) kvs None = Some v ->
      key_value (join (DESKTOP_ENTRY :: map kv_line kvs)) key size = Some v) as Hv.
    { intros key size v Hk <-. by apply kv_value. }
    assert (exists c v, strlcpy PATH_MAX (exe ++ str " daemon") = c :: v) as (c & v & Ev).
    { unfold strlcpy, PATH_MAX. destruct exe; simpl; eauto. }
    unfold entry_enabled.
    rewrite (Hv (str "Type") 32 (str "Application")), (Hv (str "Exec") PATH_MAX (c :: v)),
      (Hv (str "Hidden") 16 (str "false")), (Hv (str "TryExec") PATH_MAX exe);
      try (by apply not_elem_str); try (subst kvs; cbn [fold_left fst snd]; repeat case_decide; done).
    + unfold absolute in Ha. apply bool_decide_eq_true in Ha. unfold executable.
      destruct exe as [|c' e]; [done|]. injection Ha as ->.
      rewrite (bool_decide_false (_ = [])) by done. rewrite (bool_decide_true (_ ∈ _)) by by left.
      rewrite Hx. done.
    + subst kvs. cbn [fold_left fst snd]. repeat case_decide; try done. by rewrite strlcpy_id.
    + subst kvs. cbn [fold_left fst snd]. repeat case_decide; try done. by rewrite Ev.
  - rewrite E. apply no_nul_join. apply Forall_cons_2; [by apply no_nul_literal|]. apply Forall_map.
    assert (Forall (fun p => no_nul p.1 /\ no_nul p.2) kvs) as Hk.
    { assert (no_nul (exe ++ str " daemon")) by (apply Forall_app_2; [done|by apply no_nul_literal]).
      subst kvs. repeat (apply Forall_cons_2; [split; cbn [fst snd]; done || by apply no_nul_literal|]).
      apply Forall_nil_2. }
    eapply Forall_impl; [exact Hk|]. intros p [H1 H2]. apply Forall_app_2; [done|]. by apply Forall_cons_2.
Qed.

(** Removing a regular file leaves what is not found not found. *)
Lemma lstat_delete fs path p :
  p <> path -> lstat env (delete path fs) p = lstat env fs p \/
  (exists e e', lstat env (delete path fs) p = inl e /\ lstat env fs p = inl e').
Proof.
  intros Hne. unfold lstat. rewrite lookup_delete_ne by done.
  destruct (env_deny env p); [by left|]. destruct (fs !! p); [by left|right; eauto].
Qed.

Lemma stat_delete fuel fs path f p e :
  fs !! path = Some (NReg f) -> env_deny env path = false ->
  stat_from env fuel fs p = inl e -> exists e', stat_from env fuel (delete path fs) p = inl e'.
Proof.
  intros Hp Hd. revert p e. induction fuel as [|fuel IH]; intros p e; cbn [stat_from];
    (destruct (decide (p = path)) as [->|Hne]; [unfold lstat at 1; rewrite Hd, Hp; discriminate|]);
    (destruct (lstat_delete fs path p Hne) as [-> | (e1 & e2 & -> & ->)]; [|intros _; by exists e1]);
    destruct (lstat env fs p) as [e1|[| | |]]; intros Hst; try discriminate Hst; try (by exists e1); try (by exists ELOOP).
  exact (IH _ _ Hst).
Qed.

Lemma access_delete fs path f p :
  fs !! path = Some (NReg f) -> env_deny env path = false ->
  access_ok env fs p = false -> access_ok env (delete path fs) p = false.
Proof.
  intros Hp Hd. unfold access_ok, stat. generalize 40%nat as fuel. intros fuel.
  destruct (stat_from env fuel fs p) as [e|n] eqn:E; [|discriminate]. intros _.
  destruct (stat_delete fuel fs path f p e Hp Hd E) as [e' ->]. reflexivity.
Qed.

Lemma access_regular fs p f : lstat env fs p = inr (NReg f) -> access_ok env fs p = true.
Proof.
  unfold access_ok, stat. generalize 40%nat as fuel. intros fuel E.
  destruct fuel; cbn [stat_from]; rewrite E; reflexivity.
Qed.

Lemma read_entry_regular path b fs c :
  read_entry env owned path b fs = EntryText c -> exists f, lstat env fs path = inr (NReg f).
Proof.
  unfold read_entry. destruct (lstat env fs path) as [e|[f| | |]]; [case_decide| | | |]; intros Hr; try discriminate Hr.
  by exists f.
Qed.

Lemma system_loop_delete fs path f sp f' parts :
  fs !! path = Some (NReg f) -> env_deny env path = false -> lstat env (delete path fs) sp = inr (NReg f') ->
  system_loop env fs parts = Some sp -> system_loop env (delete path fs) parts = Some sp.
Proof.
  intros Hp Hd Hl. induction parts as [|part ps IH]; [done|]. cbn [system_loop].
  destruct (if absolute part && _ then _ else _) as [cand|]; [|exact IH].
  destruct (access_ok env fs cand) eqn:Ea.
  - intros [= ->]. by rewrite (access_regular _ _ _ Hl).
  - rewrite (access_delete _ _ _ _ Hp Hd Ea). exact IH.
Qed.

Lemma system_path_delete fs path f sp c :
  fs !! path = Some (NReg f) -> env_deny env path = false -> sp <> path ->
  system_entry_path env xdg_config_dirs fs = Some sp -> read_entry env owned sp false fs = EntryText c ->
  system_entry_path env xdg_config_dirs (delete path fs) = Some sp /\
  read_entry env owned sp false (delete path fs) = EntryText c.
Proof.
  intros Hp Hd Hne Hs Hr. destruct (read_entry_regular _ _ _ _ Hr) as [f' Hf'].
  destruct (lstat_delete fs path sp Hne) as [El | (e & e' & _ & E)]; [|congruence].
  split.
  - eapply system_loop_delete; [done|done|by rewrite El|exact Hs].
  - revert Hr. unfold read_entry. by rewrite El.
Qed.

(** What the theorem asks of the surroundings: the entry is ours and small, the
    directories of the system do not contain it, and an entry the user wrote
    has no lone bracket and can be started. *)
Record setting (enabled : bool) (path : bytes) (fs fs' : filesystem) : Prop := {
  se_path : user_entry_path xdg_config_home home = Some path;
  se_owned : owned path = true;
  se_size : forall f, fs' !! path = Some (NReg f) -> reg_size f <= MAX_ENTRY_SIZE;
  se_parent : forall f, fs !! path = Some (NReg f) -> fs !! dirname path = Some NDir;
  se_system : system_entry_path env xdg_config_dirs fs <> Some path;
  se_exe : x_ok exe = true;
  se_current : forall c, read_entry env owned path true fs = EntryText c ->
    Forall (fun l => l <> [91]) (lines_of c) /\ (enabled = true -> runnable c);
}.

Lemma written_status enabled path content fs1 fs fs' :
  setting enabled path fs fs' -> env_deny env path = false -> no_nul content -> enabled_by content = enabled ->
  write_entry env owned write_ok path content fs1 = (true, fs') -> status fs' = Some (Some enabled).
Proof.
  intros [] Hd Hn He Hw. unfold autostart_status. rewrite se_path0.
  rewrite (write_entry_read _ _ _ _ Hw) by done. by rewrite He.
Qed.

Lemma fresh_status enabled had path fs fs' act :
  setting enabled path fs fs' -> env_deny env path = false ->
  (had = true -> enabled = true -> system_entry_enabled env xdg_config_dirs path_var x_ok owned fs = Some false) ->
  (had = false -> read_entry env owned path true fs = NoEntry) ->
  write_fresh env xdg_config_dirs path_var x_ok owned write_ok exe enabled had path fs = (Some act, fs') ->
  status fs' = Some (Some enabled).
Proof.
  intros Hs Hd Hgen Hno. unfold write_fresh. destruct enabled; cbn [negb].
  2:{ destruct (write_entry _ _ _ _ _ _) as [[] fs1] eqn:Ew; [|done]. intros [= _ <-].
      eapply written_status; [done|done| |apply disabled_entry_off|exact Ew].
      unfold disabled_entry. repeat apply Forall_app_2; by apply no_nul_literal. }
  destruct (system_entry_enabled _ _ _ _ _ fs) as [[]|] eqn:Esys; [| |done].
  - intros [= _ <-]. destruct had; [by specialize (Hgen eq_refl eq_refl)|].
    unfold autostart_status. rewrite (se_path _ _ _ _ Hs), (Hno eq_refl).
    unfold system_entry_enabled in Esys. destruct (system_entry_path _ _ fs) as [sp|]; [|done].
    destruct (read_entry _ _ sp false fs); try done. by injection Esys as ->.
  - destruct (absolute exe) eqn:Ea; [|done]. cbn [negb]. case_match; [done|].
    destruct (enabled_entry_on Ea (se_exe _ _ _ _ Hs)) as [Hon Hn].
    destruct (write_entry _ _ _ _ _ _) as [[] fs1] eqn:Ew; [|done]. intros [= _ <-].
    by eapply written_status.
Qed.

(** C37. When [cdm daemon enable] or [disable] reports success, whichever way it took (a new
    entry, the user's entry edited, its own entry removed in favour of the system's, or the
    system's entry used as it is), [cdm daemon status] then says enabled, respectively disabled,
    under these conditions on the surroundings: the entry is the user's own file in an existing
    directory, no system directory contains it, the file that is left is at most 64 KiB, the
    path of cdm is executable, short and without newline; an entry that is there already has no
    line that is a single bracket; and, to enable it, its Type (if any) is Application, its Exec
    (if any) is not empty and its TryExec (if any) is executable. Without these, enable may
    report success for an entry that stays disabled or becomes unreadable (three findings). *)
Theorem autostart_effect enabled path fs fs' act :
  setting enabled path fs fs' -> set enabled fs = (Some act, fs') -> status fs' = Some (Some enabled).
Proof.
  intros Hs. pose proof Hs as []. unfold set_enabled. rewrite se_path0.
  destruct (read_entry env owned path true fs) as [| |c] eqn:Er; [| |].
  - apply fresh_status; [done|eapply read_entry_env; by rewrite Er|done|done].
  - done.
  - assert (env_deny env path = false) as Hd by (eapply read_entry_env; by rewrite Er).
    destruct (read_entry_text _ _ _ Er) as (_ & Hn & f & Hf).
    destruct (se_current0 c eq_refl) as [Hb Hrun].
    destruct (enabled && generated c) eqn:Eg.
    + apply andb_true_iff in Eg as [-> _].
      destruct (system_entry_enabled _ _ _ _ _ fs) as [[]|] eqn:Esys; [| |done].
      * rewrite Hd. intros [= _ <-]. unfold unlink. rewrite Hf, Hd.
        unfold system_entry_enabled in Esys. destruct (system_entry_path _ _ fs) as [sp|] eqn:Esp; [|done].
        destruct (read_entry env owned sp false fs) as [| |c'] eqn:Ec; try done. injection Esys as Esys.
        destruct (system_path_delete fs path f sp c' Hf Hd) as [E1 E2]; [congruence|done|done|].
        unfold autostart_status. rewrite se_path0. unfold read_entry at 1, lstat. rewrite Hd, lookup_delete_eq.
        unfold missing_errno. rewrite lookup_delete_ne, (se_parent0 _ Hf)
          by (intros E; pose proof (se_parent0 _ Hf) as Hp; rewrite <- E, Hf in Hp; discriminate Hp).
        rewrite decide_True by done. by rewrite E1, E2, Esys.
      * apply fresh_status; done.
    + destruct (toggle_hidden _ _ _ c) as [out|] eqn:Et; [|done].
      destruct (write_entry _ _ _ _ out _) as [[] fs1] eqn:Ew; [|done]. intros [= _ <-].
      eapply written_status; [done|done| |by eapply toggled_enabled|exact Ew].
      eapply no_nul_toggled; [|exact Hn|exact Et]. by destruct exe_clean as (_ & ? & _).
Qed.

End Effect.

(** ** Witnesses *)

Module AutostartWitness.

Definition exe : bytes := str "/usr/bin/cdm".
Definition home : bytes := str "/home/u".
Definition dir : bytes := str "/home/u/.config/autostart".
Definition path : bytes := str "/home/u/.config/autostart/cdm-daemon.desktop".
Definition content : bytes :=
  text_line DESKTOP_ENTRY ++ text_line (str "Name=Downloads") ++ text_line (str "Hidden=true").
Definition fs : filesystem := {[ dir := NDir; path := NReg (reg_pwrite empty_reg 0 content) ]}.
Definition yes (_ : bytes) : bool := true.
Definition run : option AutostartAction * filesystem :=
  set_enabled permissive None (Some home) None None yes yes true exe true fs.

Definition fs' : filesystem := run.2.

End AutostartWitness.

Import AutostartWitness.

Lemma toggle_hidden_spec_witness :
  exists out, toggle_hidden exe 65664 false content = Some out /\
    key_value out HIDDEN 16 = Some (str "false") /\ key_value out (str "Name") 64 = Some (str "Downloads") /\
    key_value out (str "Exec") 64 = Some (str "/usr/bin/cdm daemon").
Proof.
  assert (CH_NL ∉ exe) as H1 by (by apply not_elem_str).
  assert (Forall (fun l => l <> [91]) (lines_of content)) as H2 by (vm_compute; repeat constructor; discriminate).
  destruct (toggle_hidden exe 65664 false content) as [out|] eqn:E; [|revert E; vm_compute; discriminate].
  exists out. split; [done|].
  pose proof (toggle_hidden_spec exe 65664 false content out HIDDEN 16 H1 H2 ltac:(by apply not_elem_str) E) as T1.
  pose proof (toggle_hidden_spec exe 65664 false content out (str "Name") 64 H1 H2 ltac:(by apply not_elem_str) E) as T2.
  pose proof (toggle_hidden_spec exe 65664 false content out (str "Exec") 64 H1 H2 ltac:(by apply not_elem_str) E) as T3.
  rewrite T1, T2, T3. split; [|split]; vm_compute; reflexivity.
Defined.

Lemma autostart_effect_witness :
  autostart_status permissive None (Some home) None None yes yes fs = Some (Some false) /\
  run = (Some AUTOSTART_UPDATED, fs') /\
  autostart_status permissive None (Some home) None None yes yes fs' = Some (Some true).
Proof.
  split; [vm_compute; reflexivity|].
  assert (run = (Some AUTOSTART_UPDATED, fs')) as Hrun.
  { assert (run.1 = Some AUTOSTART_UPDATED) as E by (vm_compute; reflexivity).
    unfold fs'. destruct run. cbn [fst snd] in *. by rewrite E. }
  split; [exact Hrun|].
  assert (read_entry permissive yes path true fs = EntryText content) as Hr by (vm_compute; reflexivity).
  refine (autostart_effect permissive None (Some home) None None yes yes true exe _ true path fs fs'
            AUTOSTART_UPDATED _ Hrun).
  - split; [by apply not_elem_str|]. split; [by apply no_nul_literal|]. vm_compute. reflexivity.
  - split; try (vm_compute; reflexivity).
    + intros f. vm_compute. intros [= <-]. vm_compute. discriminate.
    + vm_compute. discriminate.
    + intros c. rewrite Hr. intros [= <-]. split; [vm_compute; repeat constructor; discriminate|]. intros _.
      split; [left; vm_compute; reflexivity|]. split; intros v; vm_compute; discriminate.
Defined.
