(* ===== verification/Cli.v ===== *)
(** * The command line ([src/cli/cli.c])

    Numbers, options and the four commands.  [argv] is a list of C strings; the
    result of a run is its exit status, what it prints on standard output, and
    the connection with what was sent.  The end-to-end theorem joins it to the
    server of Ipc.v. *)

From S2P Require Import Prelude Path FileIo QueueManager Db Config Engine Scheduler Wire Commands Offers Ipc IpcClient.

(** ** Numbers *)

(** [isspace] in the C locale, [isdigit]. *)
Definition is_space (c : Z) : bool := (c =? 32) || ((9 <=? c) && (c <=? 13)).
Definition is_digit (c : Z) : bool := (48 <=? c) && (c <=? 57).

Fixpoint skip_space (s : bytes) : bytes :=
  match s with
  | c :: s' => if is_space c then skip_space s' else s
  | [] => []
  end.

(** The digits at the front, and the rest. *)
Fixpoint digits (s : bytes) : bytes * bytes :=
  match s with
  | c :: s' => if is_digit c then let '(ds, r) := digits s' in (c :: ds, r) else ([], s)
  | [] => ([], [])
  end.

Definition digits_value (ds : bytes) : Z := fold_left (fun v c => 10 * v + (c - 48)) ds 0.

Definition ULLONG_MAX : Z := 18446744073709551615.

Definition sign_of (s : bytes) : bool * bytes :=
  match s with
  | 45 :: s' => (true, s')
  | 43 :: s' => (false, s')
  | _ => (false, s)
  end.

(** [strtoull (text, &end, 10)]: the value and [end], [None] with ERANGE or when
    there is no number.  A minus sign negates the value modulo 2^64. *)
Definition strtoull (text : bytes) : option (Z * bytes) :=
  let '(neg, s) := sign_of (skip_space text) in
  let '(ds, rest) := digits s in
  if bool_decide (ds = []) then None
  else if ULLONG_MAX <? digits_value ds then None
  else Some (if neg then u64 (- digits_value ds) else digits_value ds, rest).

(** [strtol (s, &end, 10)]: out of range it saturates; without digits the value
    is 0 and [end] is [s]. *)
Definition LONG_MAX : Z := 2 ^ 63 - 1.

Definition strtol (text : bytes) : Z * bytes :=
  let '(neg, s) := sign_of (skip_space text) in
  let '(ds, rest) := digits s in
  if bool_decide (ds = []) then (0, text)
  else
    let v := if neg then - digits_value ds else digits_value ds in
    (Z.max (- LONG_MAX - 1) (Z.min LONG_MAX v), rest).

Definition parse_u64 (text : bytes) : option Z :=
  if bool_decide (text = []) || bool_decide (head text = Some 45) then None
  else
    match strtoull text with
    | Some (value, []) => Some value
    | _ => None
    end.

Definition parse_id (text : bytes) : option Z :=
  match parse_u64 text with
  | Some value => if (value =? 0) || (4294967295 <? value) then None else Some value
  | None => None
  end.

(** ** Options of add *)

(** The locals of [parse_add_options]. *)
Record AddOptions := mkAdd {
  ao_cookie : option bytes;
  ao_referrer : option bytes;
  ao_sha256 : option bytes;
  ao_speed_limit : Z;
  ao_headers : bytes;       (* char headers_buf[4096] *)
  ao_has_options : bool;
  ao_valid : bool;
}.

Definition HEADERS_SIZE : Z := 4096.

Definition invalid (o : AddOptions) : AddOptions :=
  mkAdd (ao_cookie o) (ao_referrer o) (ao_sha256 o) (ao_speed_limit o) (ao_headers o) (ao_has_options o) false.

Definition given (o : AddOptions) : AddOptions :=
  mkAdd (ao_cookie o) (ao_referrer o) (ao_sha256 o) (ao_speed_limit o) (ao_headers o) true (ao_valid o).

Definition append_header (value : bytes) (o : AddOptions) : AddOptions :=
  let separator := if bool_decide (ao_headers o = []) then [] else [CH_NL] in
  if HEADERS_SIZE <=? strlen (ao_headers o) + strlen separator + strlen value then invalid o
  else mkAdd (ao_cookie o) (ao_referrer o) (ao_sha256 o) (ao_speed_limit o)
         (ao_headers o ++ separator ++ value) (ao_has_options o) (ao_valid o).

(** One flag and its value. *)
Definition add_option (flag value : bytes) (o : AddOptions) : AddOptions :=
  if streq flag (str "--cookie") then
    given (mkAdd (Some value) (ao_referrer o) (ao_sha256 o) (ao_speed_limit o) (ao_headers o)
             (ao_has_options o) (ao_valid o))
  else if streq flag (str "--referrer") then
    given (mkAdd (ao_cookie o) (Some value) (ao_sha256 o) (ao_speed_limit o) (ao_headers o)
             (ao_has_options o) (ao_valid o))
  else if streq flag (str "--sha256") then
    given (mkAdd (ao_cookie o) (ao_referrer o) (Some value) (ao_speed_limit o) (ao_headers o)
             (ao_has_options o) (ao_valid o))
  else if streq flag (str "--limit") then
    given match parse_u64 value with
          | Some n => mkAdd (ao_cookie o) (ao_referrer o) (ao_sha256 o) n (ao_headers o)
                        (ao_has_options o) (ao_valid o)
          | None => invalid o
          end
  else if streq flag (str "--header") then given (append_header value o)
  else invalid o.

Fixpoint add_options_loop (args : list bytes) (o : AddOptions) : AddOptions :=
  match args with
  | flag :: value :: args' => add_options_loop args' (add_option flag value o)
  | _ => o
  end.

(** [args] is [argv] from [first_opt_index] on. *)
Definition parse_add_options (args : list bytes) : AddOptions :=
  add_options_loop args (mkAdd None None None 0 [] false (Nat.even (length args))).

(** ** run_cli *)

Section Cli.

Context (path_exists : bytes -> bool) (default_dir : bytes).
Context (json_print : list (bytes * json_value) -> bytes).
(** [opts.extra_headers] points into the frame of [parse_add_options], which has
    returned: [stale] is what that memory holds when the options are sent. *)
Context (stale : bytes -> bytes).

Definition line (s : bytes) : bytes := s ++ [CH_NL].

Definition add_request_options (o : AddOptions) : option RequestOptions :=
  if ao_has_options o then
    Some (mkOpts (default [] (ao_cookie o)) (default [] (ao_referrer o))
            (if bool_decide (ao_headers o = []) then [] else stale (ao_headers o))
            (default [] (ao_sha256 o)) (ao_speed_limit o))
  else None.

Definition cli_add (url : bytes) (args : list bytes) (c : Conn) : Z * bytes * Conn :=
  let '(dest_dir, opt_args) :=
    match args with
    | d :: args' => if strprefix (str "--") d then (default_dir, args)
                    else (if bool_decide (d = []) then default_dir else d, args')
    | [] => (default_dir, [])
    end in
  match path_join dest_dir (path_filename_from_url url 512) IPC_MAX_PATH_LEN with
  | None => (1, [], c)
  | Some full_path =>
      match path_make_unique path_exists IPC_MAX_PATH_LEN full_path with
      | None => (1, [], c)
      | Some unique_path =>
          let o := parse_add_options opt_args in
          if negb (ao_valid o) then (1, [], c)
          else
            let '(id, c) := ipc_send_add_download json_print url unique_path (add_request_options o) c in
            (0, line (str "Download added (ID: " ++ decimal (default 0 id) ++ str ", saved to " ++
                      unique_path ++ str ")"), c)
      end
  end.

Definition command_verb (k : command) : bytes :=
  match k with CmdPause => str "Paused" | CmdResume => str "Resumed" | CmdCancel => str "Cancelled" end.

Definition cli_command (k : command) (text : bytes) (c : Conn) : Z * bytes * Conn :=
  match parse_id text with
  | None => (1, [], c)
  | Some id =>
      match ipc_send k id c with
      | (Some _, c) => (0, line (command_verb k ++ str " download " ++ decimal id), c)
      | (None, c) => (1, [], c)
      end
  end.

(** Exit status, standard output, and the connection when there was one.  The
    usage text is left out. *)
Definition run_cli (argv : list bytes) (dial : option Conn) : Z * bytes * option Conn :=
  match argv with
  | _ :: cmd :: args =>
      match dial with
      | None => (1, [], None)
      | Some c =>
          let '(ret, out, c) :=
            match args with
            | arg :: args' =>
                if streq cmd (str "add") then cli_add arg args' c
                else if streq cmd (str "pause") then cli_command CmdPause arg c
                else if streq cmd (str "resume") then cli_command CmdResume arg c
                else if streq cmd (str "cancel") then cli_command CmdCancel arg c
                else (1, [], c)
            | [] => (1, [], c)
            end in
          (ret, out, Some c)
      end
  | _ => (1, [], None)
  end.

End Cli.

(** ** Lemmas *)

(** *** Numbers *)

Lemma digits_value_app ds d : digits_value (ds ++ [d]) = 10 * digits_value ds + (d - 48).
Proof. unfold digits_value. by rewrite fold_left_app. Qed.

Lemma pretty_go_digits x s :
  exists ds, str (pretty_N_go x s) = ds ++ str s /\ Forall (fun c => is_digit c = true) ds /\
    digits_value ds = Z.of_N x /\ ((0 < x)%N -> ds <> []).
Proof.
  revert s. induction (N.lt_wf_0 x) as [x _ IH]; intros s.
  destruct (decide (x = 0%N)) as [->|Hx]; [exists []; by rewrite pretty_N_go_0|].
  rewrite pretty_N_go_step by lia.
  destruct (IH (x `div` 10)%N ltac:(apply N.div_lt; lia) (String.String (pretty_N_char (x `mod` 10)) s))
    as (ds & E & Hd & Hv & _).
  set (r := (x `mod` 10)%N) in *. pose proof (N.mod_lt x 10 ltac:(lia)) as Hr. fold r in Hr.
  assert (str (String.String (pretty_N_char r) s) = (48 + Z.of_N r) :: str s) as Es.
  { assert (r = 0 \/ r = 1 \/ r = 2 \/ r = 3 \/ r = 4 \/ r = 5 \/ r = 6 \/ r = 7 \/ r = 8 \/ r = 9)%N as Hc by lia.
    repeat (destruct Hc as [->|Hc]; [reflexivity|]). by rewrite Hc. }
  exists (ds ++ [48 + Z.of_N r]). split; [by rewrite E, Es, <- app_assoc|]. split; [|split].
  - apply Forall_app_2; [done|]. apply Forall_singleton. unfold is_digit. apply andb_true_iff; split; lia.
  - rewrite digits_value_app, Hv. pose proof (N.div_mod x 10 ltac:(lia)). fold r in H. lia.
  - intros _ H. by destruct ds.
Qed.

Lemma decimal_digits n :
  0 <= n -> Forall (fun c => is_digit c = true) (decimal n) /\ digits_value (decimal n) = n /\ decimal n <> [].
Proof.
  intros Hn. unfold decimal, pretty, pretty_N. case_decide as Hz.
  - assert (n = 0) as -> by lia. split; [by repeat constructor|done].
  - destruct (pretty_go_digits (Z.to_N n) "") as (ds & -> & H1 & H2 & H3). rewrite app_nil_r.
    split; [done|]. split; [lia|apply H3; lia].
Qed.

Lemma pretty_go_length k x s :
  (x < 10 ^ N.of_nat k)%N -> (String.length (pretty_N_go x s) <= k + String.length s)%nat.
Proof.
  revert x s. induction k as [|k IH]; intros x s Hx.
  - assert (x = 0)%N as -> by (change (10 ^ N.of_nat 0)%N with 1%N in Hx; lia). by rewrite pretty_N_go_0.
  - destruct (decide (x = 0)%N) as [->|Hn]; [rewrite pretty_N_go_0; lia|].
    rewrite pretty_N_go_step by lia.
    assert (x `div` 10 < 10 ^ N.of_nat k)%N as Hd.
    { apply N.Div0.div_lt_upper_bound. rewrite Nat2N.inj_succ, N.pow_succ_r' in Hx. exact Hx. }
    specialize (IH (x `div` 10)%N (String.String (pretty_N_char (x `mod` 10)) s) Hd). simpl in IH. lia.
Qed.

Lemma length_list_ascii s : length (String.list_ascii_of_string s) = String.length s.
Proof. induction s as [|c s IH]; [done|]. simpl. by rewrite IH. Qed.

Lemma decimal_length k n : (0 < k)%nat -> 0 <= n < 10 ^ Z.of_nat k -> strlen (decimal n) <= Z.of_nat k.
Proof.
  intros Hk Hn. unfold decimal, pretty, pretty_N. case_decide; [unfold strlen; simpl; lia|].
  assert (Z.to_N n < 10 ^ N.of_nat k)%N as Hlt.
  { apply N2Z.inj_lt. rewrite N2Z.inj_pow, Z2N.id, nat_N_Z by lia. lia. }
  pose proof (pretty_go_length k (Z.to_N n) "" Hlt) as H1. unfold str, strlen. rewrite length_map, length_list_ascii.
  simpl in H1. lia.
Qed.

Lemma digits_value_nonneg ds : Forall (fun c => is_digit c = true) ds -> 0 <= digits_value ds.
Proof.
  induction ds as [|d ds IH] using rev_ind; [done|]. intros [H1 H2%Forall_inv]%Forall_app.
  rewrite digits_value_app. apply andb_true_iff in H2. specialize (IH H1). lia.
Qed.

Lemma digits_all ds : Forall (fun c => is_digit c = true) ds -> digits ds = (ds, []).
Proof. induction 1 as [|c ds Hc _ IH]; [done|]. cbn [digits]. by rewrite Hc, IH. Qed.

Lemma digits_split s : s = fst (digits s) ++ snd (digits s) /\ Forall (fun c => is_digit c = true) (fst (digits s)).
Proof.
  induction s as [|c s [IH1 IH2]]; [done|]. cbn [digits]. destruct (is_digit c) eqn:E; [|done].
  destruct (digits s) as [ds r]. cbn [fst snd] in *. split; [simpl; by f_equal|by constructor].
Qed.

Lemma skip_space_app ws s :
  Forall (fun c => is_space c = true) ws -> match head s with Some c => is_space c = false | None => True end ->
  skip_space (ws ++ s) = s.
Proof.
  intros Hw Hs. induction Hw as [|c ws Hc _ IH]; cbn [app skip_space]; [|by rewrite Hc].
  destruct s as [|c s]; [done|]. simpl in *. by rewrite Hs.
Qed.

Lemma skip_space_split s :
  exists ws, s = ws ++ skip_space s /\ Forall (fun c => is_space c = true) ws.
Proof.
  induction s as [|c s (ws & E & Hw)]; [by exists []|]. cbn [skip_space]. destruct (is_space c) eqn:Ec.
  - exists (c :: ws). split; [simpl; by rewrite <- E|by constructor].
  - by exists [].
Qed.

Lemma digit_not_space c : is_digit c = true -> is_space c = false /\ c <> 43 /\ c <> 45.
Proof. unfold is_digit, is_space. intros H%andb_true_iff. split; [|lia]. apply orb_false_iff. split; lia. Qed.

Lemma sign_of_other c s : c <> 43 -> c <> 45 -> sign_of (c :: s) = (false, c :: s).
Proof.
  intros H1 H2. unfold sign_of. repeat (match goal with |- context [match ?x with _ => _ end] => destruct x end; try done).
Qed.

Lemma strtol_decimal n : 0 <= n < 2 ^ 63 -> strtol (decimal n) = (n, []).
Proof.
  intros Hn. destruct (decimal_digits n ltac:(lia)) as (Hd & Hv & Hne). unfold strtol.
  destruct (decimal n) as [|d ds] eqn:E; [done|].
  pose proof (digit_not_space d (Forall_inv Hd)) as (Hsp & Hp & Hmi).
  assert (skip_space (d :: ds) = d :: ds) as -> by (apply (skip_space_app []); [constructor|done]).
  rewrite sign_of_other, digits_all, bool_decide_eq_false_2 by done. rewrite Hv. f_equal. unfold LONG_MAX. zpow. lia.
Qed.

(** What [parse_u64] means: white space, a sign, digits, and nothing else. *)
Definition numeral (text : bytes) (v : Z) : Prop :=
  exists ws sg ds, text = ws ++ sg ++ ds /\ Forall (fun c => is_space c = true) ws /\
    Forall (fun c => is_digit c = true) ds /\ ds <> [] /\ digits_value ds <= ULLONG_MAX /\
    (((sg = [] \/ sg = [43]) /\ v = digits_value ds) \/ (sg = [45] /\ ws <> [] /\ v = u64 (- digits_value ds))).

Lemma parse_u64_complete text v : numeral text v -> parse_u64 text = Some v.
Proof.
  intros (ws & sg & ds & -> & Hw & Hd & Hne & Hm & Hv). destruct ds as [|d ds]; [done|].
  pose proof (digit_not_space d (Forall_inv Hd)) as (Hsp & Hp & Hmi).
  assert (skip_space (ws ++ sg ++ d :: ds) = sg ++ d :: ds) as Es.
  { apply skip_space_app; [done|]. destruct Hv as [[[-> | ->] _]|[-> _]]; done. }
  assert (strtoull (ws ++ sg ++ d :: ds) = Some (v, [])) as Et.
  { unfold strtoull. rewrite Es.
    assert (sign_of (sg ++ d :: ds) = (bool_decide (sg = [45]), d :: ds)) as ->.
    { destruct Hv as [[[-> | ->] _]|[-> _]]; [|done|done]. by rewrite app_nil_l, sign_of_other. }
    rewrite digits_all by done. rewrite (bool_decide_false (d :: ds = [])) by done.
    rewrite (proj2 (Z.ltb_ge _ _)) by done.
    destruct Hv as [[[-> | ->] ->]|(-> & _ & ->)]; done. }
  unfold parse_u64. rewrite Et. rewrite (bool_decide_false (_ = [])) by (by destruct ws, sg).
  rewrite bool_decide_false; [done|].
  destruct ws as [|w ws].
  - destruct Hv as [[[-> | ->] _]|(-> & ? & _)]; [simpl; congruence|done|done].
  - simpl. intros [= ->]. by apply Forall_inv in Hw.
Qed.

Lemma parse_u64_sound text v : parse_u64 text = Some v -> numeral text v.
Proof.
  unfold parse_u64. destruct (_ || _) eqn:Hh; [done|]. apply orb_false_iff in Hh as [_ Hh%bool_decide_eq_false].
  unfold strtoull. destruct (skip_space_split text) as (ws & E & Hw).
  set (s := skip_space text) in *. assert (exists sg, s = sg ++ snd (sign_of s) /\
    ((sg = [] \/ sg = [43]) /\ fst (sign_of s) = false \/ sg = [45] /\ fst (sign_of s) = true)) as (sg & Es & Hsg).
  { destruct s as [|c s']; [exists []; auto|].
    destruct (decide (c = 45)) as [->|]; [exists [45]; auto|]. destruct (decide (c = 43)) as [->|]; [exists [43]; auto|].
    exists []. rewrite sign_of_other by done. auto. }
  destruct (sign_of s) as [neg s1]. cbn [fst snd] in *. destruct (digits_split s1) as [Ed Hd].
  destruct (digits s1) as [ds rest]. cbn [fst snd] in *. case_bool_decide as Hne; [done|].
  destruct (ULLONG_MAX <? digits_value ds) eqn:El; [done|]. apply Z.ltb_ge in El. destruct rest; [|by intros].
  intros [= <-]. rewrite app_nil_r in Ed. subst s1. exists ws, sg, ds. rewrite <- Es. split; [done|]. repeat split; try done.
  destruct Hsg as [[Hsg ->]|[-> ->]]; [by left|]. right. split; [done|]. split; [|done]. intros ->.
  rewrite app_nil_l in E. by rewrite E, Es in Hh.
Qed.

Lemma parse_id_decimal id : 0 < id < 2 ^ 32 -> parse_id (decimal id) = Some id.
Proof.
  intros H. destruct (decimal_digits id ltac:(lia)) as (H1 & H2 & H3). unfold parse_id.
  rewrite (parse_u64_complete (decimal id) id).
  - rewrite (proj2 (Z.eqb_neq _ _)), (proj2 (Z.ltb_ge _ _)) by (zpow; lia). done.
  - exists [], [], (decimal id). rewrite H2. repeat split; try done; [unfold ULLONG_MAX; zlia|]. left. auto.
Qed.

Lemma parse_id_range text id : parse_id text = Some id -> 0 < id < 2 ^ 32 /\ numeral text id.
Proof.
  unfold parse_id. destruct (parse_u64 text) as [v|] eqn:E; [|done]. destruct (_ || _) eqn:Hb; [done|]. intros [= <-].
  apply parse_u64_sound in E. split; [|done]. apply orb_false_iff in Hb as [?%Z.eqb_neq ?%Z.ltb_ge].
  destruct E as (ws & sg & ds & _ & _ & Hd & _ & _ & Hv).
  assert (0 <= digits_value ds).
  { clear Hv. revert Hd. induction ds as [|d ds IH] using rev_ind; [done|]. intros [Hd1 Hd2%Forall_inv]%Forall_app.
    rewrite digits_value_app. apply andb_true_iff in Hd2. specialize (IH Hd1). lia. }
  assert (0 <= v) by (destruct Hv as [[_ ->]|(_ & _ & ->)]; [done|by apply Z.mod_pos_bound]). zpow. lia.
Qed.

(** *** Options *)

Abbreviation option_pair := (bytes * bytes)%type.

Definition flatten (pairs : list option_pair) : list bytes := concat (map (fun p => [p.1; p.2]) pairs).

Definition values_of (flag : bytes) (pairs : list option_pair) : list bytes :=
  map snd (filter (fun p => p.1 = flag) pairs).

Fixpoint join_lines (hs : list bytes) : bytes :=
  match hs with
  | [] => []
  | [h] => h
  | h :: hs' => h ++ CH_NL :: join_lines hs'
  end.

Definition known_flags : list bytes :=
  [str "--cookie"; str "--referrer"; str "--sha256"; str "--limit"; str "--header"].

Definition pair_ok (p : option_pair) : Prop :=
  p.1 ∈ known_flags /\ (p.1 = str "--limit" -> is_Some (parse_u64 p.2)).

Lemma values_snoc flag pairs p :
  values_of flag (pairs ++ [p]) = values_of flag pairs ++ (if decide (p.1 = flag) then [p.2] else []).
Proof. unfold values_of. rewrite filter_app, map_app. f_equal. cbn [filter list_filter]. by case_decide. Qed.

Lemma join_snoc hs h :
  Forall (fun x => x <> []) hs ->
  join_lines (hs ++ [h]) = join_lines hs ++ (if bool_decide (join_lines hs = []) then [] else [CH_NL]) ++ h.
Proof.
  induction 1 as [|x hs Hx Hf IH]; [done|]. destruct hs as [|y hs].
  - simpl. by rewrite bool_decide_false.
  - change (join_lines ((x :: y :: hs) ++ [h])) with (x ++ CH_NL :: join_lines ((y :: hs) ++ [h])).
    change (join_lines (x :: y :: hs)) with (x ++ CH_NL :: join_lines (y :: hs)).
    rewrite IH. rewrite (bool_decide_false (x ++ _ = [])) by (by destruct x).
    destruct (bool_decide_reflect (join_lines (y :: hs) = [])) as [E|E].
    + apply Forall_inv in Hf. destruct hs; [done|]. by destruct y.
    + rewrite <- !app_assoc. done.
Qed.

Lemma join_snoc_length hs h :
  Forall (fun x => x <> []) hs -> strlen (join_lines hs) <= strlen (join_lines (hs ++ [h])).
Proof. intros H. rewrite join_snoc, !strlen_app by done. unfold strlen. lia. Qed.

(** The options after some pairs. *)
Record options_inv (valid0 : bool) (pairs : list option_pair) (o : AddOptions) : Prop := {
  oi_valid : ao_valid o = true <->
    valid0 = true /\ Forall pair_ok pairs /\ strlen (join_lines (values_of (str "--header") pairs)) < HEADERS_SIZE;
  oi_has : ao_valid o = true -> ao_has_options o = negb (bool_decide (pairs = []));
  oi_headers : ao_valid o = true -> ao_headers o = join_lines (values_of (str "--header") pairs);
  oi_cookie : ao_cookie o = last (values_of (str "--cookie") pairs);
  oi_referrer : ao_referrer o = last (values_of (str "--referrer") pairs);
  oi_sha256 : ao_sha256 o = last (values_of (str "--sha256") pairs);
  oi_limit : ao_valid o = true ->
    ao_speed_limit o = default 0 (last (values_of (str "--limit") pairs) ≫= parse_u64);
}.

Lemma plain_flag_ok flag value : flag ∈ known_flags -> flag <> str "--limit" -> pair_ok (flag, value).
Proof. intros H1 H2. split; [done|]. intros H. by destruct H2. Qed.

Lemma pairs_ok_snoc pairs p : Forall pair_ok (pairs ++ [p]) <-> Forall pair_ok pairs /\ pair_ok p.
Proof. by rewrite Forall_app, Forall_singleton. Qed.

Ltac known_flag := apply (bool_decide_eq_true _); vm_compute; reflexivity.

Ltac options_fields :=
  rewrite ?values_snoc, ?pairs_ok_snoc; cbn [fst snd ao_valid ao_has_options ao_headers ao_cookie ao_referrer
    ao_sha256 ao_speed_limit]; rewrite ?decide_True, ?decide_False by done; rewrite ?app_nil_r, ?last_snoc.

Lemma options_step valid0 pairs p o :
  Forall (fun h => h <> []) (values_of (str "--header") (pairs ++ [p])) ->
  options_inv valid0 pairs o -> options_inv valid0 (pairs ++ [p]) (add_option p.1 p.2 o).
Proof.
  destruct p as [flag value]. cbn [fst snd]. intros Hne [Hv Hhas Hh Hc Hr Hs Hl].
  assert (Forall (fun h => h <> []) (values_of (str "--header") pairs)) as Hne'.
  { rewrite values_snoc in Hne. by apply Forall_app in Hne as [? _]. }
  pose proof (join_snoc (values_of (str "--header") pairs) value Hne') as Hj.
  pose proof (join_snoc_length (values_of (str "--header") pairs) value Hne') as Hlen.
  assert (bool_decide (pairs ++ [(flag, value)] = []) = false) as Hnil by (apply bool_decide_false; by destruct pairs).
  pose proof (plain_flag_ok flag value) as Hok.
  unfold add_option, given, append_header, invalid.
  repeat match goal with |- context [streq flag ?f] =>
    let E := fresh "E" in destruct (streq flag f) eqn:E;
      [apply streq_true in E; subst flag; try specialize (Hok ltac:(known_flag) ltac:(done))|apply streq_false in E] end.
  - split; options_fields; rewrite ?Hnil; try done. rewrite Hv. tauto.
  - split; options_fields; rewrite ?Hnil; try done. rewrite Hv. tauto.
  - split; options_fields; rewrite ?Hnil; try done. rewrite Hv. tauto.
  - destruct (parse_u64 value) as [n|] eqn:En.
    + split; options_fields; rewrite ?Hnil; try done.
      * rewrite Hv. assert (pair_ok (str "--limit", value)); [|tauto]. split; [known_flag|]. intros _. cbn [snd]. by exists n.
      * intros _. simpl. by rewrite En.
    + split; options_fields; try done. split; [done|]. intros (_ & [_ [_ Hp]] & _).
      cbn [fst snd] in Hp. rewrite En in Hp. by destruct (Hp eq_refl).
  - destruct (Z.leb_spec HEADERS_SIZE
      (strlen (ao_headers o) + strlen (if bool_decide (ao_headers o = []) then [] else [CH_NL]) + strlen value)) as [Hbig|Hsmall].
    + split; options_fields; try done. split; [done|]. intros (H0 & [H1 _] & H2). exfalso.
      assert (ao_valid o = true) as Ht by (apply Hv; split; [done|split; [done|lia]]).
      rewrite (Hh Ht), <- !strlen_app, <- app_assoc, <- Hj in Hbig. lia.
    + split; options_fields; rewrite ?Hnil; try done.
      * split.
        -- intros Ht. pose proof (proj1 Hv Ht) as (H0 & H1 & H2).
           rewrite (Hh Ht), <- !strlen_app, <- app_assoc, <- Hj in Hsmall. done.
        -- intros (H0 & [H1 _] & H2). apply Hv. split; [done|]. split; [done|lia].
      * intros Ht. by rewrite (Hh Ht), Hj.
  - split; options_fields; try done. split; [done|]. intros (_ & [_ [Hk _]] & _).
    cbn [fst] in Hk. revert Hk. unfold known_flags. rewrite !elem_of_cons, elem_of_nil.
    by intros [?|[?|[?|[?|[?|[]]]]]].
Qed.

Lemma add_options_loop_snoc pairs flag value o :
  add_options_loop (flatten (pairs ++ [(flag, value)])) o = add_option flag value (add_options_loop (flatten pairs) o).
Proof. revert o. induction pairs as [|[f v] pairs IH]; intros o; [done|]. simpl. apply IH. Qed.

Lemma options_loop_inv valid0 pairs :
  Forall (fun h => h <> []) (values_of (str "--header") pairs) ->
  options_inv valid0 pairs (add_options_loop (flatten pairs) (mkAdd None None None 0 [] false valid0)).
Proof.
  induction pairs as [|[flag value] pairs IH] using rev_ind; intros Hne.
  - split; try done. split; [by intros Hv|by intros [? _]].
  - rewrite add_options_loop_snoc. apply (options_step valid0 pairs (flag, value)); [done|]. apply IH.
    rewrite values_snoc in Hne. by apply Forall_app in Hne as [? _].
Qed.

(** ** Properties *)

(** The options of [cdm cli add].  They are accepted exactly when they come
    in pairs of a known flag and a value, every limit is a number, and all the
    headers together, one per line, fit in 4095 bytes; then the headers are
    exactly these lines and every other option has the last value given for it.
    (An empty header adds no line, and is excluded.) *)
Theorem add_options_spec pairs odd :
  Forall (fun h => h <> []) (values_of (str "--header") pairs) -> (length odd <= 1)%nat ->
  let o := parse_add_options (flatten pairs ++ odd) in
  (ao_valid o = true <->
     odd = [] /\ Forall pair_ok pairs /\ strlen (join_lines (values_of (str "--header") pairs)) < HEADERS_SIZE) /\
  (ao_valid o = true ->
     ao_has_options o = negb (bool_decide (pairs = [])) /\
     ao_headers o = join_lines (values_of (str "--header") pairs) /\
     ao_cookie o = last (values_of (str "--cookie") pairs) /\
     ao_referrer o = last (values_of (str "--referrer") pairs) /\
     ao_sha256 o = last (values_of (str "--sha256") pairs) /\
     ao_speed_limit o = default 0 (last (values_of (str "--limit") pairs) ≫= parse_u64)).
Proof.
  intros Hne Hodd. cbv zeta. unfold parse_add_options.
  assert (Nat.even (length (flatten pairs ++ odd)) = bool_decide (odd = [])) as ->.
  { rewrite length_app. assert (Nat.even (length (flatten pairs)) = true) as He.
    { clear. induction pairs as [|p pairs IH]; [done|exact IH]. }
    rewrite Nat.even_add, He. destruct odd as [|x [|y odd]]; [done|done|simpl in Hodd; lia]. }
  assert (forall o, add_options_loop (flatten pairs ++ odd) o = add_options_loop (flatten pairs) o) as ->.
  { clear Hne. induction pairs as [|p pairs IH]; intros o; [|apply IH].
    destruct odd as [|x [|y odd]]; [done|done|simpl in Hodd; lia]. }
  destruct (options_loop_inv (bool_decide (odd = [])) pairs Hne) as [Hv Hhas Hh Hc Hr Hs Hl].
  split; [by rewrite Hv, bool_decide_eq_true|]. auto 10.
Qed.

Section EndToEnd.

Context (sql_ok : sql -> Tables -> bool) (env : IoEnv).
Context (realpath : filesystem -> bytes -> errno + bytes) (env_home : option bytes).
Context (toml_parse : bytes -> option toml_doc) (json_parse : bytes -> option json_object).
Context (safe : filesystem -> bytes -> bool) (alloc_d alloc_r : bool).
Context (others : nat -> filesystem -> filesystem) (mid : SState -> SState).
Context (now : Z) (rnd : random_source) (garbage : Z).
Context (path_exists : bytes -> bool) (default_dir : bytes).
Context (json_print : list (bytes * json_value) -> bytes) (stale : bytes -> bytes).

Abbreviation handle := (handle_message sql_ok env realpath env_home toml_parse json_parse safe alloc_d
  alloc_r others mid now rnd garbage).
Abbreviation cli := (run_cli path_exists default_dir json_print stale).

Definition command_name (k : command) : bytes :=
  match k with CmdPause => str "pause" | CmdResume => str "resume" | CmdCancel => str "cancel" end.

Lemma run_cli_command k text more c :
  cli (str "cli" :: command_name k :: text :: more) (Some c) =
    (fst (cli_command k text c), Some (snd (cli_command k text c))).
Proof.
  unfold run_cli. destruct k; cbn [command_name];
    repeat match goal with |- context [streq (str ?a) (str ?b)] =>
      let v := eval vm_compute in (streq (str a) (str b)) in change (streq (str a) (str b)) with v end;
    cbv beta iota; match goal with |- context [cli_command ?k text c] => destruct (cli_command k text c) as [[] ?] end; reflexivity.
Qed.

(** C24. [cdm cli pause], [resume] and [cancel], end to end.  An argument that is
    not a number of an id sends nothing and fails; every id is accepted in
    decimal.  Otherwise the server carries out exactly that command on exactly
    that id, and the exit status is 0, with a line that names the download,
    exactly when the command succeeded there, however the kernel cuts the
    transfers. *)
Theorem cli_command_effect k text more w fd cs cc rest rest' :
  w_conns w !! fd = Some cs -> healthy (c_wr cs) -> healthy (c_wr cc) ->
  let argv := str "cli" :: command_name k :: text :: more in
  (forall id, 0 < id < 2 ^ 32 -> parse_id (decimal id) = Some id) /\
  match parse_id text with
  | None => cli argv (Some cc) = (1, [], Some cc)
  | Some id =>
      numeral text id /\ 0 < id < 2 ^ 32 /\
      exists request,
        (forall c', snd (cli argv (Some cc)) = Some c' -> drop (length (c_out cc)) (c_out c') = request) /\
        (feeds (c_in cs) (drop 8 request ++ rest) ->
         let r := run_command sql_ok env mid k id (w_s w) in
         let w' := handle fd (decode_header (take 8 request)) w in
         w_s w' = snd r /\
         exists cs', w_conns w' !! fd = Some cs' /\ feeds (c_in cs') rest /\
           (feeds (c_in cc) (drop (length (c_out cs)) (c_out cs') ++ rest') ->
            fst (cli argv (Some cc)) =
              (if decide (fst r = IPC_RESULT_OK)
               then (0, line (command_verb k ++ str " download " ++ decimal id)) else (1, []))))
  end.
Proof.
  intros Hcs Hs Hc. cbv zeta. rewrite run_cli_command. unfold cli_command.
  split; [intros id; apply parse_id_decimal|].
  destruct (parse_id text) as [id|] eqn:Eid; [|done]. destruct (parse_id_range _ _ Eid) as [Hid Hnum].
  split; [done|]. split; [done|]. exists (sent (ipc_send k id) cc). split.
  { intros c'. unfold sent. destruct (ipc_send k id cc) as [[u|] c1]; by intros [= <-]. }
  set (res := fst (run_command sql_ok env mid k id (w_s w))).
  assert (0 <= result_code res < 256) as Hcode by (destruct res; simpl; lia).
  destruct (send_command_client k id cc (result_code res) rest' Hc Hcode) as [-> Hclient].
  rewrite take_header, drop_header, header_of_roundtrip by (unfold is_u; lia). intros Hf.
  destruct (handle_command sql_ok env realpath env_home toml_parse json_parse safe alloc_d alloc_r others mid now
    rnd garbage k id w fd cs rest ltac:(unfold is_u; lia) Hcs Hf Hs) as (Hst & cs' & Ecs & Eout & Hrest).
  split; [done|]. exists cs'. split; [done|]. split; [done|]. rewrite Eout, drop_app_length. intros Hf'.
  destruct (Hclient Hf') as [Ec _]. destruct (ipc_send k id cc) as [[u|] c1]; cbn [fst] in Ec |- *; by destruct res.
Qed.

End EndToEnd.

(** ** Witnesses *)

Definition demo_pairs : list option_pair :=
  [(str "--header", str "A: b"); (str "--limit", str "1000"); (str "--header", str "C: d");
   (str "--cookie", str "x=1"); (str "--limit", str " +2000")].

Lemma add_options_spec_witness :
  exists o, o = parse_add_options (flatten demo_pairs) /\ ao_valid o = true /\
    ao_headers o = str "A: b" ++ [CH_NL] ++ str "C: d" /\ ao_cookie o = Some (str "x=1") /\ ao_speed_limit o = 2000.
Proof.
  assert (Forall (fun h => h <> []) (values_of (str "--header") demo_pairs)) as Hne
    by (vm_compute; repeat constructor; discriminate).
  assert (Forall pair_ok demo_pairs) as Hok.
  { repeat (apply Forall_cons_2; [split; [known_flag|]; intros E; vm_compute; eauto; discriminate E|]).
    apply Forall_nil_2. }
  destruct (add_options_spec demo_pairs [] Hne ltac:(simpl; lia)) as [Hv Hf]. rewrite app_nil_r in Hv, Hf.
  assert (ao_valid (parse_add_options (flatten demo_pairs)) = true) as Ht.
  { apply Hv. split; [done|]. split; [exact Hok|]. vm_compute. reflexivity. }
  eexists. split; [reflexivity|]. split; [exact Ht|]. destruct (Hf Ht) as (_ & -> & -> & _ & _ & ->).
  vm_compute. done.
Defined.

Definition cli_run : Z * bytes * option Conn :=
  run_cli (fun _ => false) (str "/d") (fun _ => []) id [str "cli"; str "pause"; str "1"] (Some rpc_client).

Lemma cli_command_effect_witness :
  fst cli_run = (0, str "Paused download 1" ++ [CH_NL]) /\
  queue_manager_get_status 1 (s_q (w_s (rpc_handle (header_of MSG_PAUSE 4) (rpc_world rpc_server))))
    = Some DOWNLOAD_PAUSED.
Proof.
  pose proof (cli_command_effect always_ok permissive cfg_realpath (Some (str "/h")) (fun _ => None) offer_parse
                (fun _ _ => true) true true (fun _ fs => fs) id 100 (fun _ => 77) 0
                (fun _ => false) (str "/d") (fun _ => []) id CmdPause (str "1") []
                (rpc_world rpc_server) 5 rpc_server rpc_client [9] []
                eq_refl ltac:(repeat constructor; discriminate) ltac:(repeat constructor; discriminate)) as [_ H].
  cbv zeta in H. assert (parse_id (str "1") = Some 1) as E1 by (vm_compute; reflexivity). rewrite E1 in H.
  destruct H as (_ & _ & req & Hreq & Hsrv).
  assert (req = encode_header (header_of MSG_PAUSE 4) ++ le 4 1) as ->.
  { rewrite <- (Hreq (default rpc_client (snd cli_run))); vm_compute; reflexivity. }
  destruct Hsrv as (_ & cs' & Ecs & _ & Hcli).
  { split; [repeat constructor; discriminate|vm_compute; reflexivity]. }
  assert (c_out cs' = [0]) as Eout.
  { revert Ecs. vm_compute. intros E. injection E as <-. reflexivity. }
  split; [|vm_compute; reflexivity].
  assert (feeds (c_in rpc_client) (drop (length (c_out rpc_server)) (c_out cs') ++ [])) as Hf.
  { rewrite Eout. split; [repeat constructor; discriminate|vm_compute; reflexivity]. }
  exact (Hcli Hf).
Defined.

(** A number that starts with white space may still be negative. *)
Example negative_id_accepted : parse_id (str " -18446744073709551615") = Some 1 /\ parse_id (str "-1") = None.
Proof. vm_compute. done. Qed.
