(* ===== verification/Toml.v ===== *)
(** * The part of TOML that the configuration uses

    The parser is vendored ([src/vendor/tomlc17.c]) and a parameter of the model
    of the configuration.  This file states what is relied on, as the TOML
    specification has it: a document made of tables whose keys are given
    integers and basic strings without escapes, one on each line, is read as it
    says ([reads_toml]).  The text that [config_save] writes is such a document
    ([render_reads]), and a small parser of these documents shows that the
    hypothesis can be met. *)

From S2P Require Import Prelude Path FileIo QueueManager Db Config Engine Scheduler Wire Commands Offers Ipc IpcClient OfferRpc Cli.

(** ** Documents *)

Inductive toml_line := LTable (name : bytes) | LKey (key : bytes) (v : toml_value) | LBlank.

Definition toml_text (l : toml_line) : bytes :=
  match l with
  | LTable name => [91] ++ name ++ [93]
  | LKey key (TInt n) => key ++ str " = " ++ decimal n
  | LKey key (TString s) => key ++ str " = " ++ [34] ++ s ++ [34]
  | LKey _ TOther | LBlank => []
  end.
Definition toml_print (ls : list toml_line) : bytes := concat (map (fun l => toml_text l ++ [CH_NL]) ls).

(** The value under a table and a key, [cur] being the table the lines are in. *)
Fixpoint toml_at (cur : bytes) (ls : list toml_line) (tab key : bytes) : option toml_value :=
  match ls with
  | [] => None
  | LTable name :: ls' => toml_at name ls' tab key
  | LKey k v :: ls' => if streq cur tab && streq k key then Some v else toml_at cur ls' tab key
  | LBlank :: ls' => toml_at cur ls' tab key
  end.

(** Bare keys; characters of a basic string that stand for themselves. *)
Definition bare_char (c : Z) : Prop := 48 <= c <= 57 \/ 65 <= c <= 90 \/ 97 <= c <= 122 \/ c = 95 \/ c = 45.
Definition bare (name : bytes) : Prop := name <> [] /\ Forall bare_char name.
Definition plain_char (c : Z) : Prop := 32 <= c <= 126 /\ c <> 34 /\ c <> 92.
Definition plain_text (s : bytes) : Prop := Forall plain_char s.

Definition line_ok (l : toml_line) : Prop :=
  match l with
  | LTable name => bare name
  | LKey key (TInt n) => bare key /\ 0 <= n < 2 ^ 63
  | LKey key (TString s) => bare key /\ plain_text s
  | LKey _ TOther => False
  | LBlank => True
  end.

Definition table_names (ls : list toml_line) : list bytes :=
  omap (fun l => match l with LTable name => Some name | _ => None end) ls.
Fixpoint qualified_keys (cur : bytes) (ls : list toml_line) : list (bytes * bytes) :=
  match ls with
  | [] => []
  | LTable name :: ls' => qualified_keys name ls'
  | LKey k _ :: ls' => (cur, k) :: qualified_keys cur ls'
  | LBlank :: ls' => qualified_keys cur ls'
  end.

(** A document: no table and no key is defined twice, every key is in a table. *)
Record toml_document (ls : list toml_line) : Prop := {
  td_lines : Forall line_ok ls;
  td_tables : NoDup (table_names ls);
  td_keys : NoDup (qualified_keys [] ls);
  td_in_table : Forall (fun p => fst p <> []) (qualified_keys [] ls);
}.

(** The parser reads such documents. *)
Definition reads_toml (parse : bytes -> option toml_doc) : Prop :=
  forall ls, toml_document ls -> exists doc, parse (toml_print ls) = Some doc /\
    forall tab key v, toml_at [] ls tab key = Some v -> doc tab key = Some v.

(** ** What is written is a document *)

Definition render_lines (c : Config) : list toml_line :=
  [LTable (str "downloads"); LKey (str "max_concurrent") (TInt (g_max_concurrent c));
   LKey (str "default_directory") (TString (g_default_dir c)); LBlank;
   LTable (str "retry"); LKey (str "max_attempts") (TInt (g_retry_max_attempts c));
   LKey (str "base_delay_sec") (TInt (g_retry_base_delay_sec c));
   LKey (str "max_delay_sec") (TInt (g_retry_max_delay_sec c)); LBlank;
   LTable (str "throttle"); LKey (str "max_speed_bytes_per_sec") (TInt (g_max_speed_bps c))].

Lemma render_print c : render c = toml_print (render_lines c).
Proof.
  unfold render, toml_print, render_lines. cbn [map concat toml_text]. unfold NLs, QUOTE.
  rewrite <- !app_assoc, !app_nil_r. reflexivity.
Qed.

Definition is_bare (name : bytes) : bool :=
  negb (bool_decide (name = [])) &&
  forallb (fun c => ((48 <=? c) && (c <=? 57)) || ((65 <=? c) && (c <=? 90)) || ((97 <=? c) && (c <=? 122))
                    || (c =? 95) || (c =? 45)) name.

Lemma is_bare_spec name : is_bare name = true -> bare name.
Proof.
  unfold is_bare, bare, bare_char. rewrite andb_true_iff, negb_true_iff, bool_decide_eq_false, forallb_forall, Forall_forall.
  intros [Hn H]. split; [done|]. intros c Hc. apply list_elem_of_In in Hc. specialize (H c Hc). lia.
Qed.

Lemma render_document c :
  config_sane c -> g_max_speed_bps c < 2 ^ 63 -> plain_text (g_default_dir c) -> toml_document (render_lines c).
Proof.
  intros (H1 & H2 & H3 & H4 & H5) H6 Hd. unfold INT_MAX in *. split.
  - unfold render_lines. unfold is_u in H5.
    repeat (constructor; [first [exact I|apply is_bare_spec; by vm_compute|
      (split; [apply is_bare_spec; by vm_compute|first [exact Hd|zlia]])]|]). constructor.
  - apply (bool_decide_unpack _). vm_compute. exact I.
  - apply (bool_decide_unpack _). vm_compute. exact I.
  - cbn [render_lines qualified_keys]. repeat (constructor; [done|]). constructor.
Qed.

(** The configuration written is the one read. *)
Lemma render_reads parse c :
  reads_toml parse -> config_sane c -> g_max_speed_bps c < 2 ^ 63 -> plain_text (g_default_dir c) ->
  exists doc, parse (render c) = Some doc /\ doc_of c doc.
Proof.
  intros Hp Hs Hv Hd. destruct (Hp _ (render_document c Hs Hv Hd)) as (doc & E & Hdoc).
  exists doc. rewrite render_print. split; [exact E|].
  repeat split; apply Hdoc; reflexivity.
Qed.

(** ** A parser of these documents *)

Fixpoint until (c : Z) (s : bytes) : bytes * bytes :=
  match s with
  | [] => ([], [])
  | x :: s' => if x =? c then ([], s') else let '(a, b) := until c s' in (x :: a, b)
  end.

Fixpoint split_nl (cur s : bytes) : list bytes :=
  match s with
  | [] => []
  | c :: s' => if c =? CH_NL then cur :: split_nl [] s' else split_nl (cur ++ [c]) s'
  end.

Definition parse_line (l : bytes) : toml_line :=
  match l with
  | [] => LBlank
  | c :: r =>
      if c =? 91 then LTable (fst (until 93 r))
      else
        let '(key, rest) := until 32 l in
        match drop 2 rest with
        | q :: s => if q =? 34 then LKey key (TString (fst (until 34 s))) else LKey key (TInt (fst (strtol (q :: s))))
        | [] => LBlank
        end
  end.

Definition small_toml (text : bytes) : option toml_doc :=
  Some (toml_at [] (map parse_line (split_nl [] text))).

Lemma until_app c a b : (c ∉ a) -> until c (a ++ c :: b) = (a, b).
Proof.
  induction a as [|x a IH]; intros H; cbn [app until]; [by rewrite Z.eqb_refl|].
  apply not_elem_of_cons in H as [Hx Ha]. by rewrite (proj2 (Z.eqb_neq _ _)), IH by congruence.
Qed.

Lemma split_nl_line cur l s : (CH_NL ∉ l) -> split_nl cur (l ++ CH_NL :: s) = (cur ++ l) :: split_nl [] s.
Proof.
  revert cur. induction l as [|x l IH]; intros cur H; cbn [app split_nl]; [by rewrite Z.eqb_refl, app_nil_r|].
  apply not_elem_of_cons in H as [Hx Hl]. rewrite (proj2 (Z.eqb_neq _ _)), IH by congruence. by rewrite <- app_assoc.
Qed.

Lemma split_print ls : Forall (fun l => CH_NL ∉ toml_text l) ls -> split_nl [] (toml_print ls) = map toml_text ls.
Proof.
  unfold toml_print. induction 1 as [|l ls Hl _ IH]; [done|]. cbn [map concat].
  rewrite <- app_assoc. cbn [app]. by rewrite split_nl_line, IH.
Qed.

Lemma bare_not_in name c : bare name -> ~ bare_char c -> (c ∉ name).
Proof. intros [_ H] Hc Hin. rewrite Forall_forall in H. by apply Hc, H. Qed.

Lemma plain_not_in s c : plain_text s -> ~ plain_char c -> (c ∉ s).
Proof. intros H Hc Hin. unfold plain_text in H. rewrite Forall_forall in H. by apply Hc, H. Qed.

Lemma digits_not_in n c : 0 <= n -> is_digit c = false -> (c ∉ decimal n).
Proof.
  intros Hn Hc Hin. destruct (decimal_digits n Hn) as (Hd & _). rewrite Forall_forall in Hd.
  apply Hd in Hin. congruence.
Qed.

Ltac bare_tac := first [by apply bare_not_in; [|unfold bare_char; lia] | by apply plain_not_in; [|unfold plain_char; lia]
                       | by apply digits_not_in; [lia|reflexivity] | apply not_elem_of_nil].

Lemma line_one_line l : line_ok l -> (CH_NL ∉ toml_text l).
Proof.
  destruct l as [name|key [n|s|]|]; cbn [line_ok toml_text]; intros H; try done.
  - rewrite !not_elem_of_app, !list_elem_of_singleton. split_and!; [done|bare_tac|done].
  - destruct H as [Hk Hn]. rewrite !not_elem_of_app. split_and!; [bare_tac| |bare_tac].
    vm_compute. intros Hin. by repeat (apply elem_of_cons in Hin as [Hin|Hin]; [done|]); apply not_elem_of_nil in Hin.
  - destruct H as [Hk Hs]. rewrite !not_elem_of_app, !list_elem_of_singleton. split_and!; [bare_tac| |done|bare_tac|done].
    vm_compute. intros Hin. by repeat (apply elem_of_cons in Hin as [Hin|Hin]; [done|]); apply not_elem_of_nil in Hin.
  - apply not_elem_of_nil.
Qed.

Lemma parse_key key rest :
  bare key -> exists c r, key ++ str " = " ++ rest = c :: r /\ c <> 91 /\
    until 32 (key ++ str " = " ++ rest) = (key, [61; 32] ++ rest).
Proof.
  intros Hk. destruct key as [|c key'] eqn:E; [by destruct Hk|]. rewrite <- E in *. exists c, (key' ++ str " = " ++ rest).
  split; [by rewrite E|]. split.
  - intros ->. destruct Hk as [_ Hk]. rewrite E in Hk. apply Forall_inv in Hk. unfold bare_char in Hk. lia.
  - change (str " = " ++ rest) with (32 :: [61; 32] ++ rest). apply until_app. bare_tac.
Qed.

Lemma parse_print_line l : line_ok l -> parse_line (toml_text l) = l.
Proof.
  destruct l as [name|key [n|s|]|]; cbn [line_ok toml_text]; intros H; try done.
  - cbn [app parse_line]. change (91 =? 91) with true. cbv iota. change (name ++ [93]) with (name ++ 93 :: []).
    rewrite until_app; [done|bare_tac].
  - destruct H as [Hk Hn]. destruct (parse_key key (decimal n) Hk) as (c & r & E & Hc & Hu).
    unfold parse_line. rewrite Hu. rewrite E. rewrite (proj2 (Z.eqb_neq c 91)) by done. cbn [app drop].
    pose proof (strtol_decimal n Hn) as Hs. destruct (decimal_digits n ltac:(lia)) as (Hd & _ & Hne).
    destruct (decimal n) as [|q ds]; [done|]. cbn [app drop]. rewrite (proj2 (Z.eqb_neq q 34)); [by rewrite Hs|].
    apply Forall_inv in Hd. intros ->. done.
  - destruct H as [Hk Hp]. destruct (parse_key key ([34] ++ s ++ [34]) Hk) as (c & r & E & Hc & Hu).
    unfold parse_line. rewrite Hu. rewrite E. rewrite (proj2 (Z.eqb_neq c 91)) by done. cbn [app drop].
    change (34 =? 34) with true. cbv iota. change (s ++ [34]) with (s ++ 34 :: []). rewrite until_app; [done|bare_tac].
Qed.

(** The hypothesis can be met. *)
Lemma small_toml_reads : reads_toml small_toml.
Proof.
  intros ls [Hl _ _ _]. eexists. split; [reflexivity|]. intros tab key v.
  assert (map parse_line (split_nl [] (toml_print ls)) = ls) as ->; [|done].
  rewrite split_print by (eapply Forall_impl; [exact Hl|apply line_one_line]).
  rewrite map_map. rewrite <- (map_id ls) at 2. apply map_ext_in. intros l Hin%list_elem_of_In.
  rewrite Forall_forall in Hl. by apply parse_print_line, Hl.
Qed.

(** A folder with a quote: what is written is not read as it was. *)
Example quoted_folder_misread :
  let c := mkConfig 4 (str "/h/a" ++ [34] ++ str "b") 7 3 90 0 in
  (small_toml (render c) ≫= fun doc => doc (str "downloads") (str "default_directory")) = Some (TString (str "/h/a")).
Proof. vm_compute. reflexivity. Qed.
