(* ===== verification/GuiWindow.v ===== *)
(** * The main window ([src/gui/gui_nuklear.c], [src/platform/diskspace.c])

    What a frame of [run_gui] decides: which rows are shown, what the buttons
    and dialogs do, which commands go to the controller, what is opened, which
    settings are saved.  What the user does in a frame is an argument; colours,
    icons and positions are left out. *)

From S2P Require Import Prelude Path FileIo Finalize QueueManager Db Config Engine Scheduler Wire Commands Offers Ipc IpcClient OfferRpc Autostart Cli GuiClient GuiView Toml.

(** ** Rows *)

Definition last_separator (path : bytes) : option nat := strrchr path CH_SLASH.

Definition filename_for_row (row : GuiRow) : bytes :=
  if negb (bool_decide (gr_dest_path row = [])) then
    match last_separator (gr_dest_path row) with Some i => drop (S i) (gr_dest_path row) | None => gr_dest_path row end
  else match strrchr (gr_url row) CH_SLASH with Some i => drop (S i) (gr_url row) | None => gr_url row end.

(** A null row has no status. *)
Definition is_status (row : option GuiRow) (status : bytes) : bool :=
  match row with Some r => streq (gr_status r) status | None => false end.

Definition can_pause (row : option GuiRow) : bool := is_status row (str "ACTIVE") || is_status row (str "QUEUED").

Fixpoint ascii_equal (a b : bytes) : bool :=
  match a, b with
  | x :: a', y :: b' => if lower x =? lower y then ascii_equal a' b' else false
  | [], [] => true
  | _, _ => false
  end.

(** The needle at the front of the text. *)
Fixpoint starts_with_ci (a b : bytes) {struct b} : bool :=
  match b with
  | [] => true
  | y :: b' => match a with x :: a' => (lower x =? lower y) && starts_with_ci a' b' | [] => false end
  end.

Fixpoint search_ci (text needle : bytes) : bool :=
  match text with
  | [] => false
  | _ :: text' => starts_with_ci text needle || search_ci text' needle
  end.

Definition contains_case_insensitive (text needle : bytes) : bool :=
  if bool_decide (needle = []) then true else search_ci text needle.

Inductive GuiTab := TAB_ALL | TAB_DOWNLOADING | TAB_COMPLETED.
Inductive GuiCategory :=
| CATEGORY_ALL | CATEGORY_DOCUMENTS | CATEGORY_COMPRESSED | CATEGORY_MUSIC | CATEGORY_VIDEO | CATEGORY_PROGRAMS.

#[global] Instance tab_eq_dec : EqDecision GuiTab.
Proof. solve_decision. Defined.
#[global] Instance category_eq_dec : EqDecision GuiCategory.
Proof. solve_decision. Defined.

Definition extensions : list (GuiCategory * bytes) :=
  [(CATEGORY_DOCUMENTS, str "pdf doc docx txt xls xlsx ppt pptx odt csv");
   (CATEGORY_COMPRESSED, str "zip rar 7z tar gz tgz bz2 xz");
   (CATEGORY_MUSIC, str "mp3 wav flac ogg m4a aac");
   (CATEGORY_VIDEO, str "mp4 mkv avi mov webm flv");
   (CATEGORY_PROGRAMS, str "exe msi dmg apk deb rpm appimage sh")].

(** The first category one of whose words is [ext]. *)
Fixpoint category_of (ext : bytes) (table : list (GuiCategory * bytes)) : GuiCategory :=
  match table with
  | [] => CATEGORY_ALL
  | (category, words) :: table' =>
      if existsb (fun w => (length ext =? length w)%nat && ascii_equal ext w) (pieces 32 [] words)
      then category else category_of ext table'
  end.

Definition category_for_row (row : GuiRow) : GuiCategory :=
  let filename := filename_for_row row in
  match strrchr filename CH_DOT with
  | None | Some O => CATEGORY_ALL
  | Some dot => if bool_decide (drop (S dot) filename = []) then CATEGORY_ALL
                else category_of (drop (S dot) filename) extensions
  end.

(** What the user filters by. *)
Record Filter := mkFilter { f_tab : GuiTab; f_category : GuiCategory; f_search : bytes }.

Definition row_matches (f : Filter) (row : GuiRow) : bool :=
  if bool_decide (f_tab f = TAB_DOWNLOADING) && negb (can_pause (Some row)) && negb (is_status (Some row) (str "PAUSED"))
  then false
  else if bool_decide (f_tab f = TAB_COMPLETED) && negb (is_status (Some row) (str "DONE")) then false
  else if negb (bool_decide (f_category f = CATEGORY_ALL)) && negb (bool_decide (category_for_row row = f_category f))
  then false
  else contains_case_insensitive (filename_for_row row) (f_search f)
       || contains_case_insensitive (gr_dest_path row) (f_search f).

(** The number next to a category. *)
Definition category_count (rows : list GuiRow) (c : GuiCategory) : nat :=
  if bool_decide (c = CATEGORY_ALL) then length rows
  else length (filter (fun r => category_for_row r = c) rows).

(** The text in the icon of a row. *)
Definition upper (c : Z) : Z := if (97 <=? c) && (c <=? 122) then c - 32 else c.
Definition file_chip (filename : bytes) : bytes :=
  let ext := match strrchr filename CH_DOT with
             | Some dot => if bool_decide (drop (S dot) filename = []) then str "FILE" else drop (S dot) filename
             | None => str "FILE"
             end in
  map upper (strlcpy 5 ext).

(** ** Labels *)

Definition continuation (c : Z) : bool := Z.land c 192 =? 128.

(** The inner loop: back to the start of a character. *)
Fixpoint char_start (text : bytes) (len : nat) : nat :=
  match len with
  | O => O
  | S len' => if continuation (nth len text 0) then char_start text len' else len
  end.

(** The outer loop; every round drops a character. *)
Fixpoint shorten (fits : bytes -> bool) (text : bytes) (len fuel : nat) : nat :=
  match fuel with
  | O => len
  | S fuel' =>
      if (0 <? len)%nat && negb (fits (take len text)) then shorten fits text (char_start text (len - 1)) fuel'
      else len
  end.

(** What [label_font] draws.  [fits]: the text is not wider than the
    rectangle; [fits_dots]: it leaves room for the dots. *)
Definition label_text (fits fits_dots : bytes -> bool) (value : bytes) : bytes :=
  let text := strlcpy 2048 value in
  if fits text then text
  else take (shorten fits_dots text (length text) (length text)) text ++ str "...".

(** ** Opening files *)

Definition uri_plain (c : Z) : bool :=
  ((97 <=? c) && (c <=? 122)) || ((65 <=? c) && (c <=? 90)) || ((48 <=? c) && (c <=? 57))
  || bool_decide (is_Some (strchr (str "/-._~:") c)).

Definition hex_digit (d : Z) : Z := if d <? 10 then 48 + d else 55 + d.
Definition encode_char (c : Z) : bytes := if uri_plain c then [c] else [37; hex_digit (c / 16); hex_digit (c mod 16)].
Definition file_uri (local : bytes) : bytes := str "file://" ++ concat (map encode_char local).

(** The URI given to SDL, or the error shown. *)
Definition open_path (path : bytes) (folder : bool) : bytes + bytes :=
  let local := strlcpy 1024 path in
  let target := if folder then
                  match last_separator local with
                  | None => None
                  | Some end_ => Some (take (if (end_ =? 0)%nat then 1 else end_) local)
                  end
                else Some local in
  match target with
  | None => inr (str "Cannot open a relative destination folder.")
  | Some local =>
      if negb (bool_decide (head local = Some CH_SLASH)) then
        inr (str "Opening files requires an absolute destination path.")
      else inl (file_uri local)
  end.

(** ** Disk space *)

Record DiskSpace := mkDisk { free_bytes : Z; total_bytes : Z }.

(** [statvfs]: the size of a fragment, the blocks, those available. *)
Definition diskspace_get (path : bytes) (statvfs : option (Z * Z * Z)) : option DiskSpace :=
  if bool_decide (path = []) then None
  else
    match statvfs with
    | None => None
    | Some (frsize, blocks, bavail) =>
        if (frsize =? 0) || (blocks =? 0) then None
        else if ((2 ^ 64 - 1) / frsize <? blocks) || ((2 ^ 64 - 1) / frsize <? bavail) then None
        else
          let total := u64 (blocks * frsize) in
          let free := u64 (bavail * frsize) in
          Some (mkDisk (if total <? free then total else free) total)
    end.

(** ** Numbers in fields *)

Definition print_int (n : Z) : bytes := if n <? 0 then 45 :: decimal (- n) else decimal n.

Definition parse_number (text : bytes) (min max : Z) : option Z :=
  let '(value, end_) := strtol text in
  if bool_decide (text = []) || negb (bool_decide (end_ = [])) || (value <? min) || (max <? value)
  then None else Some value.

(** ** The state of the window *)

(** The dialog of a new download; the speed limit as the text of its field. *)
Record AddForm := mkAddForm {
  af_url : bytes; af_folder : bytes; af_cookie : bytes; af_referrer : bytes; af_headers : bytes;
  af_sha256 : bytes; af_speed : bytes }.

(** The settings: the texts of the fields. *)
Record SettingsForm := mkSettingsForm {
  sf_directory : bytes; sf_concurrent : bytes; sf_attempts : bytes; sf_base_delay : bytes; sf_max_delay : bytes;
  sf_global_speed : bytes }.

(** Which dialogs are open, and the menu of a row ([d_menu_id] 0: none). *)
Record Dialogs := mkDialogs {
  d_add : bool; d_settings : bool; d_details : bool; d_advanced : bool; d_menu_id : Z; d_menu_just_opened : bool }.

(** [wi_disk]: [None] when it is not available. *)
Record Window := mkWindow {
  wi_ui : UiState; wi_filter : Filter; wi_dialogs : Dialogs; wi_add : AddForm; wi_settings : SettingsForm;
  wi_message : bytes; wi_disk : option DiskSpace; wi_disk_checked_at : Z }.

(** The window with what it acts on: the controller, the configuration, files,
    and the paths opened so far. *)
Record Desk := mkDesk {
  de_win : Window; de_gui : Gui; de_cfg : Config; de_fs : filesystem; de_opened : list bytes }.

Definition on_win (f : Window -> Window) (d : Desk) : Desk :=
  mkDesk (f (de_win d)) (de_gui d) (de_cfg d) (de_fs d) (de_opened d).
Definition set_ui (ui : UiState) (w : Window) : Window :=
  mkWindow ui (wi_filter w) (wi_dialogs w) (wi_add w) (wi_settings w) (wi_message w) (wi_disk w) (wi_disk_checked_at w).
Definition set_filter (f : Filter) (w : Window) : Window :=
  mkWindow (wi_ui w) f (wi_dialogs w) (wi_add w) (wi_settings w) (wi_message w) (wi_disk w) (wi_disk_checked_at w).
Definition set_dialogs (f : Dialogs -> Dialogs) (w : Window) : Window :=
  mkWindow (wi_ui w) (wi_filter w) (f (wi_dialogs w)) (wi_add w) (wi_settings w) (wi_message w) (wi_disk w)
    (wi_disk_checked_at w).
Definition set_add (a : AddForm) (w : Window) : Window :=
  mkWindow (wi_ui w) (wi_filter w) (wi_dialogs w) a (wi_settings w) (wi_message w) (wi_disk w) (wi_disk_checked_at w).
Definition set_settings (s : SettingsForm) (message : bytes) (w : Window) : Window :=
  mkWindow (wi_ui w) (wi_filter w) (wi_dialogs w) (wi_add w) s message (wi_disk w) (wi_disk_checked_at w).
Definition set_disk (disk : option DiskSpace) (at_ : Z) (w : Window) : Window :=
  mkWindow (wi_ui w) (wi_filter w) (wi_dialogs w) (wi_add w) (wi_settings w) (wi_message w) disk at_.

Definition set_ui_error (e : bytes) (w : Window) : Window :=
  let ui := wi_ui w in
  set_ui (mkUi (ui_rows ui) (ui_connected ui) (ui_selected_id ui) (ui_details ui) (ui_details_found ui) (strlcpy 256 e)
    (ui_toast ui) (ui_toast_open ui)) w.
Definition select (id : Z) (w : Window) : Window :=
  let ui := wi_ui w in
  set_ui (mkUi (ui_rows ui) (ui_connected ui) id (ui_details ui) (ui_details_found ui) (ui_error ui)
    (ui_toast ui) (ui_toast_open ui)) w.
Definition set_details_found (found : bool) (w : Window) : Window :=
  let ui := wi_ui w in
  set_ui (mkUi (ui_rows ui) (ui_connected ui) (ui_selected_id ui) (ui_details ui) found (ui_error ui)
    (ui_toast ui) (ui_toast_open ui)) w.
Definition set_toast_open (o : bool) (w : Window) : Window :=
  let ui := wi_ui w in
  set_ui (mkUi (ui_rows ui) (ui_connected ui) (ui_selected_id ui) (ui_details ui) (ui_details_found ui) (ui_error ui)
    (ui_toast ui) o) w.

Definition open_add (o : bool) (d : Dialogs) : Dialogs :=
  mkDialogs o (d_settings d) (d_details d) (d_advanced d) (d_menu_id d) (d_menu_just_opened d).
Definition settings_opened (o : bool) (d : Dialogs) : Dialogs :=
  mkDialogs (d_add d) o (d_details d) (d_advanced d) (d_menu_id d) (d_menu_just_opened d).
Definition open_details (o : bool) (d : Dialogs) : Dialogs :=
  mkDialogs (d_add d) (d_settings d) o (d_advanced d) (d_menu_id d) (d_menu_just_opened d).
Definition set_advanced (o : bool) (d : Dialogs) : Dialogs :=
  mkDialogs (d_add d) (d_settings d) (d_details d) o (d_menu_id d) (d_menu_just_opened d).
Definition set_menu (id : Z) (just : bool) (d : Dialogs) : Dialogs :=
  mkDialogs (d_add d) (d_settings d) (d_details d) (d_advanced d) id just.
Definition close_dialogs (d : Dialogs) : Dialogs :=
  mkDialogs false false false (d_advanced d) (d_menu_id d) (d_menu_just_opened d).
Definition modal (d : Dialogs) : bool := d_settings d || d_add d || d_details d.

(** [report_enqueue] of one of the [gui_controller_enqueue_*]. *)
Definition report_enqueue (enqueue : command_ring -> bool * command_ring) (d : Desk) : Desk :=
  let g := de_gui d in
  let '(ok, ring) := enqueue (gu_commands g) in
  let d := mkDesk (de_win d) (mkGui (gu_client g) (gu_events g) ring) (de_cfg d) (de_fs d) (de_opened d) in
  if ok then d else on_win (set_ui_error (str "Command queue is full. Please try again.")) d.

Section Window.

(** [SDL_OpenURL] and [SDL_SetClipboardText]: the text of the error, if any;
    [realpath], HOME and the TOML parser of the configuration. *)
Context (env : IoEnv) (open_url : bytes -> option bytes) (clipboard : bytes -> option bytes).
Context (realpath : filesystem -> bytes -> errno + bytes) (env_home : option bytes) (toml_parse : bytes -> option toml_doc).

(** [open_path] with its effects. *)
Definition open_in_desktop (path : bytes) (folder : bool) (d : Desk) : Desk :=
  match open_path path folder with
  | inr e => on_win (set_ui_error e) d
  | inl uri =>
      let d := mkDesk (de_win d) (de_gui d) (de_cfg d) (de_fs d) (de_opened d ++ [uri]) in
      match open_url uri with
      | None => d
      | Some e => on_win (set_ui_error (str "Could not open destination: " ++ take 190 e)) d
      end
  end.

Definition add_download (a : AddForm) (speed_limit : Z) (d : Desk) : bool * Desk :=
  let filename := path_filename_from_url (af_url a) 512 in
  match path_join (af_folder a) filename IPC_MAX_PATH_LEN ≫= path_make_unique (path_exists env (de_fs d)) IPC_MAX_PATH_LEN with
  | None => (false, d)
  | Some unique_path =>
      let text s : option bytes := if bool_decide (s = []) then None else Some s in
      let options := mkIpcOptions (text (af_cookie a)) (text (af_referrer a)) (text (af_headers a)) (text (af_sha256 a))
                       speed_limit in
      let has_options := negb (bool_decide (af_cookie a = []) && bool_decide (af_referrer a = [])
                               && bool_decide (af_headers a = []) && bool_decide (af_sha256 a = [])) || (0 <? speed_limit) in
      let g := de_gui d in
      let '(ok, ring) := gui_controller_enqueue_add (af_url a) unique_path (if has_options then Some options else None)
                           (gu_commands g) in
      (ok, mkDesk (de_win d) (mkGui (gu_client g) (gu_events g) ring) (de_cfg d) (de_fs d) (de_opened d))
  end.

(** The texts of the settings dialog for a configuration. *)
Definition settings_fields (c : Config) : SettingsForm :=
  let number n := strlcpy 16 (print_int n) in
  mkSettingsForm (strlcpy 1024 (g_default_dir c)) (number (g_max_concurrent c)) (number (g_retry_max_attempts c))
    (number (g_retry_base_delay_sec c)) (number (g_retry_max_delay_sec c))
    (number (if 1000000000 <? g_max_speed_bps c then 1000000000 else g_max_speed_bps c)).

Definition open_settings (d : Desk) : Desk :=
  on_win (fun w => set_dialogs (fun x => set_menu 0 (d_menu_just_opened x) (settings_opened true x))
                     (set_settings (settings_fields (de_cfg d)) [] w)) d.

(** ** The dialogs *)

(** What the user does in the settings dialog: the texts typed, the folder
    chosen in the browser, the buttons. *)
Record SettingsInput := mkSettingsInput {
  si_shown : bool; si_close : bool; si_fields : SettingsForm; si_browse : option bytes; si_cancel : bool; si_save : bool }.

Definition parse_settings (s : SettingsForm) : option Config :=
  concurrent ← parse_number (sf_concurrent s) 1 64;
  attempts ← parse_number (sf_attempts s) 0 100;
  base ← parse_number (sf_base_delay s) 1 3600;
  max ← parse_number (sf_max_delay s) 1 86400;
  speed ← parse_number (sf_global_speed s) 0 1000000000;
  Some (mkConfig concurrent (sf_directory s) attempts base max speed).

Definition save_settings (d : Desk) : Desk :=
  let s := wi_settings (de_win d) in
  let message m d := on_win (set_settings s m) d in
  match parse_settings s with
  | None => message (str "Invalid number. Check the allowed range in each field.") d
  | Some config =>
      let '(saved, cfg, fs) := config_save env realpath env_home toml_parse config (de_cfg d) (de_fs d) in
      let d := mkDesk (de_win d) (de_gui d) cfg fs (de_opened d) in
      let g := de_gui d in
      let '(applied, client) := if saved then gui_client_reload_config (gu_client g) else (false, gu_client g) in
      let d := mkDesk (de_win d) (mkGui client (gu_events g) (gu_commands g)) (de_cfg d) (de_fs d) (de_opened d) in
      if applied then
        on_win (fun w =>
          let a := wi_add w in
          set_dialogs (settings_opened false)
            (set_disk (wi_disk w) 4294967295
               (set_add (mkAddForm (af_url a) (strlcpy 1024 (sf_directory s)) (af_cookie a) (af_referrer a) (af_headers a)
                           (af_sha256 a) (af_speed a)) w))) d
      else message (str "Could not save or apply settings") d
  end.

Definition draw_settings (i : SettingsInput) (d : Desk) : Desk :=
  if negb (si_shown i) then d
  else
    let d := if si_close i then on_win (set_dialogs (settings_opened false)) d else d in
    let f := si_fields i in
    let dir := match si_browse i with Some x => strlcpy 1024 x | None => sf_directory f end in
    let s := mkSettingsForm dir (sf_concurrent f) (sf_attempts f) (sf_base_delay f) (sf_max_delay f) (sf_global_speed f) in
    let d := on_win (fun w => set_settings s (wi_message w) w) d in
    let d := if si_cancel i then on_win (set_dialogs (settings_opened false)) d else d in
    if si_save i then save_settings d else d.

Record AddInput := mkAddInput {
  ai_shown : bool; ai_close : bool; ai_fields : AddForm; ai_browse : option bytes; ai_advanced : bool;
  ai_cancel : bool; ai_add : bool }.

Definition empty_form : AddForm := mkAddForm [] [] [] [] [] [] (str "0").

Definition submit_add (d : Desk) : Desk :=
  let a := wi_add (de_win d) in
  if bool_decide (af_url a = []) || bool_decide (af_folder a = []) then
    on_win (set_ui_error (str "Enter a URL and destination folder.")) d
  else
    match parse_number (af_speed a) 0 1000000000 with
    | None => on_win (set_ui_error (str "Speed limit must be between 0 and 1000000000.")) d
    | Some speed_limit =>
        let '(ok, d) := add_download a speed_limit d in
        if ok then
          on_win (fun w => set_dialogs (fun x => set_advanced false (open_add false x)) (set_add empty_form (set_ui_error [] w))) d
        else on_win (set_ui_error (str "Could not prepare or enqueue the download.")) d
    end.

(** The fields of the advanced options can only be changed while they are shown. *)
Definition draw_add (i : AddInput) (d : Desk) : Desk :=
  if negb (ai_shown i) then d
  else
    let d := if ai_close i then on_win (set_dialogs (open_add false)) d else d in
    let old := wi_add (de_win d) in
    let f := ai_fields i in
    let folder := match ai_browse i with Some x => strlcpy 1024 x | None => af_folder f end in
    let d := if ai_advanced i then on_win (set_dialogs (fun x => set_advanced (negb (d_advanced x)) x)) d else d in
    let a := if d_advanced (wi_dialogs (de_win d))
             then mkAddForm (af_url f) folder (af_cookie f) (af_referrer f) (af_headers f) (af_sha256 f) (af_speed f)
             else mkAddForm (af_url f) folder (af_cookie old) (af_referrer old) (af_headers old) (af_sha256 old) (af_speed old) in
    let d := on_win (set_add a) d in
    let d := if ai_cancel i then on_win (set_dialogs (open_add false)) d else d in
    if ai_add i then submit_add d else d.

(** ** The main window *)

(** The buttons of the frame and the search field. *)
Record ChromeInput := mkChromeInput {
  ch_tab : GuiTab -> bool; ch_search : option bytes; ch_new : bool; ch_category : GuiCategory -> bool }.

Definition tabs : list GuiTab := [TAB_ALL; TAB_DOWNLOADING; TAB_COMPLETED].
Definition categories : list GuiCategory :=
  [CATEGORY_ALL; CATEGORY_DOCUMENTS; CATEGORY_COMPRESSED; CATEGORY_MUSIC; CATEGORY_VIDEO; CATEGORY_PROGRAMS].

Definition draw_chrome (i : ChromeInput) (d : Desk) : Desk :=
  let f := wi_filter (de_win d) in
  let tab := fold_left (fun t x => if ch_tab i x then x else t) tabs (f_tab f) in
  let search := match ch_search i with Some s => strlcpy 256 s | None => f_search f end in
  let category := fold_left (fun c x => if ch_category i x then x else c) categories (f_category f) in
  let d := on_win (set_filter (mkFilter tab category search)) d in
  if ch_new i then on_win (set_dialogs (open_add true)) d else d.

(** Clicks on a row: on its button, with the right and with the left button. *)
Record RowInput := mkRowInput { ro_more : bool; ro_right : bool; ro_left : bool }.

Definition click_row (i : RowInput) (row : GuiRow) (w : Window) : Window :=
  let x := wi_dialogs w in
  let interactive := negb (d_settings x) && negb (d_add x) && negb (d_details x) && (d_menu_id x =? 0) in
  if interactive && (ro_more i || ro_right i) then
    set_dialogs (set_menu (if d_menu_id x =? gr_id row then 0 else gr_id row) true) (select (gr_id row) w)
  else if interactive && ro_left i then select (gr_id row) w
  else w.

Fixpoint draw_rows (i : nat -> RowInput) (n : nat) (rows : list GuiRow) (w : Window) : Window :=
  match rows with
  | [] => w
  | row :: rows' => draw_rows i (S n) rows' (click_row (i n) row w)
  end.

Record ToolInput := mkToolInput { to_add : bool; to_cancel : bool; to_pause : bool; to_resume : bool; to_settings : bool }.

(** A button that acts on the selected row. *)
Definition row_button (enabled clicked : bool) (row : option GuiRow)
    (enqueue : Z -> command_ring -> bool * command_ring) (d : Desk) : Desk :=
  if enabled && clicked then
    match row with Some r => report_enqueue (enqueue (gr_id r)) d | None => d end
  else d.

Definition draw_toolbar (i : ToolInput) (rows : list GuiRow) (d : Desk) : Desk :=
  let selected := find_gui_row (ui_selected_id (wi_ui (de_win d))) rows in
  let d := if to_add i then on_win (set_dialogs (open_add true)) d else d in
  let d := row_button (can_pause selected || is_status selected (str "PAUSED")) (to_cancel i) selected
             gui_controller_enqueue_cancel d in
  let d := row_button (can_pause selected) (to_pause i) selected gui_controller_enqueue_pause d in
  let d := row_button (is_status selected (str "PAUSED")) (to_resume i) selected gui_controller_enqueue_resume d in
  if to_settings i then open_settings d else d.

Definition show_details (id : Z) (d : Desk) : Desk :=
  report_enqueue (gui_controller_enqueue_details id)
    (on_win (fun w => set_dialogs (open_details true) (set_details_found false (select id w))) d).

(** [mi_outside]: a press outside; [mi_popup]: Nuklear opens the popup; the
    buttons from top to bottom. *)
Record MenuInput := mkMenuInput {
  mi_outside : bool; mi_popup : bool; mi_first : bool; mi_folder : bool; mi_third : bool; mi_details : bool; mi_cancel : bool }.

Definition close_menu (w : Window) : Window := set_dialogs (fun x => set_menu 0 (d_menu_just_opened x) x) w.

Definition redownload (row : GuiRow) : Desk -> Desk :=
  report_enqueue (gui_controller_enqueue_add (gr_url row) (gr_dest_path row) None).

Definition menu_first (row : GuiRow) (d : Desk) : Desk :=
  if is_status (Some row) (str "DONE") then open_in_desktop (gr_dest_path row) false d
  else if can_pause (Some row) then report_enqueue (gui_controller_enqueue_pause (gr_id row)) d
  else if is_status (Some row) (str "PAUSED") then report_enqueue (gui_controller_enqueue_resume (gr_id row)) d
  else redownload row d.

Definition menu_third (row : GuiRow) (d : Desk) : Desk :=
  if is_status (Some row) (str "DONE") then redownload row d
  else match clipboard (gr_url row) with
       | None => d
       | Some e => on_win (set_ui_error (str "Could not copy URL: " ++ take 200 e)) d
       end.

Definition draw_menu (i : MenuInput) (rows : list GuiRow) (d : Desk) : Desk :=
  let x := wi_dialogs (de_win d) in
  match find_gui_row (d_menu_id x) rows with
  | None => on_win close_menu d
  | Some row =>
      let just_opened := d_menu_just_opened x in
      let d := on_win (set_dialogs (fun x => set_menu (d_menu_id x) false x)) d in
      if negb just_opened && mi_outside i then on_win close_menu d
      else if negb (mi_popup i) then on_win close_menu d
      else
        let may_cancel := can_pause (Some row) || is_status (Some row) (str "PAUSED") in
        let d := if mi_first i then menu_first row d else d in
        let d := if mi_folder i then open_in_desktop (gr_dest_path row) true d else d in
        let d := if mi_third i then menu_third row d else d in
        let d := if mi_details i then show_details (gr_id row) d else d in
        let d := if may_cancel && mi_cancel i then report_enqueue (gui_controller_enqueue_cancel (gr_id row)) d else d in
        if mi_first i || mi_folder i || mi_third i || mi_details i || (may_cancel && mi_cancel i)
        then on_win close_menu d else d
  end.

Record ToastInput := mkToastInput { ti_shown : bool; ti_close : bool; ti_open : bool; ti_folder : bool }.

Definition draw_toast (i : ToastInput) (d : Desk) : Desk :=
  let toast := ui_toast (wi_ui (de_win d)) in
  if negb (ui_toast_open (wi_ui (de_win d))) || negb (ti_shown i) then d
  else
    let d := if ti_close i then on_win (set_toast_open false) d else d in
    let d := if ti_open i then open_in_desktop (gr_dest_path toast) false d else d in
    if ti_folder i then open_in_desktop (gr_dest_path toast) true d else d.

(** ** A frame *)

(** [fi_outside]: a press outside of the dialog. *)
Record FrameInput := mkFrameInput {
  fi_now : Z; fi_statvfs : option (Z * Z * Z); fi_escape : bool; fi_outside : bool; fi_shown : bool;
  fi_chrome : ChromeInput; fi_rows : nat -> RowInput; fi_tools : ToolInput; fi_error_close : bool;
  fi_menu : MenuInput; fi_toast : ToastInput; fi_settings : SettingsInput; fi_add : AddInput; fi_details_close : bool }.

(** The events of the controller, taken into the window. *)
Definition take_events (d : Desk) : Desk :=
  let g := de_gui d in
  let '(events, ui) := consume_events (gu_events g) (wi_ui (de_win d)) in
  mkDesk (set_ui ui (de_win d)) (mkGui (gu_client g) events (gu_commands g)) (de_cfg d) (de_fs d) (de_opened d).

Definition visible_rows (w : Window) : list GuiRow :=
  filter (fun r => row_matches (wi_filter w) r = true) (gui_model_snapshot_rows GUI_MODEL_MAX_ROWS (ui_rows (wi_ui w))).

(** A selection that is not visible is dropped. *)
Definition drop_hidden (rows : list GuiRow) (w : Window) : Window :=
  let id := ui_selected_id (wi_ui w) in
  if negb (id =? 0) && bool_decide (find_gui_row id rows = None) then select 0 w else w.

Definition check_disk (now : Z) (dir : bytes) (statvfs : option (Z * Z * Z)) (w : Window) : Window :=
  if (wi_disk_checked_at w =? 4294967295) || (10000 <=? u32 (now - wi_disk_checked_at w))
  then set_disk (diskspace_get dir statvfs) now w else w.

Definition draw_main (i : FrameInput) (modal : bool) (rows : list GuiRow) (d : Desk) : Desk :=
  if negb (fi_shown i) then d
  else
    let d := draw_chrome (fi_chrome i) d in
    let d := on_win (draw_rows (fi_rows i) 0 rows) d in
    let d := draw_toolbar (fi_tools i) rows d in
    let d := if negb (bool_decide (ui_error (wi_ui (de_win d)) = [])) && fi_error_close i
             then on_win (set_ui_error []) d else d in
    if modal then d else draw_menu (fi_menu i) rows d.

Definition draw_dialogs (i : FrameInput) (d : Desk) : Desk :=
  let x := wi_dialogs (de_win d) in
  if d_settings x then draw_settings (fi_settings i) d
  else if d_add x then draw_add (fi_add i) d
  else if d_details x && fi_details_close i then on_win (set_dialogs (open_details false)) d
  else d.

(** The rows shown and the state before anything is drawn. *)
Definition frame_start (i : FrameInput) (d : Desk) : list GuiRow * Desk :=
  let d := take_events d in
  let rows := visible_rows (de_win d) in
  (rows, on_win (fun w => check_disk (fi_now i) (g_default_dir (de_cfg d)) (fi_statvfs i) (drop_hidden rows w)) d).

Definition gui_frame (i : FrameInput) (d : Desk) : Desk :=
  let '(rows, d) := frame_start i d in
  let was_modal := modal (wi_dialogs (de_win d)) in
  let closed := was_modal && (fi_escape i || fi_outside i) in
  let d := if closed then on_win (set_dialogs close_dialogs) d else d in
  let still := was_modal && negb closed in
  let d := draw_main i still rows d in
  let d := if still then d else draw_toast (fi_toast i) d in
  draw_dialogs i d.

(** Before the first frame. *)
Definition window_start (rows : GuiModel) (c : Config) : Window :=
  mkWindow (mkUi rows true 0 no_options false [] (mkGuiRow 0 [] [] [] 0) false)
    (mkFilter TAB_ALL CATEGORY_ALL []) (mkDialogs false false false false 0 false)
    (mkAddForm [] (strlcpy 1024 (g_default_dir c)) [] [] [] [] (str "0")) (mkSettingsForm [] [] [] [] [] []) [] None
    4294967295.

End Window.

(** ** Lemmas: text *)

Lemma starts_with_ci_spec a b :
  starts_with_ci a b = true <-> exists m t, a = m ++ t /\ map lower m = map lower b.
Proof.
  revert a. induction b as [|y b IH]; intros a; cbn [starts_with_ci].
  - split; [intros _; by exists [], a|by intros _].
  - destruct a as [|x a].
    + split; [done|]. intros ([|? m] & t & E & Hm); simplify_eq/=.
    + rewrite andb_true_iff, Z.eqb_eq, IH. split.
      * intros [Hx (m & t & -> & Hm)]. exists (x :: m), t. split; [done|]. cbn [map]. by rewrite Hx, Hm.
      * intros ([|x' m] & t & E & Hm); cbn [map app] in *; [done|]. injection E as <- ->. injection Hm as Hx Hm.
        split; [done|]. by exists m, t.
Qed.

(** The search finds exactly the texts that contain the needle. *)
Lemma contains_spec text needle :
  contains_case_insensitive text needle = true <->
  exists a m b, text = a ++ m ++ b /\ map lower m = map lower needle.
Proof.
  unfold contains_case_insensitive. case_bool_decide as Hn.
  - subst. split; [intros _; by exists [], [], text|by intros _].
  - induction text as [|c text IH]; cbn [search_ci].
    + split; [done|]. intros (a & m & b & E & Hm). destruct a, m; try done. by destruct needle.
    + rewrite orb_true_iff, starts_with_ci_spec, IH. split.
      * intros [(m & t & E & Hm)|(a & m & b & -> & Hm)]; [by exists [], m, t|by exists (c :: a), m, b].
      * intros ([|x a] & m & b & E & Hm); cbn [app] in E; [left; by exists m, b|].
        injection E as <- ->. right. by exists a, m, b.
Qed.

(** Positions between characters. *)
Definition boundary (text : bytes) (n : nat) : Prop := n = O \/ continuation (nth n text 0) = false.

Lemma char_start_spec text len :
  (char_start text len <= len)%nat /\ boundary text (char_start text len) /\
  forall m, (char_start text len < m <= len)%nat -> ~ boundary text m.
Proof.
  induction len as [|len (IH1 & IH2 & IH3)]; cbn [char_start]; [split; [lia|]; split; [by left|lia]|].
  destruct (continuation (nth (S len) text 0)) eqn:E.
  - split; [lia|]. split; [done|]. intros m Hm. destruct (decide (m = S len)) as [->|]; [|apply IH3; lia].
    intros [?|H]; [done|congruence].
  - split; [lia|]. split; [by right|lia].
Qed.

Lemma shorten_spec fits text len fuel :
  (len <= fuel)%nat ->
  let n := shorten fits text len fuel in
  (n <= len)%nat /\ (n = O \/ fits (take n text) = true) /\ (n = len \/ boundary text n) /\
  forall m, (n < m <= len)%nat -> m = len \/ boundary text m -> fits (take m text) = false.
Proof.
  cbv zeta. revert len. induction fuel as [|fuel IH]; intros len Hf; cbn [shorten].
  { assert (len = O) as -> by lia. split; [lia|]. split; [by left|]. split; [by left|lia]. }
  destruct (Nat.ltb_spec 0 len) as [Hl|Hl]; cbn [andb];
    [|split; [lia|]; split; [left; lia|]; split; [by left|lia]].
  destruct (fits (take len text)) eqn:E; cbn [negb]; [split; [lia|]; split; [by right|]; split; [by left|lia]|].
  destruct (char_start_spec text (len - 1)) as (C1 & C2 & C3).
  destruct (IH (char_start text (len - 1)) ltac:(lia)) as (H1 & H2 & H3 & H4).
  split; [lia|]. split; [done|]. split; [right; by destruct H3 as [->|]|].
  intros m Hm Hb. destruct (decide (m = len)) as [->|]; [done|].
  assert (boundary text m) as Hbm by (by destruct Hb).
  destruct (decide (m <= char_start text (len - 1))%nat) as [Hle|Hgt]; [apply H4; [lia|by right]|].
  exfalso. by eapply (C3 m); [lia|].
Qed.

(** ** Lemmas: URIs *)

(** RFC 3986: "%" and two hexadecimal digits stand for a byte. *)
Definition unhex (c : Z) : option Z :=
  if (48 <=? c) && (c <=? 57) then Some (c - 48)
  else if (65 <=? c) && (c <=? 70) then Some (c - 55) else None.

Fixpoint uri_decode (s : bytes) : option bytes :=
  match s with
  | [] => Some []
  | c :: s' =>
      if c =? 37 then
        match s' with
        | a :: b :: s'' => x ← unhex a; y ← unhex b; r ← uri_decode s''; Some (16 * x + y :: r)
        | _ => None
        end
      else r ← uri_decode s'; Some (c :: r)
  end.

Lemma unhex_digit d : 0 <= d < 16 -> unhex (hex_digit d) = Some d.
Proof.
  intros H. unfold unhex, hex_digit. destruct (Z.ltb_spec d 10).
  - rewrite (proj2 (Z.leb_le 48 _)), (proj2 (Z.leb_le _ 57)) by lia. cbn [andb]. f_equal. lia.
  - rewrite (proj2 (Z.leb_gt _ 57)), andb_false_r by lia.
    rewrite (proj2 (Z.leb_le 65 _)), (proj2 (Z.leb_le _ 70)) by lia. cbn [andb]. f_equal. lia.
Qed.

Lemma decode_char c s : 0 <= c < 256 -> uri_decode (encode_char c ++ s) = r ← uri_decode s; Some (c :: r).
Proof.
  intros Hc. unfold encode_char. destruct (uri_plain c) eqn:E; cbn [app uri_decode].
  - destruct (Z.eqb_spec c 37) as [->|]; [by vm_compute in E|done].
  - rewrite Z.eqb_refl. pose proof (Z.div_mod c 16 ltac:(lia)). pose proof (Z.mod_pos_bound c 16 ltac:(lia)) as H0.
    assert (0 <= c / 16 < 16) by (split; [apply Z.div_pos; lia|apply Z.div_lt_upper_bound; lia]).
    rewrite !unhex_digit by done.
    cbn [mbind option_bind]. destruct (uri_decode s); [|done]. cbn [mbind option_bind]. do 2 f_equal. lia.
Qed.

Lemma decode_encoded s : cstring s -> uri_decode (concat (map encode_char s)) = Some s.
Proof.
  induction 1 as [|c s Hc _ IH]; [done|]. cbn [map concat]. rewrite decode_char by lia. by rewrite IH.
Qed.

Lemma encoded_length s : (length (concat (map encode_char s)) <= 3 * length s)%nat.
Proof.
  induction s as [|c s IH]; [done|]. cbn [map concat length]. rewrite length_app.
  assert (length (encode_char c) <= 3)%nat by (unfold encode_char; destruct (uri_plain c); cbn [length]; lia). lia.
Qed.

(** Nothing in a URI has a meaning of its own but the encoding. *)
Definition uri_char (c : Z) : Prop := uri_plain c = true \/ c = 37.

Lemma hex_digit_plain d : 0 <= d < 16 -> uri_plain (hex_digit d) = true.
Proof.
  intros H. unfold uri_plain, hex_digit. destruct (Z.ltb_spec d 10).
  - by rewrite (proj2 (Z.leb_le 48 _)), (proj2 (Z.leb_le _ 57)), !orb_true_r by lia.
  - rewrite (proj2 (Z.leb_le 65 _)), (proj2 (Z.leb_le _ 90)) by lia. by rewrite orb_true_r.
Qed.

Lemma encoded_chars s : cstring s -> Forall uri_char (concat (map encode_char s)).
Proof.
  induction 1 as [|c s Hc _ IH]; [constructor|]. cbn [map concat]. apply Forall_app. split; [|done].
  clear IH. unfold encode_char. destruct (uri_plain c) eqn:E; [constructor; [by left|constructor]|].
  pose proof (Z.mod_pos_bound c 16 ltac:(lia)).
  assert (0 <= c / 16 < 16) by (split; [apply Z.div_pos; lia|apply Z.div_lt_upper_bound; lia]).
  repeat (constructor; [first [by right|left; by apply hex_digit_plain]|]). constructor.
Qed.

(** ** Lemmas: numbers *)

Lemma parse_printed n min max : 0 <= n < 2 ^ 31 -> min <= n <= max -> parse_number (strlcpy 16 (print_int n)) min max = Some n.
Proof.
  intros Hn Hr. unfold print_int. rewrite (proj2 (Z.ltb_ge n 0)) by lia.
  pose proof (decimal_length 10 n ltac:(lia) ltac:(zpow; lia)) as Hl. rewrite strlcpy_id by lia.
  unfold parse_number. rewrite strtol_decimal by (zpow; lia).
  destruct (decimal_digits n ltac:(lia)) as (_ & _ & Hne). rewrite bool_decide_eq_false_2 by done.
  rewrite bool_decide_eq_true_2 by done. cbn [negb orb].
  by rewrite (proj2 (Z.ltb_ge n min)), (proj2 (Z.ltb_ge max n)) by lia.
Qed.

Lemma parse_number_range text min max v : parse_number text min max = Some v -> min <= v <= max.
Proof.
  unfold parse_number. destruct (strtol text) as [n e]. destruct (_ || _) eqn:E; [done|]. intros [= <-].
  rewrite !orb_false_iff in E. lia.
Qed.

(** ** Lemmas: commands *)

Definition pushes (cmds : list GuiControllerCommand) (r : command_ring) : command_ring :=
  fold_left (fun r c => snd (enqueue_command c r)) cmds r.

Definition selection_visible (rows : list GuiRow) (w : Window) : Prop :=
  ui_selected_id (wi_ui w) = 0 \/ exists r, r ∈ rows /\ gr_id r = ui_selected_id (wi_ui w).

(** A step of the window that only issues commands with [P], leaves files alone
    and keeps the selection visible. *)
Record acts (rows : list GuiRow) (P : GuiControllerCommand -> Prop) (d d' : Desk) : Prop := {
  ac_commands : exists cmds, gu_commands (de_gui d') = pushes cmds (gu_commands (de_gui d)) /\ Forall P cmds;
  ac_files : de_fs d' = de_fs d;
  ac_selection : selection_visible rows (de_win d) -> selection_visible rows (de_win d');
}.

Section Acts.

Context (rows : list GuiRow) (P : GuiControllerCommand -> Prop).

Lemma acts_refl d : acts rows P d d.
Proof. split; [by exists []|done|done]. Qed.

Lemma acts_trans a b c : acts rows P a b -> acts rows P b c -> acts rows P a c.
Proof.
  intros [(c1 & E1 & F1) G1 H1] [(c2 & E2 & F2) G2 H2]. split; [|congruence|auto].
  exists (c1 ++ c2). split; [|by apply Forall_app]. unfold pushes in *. by rewrite E2, E1, fold_left_app.
Qed.

Lemma acts_win f d :
  (selection_visible rows (de_win d) -> selection_visible rows (f (de_win d))) -> acts rows P d (on_win f d).
Proof. intros H. split; [by exists []|done|exact H]. Qed.

(** A change of the window that leaves the selection alone. *)
Lemma acts_same f d : (forall w, ui_selected_id (wi_ui (f w)) = ui_selected_id (wi_ui w)) -> acts rows P d (on_win f d).
Proof. intros H. apply acts_win. unfold selection_visible. by rewrite H. Qed.

Lemma acts_report c enqueue d :
  (forall r, enqueue r = enqueue_command c r) -> P c -> acts rows P d (report_enqueue enqueue d).
Proof.
  intros He Hc. unfold report_enqueue. rewrite He. destruct (enqueue_command c (gu_commands (de_gui d))) as [ok ring] eqn:E.
  assert (acts rows P d (mkDesk (de_win d) (mkGui (gu_client (de_gui d)) (gu_events (de_gui d)) ring) (de_cfg d) (de_fs d)
    (de_opened d))) as H.
  { split; [|done|done]. exists [c]. split; [|by constructor]. unfold pushes. cbn [fold_left de_gui gu_commands]. by rewrite E. }
  destruct ok; [exact H|]. eapply acts_trans; [exact H|]. by apply acts_same.
Qed.

Lemma acts_open open_url path folder d : acts rows P d (open_in_desktop open_url path folder d).
Proof.
  unfold open_in_desktop. destruct (open_path path folder) as [uri|e]; [|by apply acts_same].
  eapply (acts_trans _ (mkDesk (de_win d) (de_gui d) (de_cfg d) (de_fs d) (de_opened d ++ [uri]))).
  - split; [by exists []|done|done].
  - destruct (open_url uri); [by apply acts_same|apply acts_refl].
Qed.

Lemma acts_if (b : bool) d d' : acts rows P d d' -> acts rows P d (if b then d' else d).
Proof. intros H. destruct b; [exact H|apply acts_refl]. Qed.

Lemma acts_row_button enabled clicked row enqueue c d :
  (forall r, row = Some r -> forall ring, enqueue (gr_id r) ring = enqueue_command (c r) ring) ->
  (forall r, row = Some r -> enabled = true -> P (c r)) ->
  acts rows P d (row_button enabled clicked row enqueue d).
Proof.
  intros He Hc. unfold row_button. destruct enabled; [|apply acts_refl]. destruct clicked; [|apply acts_refl].
  destruct row as [r|]; [|apply acts_refl]. apply (acts_report (c r)); auto.
Qed.

End Acts.

Lemma find_gui_row_Some id rows r : find_gui_row id rows = Some r -> r ∈ rows /\ gr_id r = id.
Proof.
  unfold find_gui_row. destruct (list_find _ rows) as [[i x]|] eqn:E; [|done]. intros [= <-].
  apply list_find_Some in E as (Hi & Hid & _). split; [by eapply list_elem_of_lookup_2|done].
Qed.

Lemma is_status_Some r s : is_status (Some r) s = true <-> gr_status r = s.
Proof. apply streq_true. Qed.

(** The folder of the dialog of a new download: the one picked in the browser,
    else the one in its field. *)
Definition typed_folder (a : AddInput) : bytes :=
  match ai_browse a with Some x => strlcpy 1024 x | None => af_folder (ai_fields a) end.

(** What a command may be, [a] being what the user does in the dialog of a new
    download: the button was allowed for a row that is shown, or a new file for
    the URL and in the folder that the dialog shows, and its button was pressed. *)
Definition command_ok (rows : list GuiRow) (taken : bytes -> bool) (a : AddInput) (c : GuiControllerCommand) : Prop :=
  let row status := exists r, r ∈ rows /\ gr_id r = cc_id c /\ In (gr_status r) (map str status) in
  match cc_type c with
  | GUI_CONTROLLER_COMMAND_PAUSE => row ["ACTIVE"; "QUEUED"]%string
  | GUI_CONTROLLER_COMMAND_RESUME => row ["PAUSED"]%string
  | GUI_CONTROLLER_COMMAND_CANCEL => row ["ACTIVE"; "QUEUED"; "PAUSED"]%string
  | GUI_CONTROLLER_COMMAND_DETAILS => exists r, r ∈ rows /\ gr_id r = cc_id c
  | GUI_CONTROLLER_COMMAND_ADD =>
      (exists r, r ∈ rows /\ ~ In (gr_status r) (map str ["ACTIVE"; "QUEUED"; "PAUSED"]%string) /\
         cc_url c = strlcpy 2048 (gr_url r) /\ cc_dest_path c = strlcpy 1024 (gr_dest_path r)) \/
      (exists path, ai_shown a = true /\ ai_add a = true /\
         af_url (ai_fields a) <> [] /\ typed_folder a <> [] /\ cc_url c = strlcpy 2048 (af_url (ai_fields a)) /\
         path_join (typed_folder a) (path_filename_from_url (af_url (ai_fields a)) 512) IPC_MAX_PATH_LEN = Some path /\
         path_make_unique taken IPC_MAX_PATH_LEN path = Some (cc_dest_path c) /\ taken (cc_dest_path c) = false /\
         0 <= co_speed_limit_bps (cc_options c) <= 1000000000)
  end.

Lemma can_pause_Some r : can_pause (Some r) = true <-> In (gr_status r) (map str ["ACTIVE"; "QUEUED"]%string).
Proof. unfold can_pause. rewrite orb_true_iff, !is_status_Some. simpl. intuition congruence. Qed.

Lemma may_cancel_Some r :
  can_pause (Some r) || is_status (Some r) (str "PAUSED") = true <->
  In (gr_status r) (map str ["ACTIVE"; "QUEUED"; "PAUSED"]%string).
Proof. rewrite orb_true_iff, can_pause_Some, is_status_Some. simpl. intuition congruence. Qed.

Section Frame.

Context (env : IoEnv) (open_url : bytes -> option bytes) (clipboard : bytes -> option bytes).
Context (rows : list GuiRow) (taken : bytes -> bool) (ai : AddInput).

#[local] Abbreviation acts_ok := (acts rows (command_ok rows taken ai)).

Lemma acts_redownload row d :
  row ∈ rows -> ~ In (gr_status row) (map str ["ACTIVE"; "QUEUED"; "PAUSED"]%string) -> acts_ok d (redownload row d).
Proof.
  intros Hr Hs. unfold redownload. eapply acts_report; [intros r; unfold gui_controller_enqueue_add; reflexivity|].
  unfold command_ok. cbn [cc_type cc_url cc_dest_path]. left. by exists row.
Qed.

Lemma not_may_cancel row :
  can_pause (Some row) = false -> is_status (Some row) (str "PAUSED") = false ->
  ~ In (gr_status row) (map str ["ACTIVE"; "QUEUED"; "PAUSED"]%string).
Proof. intros H1 H2 H%may_cancel_Some. by rewrite H1, H2 in H. Qed.

Lemma done_not_running row :
  is_status (Some row) (str "DONE") = true -> ~ In (gr_status row) (map str ["ACTIVE"; "QUEUED"; "PAUSED"]%string).
Proof. rewrite is_status_Some. intros ->. vm_compute. intuition discriminate. Qed.

Lemma acts_id_button t r enqueue d :
  (forall ring, enqueue ring = enqueue_id_command t (gr_id r) ring) -> command_ok rows taken ai (blank_command t (gr_id r)) ->
  acts_ok d (report_enqueue enqueue d).
Proof. intros He Hc. by eapply acts_report. Qed.

Lemma acts_menu_first row d : row ∈ rows -> acts_ok d (menu_first open_url row d).
Proof.
  intros Hr. unfold menu_first. destruct (is_status (Some row) (str "DONE")) eqn:Ed; [by apply acts_open|].
  destruct (can_pause (Some row)) eqn:Ec.
  { eapply acts_id_button; [reflexivity|]. exists row. by apply can_pause_Some in Ec. }
  destruct (is_status (Some row) (str "PAUSED")) eqn:Ep.
  { eapply acts_id_button; [reflexivity|]. exists row. apply is_status_Some in Ep. simpl. auto. }
  apply acts_redownload; [done|]. by apply not_may_cancel.
Qed.

Lemma acts_menu_third row d : row ∈ rows -> acts_ok d (menu_third clipboard row d).
Proof.
  intros Hr. unfold menu_third. destruct (is_status (Some row) (str "DONE")) eqn:Ed.
  - apply acts_redownload; [done|]. by apply done_not_running.
  - destruct (clipboard (gr_url row)); [by apply acts_same|apply acts_refl].
Qed.

Lemma acts_details row d : row ∈ rows -> acts_ok d (show_details (gr_id row) d).
Proof.
  intros Hr. unfold show_details. eapply acts_trans; [|eapply acts_id_button; [reflexivity|by exists row]].
  apply acts_win. intros _. right. by exists row.
Qed.

Lemma acts_menu i d : acts_ok d (draw_menu open_url clipboard i rows d).
Proof.
  unfold draw_menu. destruct (find_gui_row _ rows) as [row|] eqn:E; [|by apply acts_same].
  apply find_gui_row_Some in E as [Hr _]. cbv zeta. set (d1 := on_win (set_dialogs _) d).
  assert (acts_ok d d1) as H1 by (by apply acts_same).
  destruct (_ && mi_outside i); [eapply acts_trans; [exact H1|by apply acts_same]|].
  destruct (negb (mi_popup i)); [eapply acts_trans; [exact H1|by apply acts_same]|].
  set (d2 := if mi_first i then _ else d1). assert (acts_ok d1 d2) as H2 by (apply acts_if; by apply acts_menu_first).
  set (d3 := if mi_folder i then _ else d2). assert (acts_ok d2 d3) as H3 by (apply acts_if; by apply acts_open).
  set (d4 := if mi_third i then _ else d3). assert (acts_ok d3 d4) as H4 by (apply acts_if; by apply acts_menu_third).
  set (d5 := if mi_details i then _ else d4). assert (acts_ok d4 d5) as H5 by (apply acts_if; by apply acts_details).
  set (d6 := if _ && mi_cancel i then _ else d5). assert (acts_ok d5 d6) as H6.
  { unfold d6. destruct (can_pause (Some row) || is_status (Some row) (str "PAUSED")) eqn:Em; [|apply acts_refl].
    apply acts_if. eapply acts_id_button; [reflexivity|]. exists row. by apply may_cancel_Some in Em. }
  do 5 (eapply acts_trans; [eassumption|]). eapply acts_trans; [exact H6|]. apply acts_if. by apply acts_same.
Qed.

Lemma acts_chrome i d : acts_ok d (draw_chrome i d).
Proof.
  unfold draw_chrome. eapply acts_trans; [|apply acts_if; by apply acts_same]. by apply acts_same.
Qed.

Lemma click_row_visible i row w : row ∈ rows -> selection_visible rows w -> selection_visible rows (click_row i row w).
Proof.
  intros Hr Hw. unfold click_row. destruct (_ && (_ || _)); [right; by exists row|].
  destruct (_ && ro_left i); [right; by exists row|done].
Qed.

Lemma draw_rows_visible i n l w :
  Forall (fun r => r ∈ rows) l -> selection_visible rows w -> selection_visible rows (draw_rows i n l w).
Proof.
  intros Hl. revert n w. induction Hl as [|r l Hr _ IH]; intros n w Hw; [done|]. apply IH. by apply click_row_visible.
Qed.

Lemma acts_rows i n d : acts_ok d (on_win (draw_rows i n rows) d).
Proof. apply acts_win. apply draw_rows_visible. by apply Forall_forall. Qed.

Lemma acts_toolbar i d : acts_ok d (draw_toolbar i rows d).
Proof.
  unfold draw_toolbar. cbv zeta. set (sel := find_gui_row _ rows).
  assert (forall r, sel = Some r -> r ∈ rows) as Hsel by (intros r Hr; by apply find_gui_row_Some in Hr as []).
  set (d1 := if to_add i then _ else d). assert (acts_ok d d1) as H1 by (apply acts_if; by apply acts_same).
  set (d2 := row_button _ (to_cancel i) _ _ d1). assert (acts_ok d1 d2) as H2.
  { apply (acts_row_button _ _ _ _ _ _ (fun r => blank_command GUI_CONTROLLER_COMMAND_CANCEL (gr_id r))); [done|].
    intros r Hr He. exists r. rewrite Hr in He. split; [by apply Hsel|]. split; [done|by apply may_cancel_Some]. }
  set (d3 := row_button _ (to_pause i) _ _ d2). assert (acts_ok d2 d3) as H3.
  { apply (acts_row_button _ _ _ _ _ _ (fun r => blank_command GUI_CONTROLLER_COMMAND_PAUSE (gr_id r))); [done|].
    intros r Hr He. exists r. rewrite Hr in He. split; [by apply Hsel|]. split; [done|by apply can_pause_Some]. }
  set (d4 := row_button _ (to_resume i) _ _ d3). assert (acts_ok d3 d4) as H4.
  { apply (acts_row_button _ _ _ _ _ _ (fun r => blank_command GUI_CONTROLLER_COMMAND_RESUME (gr_id r))); [done|].
    intros r Hr He. exists r. rewrite Hr in He. apply is_status_Some in He. split; [by apply Hsel|].
    split; [done|]. rewrite He. by left. }
  do 3 (eapply acts_trans; [eassumption|]). eapply acts_trans; [exact H4|]. apply acts_if. by apply acts_same.
Qed.

Lemma acts_submit d :
  taken = path_exists env (de_fs d) -> ai_shown ai = true -> ai_add ai = true ->
  af_url (wi_add (de_win d)) = af_url (ai_fields ai) -> af_folder (wi_add (de_win d)) = typed_folder ai ->
  acts_ok d (submit_add env d).
Proof.
  intros Ht Hsh Had Hau Haf. unfold submit_add. cbv zeta. set (a := wi_add (de_win d)) in *.
  destruct (bool_decide (af_url a = []) || bool_decide (af_folder a = [])) eqn:Ee; [by apply acts_same|].
  apply orb_false_iff in Ee as [Hu%bool_decide_eq_false Hf%bool_decide_eq_false].
  destruct (parse_number (af_speed a) 0 1000000000) as [speed|] eqn:Ep; [|by apply acts_same].
  apply parse_number_range in Ep. unfold add_download. cbv zeta.
  destruct (path_join _ _ _) as [path|] eqn:Ej; cbn [mbind option_bind]; [|by apply acts_same].
  destruct (path_make_unique _ _ path) as [dest|] eqn:Em; [|by apply acts_same]. rewrite <- Ht in Em.
  destruct (path_make_unique_free _ _ _ _ Em) as (Hfree & Hlen & _).
  match goal with |- context [gui_controller_enqueue_add ?u ?p ?o] => set (opts := o) end.
  unfold gui_controller_enqueue_add. cbv zeta.
  match goal with |- context [enqueue_command ?c] => set (cmd := c) end.
  destruct (enqueue_command cmd (gu_commands (de_gui d))) as [ok ring] eqn:E.
  set (d1 := mkDesk _ _ _ _ _). assert (acts_ok d d1) as H1.
  { split; [|done|done]. exists [cmd]. unfold pushes. cbn [fold_left]. rewrite E. split; [done|]. constructor; [|constructor].
    right. exists path. rewrite <- Hau, <- Haf.
    assert (cc_dest_path cmd = dest) as Hdest by (apply strlcpy_id; exact Hlen). rewrite Hdest.
    do 8 (split; [done|]). unfold cmd, opts. cbn [cc_options co_speed_limit_bps].
    destruct (negb _ || _) eqn:Eh; cbn [default io_speed_limit_bps]; [done|lia]. }
  destruct ok; (eapply acts_trans; [exact H1|by apply acts_same]).
Qed.

Lemma acts_add_dialog d : taken = path_exists env (de_fs d) -> acts_ok d (draw_add env ai d).
Proof.
  intros Ht. unfold draw_add. fold (typed_folder ai). destruct (ai_shown ai) eqn:Esh; [|apply acts_refl]. cbn [negb]. cbv zeta.
  set (d1 := if ai_close ai then _ else d). assert (acts_ok d d1) as H1 by (apply acts_if; by apply acts_same).
  set (d2 := if ai_advanced ai then _ else d1). assert (acts_ok d1 d2) as H2 by (apply acts_if; by apply acts_same).
  set (d3 := on_win (set_add _) d2). assert (acts_ok d2 d3) as H3 by (by apply acts_same).
  set (d4 := if ai_cancel ai then _ else d3). assert (acts_ok d3 d4) as H4 by (apply acts_if; by apply acts_same).
  do 3 (eapply acts_trans; [eassumption|]). eapply acts_trans; [exact H4|].
  destruct (ai_add ai) eqn:Ead; [|apply acts_refl].
  apply acts_submit; [|done|done|unfold d4, d3; by destruct (ai_cancel ai), (d_advanced _)..].
  rewrite (ac_files _ _ _ _ H4), (ac_files _ _ _ _ H3), (ac_files _ _ _ _ H2), (ac_files _ _ _ _ H1). exact Ht.
Qed.

Lemma acts_toast i d : acts_ok d (draw_toast open_url i d).
Proof.
  unfold draw_toast. cbv zeta. destruct (_ || _); [apply acts_refl|].
  set (d1 := if ti_close i then _ else d). assert (acts_ok d d1) as H1 by (apply acts_if; by apply acts_same).
  set (d2 := if ti_open i then _ else d1). assert (acts_ok d1 d2) as H2 by (apply acts_if; by apply acts_open).
  eapply acts_trans; [exact H1|]. eapply acts_trans; [exact H2|]. apply acts_if. by apply acts_open.
Qed.

Lemma acts_main i still d : acts_ok d (draw_main open_url clipboard i still rows d).
Proof.
  unfold draw_main. destruct (fi_shown i); [|apply acts_refl]. cbn [negb]. cbv zeta.
  set (d1 := draw_chrome _ d). assert (acts_ok d d1) as H1 by apply acts_chrome.
  set (d2 := on_win _ d1). assert (acts_ok d1 d2) as H2 by apply acts_rows.
  set (d3 := draw_toolbar _ _ d2). assert (acts_ok d2 d3) as H3 by apply acts_toolbar.
  set (d4 := if _ && fi_error_close i then _ else d3). assert (acts_ok d3 d4) as H4 by (apply acts_if; by apply acts_same).
  do 3 (eapply acts_trans; [eassumption|]). eapply acts_trans; [exact H4|].
  destruct still; [apply acts_refl|apply acts_menu].
Qed.

End Frame.

Section Properties.

Context (env : IoEnv) (open_url : bytes -> option bytes) (clipboard : bytes -> option bytes).
Context (realpath : filesystem -> bytes -> errno + bytes) (env_home : option bytes) (toml_parse : bytes -> option toml_doc).

(** The settings dialog neither issues commands nor touches the selection. *)
Lemma settings_quiet i d :
  let d' := draw_settings env realpath env_home toml_parse i d in
  gu_commands (de_gui d') = gu_commands (de_gui d) /\
  ui_selected_id (wi_ui (de_win d')) = ui_selected_id (wi_ui (de_win d)).
Proof.
  unfold draw_settings, save_settings. destruct (si_shown i); [|done]. cbn [negb]. cbv zeta.
  destruct (si_close i), (si_cancel i), (si_save i); try done;
    (destruct (parse_settings _); [|done]; destruct (config_save _ _ _ _ _ _ _) as [[[] ?] ?]; [|done];
     destruct (gui_client_reload_config _) as [[] ?]; done).
Qed.

Lemma drop_hidden_visible rows w : selection_visible rows (drop_hidden rows w).
Proof.
  unfold drop_hidden, selection_visible. destruct (Z.eqb_spec (ui_selected_id (wi_ui w)) 0) as [E|E]; [by left|].
  cbn [negb andb]. case_bool_decide as H; [by left|]. right.
  destruct (find_gui_row _ rows) as [r|] eqn:Er; [|done]. exists r. by apply find_gui_row_Some.
Qed.

(** ** Properties *)

(** C29. The window only asks for what it may.  Whatever the user does in a frame, the commands
    that reach the controller are: pause for a row that is shown and running or queued, resume
    for a paused one, cancel for one of these, details for a row that is shown, a repeated
    download of a row that is not under way, to its own path, or, when Add was pressed in the
    dialog of a new download, a download of the URL in its field (cut to the 2047 bytes of a
    command) to a file whose name comes from that URL and is free, in the folder picked or in
    its field, with a speed limit in the range the dialog allows.  And the selection, which
    the toolbar acts on, is a row that is shown. *)
Theorem gui_frame_sound i d :
  let '(rows, d1) := frame_start i d in
  let d' := gui_frame env open_url clipboard realpath env_home toml_parse i d in
  (exists cmds, gu_commands (de_gui d') = pushes cmds (gu_commands (de_gui d)) /\
     Forall (command_ok rows (path_exists env (de_fs d)) (fi_add i)) cmds) /\
  selection_visible rows (de_win d').
Proof.
  unfold gui_frame. assert (gu_commands (de_gui (snd (frame_start i d))) = gu_commands (de_gui d) /\
    de_fs (snd (frame_start i d)) = de_fs d /\ selection_visible (fst (frame_start i d)) (de_win (snd (frame_start i d)))) as Hs.
  { unfold frame_start, take_events. destruct (consume_events _ _) as [events ui]. cbn [fst snd]. split; [done|]. split; [done|].
    pose proof (drop_hidden_visible (visible_rows (set_ui ui (de_win d))) (set_ui ui (de_win d))) as H.
    cbn [on_win de_win]. unfold check_disk. destruct (_ || _); exact H. }
  destruct (frame_start i d) as [rows d1]. cbn [fst snd] in Hs. destruct Hs as (Hc & Hfs & Hsel). rewrite <- Hfs, <- Hc.
  set (taken := path_exists env (de_fs d1)). cbv zeta.
  set (closed := modal (wi_dialogs (de_win d1)) && (fi_escape i || fi_outside i)).
  set (still := modal (wi_dialogs (de_win d1)) && negb closed).
  set (d2 := if closed then _ else d1). assert (acts rows (command_ok rows taken (fi_add i)) d1 d2) as H2 by (apply acts_if; by apply acts_same).
  set (d3 := draw_main _ _ i still rows d2). assert (acts rows (command_ok rows taken (fi_add i)) d2 d3) as H3 by apply acts_main.
  set (d4 := if still then d3 else _). assert (acts rows (command_ok rows taken (fi_add i)) d3 d4) as H4
    by (unfold d4; destruct still; [apply acts_refl|apply acts_toast]).
  pose proof (acts_trans _ _ _ _ _ (acts_trans _ _ _ _ _ H2 H3) H4) as H24. unfold draw_dialogs. cbv zeta.
  destruct (d_settings (wi_dialogs (de_win d4))).
  - destruct (settings_quiet (fi_settings i) d4) as [-> Q2]. destruct H24 as [Hcmd _ Hvis]. split; [exact Hcmd|].
    unfold selection_visible in *. rewrite Q2. by apply Hvis.
  - set (d5 := if d_add _ then _ else _). assert (acts rows (command_ok rows taken (fi_add i)) d4 d5) as H5.
    { unfold d5. destruct (d_add _); [|apply acts_if; by apply acts_same]. apply acts_add_dialog. unfold taken.
      by rewrite (ac_files _ _ _ _ H24). }
    destruct (acts_trans _ _ _ _ _ H24 H5) as [Hcmd _ Hvis]. split; [exact Hcmd|by apply Hvis].
Qed.

(** What the settings dialog accepts. *)
Definition dialog_range (c : Config) : Prop :=
  1 <= g_max_concurrent c <= 64 /\ 0 <= g_retry_max_attempts c <= 100 /\ 1 <= g_retry_base_delay_sec c <= 3600 /\
  1 <= g_retry_max_delay_sec c <= 86400 /\ 0 <= g_max_speed_bps c <= 1000000000.

Lemma parse_settings_range s c : parse_settings s = Some c -> dialog_range c /\ g_default_dir c = sf_directory s.
Proof.
  unfold parse_settings. intros H.
  repeat match type of H with
  | (_ ← ?x; _) = Some _ => let E := fresh "E" in destruct x eqn:E; [|discriminate H]; apply parse_number_range in E;
      cbn [mbind option_bind] in H
  end. injection H as <-. split; [|done]. unfold dialog_range.
  cbn [g_max_concurrent g_retry_max_attempts g_retry_base_delay_sec g_retry_max_delay_sec g_max_speed_bps]. lia.
Qed.

Lemma parse_settings_fields c : dialog_range c -> strlen (g_default_dir c) < 1024 -> parse_settings (settings_fields c) = Some c.
Proof.
  intros (H1 & H2 & H3 & H4 & H5) Hl. unfold parse_settings, settings_fields.
  cbn [sf_concurrent sf_attempts sf_base_delay sf_max_delay sf_global_speed sf_directory].
  rewrite (proj2 (Z.ltb_ge 1000000000 _)) by lia. rewrite !parse_printed by (first [done|zpow; lia]).
  cbn [mbind option_bind]. rewrite strlcpy_id by done. by destruct c.
Qed.

Lemma saved_is_valid c now fs now' fs' :
  config_save env realpath env_home toml_parse c now fs = (true, now', fs') -> config_valid c = true.
Proof. unfold config_save. by destruct (config_valid c). Qed.

(** The fields and the click on Save. *)
Definition save_click (i : SettingsInput) : Prop :=
  si_shown i = true /\ si_close i = false /\ si_browse i = None /\ si_cancel i = false /\ si_save i = true.

(** C33. The settings dialog.  The dialog of a configuration in its ranges, saved as it is, asks
    for exactly that configuration.  Suppose the TOML parser reads documents of tables,
    integers and basic strings without escapes as the TOML specification has it ([reads_toml]),
    a path that resolves goes on resolving when only files change and directories are added,
    and the folder typed is printable ASCII without quotes and backslashes (it is written
    unescaped: another folder may be read back differently, or make the file invalid).  Then,
    when a click on Save alone closes the dialog, the texts typed were numbers in the ranges
    shown, the running configuration is the one typed, as read back from the file, and the next
    new download starts in the new folder; when it does not close it, the dialog says why. *)
Theorem settings_dialog_saves i d :
  (forall a b p r, same_kinds a b -> realpath a p = inr r -> exists r', realpath b p = inr r') ->
  reads_toml toml_parse -> plain_text (sf_directory (si_fields i)) ->
  strlen (sf_directory (si_fields i)) < 1024 -> save_click i -> d_settings (wi_dialogs (de_win d)) = true ->
  let d' := draw_settings env realpath env_home toml_parse i d in
  (forall c, dialog_range c -> strlen (g_default_dir c) < 1024 -> parse_settings (settings_fields c) = Some c) /\
  (if d_settings (wi_dialogs (de_win d')) then wi_message (de_win d') <> []
   else exists c, parse_settings (si_fields i) = Some c /\ dialog_range c /\ de_cfg d' = c /\
          af_folder (wi_add (de_win d')) = sf_directory (si_fields i)).
Proof.
  intros Hreal Hparse Hplain Hl (H1 & H2 & H3 & H4 & H5) Hopen. cbv zeta. split; [apply parse_settings_fields|].
  unfold draw_settings. rewrite H1, H2, H3, H4, H5. cbn [negb]. unfold save_settings. cbv zeta.
  cbn [on_win de_win set_settings wi_settings]. destruct (si_fields i) as [dir f1 f2 f3 f4 f5] eqn:Ef.
  cbn [sf_directory sf_concurrent sf_attempts sf_base_delay sf_max_delay sf_global_speed] in *.
  destruct (parse_settings _) as [c|] eqn:Ep;
    [|cbn [on_win de_win set_settings wi_dialogs wi_message]; by rewrite Hopen].
  destruct (parse_settings_range _ _ Ep) as [Hr Hdir]. cbn [sf_directory] in Hdir.
  cbn [on_win de_cfg de_fs de_gui].
  destruct (config_save _ _ _ _ c _ _) as [[saved now'] fs'] eqn:Es. destruct saved.
  - pose proof (saved_is_valid _ _ _ _ _ Es) as Hv.
    assert (config_sane c) as Hsane.
    { unfold config_valid in Hv. apply negb_true_iff in Hv. breflect. destruct Hr as (R1 & R2 & R3 & R4 & R5).
      unfold config_sane, is_u, INT_MAX. zlia. }
    assert (now' = c) as ->.
    { eapply config_save_reload; [exact Hsane|by rewrite Hdir| |exact Hreal|exact Es].
      apply render_reads; [done|done|destruct Hr; zlia|by rewrite Hdir]. }
    destruct (gui_client_reload_config _) as [[] client];
      cbn [on_win de_win de_cfg set_dialogs set_disk set_add set_settings wi_dialogs wi_add wi_message settings_opened d_settings af_folder].
    + exists c. rewrite strlcpy_id by done. done.
    + by rewrite Hopen.
  - cbn [on_win de_win set_settings wi_dialogs wi_message]. by rewrite Hopen.
Qed.

End Properties.

(** What is handed to the desktop names exactly the file.  When a path is
    opened, the URI decodes (RFC 3986) to that path, or for "open folder" to
    what stands before its last slash (the root when that is empty); it is
    absolute, fits its buffer, and has no character that means anything else in
    a URI. *)
Theorem open_path_uri path folder uri :
  cstring path -> strlen path < 1024 -> open_path path folder = inl uri ->
  exists local, uri = str "file://" ++ drop 7 uri /\ uri_decode (drop 7 uri) = Some local /\
    head local = Some CH_SLASH /\ Forall uri_char (drop 7 uri) /\ strlen uri < 3 * 1024 + 16 /\
    (if folder then exists name, (CH_SLASH ∉ name) /\ (path = local ++ CH_SLASH :: name \/ (local = [CH_SLASH] /\ path = CH_SLASH :: name))
     else local = path).
Proof.
  intros Hc Hl. unfold open_path. rewrite strlcpy_id by done. intros H.
  match type of H with match ?t with _ => _ end = _ => destruct t as [local|] eqn:Et; [|discriminate H] end.
  destruct (bool_decide (head local = Some CH_SLASH)) eqn:Eh; [|discriminate H]. cbn [negb] in H. injection H as <-.
  apply bool_decide_eq_true in Eh. exists local. unfold file_uri. rewrite (drop_app_length' (str "file://")) by reflexivity.
  assert (cstring local /\ strlen local <= strlen path) as [Hcl Hll].
  { destruct folder; [|by injection Et as <-]. destruct (last_separator path) as [n|]; [|discriminate Et]. injection Et as <-.
    split; [by apply cstring_take|]. unfold strlen. rewrite length_take. lia. }
  split; [done|]. split; [by apply decode_encoded|]. split; [done|]. split; [by apply encoded_chars|]. split.
  - rewrite strlen_app. change (strlen (str "file://")) with 7. pose proof (encoded_length local). unfold strlen in *. lia.
  - destruct folder; [|by injection Et]. unfold last_separator in Et. destruct (strrchr path CH_SLASH) as [n|] eqn:Er; [|discriminate Et].
    apply strrchr_Some in Er as (Hn & Hno). injection Et as <-. exists (drop (S n) path). split; [done|].
    assert (path = take n path ++ CH_SLASH :: drop (S n) path) as E by (by rewrite take_drop_middle).
    destruct (Nat.eqb_spec n 0) as [->|Hnz]; [right|by left]. destruct path as [|c path]; [done|]. simpl in Hn. injection Hn as ->. done.
Qed.

(** A label is the whole text when it fits, else the longest beginning made of
    whole characters that leaves room for the dots. *)
Theorem label_text_fits fits fits_dots value :
  let text := strlcpy 2048 value in
  let out := label_text fits fits_dots value in
  if fits text then out = text
  else exists n, out = take n text ++ str "..." /\ (n <= length text)%nat /\ (n = O \/ fits_dots (take n text) = true) /\
         (n = length text \/ boundary text n) /\
         forall m, (n < m <= length text)%nat -> m = length text \/ boundary text m -> fits_dots (take m text) = false.
Proof.
  cbv zeta. unfold label_text. cbv zeta. destruct (fits _); [done|]. eexists. split; [reflexivity|].
  by apply shorten_spec.
Qed.

(** The free space shown is never more than the total, and nothing overflows. *)
Theorem diskspace_exact path frsize blocks bavail disk :
  0 <= frsize < 2 ^ 64 -> 0 <= blocks < 2 ^ 64 -> 0 <= bavail < 2 ^ 64 ->
  diskspace_get path (Some (frsize, blocks, bavail)) = Some disk ->
  total_bytes disk = blocks * frsize /\ free_bytes disk = Z.min (bavail * frsize) (blocks * frsize) /\ 0 < total_bytes disk < 2 ^ 64.
Proof.
  intros Hf Hb Ha. unfold diskspace_get. destruct (bool_decide (path = [])); [done|].
  destruct (Z.eqb_spec frsize 0); [done|]. destruct (Z.eqb_spec blocks 0); [done|]. cbn [orb].
  destruct (Z.ltb_spec ((2 ^ 64 - 1) / frsize) blocks) as [|H1]; [done|].
  destruct (Z.ltb_spec ((2 ^ 64 - 1) / frsize) bavail) as [|H2]; [done|]. cbn [orb]. cbv zeta. intros [= <-].
  assert (forall k, 0 <= k -> k <= (2 ^ 64 - 1) / frsize -> 0 <= k * frsize < 2 ^ 64) as Hfit.
  { intros k Hk H. split; [apply Z.mul_nonneg_nonneg; lia|]. pose proof (Z.mul_div_le (2 ^ 64 - 1) frsize ltac:(lia)).
    assert (k * frsize <= (2 ^ 64 - 1) / frsize * frsize) by (apply Z.mul_le_mono_nonneg_r; lia). lia. }
  cbn [free_bytes total_bytes]. rewrite !u64_small by (apply Hfit; lia). pose proof (Hfit blocks ltac:(lia) H1).
  split; [done|]. split; [|split; [apply Z.mul_pos_pos; lia|lia]]. destruct (Z.ltb_spec (blocks * frsize) (bavail * frsize)); lia.
Qed.

(** ** Witnesses and examples *)

Lemma open_path_uri_witness :
  open_path (str "/d/a b#1%.zip") false = inl (str "file:///d/a%20b%231%25.zip") /\
  uri_decode (drop 7 (str "file:///d/a%20b%231%25.zip")) = Some (str "/d/a b#1%.zip").
Proof.
  assert (open_path (str "/d/a b#1%.zip") false = inl (str "file:///d/a%20b%231%25.zip")) as E by (vm_compute; reflexivity).
  split; [exact E|].
  destruct (open_path_uri (str "/d/a b#1%.zip") false _ ltac:(vm_compute; repeat constructor) ltac:(vm_compute; reflexivity) E)
    as (local & _ & Hd & _ & _ & _ & Hl). rewrite <- Hl. exact Hd.
Defined.

(** A window on one running download; a daemon that answers "done". *)
Definition agreeing : Conn := mkConn [RData [result_code IPC_RESULT_OK]] [] [].
Definition desk (ui : UiState) (c : Config) : Desk :=
  mkDesk (set_ui ui (window_start [] c))
    (gui_controller_init (mkGC (Some agreeing) None true (ring_init GUI_EVENT_QUEUE_CAP zero_event) [])) c cfg_fs [].

(** A frame in which nothing happens. *)
Definition no_row_input : RowInput := mkRowInput false false false.
Definition no_settings_input : SettingsInput := mkSettingsInput true false (mkSettingsForm [] [] [] [] [] []) None false false.
Definition no_add_input : AddInput := mkAddInput true false empty_form None false false false.
Definition idle_frame : FrameInput :=
  mkFrameInput 0 None false false true (mkChromeInput (fun _ => false) None false (fun _ => false)) (fun _ => no_row_input)
    (mkToolInput false false false false false) false (mkMenuInput false true false false false false false)
    (mkToastInput true false false false) no_settings_input no_add_input false.

Definition frame (i : FrameInput) (d : Desk) : Desk :=
  gui_frame permissive (fun _ => None) (fun _ => None) cfg_realpath (Some (str "/h")) (cfg_parse cfg_demo) i d.

Definition typed (s : SettingsForm) : SettingsInput := mkSettingsInput true false s None false true.

Lemma settings_dialog_saves_witness :
  let d := open_settings (desk gui_screen cfg_demo) in
  let d' := draw_settings permissive cfg_realpath (Some (str "/h")) small_toml (typed (settings_fields cfg_demo)) d in
  d_settings (wi_dialogs (de_win d')) = false /\ de_cfg d' = cfg_demo.
Proof.
  cbv zeta. set (d := open_settings _). set (d' := draw_settings _ _ _ _ _ d).
  assert (d_settings (wi_dialogs (de_win d')) = false) as Ed by (vm_compute; reflexivity). split; [exact Ed|].
  assert (parse_settings (settings_fields cfg_demo) = Some cfg_demo) as Ep by (vm_compute; reflexivity).
  assert (forall a b p r, same_kinds a b -> cfg_realpath a p = inr r -> exists r', cfg_realpath b p = inr r') as Hreal.
  { intros a b p r Hk Hr. unfold cfg_realpath in *. destruct (a !! p) as [n|] eqn:En; [|discriminate Hr].
    destruct (same_kinds_keys a b p Hk (ex_intro _ n En)) as [m Hm]. rewrite Hm. exists p. reflexivity. }
  pose proof (settings_dialog_saves permissive cfg_realpath (Some (str "/h")) small_toml
    (typed (settings_fields cfg_demo)) d Hreal small_toml_reads) as H.
  specialize (H ltac:(vm_compute; repeat (constructor; [split_and!; intros ?; discriminate|]); constructor)
    ltac:(vm_compute; reflexivity) ltac:(repeat split) ltac:(vm_compute; reflexivity)).
  destruct H as [_ H]. fold d' in H. rewrite Ed in H. destruct H as (c & Hc & _ & Hcfg & _).
  cbn [typed si_fields] in Hc. rewrite Ep in Hc. injection Hc as <-. exact Hcfg.
Defined.

(** A click on the row, then pause in the toolbar. *)
Example toolbar_pauses_selected :
  let select_first := mkFrameInput 0 None false false true (fi_chrome idle_frame) (fun n => mkRowInput false false (n =? 0)%nat)
    (fi_tools idle_frame) false (fi_menu idle_frame) (fi_toast idle_frame) no_settings_input no_add_input false in
  let pause := mkFrameInput 0 None false false true (fi_chrome idle_frame) (fi_rows idle_frame)
    (mkToolInput false false true false false) false (fi_menu idle_frame) (fi_toast idle_frame) no_settings_input no_add_input false in
  let d := frame pause (frame select_first (desk gui_screen cfg_demo)) in
  fst (dequeue_command (gu_commands (de_gui d))) = Some (blank_command GUI_CONTROLLER_COMMAND_PAUSE 1).
Proof. vm_compute. reflexivity. Qed.

(** ** What the code does not do *)

(** A speed limit above 10^9 is cut when the settings are shown: saving them
    unchanged lowers it.  And a configuration that asks for more than 64
    downloads cannot be saved at all until the number is changed. *)
Example settings_not_faithful :
  (g_max_speed_bps <$> parse_settings (settings_fields (mkConfig 4 (str "/h/dl") 7 3 90 2500000000))) = Some 1000000000 /\
  parse_settings (settings_fields (mkConfig 100 (str "/h/dl") 7 3 90 0)) = None.
Proof. vm_compute. done. Qed.

(** After a download was added the folder field is empty: the next one is
    refused until a folder is typed. *)
Example folder_forgotten :
  let a := mkAddForm (str "http://h/f") (str "/h/dl") [] [] [] [] (str "0") in
  let d := submit_add permissive (on_win (set_add a) (desk gui_screen cfg_demo)) in
  let again := mkAddForm (str "http://h/g") (af_folder (wi_add (de_win d))) [] [] [] [] (str "0") in
  ui_error (wi_ui (de_win d)) = [] /\
  ui_error (wi_ui (de_win (submit_add permissive (on_win (set_add again) d)))) = str "Enter a URL and destination folder.".
Proof. vm_compute. done. Qed.

(** Details asked for a row that leaves the view before they come are dropped:
    the dialog goes on loading. *)
Example details_dropped :
  let d := show_details 1 (desk gui_screen cfg_demo) in
  let d := on_win (set_filter (mkFilter TAB_DOWNLOADING CATEGORY_ALL [])) d in
  let tell e d := mkDesk (de_win d) (publish_event e (de_gui d)) (de_cfg d) (de_fs d) (de_opened d) in
  let d := frame idle_frame (tell (CtrlStatus 1 (str "DONE") 0) d) in
  let d := frame idle_frame (tell (CtrlDetails 1 true no_options) d) in
  d_details (wi_dialogs (de_win d)) = true /\ ui_details_found (wi_ui (de_win d)) = false.
Proof. vm_compute. done. Qed.

(** The dots are written behind the text: when a text of 2047 bytes is too long
    by a last character that is wider than the dots, they overrun the buffer of
    2048. *)
Example label_overrun :
  let no_wide t := bool_decide (87 ∉ t) in
  strlen (label_text no_wide no_wide (repeat 97 (Z.to_nat 2046) ++ [87])) = 2049.
Proof. vm_compute. reflexivity. Qed.
