(* ===== verification/GuiRpc.v ===== *)
(** * A click in the window, end to end

    The buttons of the toolbar through the command ring, the controller thread,
    the socket, the daemon and back to the row on screen: the composition of
    GuiWindow, GuiView, GuiClient, IpcClient and Ipc. *)

From S2P Require Import Prelude Path FileIo QueueManager Db Config Engine Scheduler Wire Commands Offers Ipc IpcClient GuiClient GuiView GuiWindow.

Section GuiRpc.

Context (sql_ok : sql -> Tables -> bool) (env : IoEnv).
Context (realpath : filesystem -> bytes -> errno + bytes) (env_home : option bytes).
Context (toml_parse : bytes -> option toml_doc) (json_parse : bytes -> option json_object).
Context (safe : filesystem -> bytes -> bool) (alloc_d alloc_r : bool).
Context (others : nat -> filesystem -> filesystem) (mid : SState -> SState).
Context (now : Z) (rnd : random_source) (garbage : Z).
Context (json_print : list (bytes * json_value) -> bytes).

Abbreviation handle := (handle_message sql_ok env realpath env_home toml_parse json_parse safe alloc_d
  alloc_r others mid now rnd garbage).

(** The click, when the button is enabled, and what the row shows afterwards. *)
Definition tool_click (k : command) : ToolInput :=
  match k with
  | CmdPause => mkToolInput false false true false false
  | CmdResume => mkToolInput false false false true false
  | CmdCancel => mkToolInput false true false false false
  end.

Definition allowed (k : command) (row : GuiRow) : bool :=
  match k with
  | CmdPause => can_pause (Some row)
  | CmdResume => is_status (Some row) (str "PAUSED")
  | CmdCancel => can_pause (Some row) || is_status (Some row) (str "PAUSED")
  end.

Definition shown_status (k : command) : bytes :=
  match k with CmdPause => str "PAUSED" | CmdResume => str "QUEUED" | CmdCancel => str "CANCELED" end.

Definition command_type (k : command) : GuiControllerCommandType :=
  match k with
  | CmdPause => GUI_CONTROLLER_COMMAND_PAUSE | CmdResume => GUI_CONTROLLER_COMMAND_RESUME
  | CmdCancel => GUI_CONTROLLER_COMMAND_CANCEL
  end.

Definition operation (k : command) : GuiControllerOperation :=
  match k with
  | CmdPause => GUI_CONTROLLER_OPERATION_PAUSE | CmdResume => GUI_CONTROLLER_OPERATION_RESUME
  | CmdCancel => GUI_CONTROLLER_OPERATION_CANCEL
  end.

(** ** Lemmas *)

(** The click puts one command into the ring, and nothing else happens. *)
Lemma click_pushes k rows row d :
  find_gui_row (ui_selected_id (wi_ui (de_win d))) rows = Some row -> allowed k row = true ->
  draw_toolbar (tool_click k) rows d = report_enqueue (enqueue_id_command (command_type k) (gr_id row)) d.
Proof.
  intros Hs Ha. unfold draw_toolbar, row_button. rewrite Hs. destruct k; cbn [tool_click allowed] in *;
    cbn [to_add to_cancel to_pause to_resume to_settings]; rewrite ?andb_false_r, Ha; reflexivity.
Qed.

Lemma push_command t id (r : command_ring) :
  enqueue_id_command t id r = ring_push GUI_CONTROLLER_COMMAND_CAP (blank_command t id) r.
Proof. reflexivity. Qed.

(** The controller sends it, and on success publishes the operation. *)
Lemma process_sends k id g cc c1 :
  gc_cmd (gu_client g) = Some cc -> ipc_send k id cc = (Some tt, c1) ->
  process_command json_print (blank_command (command_type k) id) g =
    publish_operation (operation k) id [] [] true (mkGui (with_cmd (Some c1) (gu_client g)) (gu_events g) (gu_commands g)).
Proof.
  intros Hc Hsend. destruct k; cbn [ipc_send] in Hsend; unfold process_command; cbn [command_type blank_command cc_type cc_id];
    unfold on_client, gui_client_pause, gui_client_resume, gui_client_cancel, send_with_retry; cbn [retry_loop];
    unfold ensure_cmd; rewrite Hc, Hsend; reflexivity.
Qed.

Lemma operation_to_rows k id g ui :
  ring_wf GUI_CONTROLLER_EVENT_CAP (gu_events g) -> ring_contents GUI_CONTROLLER_EVENT_CAP blank_event (gu_events g) = [] ->
  snd (consume_events (gu_events (publish_operation (operation k) id [] [] true g)) ui) =
    with_rows (gui_model_apply_optimistic id (shown_status k) (ui_rows ui)) ui.
Proof.
  intros Hw He. unfold publish_operation, publish_event, gui_controller_publish. cbn [gu_events].
  destruct (push_one GUI_CONTROLLER_EVENT_CAP blank_event (gu_events g) (CtrlOperation (operation k) id (strlcpy 2048 []) (strlcpy 1024 []) true)
    ltac:(unfold GUI_CONTROLLER_EVENT_CAP; lia) Hw He) as (_ & P & W & C).
  match goal with |- context [ring_push _ ?e _] => change e with (CtrlOperation (operation k) id (strlcpy 2048 []) (strlcpy 1024 []) true) end.
  rewrite P. cbn [snd]. destruct (pop_one _ blank_event _ _ W C) as (Q & _ & _ & N).
  unfold consume_events. rewrite N. cbn [consume_loop]. unfold gui_controller_poll. rewrite Q. by destruct k.
Qed.

(** The second attempt of [send_with_retry], on a connection of its own: whether
    it succeeded, and the connection that is kept. *)
Definition second_try (k : command) (id : Z) (g : GuiClient) : bool * option Conn :=
  match gc_dials g with
  | Some c2 :: _ =>
      match ipc_send k id c2 with
      | (Some _, c3) => (true, Some c3)
      | (None, _) => (false, None)
      end
  | _ => (false, None)
  end.

Lemma note_lost_cmd g : gc_cmd (note_lost g) = gc_cmd g.
Proof. unfold note_lost. by case_bool. Qed.

Lemma note_restored_cmd g : gc_cmd (note_restored g) = gc_cmd g.
Proof. unfold note_restored. by case_bool. Qed.

Lemma retry_second k id cc c1 g :
  gc_cmd g = Some cc -> ipc_send k id cc = (None, c1) ->
  exists g', send_with_retry (ipc_send k id) g = (fst (second_try k id g), g') /\ gc_cmd g' = snd (second_try k id g).
Proof.
  intros Hc Hsend. unfold send_with_retry, second_try. cbn [retry_loop]. unfold ensure_cmd at 1. rewrite Hc, Hsend.
  unfold ensure_cmd, dial. cbn [with_cmd gc_cmd gc_dials gc_listener gc_connected gc_events].
  destruct (gc_dials g) as [|[c2|] l]; cbn [fst snd]; try (eexists; split; [done|by rewrite note_lost_cmd]).
  destruct (ipc_send k id c2) as [[u|] c3]; eexists; (split; [done|]); [done|by rewrite note_lost_cmd].
Qed.

(** When the daemon rejects the command, the controller sends it once more. *)
Lemma process_rejected k id g cc c1 :
  gc_cmd (gu_client g) = Some cc -> ipc_send k id cc = (None, c1) ->
  exists cl, gc_cmd cl = snd (second_try k id (gu_client g)) /\
    process_command json_print (blank_command (command_type k) id) g =
      finish_operation (operation k) id (fst (second_try k id (gu_client g))) (mkGui cl (gu_events g) (gu_commands g)).
Proof.
  intros Hc Hsend. destruct (retry_second k id cc c1 (gu_client g) Hc Hsend) as (g' & E & Eg). exists g'. split; [done|].
  destruct k; cbn [ipc_send] in E; unfold process_command; cbn [command_type blank_command cc_type cc_id];
    unfold on_client, gui_client_pause, gui_client_resume, gui_client_cancel; rewrite E; reflexivity.
Qed.

Lemma finish_client op id ok g : gu_client (finish_operation op id ok g) = gu_client g.
Proof. unfold finish_operation. by destruct ok. Qed.

Lemma finish_commands op id ok g : gu_commands (finish_operation op id ok g) = gu_commands g.
Proof. unfold finish_operation. by destruct ok. Qed.

Definition failed_text : bytes := str "Download operation failed".

Lemma finish_to_rows k id ok g ui :
  ring_wf GUI_CONTROLLER_EVENT_CAP (gu_events g) -> ring_contents GUI_CONTROLLER_EVENT_CAP blank_event (gu_events g) = [] ->
  let ui' := snd (consume_events (gu_events (finish_operation (operation k) id ok g)) ui) in
  if ok then ui_rows ui' = gui_model_apply_optimistic id (shown_status k) (ui_rows ui)
  else ui_rows ui' = ui_rows ui /\ ui_error ui' = failed_text.
Proof.
  intros Hw He. pose proof (ring_contents_length GUI_CONTROLLER_EVENT_CAP blank_event (gu_events g)) as Hl.
  rewrite He in Hl. simpl in Hl. unfold finish_operation. destruct ok; cbv zeta; [by rewrite operation_to_rows|].
  unfold publish_operation, publish_error, publish_event, gui_controller_publish. cbn [gu_events].
  match goal with |- context [ring_push _ ?e (gu_events g)] => set (e1 := e);
    destruct (push_room GUI_CONTROLLER_EVENT_CAP blank_event (gu_events g) e1 Hw
      ltac:(unfold GUI_CONTROLLER_EVENT_CAP; lia)) as (_ & P1 & W1 & C1) end.
  rewrite P1. cbn [snd]. pose proof (ring_contents_length GUI_CONTROLLER_EVENT_CAP blank_event
    (ring_store GUI_CONTROLLER_EVENT_CAP e1 (gu_events g))) as Hl1. rewrite C1, He in Hl1. cbn [length app] in Hl1.
  match goal with |- context [ring_push _ ?e (ring_store _ _ _)] => set (e2 := e);
    destruct (push_room GUI_CONTROLLER_EVENT_CAP blank_event _ e2 W1
      ltac:(unfold GUI_CONTROLLER_EVENT_CAP in *; lia)) as (_ & P2 & W2 & C2) end.
  rewrite P2. cbn [snd]. rewrite consume_contents by exact W2. by rewrite C2, C1, He.
Qed.

Lemma optimistic_row id s rows row :
  find_gui_row id rows = Some row -> gr_id row = id -> s <> [] -> strlcpy 16 s = s ->
  find_gui_row id (gui_model_apply_optimistic id s rows) = Some (mkGuiRow id (gr_url row) (gr_dest_path row) s (gr_progress row)).
Proof.
  intros Hrow Hid Hs Hl. unfold gui_model_apply_optimistic. rewrite find_update_row by done.
  rewrite decide_True, Hrow by done. cbn. by rewrite Hid, Hl.
Qed.

(** The controller after a click on [k] for the row [id]: its loop has run once. *)
Lemma click_runs k rows row d :
  find_gui_row (ui_selected_id (wi_ui (de_win d))) rows = Some row -> allowed k row = true ->
  ring_wf GUI_CONTROLLER_COMMAND_CAP (gu_commands (de_gui d)) ->
  ring_contents GUI_CONTROLLER_COMMAND_CAP (blank_command GUI_CONTROLLER_COMMAND_ADD 0) (gu_commands (de_gui d)) = [] ->
  let d' := draw_toolbar (tool_click k) rows d in
  wi_ui (de_win d') = wi_ui (de_win d) /\
  exists cmds, command_loop json_print (r_count (gu_commands (de_gui d'))) (de_gui d') =
    process_command json_print (blank_command (command_type k) (gr_id row))
      (mkGui (gu_client (de_gui d)) (gu_events (de_gui d)) cmds).
Proof.
  intros Hsel Hall Wc Ec. cbv zeta. rewrite (click_pushes k rows row d Hsel Hall). unfold report_enqueue. rewrite push_command.
  destruct (push_one GUI_CONTROLLER_COMMAND_CAP (blank_command GUI_CONTROLLER_COMMAND_ADD 0) _ (blank_command (command_type k) (gr_id row))
    ltac:(unfold GUI_CONTROLLER_COMMAND_CAP; lia) Wc Ec) as (_ & P & W & C). rewrite P. cbn [de_gui de_win gu_commands].
  destruct (pop_one _ (blank_command GUI_CONTROLLER_COMMAND_ADD 0) _ _ W C) as (Q & _ & _ & N). rewrite N.
  split; [done|]. cbn [command_loop gu_commands gu_client gu_events]. unfold dequeue_command. rewrite Q. by eexists.
Qed.

(** ** Property *)

(** C27. A click on pause, resume or cancel is what it says.  When the button is enabled for the
    selected row, the rings are empty, the controller is connected and every write succeeds,
    the click makes the controller send one request; the daemon carries out exactly that
    command on exactly the download of the row and answers, however the kernel cuts the
    transfers.  When it succeeded there, nothing more is sent, the controller keeps the
    connection, at the next message, and the row is shown paused, queued or canceled at the
    next frame.  When the daemon rejected the command, the controller takes that for a dead
    connection: it drops this one and sends the same request once more, over a new connection
    when there is one; it keeps that connection and shows the row as changed when the second
    answer is success, and otherwise has no connection, leaves the row as it is and shows that
    the operation failed. *)
Theorem toolbar_command_rpc k rows row d w fd cs cc rest rest' :
  find_gui_row (ui_selected_id (wi_ui (de_win d))) rows = Some row -> allowed k row = true -> is_u32 (gr_id row) ->
  find_gui_row (gr_id row) (ui_rows (wi_ui (de_win d))) = Some row ->
  ring_wf GUI_CONTROLLER_COMMAND_CAP (gu_commands (de_gui d)) ->
  ring_contents GUI_CONTROLLER_COMMAND_CAP (blank_command GUI_CONTROLLER_COMMAND_ADD 0) (gu_commands (de_gui d)) = [] ->
  ring_wf GUI_CONTROLLER_EVENT_CAP (gu_events (de_gui d)) ->
  ring_contents GUI_CONTROLLER_EVENT_CAP blank_event (gu_events (de_gui d)) = [] ->
  gc_cmd (gu_client (de_gui d)) = Some cc -> w_conns w !! fd = Some cs -> healthy (c_wr cs) -> healthy (c_wr cc) ->
  let id := gr_id row in
  let request := sent (ipc_send k id) cc in
  feeds (c_in cs) (drop 8 request ++ rest) ->
  let r := run_command sql_ok env mid k id (w_s w) in
  let w' := handle fd (decode_header (take 8 request)) w in
  w_s w' = snd r /\
  exists cs', w_conns w' !! fd = Some cs' /\ feeds (c_in cs') rest /\
    (feeds (c_in cc) (drop (length (c_out cs)) (c_out cs') ++ rest') ->
     let d' := draw_toolbar (tool_click k) rows d in
     let g := command_loop json_print (r_count (gu_commands (de_gui d'))) (de_gui d') in
     let ui' := snd (consume_events (gu_events g) (wi_ui (de_win d'))) in
     let changed := mkGuiRow id (gr_url row) (gr_dest_path row) (shown_status k) (gr_progress row) in
     if decide (fst r = IPC_RESULT_OK) then
       gu_client g = with_cmd (Some (snd (ipc_send k id cc))) (gu_client (de_gui d)) /\
       feeds (c_in (snd (ipc_send k id cc))) rest' /\ find_gui_row id (ui_rows ui') = Some changed
     else
       let again := second_try k id (gu_client (de_gui d)) in
       gc_cmd (gu_client g) = snd again /\
       (forall c2, healthy (c_wr c2) -> sent (ipc_send k id) c2 = request) /\
       (if fst again then find_gui_row id (ui_rows ui') = Some changed
        else find_gui_row id (ui_rows ui') = Some row /\ ui_error ui' = failed_text)).
Proof.
  intros Hsel Hall Hid Hrow Wc Ec We Ee Hcmd Hcs Hs Hc. cbv zeta. set (id := gr_id row) in *. intros Hf.
  set (res := fst (run_command sql_ok env mid k id (w_s w))).
  assert (0 <= result_code res < 256) as Hcode by (destruct res; simpl; lia).
  destruct (send_command_client k id cc (result_code res) rest' Hc Hcode) as [Esent Hclient].
  assert (forall c2, healthy (c_wr c2) -> sent (ipc_send k id) c2 = sent (ipc_send k id) cc) as Hsame.
  { intros c2 H2. rewrite Esent. by apply (send_command_client k id c2 0 []). }
  rewrite Esent in *. rewrite take_header, drop_header in *. rewrite header_of_roundtrip by (unfold is_u; lia).
  destruct (handle_command sql_ok env realpath env_home toml_parse json_parse safe alloc_d alloc_r others mid now rnd garbage
    k id w fd cs rest Hid Hcs Hf Hs) as (Hst & cs' & Ecs & Eout & Hrest).
  split; [done|]. exists cs'. split; [done|]. split; [done|]. rewrite Eout, drop_app_length. intros Hf'.
  destruct (Hclient Hf') as [Hans Hrest']. destruct (ipc_send k id cc) as [ans c1] eqn:Esend. cbn [fst snd] in *.
  destruct (click_runs k rows row d Hsel Hall Wc Ec) as (Hui & cmds & ->). rewrite Hui. fold id.
  assert (shown_status k <> [] /\ strlcpy 16 (shown_status k) = shown_status k) as [Hn16 H16] by by destruct k.
  case_decide as Hok.
  - fold res in Hok. rewrite Hok in Hans. cbn in Hans. subst ans. erewrite process_sends; [|exact Hcmd|exact Esend].
    split; [done|]. split; [done|]. rewrite operation_to_rows by done. cbn [ui_rows with_rows]. by apply optimistic_row.
  - assert (ans = None) as -> by (fold res in Hok; subst ans; by destruct res).
    edestruct (process_rejected k id (mkGui (gu_client (de_gui d)) (gu_events (de_gui d)) cmds) cc c1) as (cl & Ecl & ->);
      [exact Hcmd|exact Esend|]. cbn [gu_client gu_events gu_commands] in *.
    rewrite finish_client. split; [exact Ecl|]. split; [exact Hsame|].
    pose proof (finish_to_rows k id (fst (second_try k id (gu_client (de_gui d)))) (mkGui cl (gu_events (de_gui d)) cmds)
      (wi_ui (de_win d)) We Ee) as H. cbv zeta in H. destruct (fst (second_try _ _ _)).
    + rewrite H. by apply optimistic_row.
    + destruct H as [-> ->]. by split.
Qed.

End GuiRpc.

(** ** Witness *)

(** A window that shows download 1 as running, selected; the controller's
    connection gets the answer after a delay. *)
Definition rpc_row : GuiRow := mkGuiRow 1 (str "http://h/f") (str "/d/f") (str "ACTIVE") 0.
Definition rpc_desk : Desk :=
  mkDesk (set_ui (mkUi [rpc_row] true 1 no_options false [] rpc_row false) (window_start [] cfg_demo))
    (gui_controller_init (mkGC (Some rpc_client) None true (ring_init GUI_EVENT_QUEUE_CAP zero_event) [])) cfg_demo ∅ [].

Definition rpc_controlled : Gui :=
  let d' := draw_toolbar (tool_click CmdPause) [rpc_row] rpc_desk in
  command_loop (fun _ => []) (r_count (gu_commands (de_gui d'))) (de_gui d').

Lemma toolbar_command_rpc_witness :
  queue_manager_get_status 1 (s_q (w_s (rpc_handle (header_of MSG_PAUSE 4) (rpc_world rpc_server)))) = Some DOWNLOAD_PAUSED /\
  find_gui_row 1 (ui_rows (snd (consume_events (gu_events rpc_controlled)
    (wi_ui (de_win (draw_toolbar (tool_click CmdPause) [rpc_row] rpc_desk)))))) =
    Some (mkGuiRow 1 (str "http://h/f") (str "/d/f") (str "PAUSED") 0).
Proof.
  destruct (ring_wf_init GUI_CONTROLLER_COMMAND_CAP (blank_command GUI_CONTROLLER_COMMAND_ADD 0)
    ltac:(unfold GUI_CONTROLLER_COMMAND_CAP; lia)) as [W1 C1].
  destruct (ring_wf_init GUI_CONTROLLER_EVENT_CAP blank_event ltac:(unfold GUI_CONTROLLER_EVENT_CAP; lia)) as [W2 C2].
  destruct (toolbar_command_rpc always_ok permissive cfg_realpath (Some (str "/h")) (fun _ => None) offer_parse
              (fun _ _ => true) true true (fun _ fs => fs) id 100 (fun _ => 77) 0 (fun _ => []) CmdPause [rpc_row] rpc_row rpc_desk
              (rpc_world rpc_server) 5 rpc_server rpc_client [9] [] eq_refl eq_refl
              ltac:(unfold is_u; simpl; lia) eq_refl W1 C1 W2 C2 eq_refl eq_refl)
    as (_ & cs' & Ecs & _ & Hclient).
  - repeat constructor; discriminate.
  - repeat constructor; discriminate.
  - split; [repeat constructor; discriminate|vm_compute; reflexivity].
  - assert (c_out cs' = [0]) as Eout.
    { revert Ecs. vm_compute. intros E. injection E as <-. reflexivity. }
    assert (fst (run_command always_ok permissive id CmdPause (gr_id rpc_row) (w_s (rpc_world rpc_server))) = IPC_RESULT_OK) as Hok
      by (vm_compute; reflexivity).
    rewrite Eout in Hclient. destruct (decide (fst _ = IPC_RESULT_OK)) as [_|Hn] in Hclient; [|by destruct Hn].
    destruct Hclient as (_ & _ & E).
    { split; [repeat constructor; discriminate|vm_compute; reflexivity]. }
    split; [vm_compute; reflexivity|exact E].
Defined.
