(* ===== verification/Log.v ===== *)
(** * The log ([src/utils/log.c])

    The file the daemon logs to, its lines and its rotation.  The clock, the ids
    of process and thread and the formatted text are arguments; other logging
    calls of the program are left out of the models as pure output. *)

From S2P Require Import Prelude Path.

Definition LOG_MAX_BYTES : Z := 5 * 1024 * 1024.

Inductive LogLevel := LOG_DEBUG | LOG_INFO | LOG_WARN | LOG_ERROR.

Definition level_number (l : LogLevel) : Z :=
  match l with LOG_DEBUG => 0 | LOG_INFO => 1 | LOG_WARN => 2 | LOG_ERROR => 3 end.

Definition level_name (l : LogLevel) : bytes :=
  match l with LOG_DEBUG => str "DEBUG" | LOG_INFO => str "INFO" | LOG_WARN => str "WARN" | LOG_ERROR => str "ERROR" end.

(** The files by name, with their contents. *)
Abbreviation log_files := (gmap bytes bytes).

(** [lg_open]: [g_log_fp] is not NULL; it is open on [lg_path] for appending. *)
Record LogState := mkLog { lg_open : bool; lg_path : bytes; lg_min_level : LogLevel }.

(** What the system calls of one call answer. *)
Record LogEnv := mkLogEnv { le_open : bool; le_remove : bool; le_rename : bool }.

(** [fopen (path, "a")]. *)
Definition fopen_append (ok : bool) (path : bytes) (fs : log_files) : option log_files :=
  if negb ok then None else Some (<[path := default [] (fs !! path)]> fs).

Definition backup_path (path : bytes) : bytes := strlcpy 1040 (path ++ str ".1").

Definition rotate_if_needed (e : LogEnv) (st : LogState) (fs : log_files) : LogState * log_files :=
  if negb (lg_open st) || bool_decide (lg_path st = []) then (st, fs)
  else if strlen (default [] (fs !! lg_path st)) <? LOG_MAX_BYTES then (st, fs)
  else
    let backup := backup_path (lg_path st) in
    let fs := if le_remove e then delete backup fs else fs in
    let fs := if le_rename e then
                match fs !! lg_path st with Some c => <[backup := c]> (delete (lg_path st) fs) | None => fs end
              else fs in
    match fopen_append (le_open e) (lg_path st) fs with
    | Some fs => (st, fs)
    | None => (mkLog false (lg_path st) (lg_min_level st), fs)
    end.

Definition log_init (e : LogEnv) (log_path : option bytes) (min_level : LogLevel) (st : LogState) (fs : log_files)
    : bool * LogState * log_files :=
  match log_path with
  | Some path =>
      let kept := strlcpy 1024 path in
      match fopen_append (le_open e) path fs with
      | Some fs => (true, mkLog true kept min_level, fs)
      | None => (false, mkLog false kept min_level, fs)
      end
  | None => (true, mkLog false [] min_level, fs)
  end.

Definition log_close (st : LogState) : LogState := mkLog false (lg_path st) (lg_min_level st).

(** Where a line comes from. *)
Record LogOrigin := mkOrigin {
  lo_timestamp : bytes; lo_pid : Z; lo_tid : Z; lo_file : bytes; lo_function : bytes; lo_line : Z }.

(** The loop that cuts line ends from the message. *)
Fixpoint strip_ends (rev_message : bytes) : bytes :=
  match rev_message with
  | c :: s => if (c =? CH_NL) || (c =? CH_CR) then strip_ends s else rev_message
  | [] => []
  end.

Definition log_line (level : LogLevel) (o : LogOrigin) (formatted : bytes) : bytes :=
  let base := match strrchr (lo_file o) CH_SLASH with Some i => drop (S i) (lo_file o) | None => lo_file o end in
  lo_timestamp o ++ str " [" ++ level_name level ++ str "] pid=" ++ decimal (lo_pid o) ++ str " tid=" ++ decimal (lo_tid o)
  ++ str " " ++ base ++ str ":" ++ decimal (lo_line o) ++ str " " ++ lo_function o ++ str ": "
  ++ reverse (strip_ends (reverse (strlcpy 2048 formatted))) ++ [CH_NL].

(** What goes to standard error, the state, the files. *)
Definition log_write (e : LogEnv) (level : LogLevel) (o : LogOrigin) (formatted : bytes) (st : LogState) (fs : log_files)
    : bytes * LogState * log_files :=
  if level_number level <? level_number (lg_min_level st) then ([], st, fs)
  else
    let line := log_line level o formatted in
    if lg_open st then
      let '(st, fs) := rotate_if_needed e st (<[lg_path st := default [] (fs !! lg_path st) ++ line]> fs) in
      ([], st, fs)
    else (line, st, fs).

(** A sequence of calls whose system calls work. *)
Definition working : LogEnv := mkLogEnv true true true.

Fixpoint log_all (calls : list (LogLevel * LogOrigin * bytes)) (st : LogState) (fs : log_files) : LogState * log_files :=
  match calls with
  | [] => (st, fs)
  | (level, o, text) :: calls' =>
      let '(_, st, fs) := log_write working level o text st fs in log_all calls' st fs
  end.

(** ** Lemmas *)

(** The lines of the calls that are not below the level. *)
Definition lines_logged (min : LogLevel) (calls : list (LogLevel * LogOrigin * bytes)) : list bytes :=
  omap (fun x => let '(level, o, text) := x in
                 if level_number level <? level_number min then None else Some (log_line level o text)) calls.

Definition log_text (path : bytes) (fs : log_files) : bytes := default [] (fs !! path).

(** [total]: everything there was so far; what is not on disk any more is older
    than a backup of the full size. *)
Record log_inv (path total : bytes) (longest : Z) (fs : log_files) : Prop := {
  li_total : exists old, total = old ++ log_text (backup_path path) fs ++ log_text path fs /\
               (old = [] \/ LOG_MAX_BYTES <= strlen (log_text (backup_path path) fs));
  li_main : strlen (log_text path fs) < LOG_MAX_BYTES;
  li_backup : strlen (log_text (backup_path path) fs) < LOG_MAX_BYTES + longest;
}.

Section Rotation.

Context (path : bytes) (longest : Z).
Context (Hpath : path <> []) (Hlen : strlen path < 1024).

Lemma backup_differs : backup_path path <> path.
Proof.
  unfold backup_path. rewrite strlcpy_id by (rewrite strlen_app; change (strlen (str ".1")) with 2; lia).
  intros E. apply (f_equal length) in E. rewrite length_app in E. simpl in E. lia.
Qed.

Lemma log_text_insert p q s fs : log_text p (<[q := s]> fs) = if bool_decide (p = q) then s else log_text p fs.
Proof.
  unfold log_text. case_bool_decide; [subst; by rewrite lookup_insert_eq|]. by rewrite lookup_insert_ne by congruence.
Qed.

Lemma append_rotates total fs line min :
  log_inv path total longest fs -> strlen line <= longest ->
  let '(st', fs') := rotate_if_needed working (mkLog true path min) (<[path := log_text path fs ++ line]> fs) in
  st' = mkLog true path min /\ log_inv path (total ++ line) longest fs'.
Proof.
  intros [(old & Ht & Hold) Hm Hb] Hll. pose proof (strlen_nonneg line). pose proof backup_differs as Hne.
  unfold rotate_if_needed. cbn [lg_open lg_path lg_min_level working le_remove le_rename le_open negb orb].
  rewrite bool_decide_eq_false_2 by done.
  change (default [] (?f !! path)) with (log_text path f). rewrite log_text_insert, bool_decide_eq_true_2 by done.
  destruct (Z.ltb_spec (strlen (log_text path fs ++ line)) LOG_MAX_BYTES) as [Hs|Hs].
  - split; [done|]. assert (log_text (backup_path path) (<[path:=log_text path fs ++ line]> fs) = log_text (backup_path path) fs) as Eb
      by (by rewrite log_text_insert, bool_decide_eq_false_2).
    assert (log_text path (<[path:=log_text path fs ++ line]> fs) = log_text path fs ++ line) as Em
      by (by rewrite log_text_insert, bool_decide_eq_true_2).
    split; rewrite ?Eb, ?Em; [|done|done]. exists old. split; [|done]. by rewrite Ht, <- !app_assoc.
  - rewrite (delete_insert_ne _ (backup_path path)) by done. rewrite lookup_insert_eq. cbn [fopen_append negb].
    split; [done|]. set (fs' := <[path := _]> (<[backup_path path := _]> _)).
    assert (log_text (backup_path path) fs' = log_text path fs ++ line) as Eb.
    { unfold fs'. rewrite log_text_insert, bool_decide_eq_false_2 by done. by rewrite log_text_insert, bool_decide_eq_true_2. }
    assert (log_text path fs' = []) as Em.
    { unfold fs'. rewrite log_text_insert, bool_decide_eq_true_2 by done.
      rewrite lookup_insert_ne by done. by rewrite lookup_delete_eq. }
    split; rewrite ?Eb, ?Em.
    + exists (old ++ log_text (backup_path path) fs). split; [|by right]. by rewrite app_nil_r, Ht, <- !app_assoc.
    + reflexivity.
    + rewrite strlen_app. lia.
Qed.

(** Rotation loses only what is old.  After any sequence of calls, the backup
    followed by the log is the end of everything that was ever written, line by
    line: all of it, or at least the last 5 MiB; and each file is shorter than
    5 MiB and one line. *)
Theorem log_keeps_latest calls min total fs :
  log_inv path total longest fs -> Forall (fun l => strlen l <= longest) (lines_logged min calls) ->
  let '(st', fs') := log_all calls (mkLog true path min) fs in
  st' = mkLog true path min /\ log_inv path (total ++ concat (lines_logged min calls)) longest fs'.
Proof.
  revert total fs. induction calls as [|[[level o] text] calls IH]; intros total fs Hi Hl; cbn [log_all].
  { cbn. by rewrite app_nil_r. }
  unfold log_write. cbn [lg_min_level lg_open lg_path]. cbn [lines_logged omap list_omap] in *.
  destruct (level_number level <? level_number min); [by apply IH|].
  apply Forall_cons in Hl as [Hl1 Hl]. pose proof (append_rotates total fs (log_line level o text) min Hi Hl1) as H.
  change (default [] (fs !! path)) with (log_text path fs).
  destruct (rotate_if_needed _ _ _) as [st' fs']. destruct H as [-> H]. cbn [concat]. rewrite app_assoc. by apply IH.
Qed.

End Rotation.

(** ** What the code does not do *)

(** Only line ends at the end of a message are cut: a line feed inside it (in a
    URL that is logged, say) starts a line of its own. *)
Example forged_line :
  let o := mkOrigin (str "T") 1 1 (str "a.c") (str "f") 7 in
  let text := str "HEAD request failed for http://h/" ++ [CH_NL] ++ str "T [INFO] pid=1 tid=1 a.c:9 g: all is well" ++ [CH_NL] in
  log_line LOG_WARN o text =
    log_line LOG_WARN o (str "HEAD request failed for http://h/") ++ str "T [INFO] pid=1 tid=1 a.c:9 g: all is well" ++ [CH_NL].
Proof. vm_compute. reflexivity. Qed.
