(* ===== verification/Lifecycle.v ===== *)
(** * The resources of the window ([src/gui/gui_backend_sdl.c], [run_gui], the threads of the GUI)

    What the GUI acquires outside its own data (SDL, the window, the OpenGL
    context, Nuklear, the memory of the backend, sockets, threads), in the order
    of the code, on every path.  An operation that uses something that is not
    there, acquires it twice, or releases something others still need is
    recorded in [w_misuse]. *)

From S2P Require Import Prelude.
From Stdlib Require Import QArith Qround.
#[global] Open Scope Z_scope.

(** ** Resources *)

(** [Input]: between [nk_input_begin] and [nk_input_end]. *)
Inductive Res := Sdl | Heap | Window | Gl | Nk | Input | CmdSocket | ListenerSocket | ListenerThread | Records | Controller.

#[export] Instance res_eq_dec : EqDecision Res.
Proof. solve_decision. Defined.

Record World := mkWorld {
  w_sdl : bool; w_heap : bool; w_window : bool; w_gl : bool; w_nk : bool; w_input : bool;
  w_cmd : bool; w_listener : bool; w_thread : bool; w_records : bool; w_controller : bool;
  w_misuse : bool;
}.

Definition has (r : Res) (w : World) : bool :=
  match r with
  | Sdl => w.(w_sdl) | Heap => w.(w_heap) | Window => w.(w_window) | Gl => w.(w_gl) | Nk => w.(w_nk)
  | Input => w.(w_input) | CmdSocket => w.(w_cmd) | ListenerSocket => w.(w_listener)
  | ListenerThread => w.(w_thread) | Records => w.(w_records) | Controller => w.(w_controller)
  end.

Definition put (r : Res) (b : bool) (w : World) : World :=
  let field r' old := if decide (r = r') then b else old in
  mkWorld (field Sdl w.(w_sdl)) (field Heap w.(w_heap)) (field Window w.(w_window)) (field Gl w.(w_gl))
    (field Nk w.(w_nk)) (field Input w.(w_input)) (field CmdSocket w.(w_cmd)) (field ListenerSocket w.(w_listener))
    (field ListenerThread w.(w_thread)) (field Records w.(w_records)) (field Controller w.(w_controller)) w.(w_misuse).

Definition misuse_if (b : bool) (w : World) : World :=
  mkWorld w.(w_sdl) w.(w_heap) w.(w_window) w.(w_gl) w.(w_nk) w.(w_input) w.(w_cmd) w.(w_listener)
    w.(w_thread) w.(w_records) w.(w_controller) (w.(w_misuse) || b).

(** What must be there when a resource is acquired. *)
Definition needs (r : Res) : list Res :=
  match r with
  | Window => [Sdl; Heap]
  | Gl => [Window; Heap]
  | Nk => [Gl]
  | Input => [Nk]
  | ListenerThread => [ListenerSocket]
  | _ => []
  end.

(** What nobody else may release as long as a resource is there: the two threads
    use the sockets, and may replace them themselves. *)
Definition holds_on (r : Res) : list Res := match r with Controller => [CmdSocket] | _ => needs r end.

Definition all_res : list Res :=
  [Sdl; Heap; Window; Gl; Nk; Input; CmdSocket; ListenerSocket; ListenerThread; Records; Controller].

(** Some resource that is there holds on to [r]. *)
Definition needed (r : Res) (w : World) : bool :=
  existsb (fun r' => bool_decide (r ∈ holds_on r') && has r' w) all_res.

(** ** Programs *)

Definition M (A : Type) : Type := World -> A * World.
Definition ret {A} (a : A) : M A := fun w => (a, w).
Definition bind {A B} (m : M A) (k : A -> M B) : M B := fun w => let '(a, w') := m w in k a w'.
Notation "x <-' m ;; k" := (bind m (fun x => k)) (at level 100, m at next level, right associativity) : cdm_scope.
Notation "m ;;' k" := (bind m (fun _ => k)) (at level 100, right associativity) : cdm_scope.
#[local] Open Scope cdm_scope.

(** An acquisition that may fail. *)
Definition acquire (r : Res) (ok : bool) : M bool := fun w =>
  if ok then (true, put r true (misuse_if (has r w || negb (forallb (fun r' => has r' w) (needs r))) w)) else (false, w).
Definition use (r : Res) : M unit := fun w => (tt, misuse_if (negb (has r w)) w).
Definition release (r : Res) : M unit := fun w => (tt, put r false (misuse_if (negb (has r w) || needed r w) w)).
(** [SDL_Quit] and [nk_sdl_shutdown] may be called when there is nothing to release. *)
Definition release_any (r : Res) : M unit := fun w => (tt, put r false (misuse_if (needed r w) w)).

(** ** gui_backend_sdl.c *)

(** What SDL, OpenGL, Nuklear and [calloc] answer; [e_init n]: the n-th
    [SDL_Init]; [e_font i], [e_baked i]: the regular and bold font of index [i]
    was added, and has glyphs and a width function after baking. *)
Record Env := mkEnv {
  e_init : nat -> bool; e_display : bool; e_driver : option bytes;
  e_calloc : bool; e_window : bool; e_gl : bool; e_nk : bool;
  e_font : nat -> bool * bool; e_baked : nat -> bool * bool;
}.

(** [cf_font_size]: [None] is not a number. *)
Record GuiSdlBackendConfig := mkConfig {
  cf_width : Z; cf_height : Z; cf_title : option bytes; cf_font_size : option Q;
}.

(** [b_style]: the index of the font set as the default; [b_size]: of the window. *)
Record GuiSdlBackend := mkBackend {
  b_window : bool; b_gl_context : bool; b_context : bool;
  b_fonts : list bool; b_bold_fonts : list bool; b_style : Z; b_size : Z * Z; b_title : bytes;
}.

Definition retry_x11 (e : Env) (init_ok : bool) : bool :=
  negb init_ok && e.(e_display) &&
  match e.(e_driver) with None => true | Some d => streq d (str "wayland") end.

Definition default_size (font_size : option Q) : Z :=
  match font_size with
  | Some q => if Qle_bool 11 q && Qle_bool q 16 then Qfloor q else 13
  | None => 13
  end.

Definition window_size (cf : GuiSdlBackendConfig) : Z * Z :=
  (if 0 <? cf.(cf_width) then cf.(cf_width) else 1100, if 0 <? cf.(cf_height) then cf.(cf_height) else 720).

(** The members the backend still has are released. *)
Definition gui_sdl_backend_destroy (backend : option GuiSdlBackend) : M unit :=
  match backend with
  | None => ret tt
  | Some b =>
      release_any Nk ;;'
      (if b.(b_gl_context) then release Gl else ret tt) ;;'
      (if b.(b_window) then release Window else ret tt) ;;'
      release Heap ;;'
      release_any Sdl
  end.

Definition fail : M (option GuiSdlBackend) := release_any Sdl ;;' ret None.

Definition six : list nat := [0; 1; 2; 3; 4; 5]%nat.
Definition both (p : bool * bool) : bool := fst p && snd p.

(** From [nk_sdl_font_stash_begin] on. *)
Definition load_fonts (e : Env) (cf : GuiSdlBackendConfig) : M (option GuiSdlBackend) :=
  use Nk ;;'
  let backend := mkBackend true true true (map (fun i => fst (e.(e_font) i)) six) (map (fun i => snd (e.(e_font) i)) six)
                   0 (window_size cf) (default (str "Core Download Manager") cf.(cf_title)) in
  if negb (forallb (fun i => both (e.(e_font) i)) six)
  then gui_sdl_backend_destroy (Some backend) ;;' ret None
  else
    use Nk ;;'
    if negb (forallb (fun i => both (e.(e_baked) i)) six)
    then gui_sdl_backend_destroy (Some backend) ;;' ret None
    else
      use Nk ;;'
      ret (Some (mkBackend true true true backend.(b_fonts) backend.(b_bold_fonts)
             (default_size cf.(cf_font_size) - 11) backend.(b_size) backend.(b_title))).

Definition init_sdl (e : Env) : M bool :=
  init <-' acquire Sdl (e.(e_init) 0%nat) ;;
  if retry_x11 e init then release_any Sdl ;;' acquire Sdl (e.(e_init) 1%nat) else ret init.

Definition gui_sdl_backend_create (e : Env) (config : option GuiSdlBackendConfig) : M (option GuiSdlBackend) :=
  match config with
  | None => ret None
  | Some cf =>
      init <-' init_sdl e ;;
      if negb init then ret None else
      backend <-' acquire Heap e.(e_calloc) ;;
      if negb backend then fail else
      window <-' acquire Window e.(e_window) ;;
      if negb window then release Heap ;;' fail else
      gl_context <-' acquire Gl e.(e_gl) ;;
      if negb gl_context then release Window ;;' release Heap ;;' fail else
      use Gl ;;'
      context <-' acquire Nk e.(e_nk) ;;
      if negb context then
        gui_sdl_backend_destroy (Some (mkBackend true true false [] [] 0 (window_size cf) [])) ;;' ret None
      else load_fonts e cf
  end.

(** Events of SDL; [EvOther]: what Nuklear is given. *)
Inductive Event := EvQuit | EvOther (n : Z).

(** The loop over [SDL_PollEvent]: whether to go on, the events handled, those
    left in the queue. *)
Fixpoint poll_events (queue : list Event) : bool * list Event * list Event :=
  match queue with
  | [] => (true, [], [])
  | EvQuit :: rest => (false, [], rest)
  | ev :: rest => let '(go, handled, pending) := poll_events rest in (go, ev :: handled, pending)
  end.

Definition gui_sdl_backend_poll (backend : option GuiSdlBackend) (queue : list Event) : M (bool * list Event * list Event) :=
  match backend with
  | None => ret (false, [], queue)
  | Some _ =>
      _ <-' acquire Input true ;;
      let r := poll_events queue in
      use Nk ;;'
      release Input ;;'
      ret r
  end.

Definition gui_sdl_backend_begin_frame : M unit := use Gl.
Definition gui_sdl_backend_end_frame (backend : option GuiSdlBackend) : M unit :=
  match backend with None => ret tt | Some _ => use Nk ;;' use Window end.

Definition gui_sdl_backend_context (backend : option GuiSdlBackend) : bool :=
  match backend with Some b => b.(b_context) | None => false end.

(** The member of the array, and whether it was loaded. *)
Definition gui_sdl_backend_font (backend : option GuiSdlBackend) (size : Z) : option (nat * option bool) :=
  match backend with
  | None => None
  | Some b => if (size <? 11) || (16 <? size) then None
              else Some (Z.to_nat (size - 11), b.(b_fonts) !! Z.to_nat (size - 11))
  end.
Definition gui_sdl_backend_bold_font (backend : option GuiSdlBackend) (size : Z) : option (nat * option bool) :=
  match backend with
  | None => None
  | Some b => if (size <? 11) || (16 <? size) then None
              else Some (Z.to_nat (size - 11), b.(b_bold_fonts) !! Z.to_nat (size - 11))
  end.

(** ** gui_client.c and gui_controller.c: sockets and threads *)

(** How [gui_client_list_all] goes on a connection: the request or the count
    does not get through, no downloads, no memory, a record is cut off, all of
    them. *)
Inductive ListAnswer := ListLost | ListEmpty | ListNoMemory | ListCut | ListRows.

(** The two connections, the snapshot, the two threads; [g_meanwhile]: the
    listener thread has a connection when the window is created. *)
Record GuiEnv := mkGuiEnv {
  g_cmd_fd : bool; g_listener_fd : bool; g_listener_ok : bool;
  g_list : ListAnswer; g_meanwhile : bool; g_controller_ok : bool; g_sdl : Env;
}.

Definition gui_client_connect (g : GuiEnv) : M bool :=
  cmd <-' acquire CmdSocket g.(g_cmd_fd) ;;
  if negb cmd then ret false else
  listener <-' acquire ListenerSocket g.(g_listener_fd) ;;
  if negb listener then release CmdSocket ;;' ret false else
  thread <-' acquire ListenerThread g.(g_listener_ok) ;;
  if negb thread then release ListenerSocket ;;' release CmdSocket ;;' ret false else
  ret true.

(** The thread is joined before its socket is closed. *)
Definition gui_client_disconnect : M unit :=
  (fun w => (if w.(w_thread) then release ListenerThread else ret tt) w) ;;'
  (fun w => (if w.(w_cmd) then release CmdSocket else ret tt) w) ;;'
  (fun w => (if w.(w_listener) then release ListenerSocket else ret tt) w).

(** [gui_client_list_all] with a connection: whether it succeeded. *)
Definition list_downloads (answer : ListAnswer) : M bool :=
  use CmdSocket ;;'
  match answer with
  | ListLost => release CmdSocket ;;' ret false
  | ListEmpty => ret true
  | ListNoMemory => ret false
  | ListCut => acquire Records true ;;' release Records ;;' release CmdSocket ;;' ret false
  | ListRows => acquire Records true ;;' ret true
  end.

(** What [run_gui] does with the records. *)
Definition first_snapshot (g : GuiEnv) : M unit :=
  ok <-' list_downloads g.(g_list) ;;
  if ok then (fun w => (if w.(w_records) then release Records else ret tt) w) else ret tt.

(** The threads drop and reopen their connections: which are open now. *)
Definition sockets_now (cmd listener : bool) : M unit := fun w => (tt, put CmdSocket cmd (put ListenerSocket listener w)).

Definition gui_controller_start (g : GuiEnv) : M bool := acquire Controller g.(g_controller_ok).
Definition gui_controller_stop : M unit :=
  fun w => (if w.(w_controller) then release Controller else ret tt) w.

(** ** run_gui *)

Section RunGui.
Context {S : Type} (frame : list Event -> S -> S).

Definition gui_config : GuiSdlBackendConfig :=
  mkConfig 1100 720 (Some (str "Core Download Manager")) (Some 13%Q).

(** The loop over a session, the connections the threads have at each round and
    the events the round finds in the queue: [None] when the session is over and
    the window is still open. *)
Fixpoint gui_loop (backend : option GuiSdlBackend) (session : list (bool * bool * list Event)) (s : S) : M (option S) :=
  match session with
  | [] => ret None
  | (cmd, listener, queue) :: session' =>
      sockets_now cmd listener ;;'
      r <-' gui_sdl_backend_poll backend queue ;;
      let '(go, handled, _) := r in
      if negb go then ret (Some s) else
      gui_sdl_backend_begin_frame ;;'
      use Nk ;;'
      gui_sdl_backend_end_frame backend ;;'
      gui_loop backend session' (frame handled s)
  end.

(** [None]: still running; the exit status, with the state of the window at the
    end of the loop. *)
Definition run_gui (g : GuiEnv) (session : list (bool * bool * list Event)) (s : S) : M (option (Z * option S)) :=
  connected <-' gui_client_connect g ;;
  if negb connected then ret (Some (1, None)) else
  first_snapshot g ;;'
  (fun w => sockets_now w.(w_cmd) g.(g_meanwhile) w) ;;'
  backend <-' gui_sdl_backend_create g.(g_sdl) (Some gui_config) ;;
  match backend with
  | None => gui_client_disconnect ;;' ret (Some (1, None))
  | Some _ =>
      (if gui_sdl_backend_context backend then use Nk else ret tt) ;;'       (* apply_theme *)
      started <-' gui_controller_start g ;;
      if negb started then
        gui_sdl_backend_destroy backend ;;' gui_client_disconnect ;;' ret (Some (1, None))
      else
        ended <-' gui_loop backend session s ;;
        match ended with
        | None => ret None
        | Some s' =>
            gui_controller_stop ;;' gui_sdl_backend_destroy backend ;;' gui_client_disconnect ;;' ret (Some (0, Some s'))
        end
  end.
End RunGui.

(** ** Theorems *)

(** No resource of the backend; the sockets and threads as they are. *)
Definition without_backend (cmd listener thread records controller : bool) : World :=
  mkWorld false false false false false false cmd listener thread records controller false.
Definition with_backend (cmd listener thread records controller : bool) : World :=
  mkWorld true true true true true false cmd listener thread records controller false.

Definition fonts_loaded (b : GuiSdlBackend) : Prop :=
  forall size, 11 <= size <= 16 ->
    gui_sdl_backend_font (Some b) size = Some (Z.to_nat (size - 11), Some true) /\
    gui_sdl_backend_bold_font (Some b) size = Some (Z.to_nat (size - 11), Some true).

Lemma default_size_range q : 11 <= default_size q <= 16.
Proof.
  unfold default_size. destruct q as [q|]; [|lia]. case_bool; [|lia]. breflect.
  rewrite Qle_bool_iff in *. split.
  - apply (Qfloor_resp_le 11 q) in H. exact H.
  - apply (Qfloor_resp_le q 16) in H0. exact H0.
Qed.

Section Sockets.
Context (c l t r k : bool).
Abbreviation w0 := (without_backend c l t r k).
Abbreviation w1 := (with_backend c l t r k).

(** The stages of [gui_sdl_backend_create]. *)
Let stage (heap window gl : bool) : World :=
  mkWorld true heap window gl false false c l t r k false.

Lemma init_cases e : exists ok : bool, init_sdl e w0 = (ok, if ok then stage false false false else w0).
Proof.
  unfold init_sdl, bind. destruct (e_init e 0); [by exists true|]. cbn -[retry_x11].
  destruct (retry_x11 e false); [|by exists false]. destruct (e_init e 1); [by exists true|by exists false].
Qed.

Definition all_loaded (bk : GuiSdlBackend) (cf : GuiSdlBackendConfig) : Prop :=
  b_window bk = true /\ b_gl_context bk = true /\ b_context bk = true /\
  b_fonts bk = replicate 6 true /\ b_bold_fonts bk = replicate 6 true /\
  b_style bk = default_size (cf_font_size cf) - 11.

Lemma both_six (f : nat -> bool * bool) :
  forallb (fun i => both (f i)) six = true ->
  map (fun i => fst (f i)) six = replicate 6 true /\ map (fun i => snd (f i)) six = replicate 6 true.
Proof.
  unfold both. cbn. intros H. breflect. repeat match goal with H : fst _ = true |- _ => rewrite H; clear H
    | H : snd _ = true |- _ => rewrite H; clear H end. done.
Qed.

Lemma use_here r0 : has r0 w1 = true -> use r0 w1 = (tt, w1).
Proof. unfold use. by intros ->. Qed.

Lemma destroy_cases bk :
  b_window bk = true -> b_gl_context bk = true -> gui_sdl_backend_destroy (Some bk) w1 = (tt, w0).
Proof. intros Hw Hg. cbn. unfold bind. rewrite Hw, Hg. done. Qed.

Lemma fonts_cases e cf b w :
  load_fonts e cf w1 = (b, w) ->
  match b with None => w = w0 | Some bk => w = w1 /\ all_loaded bk cf end.
Proof.
  unfold load_fonts, bind. rewrite use_here by done. cbv beta iota zeta.
  destruct (forallb (fun i => both (e_font e i)) six) eqn:Ef; cbn [negb].
  2: { rewrite destroy_cases by done. by intros [= <- <-]. }
  rewrite use_here by done. destruct (forallb (fun i => both (e_baked e i)) six); cbn [negb].
  2: { rewrite destroy_cases by done. by intros [= <- <-]. }
  rewrite use_here by done. cbv beta iota. intros [= <- <-]. destruct (both_six _ Ef) as [E1 E2].
  split; [done|]. unfold all_loaded. split_and!; first [exact E1|exact E2|reflexivity].
Qed.

(** On every path: nothing, or everything and the fonts. *)
Lemma create_cases e cf b w :
  gui_sdl_backend_create e (Some cf) w0 = (b, w) ->
  match b with None => w = w0 | Some bk => w = w1 /\ all_loaded bk cf end.
Proof.
  unfold gui_sdl_backend_create, bind. destruct (init_cases e) as [ok ->].
  destruct ok; cbn [negb]; [|by intros [= <- <-]].
  replace (acquire Heap (e_calloc e) (stage false false false)) with
    (if e_calloc e then (true, stage true false false) else (false, stage false false false)) by (by destruct (e_calloc e)).
  destruct (e_calloc e); cbn [negb]; [|by intros [= <- <-]].
  replace (acquire Window (e_window e) (stage true false false)) with
    (if e_window e then (true, stage true true false) else (false, stage true false false)) by (by destruct (e_window e)).
  destruct (e_window e); cbn [negb]; [|by intros [= <- <-]].
  replace (acquire Gl (e_gl e) (stage true true false)) with
    (if e_gl e then (true, stage true true true) else (false, stage true true false)) by (by destruct (e_gl e)).
  destruct (e_gl e); cbn [negb]; [|by intros [= <- <-]].
  replace (use Gl (stage true true true)) with (tt, stage true true true) by done.
  replace (acquire Nk (e_nk e) (stage true true true)) with
    (if e_nk e then (true, w1) else (false, stage true true true)) by (by destruct (e_nk e)).
  destruct (e_nk e); cbn [negb]; [apply fonts_cases|by intros [= <- <-]].
Qed.

Lemma loaded_fonts bk cf : all_loaded bk cf -> fonts_loaded bk.
Proof.
  intros (_ & _ & _ & Hf & Hb & _) size Hs. unfold gui_sdl_backend_font, gui_sdl_backend_bold_font.
  destruct (Z.ltb_spec size 11), (Z.ltb_spec 16 size); try lia. cbn. rewrite Hf, Hb.
  rewrite (lookup_replicate_2 6 true) by lia. done.
Qed.

Lemma poll_here bk queue : gui_sdl_backend_poll (Some bk) queue w1 = (poll_events queue, w1).
Proof. done. Qed.

(** The backend of the window never leaks and never releases what is still
    needed.  Whatever SDL, OpenGL, Nuklear and the memory answer,
    [gui_sdl_backend_create] either fails and leaves nothing behind, or
    everything is there, every font size from 11 to 16 has a loaded regular and
    bold font, the default font is one of them, and [gui_sdl_backend_destroy]
    takes everything away again. *)
Theorem backend_all_or_nothing e cf b w :
  gui_sdl_backend_create e (Some cf) w0 = (b, w) ->
  match b with
  | None => w = w0
  | Some bk =>
      w = w1 /\ fonts_loaded bk /\ 0 <= b_style bk <= 5 /\
      gui_sdl_backend_context (Some bk) = true /\ gui_sdl_backend_destroy (Some bk) w = (tt, w0)
  end.
Proof.
  intros H. pose proof (create_cases e cf b w H) as HC. destruct b as [bk|]; [|done].
  destruct HC as [-> HA]. pose proof (default_size_range (cf_font_size cf)) as Hr.
  pose proof (loaded_fonts bk cf HA) as HF. destruct HA as (Hw & Hg & Hc & _ & _ & Hs).
  split; [done|]. split; [done|]. split; [rewrite Hs; lia|]. split; [done|]. by apply destroy_cases.
Qed.
End Sockets.

#[export] Instance event_eq_dec : EqDecision Event.
Proof. solve_decision. Defined.

(** The events of a queue before the request to quit. *)
Lemma poll_events_spec queue :
  let '(go, handled, pending) := poll_events queue in
  (go = true <-> EvQuit ∉ queue) /\ (EvQuit ∉ handled) /\
  queue = handled ++ (if go then [] else EvQuit :: pending).
Proof.
  induction queue as [|ev queue IH]; cbn.
  - split_and!; [|by intros ?%not_elem_of_nil|done]. split; [by intros _ ?%not_elem_of_nil|done].
  - destruct ev as [|n].
    + split_and!; [split; [done|intros H; exfalso; apply H; by left]|by intros ?%not_elem_of_nil|done].
    + destruct (poll_events queue) as [[go handled] pending]. destruct IH as (Hg & Hh & Hq). split_and!.
      * rewrite Hg, not_elem_of_cons. split; [by split|by intros [_ ?]].
      * rewrite not_elem_of_cons. by split.
      * cbn. by rewrite <- Hq.
Qed.

Section Loop.
Context {S : Type} (frame : list Event -> S -> S) (bk : GuiSdlBackend).

(** The state of the window after the rounds before the one that quits. *)
Fixpoint rounds (session : list (bool * bool * list Event)) (s : S) : option S :=
  match session with
  | [] => None
  | (_, queue) :: session' =>
      if bool_decide (EvQuit ∈ queue) then Some s else rounds session' (frame queue s)
  end.

(** The connections that are open when the loop ends. *)
Fixpoint connections (session : list (bool * bool * list Event)) (now : bool * bool) : bool * bool :=
  match session with
  | [] => now
  | (socks, queue) :: session' => if bool_decide (EvQuit ∈ queue) then socks else connections session' socks
  end.

Lemma rounds_None session s : rounds session s = None -> Forall (fun round => EvQuit ∉ snd round) session.
Proof.
  revert s. induction session as [|[socks queue] session IH]; intros s; cbn [rounds]; [by constructor|].
  case_bool_decide; [done|]. constructor; [done|eauto].
Qed.

Lemma loop_cases c l t r k session s :
  gui_loop frame (Some bk) session s (with_backend c l t r k) =
    (rounds session s, let '(c', l') := connections session (c, l) in with_backend c' l' t r k).
Proof.
  revert c l s. induction session as [|[[c' l'] queue] session IH]; intros c l s; [done|].
  cbn [gui_loop rounds connections]. unfold gui_sdl_backend_begin_frame, gui_sdl_backend_end_frame, bind.
  replace (sockets_now c' l' (with_backend c l t r k)) with (tt, with_backend c' l' t r k) by done. cbv beta iota.
  rewrite poll_here.
  pose proof (poll_events_spec queue) as H. destruct (poll_events queue) as [[go handled] pending].
  destruct H as (Hg & _ & Hq). destruct go; cbn [negb].
  - rewrite bool_decide_eq_false_2 by (by apply Hg). rewrite app_nil_r in Hq. subst handled.
    do 4 (rewrite use_here by done; cbv beta iota). apply IH.
  - rewrite bool_decide_eq_true_2; [done|]. rewrite Hq. apply elem_of_app. right. by left.
Qed.
End Loop.

(** Connecting is all or nothing, and so is disconnecting. *)
Lemma connect_cases g :
  exists ok : bool, gui_client_connect g (without_backend false false false false false) =
    (ok, if ok then without_backend true true true false false else without_backend false false false false false).
Proof.
  unfold gui_client_connect, bind. destruct (g_cmd_fd g); [|by exists false].
  destruct (g_listener_fd g); [|by exists false]. destruct (g_listener_ok g); [by exists true|by exists false].
Qed.

Lemma disconnect_cases c l : gui_client_disconnect (without_backend c l true false false) =
  (tt, without_backend false false false false false).
Proof. by destruct c, l. Qed.

(** The command connection after the first list. *)
Definition list_keeps (answer : ListAnswer) : bool :=
  match answer with ListLost | ListCut => false | ListEmpty | ListNoMemory | ListRows => true end.

Lemma snapshot_cases g : first_snapshot g (without_backend true true true false false) =
  (tt, without_backend (list_keeps (g_list g)) true true false false).
Proof. unfold first_snapshot, list_downloads, bind. by destruct (g_list g). Qed.

(** C28. The GUI gives back everything it took, in an order that never takes anything from under
    something else.  Whatever fails on the way, and whatever connections the listener and the
    controller thread drop and reopen meanwhile, [run_gui] ends with status 1 and with no
    socket, no thread, no memory, no window left; when it gets as far as the window, it handles
    exactly the rounds before the first request to quit, ends with 0 and leaves nothing either;
    and as long as nobody quits the window, its context, the two threads and everything else
    are there and in order, but for the two sockets: they are open or not as the threads last
    left them, and before the first round the command socket is closed exactly when the first
    list of downloads failed on the connection. *)
Theorem run_gui_releases {S} (frame : list Event -> S -> S) g session s res w :
  run_gui frame g session s (without_backend false false false false false) = (res, w) ->
  match res with
  | Some (code, s') =>
      w = without_backend false false false false false /\
      (code = 1 /\ s' = None \/ code = 0 /\ s' = rounds frame session s /\ s' <> None)
  | None =>
      (let '(cmd, listener) := connections session (list_keeps (g_list g), g_meanwhile g) in
       w = with_backend cmd listener true false true) /\
      Forall (fun round => EvQuit ∉ snd round) session
  end.
Proof.
  unfold run_gui, bind. destruct (connect_cases g) as [ok ->]. destruct ok; cbn [negb]; [|by intros [= <- <-]; auto].
  rewrite snapshot_cases. set (c := list_keeps (g_list g)). set (l := g_meanwhile g).
  replace (sockets_now (w_cmd (without_backend c true true false false)) l (without_backend c true true false false))
    with (tt, without_backend c l true false false) by done. cbv beta iota.
  destruct (gui_sdl_backend_create _ _ _) as [b w1] eqn:Ec.
  apply create_cases in Ec. destruct b as [bk|]; [|subst w1; rewrite disconnect_cases; intros [= <- <-]; auto].
  destruct Ec as [-> (Hw & Hg & Hc & _)]. cbn [gui_sdl_backend_context]. rewrite Hc, use_here by done.
  replace (gui_controller_start g (with_backend c l true false false)) with
    (if g_controller_ok g then (true, with_backend c l true false true) else (false, with_backend c l true false false))
    by (unfold gui_controller_start; by destruct (g_controller_ok g)).
  destruct (g_controller_ok g); cbn [negb].
  2: { rewrite destroy_cases, disconnect_cases by done. intros [= <- <-]; auto. }
  rewrite loop_cases. destruct (connections session (c, l)) as [c' l']. destruct (rounds frame session s) as [s'|] eqn:Er.
  - replace (gui_controller_stop (with_backend c' l' true false true)) with (tt, with_backend c' l' true false false) by done.
    rewrite destroy_cases, disconnect_cases by done. intros [= <- <-]. split; [done|]. by right.
  - intros [= <- <-]. split; [done|]. by apply rounds_None in Er.
Qed.

(** A machine with X11 only, on which the first [SDL_Init] fails. *)
Definition x11_env : Env :=
  mkEnv (fun n => match n with O => false | _ => true end) true None true true true true
    (fun _ => (true, true)) (fun _ => (true, true)).
Definition x11_config : GuiSdlBackendConfig := mkConfig 480 370 None (Some 14%Q).
Definition x11_gui : GuiEnv := mkGuiEnv true true true ListCut true true x11_env.

Lemma backend_all_or_nothing_witness :
  exists bk w, gui_sdl_backend_create x11_env (Some x11_config) (without_backend true false false false false) = (Some bk, w) /\
    w = with_backend true false false false false /\ fonts_loaded bk.
Proof.
  assert (exists bk w, gui_sdl_backend_create x11_env (Some x11_config) (without_backend true false false false false) = (Some bk, w))
    as (bk & w & H) by (vm_compute; eauto).
  exists bk, w. split; [exact H|].
  destruct (backend_all_or_nothing true false false false false x11_env x11_config (Some bk) w H) as (Hw & Hf & _).
  split; [exact Hw|exact Hf].
Defined.

(** The first list is cut off, the controller reconnects, the daemon goes away in
    the second round, and the window is closed: the state counts the events. *)
Definition x11_session : list (bool * bool * list Event) :=
  [(false, true, [EvOther 1; EvOther 2]); (true, true, [EvOther 3]); (false, false, [EvOther 4; EvQuit])].

Lemma run_gui_releases_witness :
  exists w, run_gui (fun handled n => (length handled + n)%nat) x11_gui x11_session 0%nat
      (without_backend false false false false false) = (Some (0, Some 3%nat), w) /\
    w = without_backend false false false false false.
Proof.
  assert (exists w, run_gui (fun handled n => (length handled + n)%nat) x11_gui x11_session 0%nat
      (without_backend false false false false false) = (Some (0, Some 3%nat), w)) as (w & H) by (vm_compute; eauto).
  exists w. split; [exact H|]. destruct (run_gui_releases _ _ _ _ _ _ H) as [Hw _]. exact Hw.
Defined.
