(* ===== verification/Thread.v ===== *)
(** * Threads ([src/platform/thread.c], POSIX)

    The wrapper over pthreads: a thread runs a function that takes a pointer and returns an [int]
    from a start record on the heap, and its [int] travels through the pointer
    that [pthread_join] returns.  The threads of a process, the heap of start
    records, and what a join answers, under any interleaving. *)

From S2P Require Import Prelude.

Section Threads.

(** Arguments, and the functions a thread may run ([int]s are 32 bits). *)
Context {Fn Arg : Type} (run : Fn -> Arg -> Z).

Record dm_thread_start_t := mkStart { st_fn : Fn; st_arg : Arg }.

(** A thread that runs from a start record; one that is over, with its [void *];
    one that was joined or detached and is gone. *)
Inductive Thread := Running (start : nat) | Over (ret : Z) | Gone.

Record Threads := mkThreads { heap : gmap nat dm_thread_start_t; threads : gmap Z Thread }.

(** The conversions through [intptr_t]: of the result to a pointer, and back to [int]. *)
Definition to_pointer (result : Z) : Z := i64 result.
Definition to_int (ret : Z) : Z := i32 ret.

(** [malloc_at], [created]: where the record is allocated, the handle of the
    thread; [None] when that fails. *)
Definition dm_thread_create (malloc_at : option nat) (created : option Z) (fn : Fn) (arg : Arg) (m : Threads) : Z * Threads :=
  match malloc_at with
  | None => (-1, m)
  | Some p =>
      let h := <[p := mkStart fn arg]> m.(heap) in
      match created with
      | None => (-1, mkThreads (delete p h) m.(threads))
      | Some t => (0, mkThreads h (<[t := Running p]> m.(threads)))
      end
  end.

(** The body of the thread, from its start to its end. *)
Definition dm_thread_entry (p : nat) (m : Threads) : option (Z * Threads) :=
  match m.(heap) !! p with
  | Some start => Some (to_pointer (i32 (run (st_fn start) (st_arg start))), mkThreads (delete p m.(heap)) m.(threads))
  | None => None
  end.

Definition finish (t : Z) (m : Threads) : option Threads :=
  match m.(threads) !! t with
  | Some (Running p) =>
      match dm_thread_entry p m with
      | Some (ret, m') => Some (mkThreads m'.(heap) (<[t := Over ret]> m'.(threads)))
      | None => None
      end
  | _ => None
  end.

(** [None]: the thread still runs, the join waits. *)
Definition dm_thread_join (t : Z) (m : Threads) : option (Z * Z * Threads) :=
  match m.(threads) !! t with
  | Some (Over ret) => Some (0, to_int ret, mkThreads m.(heap) (<[t := Gone]> m.(threads)))
  | Some (Running _) => None
  | _ => Some (-1, to_int 0, m)                          (* pthread_join fails, ret stays NULL *)
  end.

(** [pthread_mutex_..], [pthread_detach]: 0 or an error number. *)
Definition dm_status (rc : Z) : Z := if rc =? 0 then 0 else -1.

(** The [timespec] of [dm_thread_sleep_ms]. *)
Definition dm_thread_sleep_ms (ms : Z) : Z * Z := (ms / 1000, ms mod 1000 * 1000000).

(** A step of the process; [tag] remembers what each thread was created with. *)
Inductive thread_step : Threads * gmap Z (Fn * Arg) -> Threads * gmap Z (Fn * Arg) -> Prop :=
| th_create m tag p t fn arg :
    m.(heap) !! p = None -> m.(threads) !! t = None ->
    thread_step (m, tag) (snd (dm_thread_create (Some p) (Some t) fn arg m), <[t := (fn, arg)]> tag)
| th_create_fails m tag p fn arg :
    m.(heap) !! p = None ->
    thread_step (m, tag) (snd (dm_thread_create (Some p) None fn arg m), tag)
| th_finish m m' tag t : finish t m = Some m' -> thread_step (m, tag) (m', tag)
| th_join m m' tag t rc r : dm_thread_join t m = Some (rc, r, m') -> thread_step (m, tag) (m', tag).

(** Start records belong to the threads that run, one each. *)
Record threads_inv (m : Threads) (tag : gmap Z (Fn * Arg)) : Prop := {
  ti_running t p : m.(threads) !! t = Some (Running p) ->
    exists fn arg, tag !! t = Some (fn, arg) /\ m.(heap) !! p = Some (mkStart fn arg);
  ti_owner p st : m.(heap) !! p = Some st -> exists t, m.(threads) !! t = Some (Running p);
  ti_once t t' p : m.(threads) !! t = Some (Running p) -> m.(threads) !! t' = Some (Running p) -> t = t';
  ti_over t ret : m.(threads) !! t = Some (Over ret) ->
    exists fn arg, tag !! t = Some (fn, arg) /\ ret = to_pointer (i32 (run fn arg));
}.

Lemma threads_inv_create m tag p t fn arg :
  threads_inv m tag -> m.(heap) !! p = None -> m.(threads) !! t = None ->
  threads_inv (snd (dm_thread_create (Some p) (Some t) fn arg m)) (<[t := (fn, arg)]> tag).
Proof.
  intros [Hr Ho H1 Hv] Hp Ht. split; cbn.
  - intros t' p'. rewrite lookup_insert_Some. intros [[<- [= <-]]|[Hne Ht']].
    + exists fn, arg. by rewrite !lookup_insert_eq.
    + destruct (Hr _ _ Ht') as (f & a & Htag & Hh). exists f, a. rewrite !lookup_insert_ne; [done|congruence|done].
  - intros p' st. rewrite lookup_insert_Some. intros [[<- _]|[Hne Hh]].
    + exists t. apply lookup_insert_eq.
    + destruct (Ho _ _ Hh) as [t' Ht']. exists t'. rewrite lookup_insert_ne; [done|congruence].
  - intros t1 t2 p'. rewrite !lookup_insert_Some. intros [[<- [= <-]]|[Hn1 Ht1]] [[<- E]|[Hn2 Ht2]]; [done| | |eauto].
    + destruct (Hr _ _ Ht2) as (f & a & _ & Hh). congruence.
    + injection E as <-. destruct (Hr _ _ Ht1) as (f & a & _ & Hh). congruence.
  - intros t' ret. rewrite lookup_insert_Some. intros [[_ [=]]|[Hne Ht']].
    destruct (Hv _ _ Ht') as (f & a & Htag & E). exists f, a. by rewrite lookup_insert_ne.
Qed.

Lemma threads_inv_finish m m' tag t : threads_inv m tag -> finish t m = Some m' -> threads_inv m' tag.
Proof.
  intros [Hr Ho H1 Hv]. unfold finish, dm_thread_entry. destruct (threads m !! t) as [[p| |]|] eqn:Et; try done.
  destruct (Hr _ _ Et) as (fn & arg & Htag & Hh). rewrite Hh. intros [= <-]. split; cbn.
  - intros t' p'. rewrite lookup_insert_Some. intros [[_ [=]]|[Hne Ht']].
    destruct (Hr _ _ Ht') as (f & a & Hf & Hp'). exists f, a. rewrite lookup_delete_ne; [done|]. intros ->. eauto.
  - intros p' st. rewrite lookup_delete_Some. intros [Hne Hp']. destruct (Ho _ _ Hp') as [t' Ht'].
    exists t'. rewrite lookup_insert_ne; [done|congruence].
  - intros t1 t2 p'. rewrite !lookup_insert_Some. intros [[_ [=]]|[Hn1 Ht1]] [[_ [=]]|[Hn2 Ht2]]. eauto.
  - intros t' ret. rewrite lookup_insert_Some. intros [[<- [= <-]]|[Hne Ht']]; [|eauto]. by exists fn, arg.
Qed.

Lemma threads_inv_join m m' tag t rc r :
  threads_inv m tag -> dm_thread_join t m = Some (rc, r, m') -> threads_inv m' tag.
Proof.
  intros HI. unfold dm_thread_join. destruct (threads m !! t) as [[p|ret|]|] eqn:Et; try done;
    [|by intros [= _ _ <-]..]. destruct HI as [Hr Ho H1 Hv]. intros [= _ _ <-]. split; cbn.
  - intros t' p'. rewrite lookup_insert_Some. intros [[_ [=]]|[_ ?]]. eauto.
  - intros p' st Hh. destruct (Ho _ _ Hh) as [t' Ht']. exists t'. rewrite lookup_insert_ne; [done|congruence].
  - intros t1 t2 p'. rewrite !lookup_insert_Some. intros [[_ [=]]|[_ ?]] [[_ [=]]|[_ ?]]. eauto.
  - intros t' ret'. rewrite lookup_insert_Some. intros [[_ [=]]|[_ ?]]. eauto.
Qed.

Lemma threads_inv_step a b : threads_inv (fst a) (snd a) -> thread_step a b -> threads_inv (fst b) (snd b).
Proof.
  intros HI Hst. destruct Hst; cbn in *.
  - by apply threads_inv_create.
  - rewrite delete_insert_id by done. by destruct m.
  - by eapply threads_inv_finish.
  - by eapply threads_inv_join.
Qed.

Lemma pointer_roundtrip v : to_int (to_pointer (i32 v)) = i32 v.
Proof.
  unfold to_int, to_pointer. assert (- 2 ^ 31 <= i32 v < 2 ^ 31) as H.
  { unfold sext. pose proof (Z.mod_pos_bound v (2 ^ 32) ltac:(lia)). change (32 - 1) with 31. case_bool; breflect; zpow; lia. }
  rewrite i64_small by (zpow; lia). by apply i32_small.
Qed.

(** A join returns what the function of the thread returned, and threads
    leak nothing.  Whatever threads are created (or fail to be), end and are
    joined, in any order: joining a thread that is over answers 0 with exactly
    the 32-bit result of the function and argument it was created with, for
    negative results too; a second join answers -1; and every start record on the
    heap belongs to exactly one thread that has not ended. *)
Theorem join_returns_result m tag t :
  rtc thread_step (mkThreads ∅ ∅, ∅) (m, tag) ->
  (forall rc r m', dm_thread_join t m = Some (rc, r, m') ->
     (rc = 0 /\ (exists fn arg, tag !! t = Some (fn, arg) /\ r = i32 (run fn arg)) /\
      exists r', dm_thread_join t m' = Some (-1, r', m')) \/
     (rc = -1 /\ m' = m)) /\
  (forall p st, m.(heap) !! p = Some st ->
     exists t, m.(threads) !! t = Some (Running p) /\ forall t', m.(threads) !! t' = Some (Running p) -> t' = t).
Proof.
  intros Hr. assert (HI : threads_inv m tag).
  { apply (rtc_invariant thread_step (fun a => threads_inv (fst a) (snd a)) _ _ threads_inv_step) in Hr; [done|].
    split; cbn; intros *; by rewrite lookup_empty. }
  split.
  - intros rc r m'. unfold dm_thread_join at 1. destruct (threads m !! t) as [[p|ret|]|] eqn:Et; try done;
      intros [= <- <- <-]; [left|by right..]. split; [done|]. split.
    + destruct (ti_over _ _ HI _ _ Et) as (fn & arg & Htag & ->). exists fn, arg. by rewrite pointer_roundtrip.
    + exists (to_int 0). unfold dm_thread_join. cbn. by rewrite lookup_insert_eq.
  - intros p st Hp. destruct (ti_owner _ _ HI _ _ Hp) as [t0 Ht0]. exists t0. split; [done|].
    intros t' Ht'. by apply (ti_once _ _ HI t' t0 p).
Qed.

(** The time asked for, in a form [nanosleep] accepts. *)
Lemma sleep_exact ms :
  0 <= ms < 2 ^ 32 ->
  let '(s, ns) := dm_thread_sleep_ms ms in 0 <= ns < 1000000000 /\ s * 1000000000 + ns = ms * 1000000.
Proof.
  intros H. cbn. pose proof (Z.mod_pos_bound ms 1000 ltac:(lia)). pose proof (Z.div_mod ms 1000 ltac:(lia)). lia.
Qed.

End Threads.

(** One thread whose function returns -2. *)
Lemma join_returns_result_witness :
  exists m tag r m', rtc (thread_step (fun (f a : Z) => f - a)) (mkThreads ∅ ∅, ∅) (m, tag) /\
    dm_thread_join 7 m = Some (0, r, m') /\ r = -2.
Proof.
  set (run := fun f a : Z => f - a).
  set (m1 := snd (dm_thread_create (Some 1%nat) (Some 7) 3 5 (mkThreads (∅ : gmap nat (@dm_thread_start_t Z Z)) ∅))).
  set (m2 := mkThreads (∅ : gmap nat (@dm_thread_start_t Z Z)) (<[7 := Over (-2)]> (<[7 := Running 1]> ∅))).
  assert (Hr : rtc (thread_step run) (mkThreads ∅ ∅, ∅) (m2, <[7 := (3, 5)]> ∅)).
  { eapply rtc_l; [apply (th_create run (mkThreads ∅ ∅) ∅ 1 7 3 5); reflexivity|].
    eapply rtc_l; [apply (th_finish run m1 m2 _ 7); vm_compute; reflexivity|]. apply rtc_refl. }
  assert (Hj : exists r m', dm_thread_join 7 m2 = Some (0, r, m')) by (vm_compute; eauto).
  destruct Hj as (r & m' & Hj). exists m2, (<[7 := (3, 5)]> ∅), r, m'. split; [exact Hr|]. split; [exact Hj|].
  destruct (join_returns_result run m2 _ 7 Hr) as [H _].
  destruct (H 0 r m' Hj) as [(_ & (fn & arg & Htag & ->) & _)|[Hbad _]]; [|discriminate Hbad].
  injection Htag as <- <-. reflexivity.
Defined.

(** ** What the code does not do *)

(** A join that fails still stores a result, 0, as if the thread had succeeded. *)
Example failed_join_stores_zero :
  dm_thread_join 7 (mkThreads (∅ : gmap nat (@dm_thread_start_t Z Z)) ∅) = Some (-1, 0, mkThreads ∅ ∅).
Proof. reflexivity. Qed.
