(* ===== verification/Notify.v ===== *)
(** * Desktop notifications ([src/utils/notify.c], and the calls of [src/core/scheduler.c])

    The state of the wrapper over libnotify (Linux), and which notification the
    end of a download shows. *)

From S2P Require Import Prelude Path FileIo QueueManager Db Config Engine Scheduler.

(** ** notify.c *)

Inductive DmNotifyUrgency := DM_NOTIFY_INFO | DM_NOTIFY_ERROR.
#[export] Instance urgency_eq_dec : EqDecision DmNotifyUrgency.
Proof. solve_decision. Defined.

Record Notice := mkNotice { no_title : bytes; no_body : bytes; no_critical : bool }.

(** [g_notify_ready]; whether libnotify is initialised; what is shown. *)
Record Notify := mkNotify { g_notify_ready : bool; n_initted : bool; n_shown : list Notice }.

(** [starts]: the answer of [notify_init]. *)
Definition dm_notify_init (starts : bool) (n : Notify) : Notify :=
  if n.(n_initted) then mkNotify true true n.(n_shown)
  else mkNotify starts starts n.(n_shown).

Definition dm_notify_shutdown (n : Notify) : Notify :=
  mkNotify false (if n.(g_notify_ready) && n.(n_initted) then false else n.(n_initted)) n.(n_shown).

(** [made], [shown]: the notification could be made, and shown. *)
Definition dm_notify_send (made shown : bool) (title body : bytes) (urgency : DmNotifyUrgency) (n : Notify) : Notify :=
  if negb n.(g_notify_ready) then n
  else if negb made then n
  else if negb shown then n
  else mkNotify n.(g_notify_ready) n.(n_initted)
         (n.(n_shown) ++ [mkNotice title body (bool_decide (urgency = DM_NOTIFY_ERROR))]).

(** ** scheduler.c *)

Definition basename_of (path : bytes) : bytes :=
  match strrchr path CH_SLASH with Some i => drop (S i) path | None => path end.

(** The notification at the end of [download_thread_fn], branch by branch. *)
Definition end_notice (cfg : Config) (rc : Z) (dl : Download) : option (bytes * bytes * DmNotifyUrgency) :=
  let failed := Some (str "Download Failed", basename_of (d_dest_path dl), DM_NOTIFY_ERROR) in
  if rc =? 0 then Some (str "Download Complete", basename_of (d_dest_path dl), DM_NOTIFY_INFO)
  else if d_cancel_requested dl then None
  else if d_pause_requested dl then None
  else if rc =? -2 then failed
  else if (rc =? -3) || (rc =? -4) then failed
  else if d_retry_count dl <? g_retry_max_attempts cfg then None
  else failed.

Definition notify_end (cfg : Config) (made shown : bool) (rc : Z) (dl : Download) (n : Notify) : Notify :=
  match end_notice cfg rc dl with
  | Some (title, body, urgency) => dm_notify_send made shown title body urgency n
  | None => n
  end.

(** ** Theorems *)

(** Nothing is sent before the start, after the stop, or when libnotify could
    not be started; what was started is stopped. *)
Lemma notify_bracket starts n :
  g_notify_ready n = false -> n_initted n = false ->
  let on := dm_notify_init starts n in
  (g_notify_ready on = n_initted on) /\ n_shown on = n_shown n /\
  dm_notify_shutdown on = mkNotify false false (n_shown n) /\
  forall made shown title body u, dm_notify_send made shown title body u (dm_notify_shutdown on) = dm_notify_shutdown on.
Proof.
  intros Hr Hi. unfold dm_notify_init, dm_notify_shutdown. rewrite Hi. destruct starts; done.
Qed.

(** The name shown has no slash in it. *)
Lemma basename_of_clean path : (CH_SLASH ∉ basename_of path).
Proof.
  unfold basename_of. destruct (strrchr path CH_SLASH) as [i|] eqn:E.
  - by apply strrchr_Some in E as [_ ?].
  - by apply strrchr_None.
Qed.

(** The user is told exactly about the ends that are final and not of his
    own making.  One notification is shown when the download ends as DONE
    ("Download Complete") and one, as critical, when it ends as ERROR ("Download
    Failed"), with the name of the file and no directory; none when it was paused
    or canceled or will be tried again; and none at all when libnotify could not
    be started. *)
Theorem notice_matches_status cfg rc dl n :
  g_notify_ready n = true ->
  let shown := n_shown (notify_end cfg true true rc dl n) in
  match verdict cfg rc dl with
  | DOWNLOAD_DONE => shown = n_shown n ++ [mkNotice (str "Download Complete") (basename_of (d_dest_path dl)) false]
  | DOWNLOAD_ERROR => shown = n_shown n ++ [mkNotice (str "Download Failed") (basename_of (d_dest_path dl)) true]
  | _ => shown = n_shown n
  end /\
  (CH_SLASH ∉ basename_of (d_dest_path dl)) /\
  notify_end cfg true true rc dl (mkNotify false (n_initted n) (n_shown n)) = mkNotify false (n_initted n) (n_shown n).
Proof.
  intros Hr. cbv zeta. split; [|split; [apply basename_of_clean|unfold notify_end; by destruct (end_notice cfg rc dl) as [[[? ?] ?]|]]].
  unfold notify_end, end_notice, verdict, dm_notify_send. rewrite Hr.
  destruct (Z.eqb_spec rc 0); [done|].
  destruct (d_cancel_requested dl); [done|]. destruct (d_pause_requested dl); [done|].
  destruct (Z.eqb_spec rc (-2)) as [->|H2]; [done|].
  destruct (Z.eqb_spec rc (-3)) as [->|H3]; [done|]. destruct (Z.eqb_spec rc (-4)) as [->|H4]; [done|].
  rewrite bool_decide_eq_false_2 by (rewrite !not_elem_of_cons; split_and!; auto using not_elem_of_nil). cbn [orb].
  destruct (Z.ltb_spec (d_retry_count dl) (g_retry_max_attempts cfg)), (Z.leb_spec (g_retry_max_attempts cfg) (d_retry_count dl)); try lia; done.
Qed.

Definition notice_download : Download :=
  mkDownload 1 (str "http://h/f.iso") (str "/home/u/f.iso") 12 DOWNLOAD_ACTIVE 0 0 false false 2
    (replicate 8 0) [] false 0 0 None.

Lemma notice_matches_status_witness :
  n_shown (notify_end cfg_demo true true 0 notice_download (dm_notify_init true (mkNotify false false []))) =
    [mkNotice (str "Download Complete") (str "f.iso") false].
Proof.
  destruct (notice_matches_status cfg_demo 0 notice_download (dm_notify_init true (mkNotify false false [])) eq_refl)
    as [H _].
  exact H.
Defined.
