(* ===== verification/Popup.v ===== *)
(** * The popup of the browser extension ([src/gui/browser_popup.c])

    The window in which the user confirms or dismisses an offer and then
    watches the download: its state, the reassembly of progress records from
    the stream of the daemon, the buttons, and the run of the whole window.
    Drawing is left out; what the user does in a frame is an argument. *)

From Stdlib Require Import SpecFloat.
From S2P Require Import Prelude Path FileIo QueueManager Db Config Engine Scheduler Wire Commands Offers Ipc IpcClient OfferRpc Cli.

#[local] Open Scope wire_scope.

(** ** State *)

Record PopupState := mkPopup {
  offer : IpcBrowserOffer;
  download_id : Z;
  filename : bytes;               (* char[512] *)
  folder : bytes;                 (* char[1024] *)
  full_path : bytes;              (* char[1024] *)
  error : bytes;                  (* char[256] *)
  progress : IpcBrowserProgress;
  progress_sock : option Conn;    (* None: -1 *)
  progress_frame : bytes;         (* the progress_frame_bytes bytes received *)
  last_sample_tick : Z;
  next_retry_tick : Z;
  last_sample_bytes : Z;
  speed_bps : spec_float;
  close : bool;
}.

Definition FRAME_SIZE : nat := 1344.

Definition set_error (e : bytes) (st : PopupState) : PopupState :=
  mkPopup (offer st) (download_id st) (filename st) (folder st) (full_path st) e (progress st)
    (progress_sock st) (progress_frame st) (last_sample_tick st) (next_retry_tick st) (last_sample_bytes st)
    (speed_bps st) (close st).

Definition set_sock (s : option Conn) (frame : bytes) (st : PopupState) : PopupState :=
  mkPopup (offer st) (download_id st) (filename st) (folder st) (full_path st) (error st) (progress st)
    s frame (last_sample_tick st) (next_retry_tick st) (last_sample_bytes st) (speed_bps st) (close st).

Definition set_close (st : PopupState) : PopupState :=
  mkPopup (offer st) (download_id st) (filename st) (folder st) (full_path st) (error st) (progress st)
    (progress_sock st) (progress_frame st) (last_sample_tick st) (next_retry_tick st) (last_sample_bytes st)
    (speed_bps st) true.

Definition set_texts (name dir path : bytes) (st : PopupState) : PopupState :=
  mkPopup (offer st) (download_id st) name dir path (error st) (progress st)
    (progress_sock st) (progress_frame st) (last_sample_tick st) (next_retry_tick st) (last_sample_bytes st)
    (speed_bps st) (close st).

Definition set_download (id : Z) (st : PopupState) : PopupState :=
  mkPopup (offer st) id (filename st) (folder st) (full_path st) (error st) (progress st)
    (progress_sock st) (progress_frame st) (last_sample_tick st) (next_retry_tick st) (last_sample_bytes st)
    (speed_bps st) (close st).

(** ** Start *)

(** The descriptor on which the parent waits for the marker 'R'. *)
Definition report_popup_ready (value : option bytes) : option Z :=
  match value with
  | None => None
  | Some v =>
      let '(fd, rest) := strtol v in
      if bool_decide (rest = []) && (3 <=? fd) && (fd <=? 1024) then Some fd else None
  end.

Definition filename_valid (f : bytes) : bool :=
  negb (bool_decide (f = [])) && negb (streq f (str ".")) && negb (streq f (str ".."))
  && bool_decide (strchr f CH_SLASH = None) && bool_decide (strchr f CH_BACKSLASH = None).

(** ** Progress *)

(** 0.2, the double. *)
Definition fifth : spec_float := f64_div (f64_of_Z 2) (f64_of_Z 10).

(** The speed after a sample at [now]; [None] keeps the last one. *)
Definition sample_speed (now : Z) (p : IpcBrowserProgress) (st : PopupState) : option spec_float :=
  if negb (last_sample_tick st =? 0) && negb (now =? last_sample_tick st)
     && (last_sample_bytes st <=? p_bytes_received p) then
    let elapsed := f64_div (f64_of_Z (u32 (now - last_sample_tick st))) (f64_of_Z 1000) in
    if SFleb fifth elapsed then
      Some (f64_div (f64_of_Z (u64 (p_bytes_received p - last_sample_bytes st))) elapsed)
    else None
  else None.

(** The last component of a path, as it is shown. *)
Definition base_name (path : bytes) : bytes :=
  match strrchr path CH_SLASH with Some i => drop (S i) path | None => path end.

Definition update_progress (now : Z) (p : IpcBrowserProgress) (st : PopupState) : PopupState :=
  let speed := default (speed_bps st) (sample_speed now p st) in
  let known := bool_decide (p_dest_path p <> []) in
  let path := if known then strlcpy 1024 (p_dest_path p) else full_path st in
  let name := if known then strlcpy 512 (base_name path) else filename st in
  mkPopup (offer st) (download_id st) name (folder st) path (error st) p (progress_sock st) (progress_frame st)
    now (next_retry_tick st) (p_bytes_received p) speed (close st).

Definition retry_text : bytes := str "Progress connection lost; retrying...".

(** The label [retry], and the end of [poll_progress]. *)
Definition lose_connection (now : Z) (st : PopupState) : PopupState :=
  mkPopup (offer st) (download_id st) (filename st) (folder st) (full_path st) retry_text (progress st)
    None (progress_frame st) (last_sample_tick st) (u32 (now + 1000)) (last_sample_bytes st)
    (speed_bps st) (close st).

(** [dial]: the connection [ipc_client_connect_timeout] makes. *)
Definition connect_progress (now : Z) (dial : option Conn) (st : PopupState) : PopupState :=
  match dial with
  | None => lose_connection now st
  | Some c =>
      match ipc_browser_subscribe_progress (download_id st) c with
      | (Some initial, c) => set_error [] (update_progress now initial (set_sock (Some c) [] st))
      | (None, _) => lose_connection now st
      end
  end.

(** The test on a buffer that holds a header. *)
Definition progress_header (frame : bytes) : bool :=
  let h := decode_header frame in
  (h_type h =? msg_code MSG_BROWSER_PROGRESS_EVENT) && (h_length h =? 1336).

(** The loop: [true] when it returned with the connection kept.  [clock] is
    [SDL_GetTicks] in each of the rounds left. *)
Fixpoint poll_rounds (clock : nat -> Z) (rounds : nat) (c : Conn) (st : PopupState) : bool * PopupState :=
  match rounds with
  | O => (false, st)
  | S rest =>
      match recv (FRAME_SIZE - length (progress_frame st)) c with
      | (RecvAgain, c) => (true, set_sock (Some c) (progress_frame st) st)
      | (RecvFailed, c) | (RecvClosed, c) => (false, set_sock (Some c) (progress_frame st) st)
      | (RecvData bs, c) =>
          let frame := progress_frame st ++ bs in
          let st := set_sock (Some c) frame st in
          if (HEADER_SIZE <=? length frame)%nat then
            if negb (progress_header frame) then (false, st)
            else if (length frame =? FRAME_SIZE)%nat then
              poll_rounds clock rest c
                (set_sock (Some c) [] (update_progress (clock rest) (decode_progress (drop HEADER_SIZE frame)) st))
            else poll_rounds clock rest c st
          else poll_rounds clock rest c st
      end
  end.

(** [now]: the clock when the function starts and when it ends. *)
Definition poll_progress (clock : nat -> Z) (now : Z) (dial : option Conn) (st : PopupState) : PopupState :=
  match progress_sock st with
  | None => if 0 <=? i32 (now - next_retry_tick st) then connect_progress now dial st else st
  | Some c =>
      let '(kept, st) := poll_rounds clock 16 c st in
      if kept then st else lose_connection now st
  end.

(** ** The buttons *)

(** What the user does in a frame of the confirmation: the texts of the two
    fields, the folder chosen in the dialog, the buttons. *)
Record ConfirmInput := mkConfirmInput {
  ci_filename : bytes; ci_folder : bytes; ci_browse : option bytes; ci_cancel : bool; ci_download : bool }.

Definition invalid_text : bytes := str "Choose a valid folder and filename.".
Definition refused_text : bytes := str "Could not start download. Check the destination.".

Definition confirm_button (st : PopupState) (daemon : Conn) : PopupState * Conn :=
  if negb (filename_valid (filename st)) || bool_decide (folder st = []) then (set_error invalid_text st, daemon)
  else
    match path_join (folder st) (filename st) IPC_MAX_PATH_LEN with
    | None => (set_error invalid_text st, daemon)
    | Some path =>
        let st := set_texts (filename st) (folder st) path st in
        match ipc_browser_confirm (o_offer_id (offer st)) path daemon with
        | (None, daemon) => (set_error refused_text st, daemon)
        | (Some id, daemon) => (set_error [] (set_download id st), daemon)
        end
    end.

Definition cancel_button (st : PopupState) (daemon : Conn) : PopupState * Conn :=
  (set_close st, snd (ipc_browser_dismiss (o_offer_id (offer st)) daemon)).

Definition draw_confirmation (i : ConfirmInput) (st : PopupState) (daemon : Conn) : PopupState * Conn :=
  let dir := match ci_browse i with Some d => strlcpy 1024 d | None => ci_folder i end in
  let st := set_texts (ci_filename i) dir (full_path st) st in
  let '(st, daemon) := if ci_cancel i then cancel_button st daemon else (st, daemon) in
  if ci_download i then confirm_button st daemon else (st, daemon).

(** The buttons of the progress view; [pi_opens]: whether a path can be opened. *)
Record ProgressInput := mkProgressInput {
  pi_open_file : bool; pi_open_folder : bool; pi_cancel : bool; pi_close : bool; pi_opens : bytes -> bool }.

Definition folder_of (path : bytes) : bytes :=
  match strrchr path CH_SLASH with
  | None | Some O => str "/"
  | Some i => take i path
  end.

(** The paths opened, the state, the connection to the daemon. *)
Definition draw_progress (i : ProgressInput) (st : PopupState) (daemon : Conn) : list bytes * PopupState * Conn :=
  let done := streq (p_status (progress st)) (str "DONE") in
  let stopped := streq (p_status (progress st)) (str "ERROR") || streq (p_status (progress st)) (str "CANCELED") in
  let closed st := if pi_close i then set_close st else st in
  if done then
    let '(o1, st) := if pi_open_file i then
                       ([full_path st], if pi_opens i (full_path st) then st else set_error (str "Could not open file.") st)
                     else ([], st) in
    let dir := folder_of (full_path st) in
    let '(o2, st) := if pi_open_folder i then
                       ([dir], if pi_opens i dir then st else set_error (str "Could not open folder.") st)
                     else ([], st) in
    (o1 ++ o2, closed st, daemon)
  else
    let daemon := if negb stopped && pi_cancel i then snd (ipc_send_cancel (download_id st) daemon) else daemon in
    ([], closed st, daemon).

(** ** The window *)

Record FrameInput := mkFrame {
  fi_clock : nat -> Z; fi_now : Z; fi_dial : option Conn; fi_shown : bool;
  fi_confirm : ConfirmInput; fi_progress : ProgressInput }.

Definition popup_frame (i : FrameInput) (st : PopupState) (daemon : Conn) : PopupState * Conn :=
  let st := if download_id st =? 0 then st else poll_progress (fi_clock i) (fi_now i) (fi_dial i) st in
  if negb (fi_shown i) then (st, daemon)
  else if download_id st =? 0 then draw_confirmation (fi_confirm i) st daemon
  else let '(_, st, daemon) := draw_progress (fi_progress i) st daemon in (st, daemon).

(** The frames until the window is closed by a button, or from outside. *)
Fixpoint popup_loop (frames : list FrameInput) (st : PopupState) (daemon : Conn) : PopupState * Conn :=
  match frames with
  | [] => (st, daemon)
  | i :: frames' =>
      if close st then (st, daemon)
      else let '(st, daemon) := popup_frame i st daemon in popup_loop frames' st daemon
  end.

Definition no_progress : IpcBrowserProgress := mkProgress 0 0 0 0 [] [] [].

Definition popup_start (o : IpcBrowserOffer) (default_dir : bytes) : PopupState :=
  mkPopup o 0 (strlcpy 512 (o_filename o)) (strlcpy 1024 default_dir) [] [] no_progress None [] 0 0 0
    (S754_zero false) false.

(** After the loop. *)
Definition popup_end (st : PopupState) (daemon : Conn) : Conn :=
  if (download_id st =? 0) && negb (close st) then snd (ipc_browser_dismiss (o_offer_id (offer st)) daemon)
  else daemon.

(** The exit status, the file system, and the state and the connection to the
    daemon when there was a window. *)
Definition run_browser_popup (env : IoEnv) (cfg : Config) (offer_id : Z) (dial : option Conn) (backend : bool)
    (frames : list FrameInput) (fs : filesystem) : Z * filesystem * option (PopupState * Conn) :=
  match dial with
  | None => (1, fs, None)
  | Some daemon =>
      match ipc_browser_get_offer offer_id daemon with
      | (None, _) => (1, fs, None)
      | (Some o, daemon) =>
          if bool_decide (o_state o <> IPC_BROWSER_WAITING) then (1, fs, None)
          else
            let st := popup_start o (g_default_dir cfg) in
            let '(_, fs) := file_ensure_directory env fs (folder st) in
            if negb backend then (1, fs, None)
            else
              let '(st, daemon) := popup_loop frames st daemon in
              (0, fs, Some (st, popup_end st daemon))
      end
  end.

(** ** Lemmas: the stream of progress records *)

(** Records shown one after the other, each at its time. *)
Definition shown (es : list (Z * IpcBrowserProgress)) (st : PopupState) : PopupState :=
  fold_left (fun st e => update_progress (fst e) (wire_progress (snd e)) st) es st.

Definition data_pieces (s : list read_event) : Prop := Forall (fun e => exists b bs, e = RData (b :: bs)) s.
Definition dry (e : read_event) : Prop := e = RBlock \/ e = REintr.

Lemma length_browser_frame e : progress_fits e -> length (browser_frame e) = FRAME_SIZE.
Proof. intros H. unfold browser_frame. by rewrite length_app, length_encode_header, length_encode_progress. Qed.

Lemma update_set_sock now p s f st : update_progress now p (set_sock s f st) = set_sock s f (update_progress now p st).
Proof. reflexivity. Qed.

Lemma shown_set_sock es s f st : shown es (set_sock s f st) = set_sock s f (shown es st).
Proof. revert st. induction es as [|e es IH]; intros st; [done|]. unfold shown in *. cbn [fold_left].
  rewrite update_set_sock. apply IH.
Qed.

Lemma decode_header_app h rest : decode_header (encode_header h ++ rest) = decode_header (encode_header h).
Proof.
  unfold decode_header, encode_header. rewrite <- !app_assoc.
  rewrite !(take_app_length' (le 4 (h_length h))), !(drop_app_length' (le 4 (h_length h))) by (by rewrite length_le4).
  rewrite !(take_app_length' (le 4 (h_type h))) by (by rewrite length_le4).
  by rewrite take_ge by (by rewrite length_le4).
Qed.

(** A piece of a frame that holds the header passes the test. *)
Lemma frame_prefix_header e x y :
  x ++ y = browser_frame e -> (HEADER_SIZE <= length x)%nat -> progress_header x = true.
Proof.
  intros Hx Hl. unfold browser_frame in Hx.
  assert (x = encode_header (mkHeader 1336 (msg_code MSG_BROWSER_PROGRESS_EVENT)) ++ drop HEADER_SIZE x) as ->.
  { rewrite <- (take_drop HEADER_SIZE x) at 1. f_equal. apply (f_equal (take HEADER_SIZE)) in Hx.
    rewrite take_app_le in Hx by done. rewrite Hx. apply take_app_length'. by rewrite length_encode_header. }
  unfold progress_header. rewrite decode_header_app. by vm_compute.
Qed.

Lemma recv_takes R b bs s c :
  c_in c = RData (b :: bs) :: s ->
  recv R c = (RecvData (take R (b :: bs)), mkConn (put_back (drop R (b :: bs)) s) (c_out c) (c_wr c)).
Proof. intros H. unfold recv. by rewrite H. Qed.

Lemma app_prefix_length (a b c d : bytes) : a ++ b = c ++ d -> (length a <= length c)%nat -> exists x, c = a ++ x.
Proof.
  intros H Hl. exists (drop (length a) c). rewrite <- (take_drop (length a) c) at 1. f_equal.
  apply (f_equal (take (length a))) in H. rewrite take_app_length in H. rewrite take_app_le in H by done. by symmetry.
Qed.

(** What the stream holds, against the buffer [f] and the pieces [s]: the
    records [es], then a part [tail] of the next one. *)
Record holds (f : bytes) (s : list read_event) (es : list IpcBrowserProgress) (tail : bytes) : Prop := {
  ho_bytes : f ++ payload s = concat (map browser_frame es) ++ tail;
  ho_tail : exists e more, progress_fits e /\ tail ++ more = browser_frame e /\ more <> [];
  ho_fits : Forall progress_fits es;
  ho_frame : (length f < FRAME_SIZE)%nat;
}.

Lemma payload_put_back bs s : payload (put_back bs s) = bs ++ payload s.
Proof. by destruct bs. Qed.

Lemma holds_done f es tail : holds f [] es tail -> es = [] /\ f = tail.
Proof.
  intros [Hb _ Hf Hl]. unfold payload in Hb. simpl in Hb. rewrite app_nil_r in Hb.
  destruct es as [|e es]; [done|]. exfalso. apply (f_equal length) in Hb. cbn [map concat] in Hb.
  inversion Hf; subst. rewrite !length_app, length_browser_frame in Hb by done. lia.
Qed.

(** The first record that the buffer is a part of. *)
Lemma holds_next f s es tail :
  holds f s es tail -> forall x y, f ++ payload s = x ++ y -> (length x <= FRAME_SIZE)%nat ->
  exists e z, progress_fits e /\ x ++ z = browser_frame e /\
    (length x = FRAME_SIZE -> exists es', es = e :: es' /\ y = concat (map browser_frame es') ++ tail).
Proof.
  intros [Hb (en & more & Hen & Hmore & Hne) Hf Hl] x y Hx Hlx. rewrite Hb in Hx. destruct es as [|e es].
  - cbn [map concat app] in Hx. assert (length x < FRAME_SIZE)%nat as Hlt.
    { apply (f_equal length) in Hx, Hmore. rewrite length_app in Hx, Hmore. rewrite length_browser_frame in Hmore by done.
      destruct more; [done|]. simpl in Hmore. lia. }
    exists en, (y ++ more). split; [done|]. split; [|lia]. by rewrite app_assoc, <- Hx.
  - inversion Hf as [|? ? He Hes]; subst. cbn [map concat] in Hx. rewrite <- app_assoc in Hx. symmetry in Hx.
    destruct (app_prefix_length _ _ _ _ Hx) as [z Hz]; [by rewrite length_browser_frame|].
    exists e, z. split; [done|]. split; [done|]. intros Hfull.
    assert (z = []) as ->.
    { apply (f_equal length) in Hz. rewrite length_app, length_browser_frame in Hz by done. destruct z; [done|simpl in Hz; lia]. }
    rewrite app_nil_r in Hz. exists es. split; [done|]. rewrite Hz in Hx. by apply app_inv_head in Hx.
Qed.

(** A full buffer is one record. *)
Lemma decode_full_frame e f z :
  progress_fits e -> f ++ z = browser_frame e -> length f = FRAME_SIZE ->
  decode_progress (drop HEADER_SIZE f) = wire_progress e.
Proof.
  intros He Hz Hfl. apply (f_equal length) in Hz as Hlz. rewrite length_app, length_browser_frame in Hlz by done.
  destruct z; [|simpl in Hlz; lia]. rewrite app_nil_r in Hz. subst f. unfold browser_frame.
  rewrite drop_app_length' by (by rewrite length_encode_header). by apply decode_encode_progress.
Qed.

Lemma poll_rounds_spec clock rounds c st s stop s2 es tail :
  c_in c = s ++ stop :: s2 -> data_pieces s -> dry stop -> holds (progress_frame st) s es tail ->
  (length s + length es < rounds)%nat ->
  exists times, length times = length es /\
    poll_rounds clock rounds c st =
      (true, set_sock (Some (mkConn s2 (c_out c) (c_wr c))) tail (shown (zip times es) st)).
Proof.
  revert c st s es. induction rounds as [|rounds IH]; intros c st s es Hc Hp Hq Hh Hn; [lia|].
  cbn [poll_rounds]. destruct s as [|e s].
  - apply holds_done in Hh as [-> <-]. exists []. split; [done|]. unfold recv. rewrite Hc. cbn [app].
    by destruct Hq as [-> | ->].
  - inversion Hp as [|? ? (b & bs & ->) Hps]; subst. cbn [app] in Hc. rewrite (recv_takes _ b bs _ _ Hc).
    set (R := (FRAME_SIZE - length (progress_frame st))%nat). set (got := take R (b :: bs)).
    pose proof (ho_frame _ _ _ _ Hh) as Hlf.
    assert (length (progress_frame st ++ got) <= FRAME_SIZE)%nat as Hle.
    { unfold got. rewrite length_app, length_take. unfold R. lia. }
    assert (progress_frame st ++ payload (RData (b :: bs) :: s) =
      (progress_frame st ++ got) ++ payload (put_back (drop R (b :: bs)) s)) as Hsplit.
    { rewrite payload_put_back, <- app_assoc. f_equal. unfold got. rewrite app_assoc, take_drop. done. }
    destruct (holds_next _ _ _ _ Hh _ _ Hsplit Hle) as (e & z & He & Hz & Hfull).
    set (c1 := mkConn (put_back (drop R (b :: bs)) (s ++ stop :: s2)) (c_out c) (c_wr c)).
    set (f := progress_frame st ++ got) in *.
    assert (length f <> FRAME_SIZE -> drop R (b :: bs) = []) as Hwhole.
    { intros Hne. apply drop_ge. unfold f, got in Hne, Hle. rewrite length_app, length_take in Hne, Hle. unfold R in *. lia. }
    (* a partial frame: one piece less *)
    assert (length f <> FRAME_SIZE -> exists times, length times = length es /\
      poll_rounds clock rounds c1 (set_sock (Some c1) f st) =
        (true, set_sock (Some (mkConn s2 (c_out c) (c_wr c))) tail (shown (zip times es) st))) as Hpart.
    { intros Hne. specialize (Hwhole Hne). destruct (IH c1 (set_sock (Some c1) f st) s es) as (times & Ht & ->).
      - unfold c1. rewrite Hwhole. done.
      - done.
      - done.
      - destruct Hh as [Hb Htl Hfit _]. split; [|done|done|cbn [progress_frame set_sock]; lia]. cbn [progress_frame set_sock].
        rewrite Hsplit, Hwhole in Hb. exact Hb.
      - simpl in Hn. lia.
      - exists times. split; [done|]. by rewrite shown_set_sock. }
    destruct (Nat.leb_spec HEADER_SIZE (length f)) as [Hhd|Hhd];
      [|apply Hpart; unfold HEADER_SIZE, FRAME_SIZE in *; lia].
    rewrite (frame_prefix_header e f z Hz Hhd). cbn [negb].
    destruct (Nat.eqb_spec (length f) FRAME_SIZE) as [Hfl|Hfl]; [|by apply Hpart].
    destruct (Hfull Hfl) as (es' & -> & Hrest).
    rewrite (decode_full_frame e f z He Hz Hfl).
    set (st1 := set_sock (Some c1) [] (update_progress (clock rounds) (wire_progress e) (set_sock (Some c1) f st))).
    set (s' := put_back (drop R (b :: bs)) s).
    destruct (IH c1 st1 s' es') as (times & Ht & ->).
    + unfold c1, s'. cbn [c_in]. by destruct (drop R (b :: bs)).
    + unfold s'. destruct (drop R (b :: bs)) as [|b' bs']; [done|]. constructor; [by exists b', bs'|done].
    + done.
    + destruct Hh as [Hb Htl Hfit _]. split; [|done|by inversion Hfit|unfold FRAME_SIZE; simpl; lia]. exact Hrest.
    + simpl in Hn. unfold s'. destruct (drop R (b :: bs)); cbn [put_back length]; lia.
    + exists (clock rounds :: times). split; [simpl; by rewrite Ht|]. unfold st1.
      rewrite update_set_sock, !shown_set_sock. done.
Qed.

(** ** Lemmas: the connection to the daemon *)

(** What was sent stays sent, and a healthy connection stays healthy. *)
Definition later (c c' : Conn) : Prop :=
  (exists x, c_out c' = c_out c ++ x) /\ (healthy (c_wr c) -> healthy (c_wr c')).

Definition talks {A} (p : wire A) : Prop := forall c, later c (snd (p c)).

#[global] Instance later_preorder : PreOrder later.
Proof.
  split.
  - intros c. split; [exists []; by rewrite app_nil_r|done].
  - intros a b c [[x Hx] H1] [[y Hy] H2]. split; [exists (x ++ y); by rewrite Hy, Hx, app_assoc|auto].
Qed.

Lemma talks_ret {A} (a : A) : talks (wret a).
Proof. intros c. reflexivity. Qed.

Lemma talks_fail {A} : talks (@wfail A).
Proof. intros c. reflexivity. Qed.

Lemma talks_bind {A B} (m : wire A) (f : A -> wire B) : talks m -> (forall a, talks (f a)) -> talks (wbind m f).
Proof.
  intros Hm Hf c. specialize (Hm c). unfold wbind. destruct (m c) as [[a|] c']; [|done].
  etransitivity; [exact Hm|apply Hf].
Qed.

Lemma talks_read n : talks (ipc_read_exact n).
Proof.
  intros c. unfold ipc_read_exact. destruct (read_loop _ _). split; [exists []; by rewrite app_nil_r|done].
Qed.

Lemma write_loop_healthy ev bs : healthy ev -> healthy (snd (write_loop ev bs)).
Proof.
  intros H. destruct (write_loop_ok ev bs H) as (ev' & -> & H'). exact H'.
Qed.

Lemma talks_write bs : talks (ipc_write_exact bs).
Proof.
  intros c. unfold ipc_write_exact. pose proof (write_loop_healthy (c_wr c) bs) as H.
  destruct (write_loop _ _) as [[ok out] ev]. split; [by exists out|done].
Qed.

Lemma talks_u n : talks (read_u n).
Proof. apply talks_bind; [apply talks_read|]. intros v. apply talks_ret. Qed.

#[export] Hint Resolve talks_ret talks_fail talks_read talks_write talks_u : cdm.

Ltac talks_tac :=
  repeat (first [apply talks_bind; [|intros ?] | progress cbv zeta | case_bool]; auto with cdm).

Lemma talks_request t bs : talks (browser_write_request t bs).
Proof. unfold browser_write_request, write_header. talks_tac. Qed.
#[export] Hint Resolve talks_request : cdm.

Lemma talks_confirm id dest : talks (ipc_browser_confirm id dest).
Proof. unfold ipc_browser_confirm. talks_tac. Qed.

Lemma talks_dismiss id : talks (ipc_browser_dismiss id).
Proof. unfold ipc_browser_dismiss, read_result. talks_tac. Qed.

Lemma talks_cancel id : talks (ipc_send_cancel id).
Proof. unfold ipc_send_cancel, send_id_command, write_header, read_result. talks_tac. Qed.

Lemma talks_get_offer id : talks (ipc_browser_get_offer id).
Proof. unfold ipc_browser_get_offer, read_offer. talks_tac. Qed.

(** A request that went out. *)
Definition request_sent (t : MsgType) (bs : bytes) (c : Conn) : Prop :=
  exists pre post, c_out c = pre ++ (encode_header (header_of t (strlen bs)) ++ bs) ++ post.

Lemma requested_later t bs c c' : later c c' -> request_sent t bs c -> request_sent t bs c'.
Proof.
  intros [[x Hx] _] (pre & post & E). exists pre, (post ++ x). by rewrite Hx, E, <- !app_assoc.
Qed.

(** A request, whatever is read after it. *)
Lemma request_sends {A} t bs (k : wire A) c :
  strlen bs <= IPC_MAX_FRAME_SIZE -> talks k -> healthy (c_wr c) ->
  request_sent t bs (snd ((browser_write_request t bs ;;; k) c)).
Proof.
  intros Hl Hk Hc. unfold wbind. destruct (write_request_ok t bs c Hl Hc) as (ev & _ & ->).
  eapply requested_later; [apply Hk|]. exists (c_out c), []. cbn [c_out]. by rewrite app_nil_r.
Qed.

Lemma dismiss_sends id c :
  id <> 0 -> healthy (c_wr c) -> request_sent MSG_BROWSER_DISMISS (le 4 id) (snd (ipc_browser_dismiss id c)).
Proof.
  intros Hid Hc. unfold ipc_browser_dismiss. rewrite (proj2 (Z.eqb_neq id 0)) by done.
  apply request_sends; [by rewrite strlen_le4| |done]. unfold read_result. talks_tac.
Qed.

Definition confirm_payload (id : Z) (path : bytes) : bytes := le 4 id ++ le 4 (strlen path) ++ path.

Lemma confirm_sends id path c :
  id <> 0 -> path <> [] -> strlen path < IPC_MAX_PATH_LEN -> healthy (c_wr c) ->
  request_sent MSG_BROWSER_CONFIRM (confirm_payload id path) (snd (ipc_browser_confirm id path c)).
Proof.
  intros Hid Hp Hl Hc. unfold ipc_browser_confirm. rewrite (proj2 (Z.eqb_neq id 0)) by done.
  assert (0 < strlen path) as Hpos by (destruct path; [done|]; unfold strlen; simpl; lia).
  rewrite (proj2 (Z.eqb_neq (strlen path) 0)), (proj2 (Z.leb_gt _ _)) by lia. cbn [orb].
  apply request_sends; [|talks_tac|done]. unfold confirm_payload. rewrite !strlen_app, !strlen_le4.
  unfold IPC_MAX_PATH_LEN, IPC_MAX_FRAME_SIZE in *. lia.
Qed.

Lemma confirm_nonzero id path c d c' : ipc_browser_confirm id path c = (Some d, c') -> d <> 0.
Proof.
  unfold ipc_browser_confirm. destruct (id =? 0); [done|]. destruct (_ || _); [done|]. unfold wbind.
  destruct (browser_write_request _ _ _) as [[?|] c1]; [|done]. destruct (read_u32 c1) as [[x|] c2]; [|done].
  destruct (Z.eqb_spec x 0); [done|]. by intros [= <- <-].
Qed.

Lemma filename_valid_spec f :
  filename_valid f = true <->
  f <> [] /\ f <> str "." /\ f <> str ".." /\ (CH_SLASH ∉ f) /\ (CH_BACKSLASH ∉ f).
Proof.
  unfold filename_valid. rewrite !andb_true_iff, !negb_true_iff, !streq_false, bool_decide_eq_false, !bool_decide_eq_true.
  rewrite !strchr_None. tauto.
Qed.

(** The folder of the form in a frame: the one picked in the dialog, else the
    one in its field. *)
Definition chosen_folder (i : ConfirmInput) : bytes :=
  match ci_browse i with Some d => strlcpy 1024 d | None => ci_folder i end.

(** In frame [i] the user pressed Download on the form that named [path]: its
    folder and its file name, joined. *)
Definition clicked (i : FrameInput) (path : bytes) : Prop :=
  fi_shown i = true /\ ci_download (fi_confirm i) = true /\
  filename_valid (ci_filename (fi_confirm i)) = true /\ chosen_folder (fi_confirm i) <> [] /\
  path_join (chosen_folder (fi_confirm i)) (ci_filename (fi_confirm i)) IPC_MAX_PATH_LEN = Some path.

(** The user's decision on the offer [id], as the daemon was told: the path of
    the form at a click of the run, or a dismissal. *)
Definition told_confirm (frames : list FrameInput) (id : Z) (c : Conn) : Prop :=
  exists i path, i ∈ frames /\ clicked i path /\ request_sent MSG_BROWSER_CONFIRM (confirm_payload id path) c.

Definition told_dismiss (id : Z) (c : Conn) : Prop := request_sent MSG_BROWSER_DISMISS (le 4 id) c.

Lemma told_confirm_later frames id c c' : later c c' -> told_confirm frames id c -> told_confirm frames id c'.
Proof. intros Hl (i & path & ? & ? & ?). exists i, path. eauto using requested_later. Qed.

Record window_ok (frames : list FrameInput) (id : Z) (st : PopupState) (daemon : Conn) : Prop := {
  wo_offer : o_offer_id (offer st) = id;
  wo_id : id <> 0;
  wo_healthy : healthy (c_wr daemon);
  wo_download : download_id st <> 0 -> told_confirm frames id daemon;
  wo_close : close st = true -> download_id st <> 0 \/ told_dismiss id daemon;
}.

Lemma window_ok_later fr id st st' c c' :
  window_ok fr id st c -> later c c' -> offer st' = offer st -> download_id st' = download_id st ->
  (close st' = true -> close st = true \/ download_id st <> 0 \/ told_dismiss id c') -> window_ok fr id st' c'.
Proof.
  intros [H1 H2 H3 H4 H5] Hl Ho Hd Hc. split; [congruence|done|by apply Hl| |].
  - rewrite Hd. intros Hn. eapply told_confirm_later; [exact Hl|auto].
  - rewrite Hd. intros E. destruct (Hc E) as [E'|[?|?]]; [|by left|by right].
    destruct (H5 E') as [?|?]; [by left|right]. by eapply requested_later.
Qed.

Lemma path_join_fits dir name path :
  path_join dir name IPC_MAX_PATH_LEN = Some path -> name <> [] -> path <> [] /\ strlen path < IPC_MAX_PATH_LEN.
Proof.
  unfold path_join. cbv zeta. set (sep := (0 <? strlen dir) && _). destruct (Z.ltb_spec IPC_MAX_PATH_LEN
    (strlen dir + strlen name + (if sep then 1 else 2))) as [|Hle]; [done|]. intros [= <-] Hn.
  split; [by intros [_ ->]%app_eq_nil|]. rewrite strlen_app. destruct sep; [lia|].
  rewrite strlen_app. change (strlen [CH_SLASH]) with 1. lia.
Qed.

Lemma confirm_button_ok fr id i st c :
  i ∈ fr -> (forall path, filename_valid (filename st) = true -> folder st <> [] ->
    path_join (folder st) (filename st) IPC_MAX_PATH_LEN = Some path -> clicked i path) ->
  window_ok fr id st c -> let '(st', c') := confirm_button st c in window_ok fr id st' c'.
Proof.
  intros Hi Hcl Hw. unfold confirm_button. case_bool; [by apply (window_ok_later fr id st _ c); auto|].
  apply orb_false_iff in Heqb as [Hv Hd]. apply negb_false_iff in Hv. apply bool_decide_eq_false in Hd.
  destruct (path_join _ _ _) as [path|] eqn:Ej; [|by apply (window_ok_later fr id st _ c); auto].
  assert (filename st <> []) as Hn by (by apply filename_valid_spec in Hv as (? & _)).
  destruct (path_join_fits _ _ _ Ej Hn) as [Hp Hl].
  cbn [offer set_texts]. rewrite (wo_offer _ _ _ _ Hw).
  pose proof (confirm_sends id path c (wo_id _ _ _ _ Hw) Hp Hl (wo_healthy _ _ _ _ Hw)) as Hsent.
  pose proof (talks_confirm id path c) as Hlater.
  destruct (ipc_browser_confirm id path c) as [[d|] c'] eqn:Ec; cbn [snd] in *.
  - pose proof (confirm_nonzero _ _ _ _ _ Ec). destruct Hw as [H1 H2 H3 _ _].
    split; cbn [set_error set_download set_texts offer download_id close]; auto.
    + by apply Hlater.
    + intros _. exists i, path. auto.
  - apply (window_ok_later fr id st _ c); auto.
Qed.

Lemma draw_confirmation_ok fr id i st c :
  i ∈ fr -> fi_shown i = true ->
  window_ok fr id st c -> let '(st', c') := draw_confirmation (fi_confirm i) st c in window_ok fr id st' c'.
Proof.
  intros Hi Hsh Hw. unfold draw_confirmation. fold (chosen_folder (fi_confirm i)). set (st1 := set_texts _ _ _ st).
  assert (window_ok fr id st1 c) as H1 by (apply (window_ok_later fr id st _ c); auto; reflexivity).
  assert (let '(st2, c2) := (if ci_cancel (fi_confirm i) then cancel_button st1 c else (st1, c)) in
          window_ok fr id st2 c2 /\ folder st2 = folder st1 /\ filename st2 = filename st1) as H2.
  { destruct (ci_cancel (fi_confirm i)); [|done]. split; [|done]. unfold cancel_button. rewrite (wo_offer _ _ _ _ H1).
    apply (window_ok_later fr id st1 _ c); auto; [apply talks_dismiss|]. intros _. do 2 right.
    apply dismiss_sends; [by apply H1|by apply (wo_healthy _ _ _ _ H1)]. }
  destruct (if ci_cancel _ then _ else _) as [st2 c2]. destruct H2 as (H2 & Hf & Hn).
  destruct (ci_download (fi_confirm i)) eqn:Ed; [|done]. apply (confirm_button_ok fr id i); [done| |done].
  rewrite Hf, Hn. unfold st1. cbn [folder filename set_texts]. intros path ? ? ?. by repeat split.
Qed.

Lemma draw_progress_ok fr id i st c :
  window_ok fr id st c -> download_id st <> 0 -> let '(_, st', c') := draw_progress i st c in window_ok fr id st' c'.
Proof.
  intros Hw Hd. unfold draw_progress. cbv zeta. case_bool.
  - destruct (pi_open_file i), (pi_open_folder i), (pi_close i); repeat case_bool;
      apply (window_ok_later fr id st _ c); auto; reflexivity.
  - destruct (negb _ && pi_cancel i); destruct (pi_close i);
      apply (window_ok_later fr id st _ c); auto; first [apply talks_cancel|reflexivity].
Qed.

Lemma poll_rounds_keeps clock n c st :
  let st' := snd (poll_rounds clock n c st) in
  offer st' = offer st /\ download_id st' = download_id st /\ close st' = close st.
Proof.
  revert c st. induction n as [|n IH]; intros c st; [done|]. cbn [poll_rounds].
  destruct (recv _ c) as [[bs| | |] c']; try done. cbv zeta. repeat case_bool; try done;
    match goal with |- context [poll_rounds clock n ?a ?b] => exact (IH a b) end.
Qed.

Lemma poll_progress_keeps clock now dial st :
  let st' := poll_progress clock now dial st in
  offer st' = offer st /\ download_id st' = download_id st /\ close st' = close st.
Proof.
  cbv zeta. unfold poll_progress. destruct (progress_sock st) as [c|].
  - pose proof (poll_rounds_keeps clock 16 c st) as H. destruct (poll_rounds _ _ _ _) as [[] st']; exact H.
  - case_bool; [|done]. unfold connect_progress. destruct dial as [c|]; [|done].
    by destruct (ipc_browser_subscribe_progress _ _) as [[?|] ?].
Qed.

Lemma popup_frame_ok fr id i st c :
  i ∈ fr -> window_ok fr id st c -> let '(st', c') := popup_frame i st c in window_ok fr id st' c'.
Proof.
  intros Hi Hw. unfold popup_frame. set (st1 := if download_id st =? 0 then st else _).
  assert (window_ok fr id st1 c /\ download_id st1 = download_id st) as [H1 Hd].
  { unfold st1. case_bool; [done|].
    destruct (poll_progress_keeps (fi_clock i) (fi_now i) (fi_dial i) st) as (Ho & Hdl & Hc).
    split; [|done]. apply (window_ok_later fr id st _ c); auto; [reflexivity|]. rewrite Hc. auto. }
  clearbody st1. destruct (fi_shown i) eqn:Esh; [|done]. cbn [negb].
  destruct (Z.eqb_spec (download_id st1) 0) as [E|E].
  - by apply draw_confirmation_ok.
  - pose proof (draw_progress_ok fr id (fi_progress i) st1 c H1 E).
    by destruct (draw_progress _ _ _) as [[? ?] ?].
Qed.

Lemma popup_loop_ok fr id frames st c :
  frames ⊆ fr -> window_ok fr id st c -> let '(st', c') := popup_loop frames st c in window_ok fr id st' c'.
Proof.
  revert st c. induction frames as [|i frames IH]; intros st c Hsub Hw; [done|]. cbn [popup_loop].
  assert (i ∈ fr) as Hi by (apply Hsub; by left). assert (frames ⊆ fr) as Hsub' by (intros x Hx; apply Hsub; by right).
  destruct (close st); [done|]. pose proof (popup_frame_ok fr id i st c Hi Hw) as Hf.
  destruct (popup_frame i st c) as [st1 c1]. by apply IH.
Qed.

(** ** Properties *)

(** The popup shows exactly the records the daemon sent.  However the
    kernel cuts the stream, a call of [poll_progress] that meets at most 15
    pieces and records before the socket runs dry shows every complete record
    in order, undamaged, keeps the beginning of the next one for later, leaves
    the connection open, and changes nothing else. *)
Theorem popup_receives clock now dial st c s stop s2 es tail :
  progress_sock st = Some c -> c_in c = s ++ stop :: s2 -> data_pieces s -> dry stop ->
  holds (progress_frame st) s es tail -> (length s + length es <= 15)%nat ->
  exists times, length times = length es /\
    poll_progress clock now dial st =
      set_sock (Some (mkConn s2 (c_out c) (c_wr c))) tail (shown (zip times es) st).
Proof.
  intros Hs Hc Hp Hq Hh Hn. unfold poll_progress. rewrite Hs.
  destruct (poll_rounds_spec clock 16 c st s stop s2 es tail Hc Hp Hq Hh ltac:(lia)) as (times & Ht & ->).
  by exists times.
Qed.

(** C22. The popup never leaves an offer hanging.  When every write on the
    connection to the daemon succeeds, then whatever the user does and however the
    window is closed, a run that showed a window (exit status 0) has told the
    daemon a decision on that very offer: when it follows a download, a confirm
    whose path is the folder and the file name that the form showed in a frame in
    which the user pressed Download (a name without separators, a folder that is
    not empty), and otherwise a dismissal. *)
Theorem popup_decides env cfg offer_id dial backend frames fs status fs' st daemon :
  run_browser_popup env cfg offer_id dial backend frames fs = (status, fs', Some (st, daemon)) ->
  (forall c, dial = Some c -> healthy (c_wr c)) ->
  let id := o_offer_id (offer st) in
  status = 0 /\ id <> 0 /\
  (download_id st <> 0 -> told_confirm frames id daemon) /\
  (download_id st = 0 -> told_dismiss id daemon).
Proof.
  intros Hrun Hdial. unfold run_browser_popup in Hrun. destruct dial as [c|]; [|done].
  pose proof (talks_get_offer offer_id c) as Hlater.
  destruct (ipc_browser_get_offer offer_id c) as [[o|] c1] eqn:Eo; [|done]. cbn [snd] in Hlater.
  assert (o_offer_id o <> 0) as Hid.
  { revert Eo. unfold ipc_browser_get_offer, read_offer, wbind. destruct (offer_id =? 0); [done|].
    destruct (browser_write_request _ _ _) as [[?|] c2]; [|done]. destruct (ipc_read_exact _ c2) as [[bs|] c3]; [|done].
    cbv zeta. destruct (Z.eqb_spec (o_offer_id (decode_offer bs)) 0); [done|]. by intros [= <- <-]. }
  case_bool; [done|]. destruct (file_ensure_directory _ _ _) as [? fs1]. destruct backend; [|done]. cbn [negb] in Hrun.
  assert (window_ok frames (o_offer_id o) (popup_start o (g_default_dir cfg)) c1) as Hw.
  { split; cbn [popup_start offer download_id close]; try done. apply Hlater. by apply Hdial. }
  pose proof (popup_loop_ok _ _ frames _ _ (reflexivity _) Hw) as Hend.
  destruct (popup_loop frames _ c1) as [st1 c2]. injection Hrun as <- <- <- <-.
  destruct Hend as [H1 H2 H3 H4 H5]. cbv zeta. rewrite H1. split; [done|]. split; [done|].
  unfold popup_end. rewrite H1. destruct (Z.eqb_spec (download_id st1) 0) as [E|E]; cbn [andb].
  - split; [done|]. intros _. destruct (close st1); cbn [negb]; [by destruct H5|by apply dismiss_sends].
  - split; [auto|done].
Qed.

(** Two records of download 3, and the beginning of a third, in six pieces. *)
Definition record_at (n : Z) : IpcBrowserProgress :=
  mkProgress 3 n 1000 (ratio_bits n 1000) (str "ACTIVE") [] (str "/d/f (1).zip").

Definition two_records : bytes := browser_frame (record_at 250) ++ browser_frame (record_at 500).
Definition started_record : bytes := take 5 (browser_frame (record_at 750)).

Definition record_pieces : list read_event :=
  [RData (take 3 two_records); RData (take 1500 (drop 3 two_records));
   RData (drop 1503 two_records ++ take 2 started_record); RData (drop 2 started_record)].

Definition watching_popup (c : Conn) : PopupState :=
  set_download 3 (set_sock (Some c) [] (popup_start (set_offer_id 77 demo_offer) (str "/d"))).

Definition record_conn : Conn := mkConn (record_pieces ++ [RBlock; RData [1; 2]]) [9] [].

Lemma record_fits n : is_u64 n -> progress_fits (record_at n).
Proof. intros H. split; [split; [by split|split; [exact H|by split]]|]. repeat (split; [text_tac|]). text_tac. Qed.

Lemma popup_receives_witness :
  let st := poll_progress (fun n => 100 + 8 * Z.of_nat n) 90 None (watching_popup record_conn) in
  p_bytes_received (progress st) = 500 /\ filename st = str "f (1).zip" /\ progress_frame st = started_record /\
  progress_sock st = Some (mkConn [RData [1; 2]] [9] []).
Proof.
  assert (holds (progress_frame (watching_popup record_conn)) record_pieces [record_at 250; record_at 500] started_record) as Hh.
  { split.
    - vm_compute. reflexivity.
    - exists (record_at 750), (drop 5 (browser_frame (record_at 750))).
      split; [by apply record_fits|]. split; [apply take_drop|]. vm_compute. discriminate.
    - repeat constructor; by apply record_fits.
    - vm_compute. lia. }
  assert (data_pieces record_pieces) as Hp by (repeat constructor; vm_compute; eauto).
  destruct (popup_receives (fun n => 100 + 8 * Z.of_nat n) 90 None (watching_popup record_conn) record_conn record_pieces
    RBlock [RData [1; 2]] [record_at 250; record_at 500] started_record eq_refl eq_refl Hp (or_introl eq_refl) Hh
    ltac:(vm_compute; lia)) as (times & Ht & E).
  cbv zeta. rewrite E. destruct times as [|t1 [|t2 [|]]]; try discriminate Ht.
  split; [vm_compute; reflexivity|]. split; [vm_compute; reflexivity|]. split; reflexivity.
Defined.

(** A user who changes the name, mistypes it once, and then downloads. *)
Definition idle : ProgressInput := mkProgressInput false false false false (fun _ => true).
Definition typing (name : bytes) (download : bool) : FrameInput :=
  mkFrame (fun _ => 5) 5 None true (mkConfirmInput name (str "/d") None false download) idle.
Definition popup_user : list FrameInput := [typing (str "a/b") true; typing (str "g.zip") true].

Definition popup_daemon : Conn :=
  mkConn [RData (encode_offer (set_offer_id 77 demo_offer)); RBlock; RData [3; 0]; RData [0; 0]] [] [WSent 6; WEintr].

Definition popup_run : Z * filesystem * option (PopupState * Conn) :=
  run_browser_popup permissive backoff_demo 77 (Some popup_daemon) true popup_user ∅.

Lemma popup_decides_witness :
  exists st daemon, snd popup_run = Some (st, daemon) /\ download_id st = 3 /\ full_path st = str "/d/g.zip" /\
    told_confirm popup_user 77 daemon.
Proof.
  destruct popup_run as [[status fs] [[st daemon]|]] eqn:E; [|vm_compute in E; discriminate E].
  assert (download_id st = 3 /\ full_path st = str "/d/g.zip" /\ o_offer_id (offer st) = 77) as (Hd & Hf & Ho).
  { revert E. vm_compute. intros E. injection E as <- <- <- <-. repeat split. }
  exists st, daemon. split; [reflexivity|]. split; [exact Hd|]. split; [exact Hf|].
  assert (forall c, Some popup_daemon = Some c -> healthy (c_wr c)) as Hh
    by (intros c [= <-]; repeat constructor; discriminate).
  destruct (popup_decides permissive backoff_demo 77 (Some popup_daemon) true popup_user ∅ status fs st daemon E Hh)
    as (_ & _ & Hc & _).
  rewrite Ho in Hc. apply Hc. rewrite Hd. discriminate.
Defined.

(** ** What the code does not do *)

(** After 16 reads that returned data the popup falls through to the code for
    a lost connection, however healthy the connection is. *)
Example popup_drops_healthy :
  let c := mkConn (map (fun b => RData [b]) (take 17 two_records)) [] [] in
  let st := poll_progress (fun _ => 50) 60 None (watching_popup c) in
  progress_sock st = None /\ error st = retry_text /\ next_retry_tick st = 1060.
Proof. vm_compute. done. Qed.

(** One millisecond later everything is still shown as before; the retry comes
    when the clock has passed the mark, across its wrap-around. *)
Example retry_wraps :
  (0 <=? i32 (5 - u32 (4294967290 + 1000))) = false /\ (0 <=? i32 (994 - u32 (4294967290 + 1000))) = true.
Proof. vm_compute. done. Qed.
