(* ===== verification/Floats.v ===== *)
(** * Floating point and decimal texts

    The operations on [double] and [float] that the windows use, beside those of
    Wire.v, and what [printf] writes for a number: the exact decimal expansion of
    the double, rounded.  The lemmas bound the size and the error of the results of
    the standard library's [spec_float]: rounding ([round_aux_spec]), size of
    products, quotients and differences ([sized]), the relative error of a quotient
    ([div_accuracy]) and the printed quotient ([print_quotient]).  No real numbers
    are needed: a double is an integer in units of a power of two. *)

From Stdlib Require Import SpecFloat.
From S2P Require Import Prelude Path FileIo QueueManager Db Config Engine Scheduler Wire Commands Offers Ipc IpcClient OfferRpc Cli.

(** ** The operations of the code *)

Definition f64_mul (x y : spec_float) : spec_float := SFmul 53 1024 x y.
Definition f64_sub (x y : spec_float) : spec_float := SFsub 53 1024 x y.
Definition f32_mul (x y : spec_float) : spec_float := SFmul 24 128 x y.
Definition f32_of_Z (z : Z) : spec_float := binary_normalize 24 128 z 0 false.

Definition f64_of_f32 (x : spec_float) : spec_float :=
  match x with
  | S754_finite s m e => binary_normalize 53 1024 (cond_Zopp s (Zpos m)) e s
  | _ => x
  end.

(** The [float] with these 32 bits. *)
Definition f32_of_bits (bits : Z) : spec_float :=
  let s := 2 ^ 31 <=? bits in
  let e := bits / 2 ^ 23 mod 256 in
  let m := bits mod 2 ^ 23 in
  if e =? 0 then match m with Zpos p => S754_finite s p (-149) | _ => S754_zero s end
  else if e =? 255 then if m =? 0 then S754_infinity s else S754_nan
  else match m + 2 ^ 23 with Zpos p => S754_finite s p (e - 150) | _ => S754_nan end.

(** ** [printf ("%.<d>f")]

    The exact decimal expansion, rounded to nearest, ties to even; [nan] is what
    the library writes for a NaN (["nan"] or ["-nan"]). *)

Fixpoint frac_digits (d : nat) (n : Z) : bytes :=
  match d with
  | O => []
  | S d' => frac_digits d' (n / 10) ++ [48 + n mod 10]
  end.

Definition fixed (d : nat) (n : Z) : bytes :=
  decimal (n / 10 ^ Z.of_nat d) ++ (if (d =? 0)%nat then [] else 46 :: frac_digits d n).

Definition round_half_even (num den : Z) : Z :=
  let q := num / den in
  match (2 * (num mod den) ?= den) with
  | Lt => q
  | Gt => q + 1
  | Eq => if Z.even q then q else q + 1
  end.

Definition scaled (d : nat) (m : positive) (e : Z) : Z :=
  if 0 <=? e then Zpos m * 2 ^ e * 10 ^ Z.of_nat d else round_half_even (Zpos m * 10 ^ Z.of_nat d) (2 ^ (- e)).

Definition minus (s : bool) : bytes := if s then [45] else [].

Definition print_fixed (nan : bytes) (d : nat) (x : spec_float) : bytes :=
  match x with
  | S754_zero s => minus s ++ fixed d 0
  | S754_infinity s => minus s ++ str "inf"
  | S754_nan => nan
  | S754_finite s m e => minus s ++ fixed d (scaled d m e)
  end.

(** ** Lemmas: digits and rounding *)

Lemma digits2_pos_spec p : 2 ^ (Zpos (digits2_pos p) - 1) <= Zpos p < 2 ^ Zpos (digits2_pos p).
Proof.
  induction p as [p IH|p IH|]; cbn [digits2_pos]; [| |now split].
  - rewrite Pos2Z.inj_succ, (Pos2Z.inj_xI p). replace (Z.succ (Z.pos (digits2_pos p)) - 1) with (Z.succ (Z.pos (digits2_pos p) - 1)) by lia.
    rewrite !Z.pow_succ_r by lia. lia.
  - rewrite Pos2Z.inj_succ, (Pos2Z.inj_xO p). replace (Z.succ (Z.pos (digits2_pos p)) - 1) with (Z.succ (Z.pos (digits2_pos p) - 1)) by lia.
    rewrite !Z.pow_succ_r by lia. lia.
Qed.

Lemma Zdigits2_lt m : 0 <= m -> m < 2 ^ Zdigits2 m.
Proof. intros Hm. destruct m as [|p|p]; [easy| |now destruct Hm]. apply digits2_pos_spec. Qed.

Lemma Zdigits2_ge m : 0 <= m -> 1 <= Zdigits2 m -> 2 ^ (Zdigits2 m - 1) <= m.
Proof. intros H1 H2. destruct m as [|p|p]; [easy| |easy]. apply digits2_pos_spec. Qed.

Lemma Zdigits2_nonneg m : 0 <= Zdigits2 m.
Proof. destruct m; cbn; lia. Qed.

Lemma Zdigits2_le m d : 0 <= m -> 0 <= d -> m < 2 ^ d -> Zdigits2 m <= d.
Proof.
  intros Hm Hd H. destruct m as [|p|p]; [easy| |now destruct Hm]. cbn [Zdigits2]. pose proof (digits2_pos_spec p) as [H1 _].
  destruct (Z.le_gt_cases (Zpos (digits2_pos p)) d); [easy|].
  assert (2 ^ d <= 2 ^ (Z.pos (digits2_pos p) - 1)) by (apply Z.pow_le_mono_r; lia). lia.
Qed.

Lemma shr_1_m mrs : 0 <= shr_m mrs -> shr_m (shr_1 mrs) = shr_m mrs / 2.
Proof. destruct mrs as [m r s]. cbn [shr_m]. intros H. rewrite <- Z.div2_div. destruct m as [|[p|p|]|p]; try easy; lia. Qed.

Lemma iter_shr p mrs : 0 <= shr_m mrs -> shr_m (SpecFloat.iter_pos shr_1 p mrs) = shr_m mrs / 2 ^ Zpos p.
Proof.
  assert (forall a n, 0 <= a -> 0 <= a / 2 ^ Zpos n) as Hd.
  { intros a n Ha. apply Z.div_pos; [easy|]. now apply Z.pow_pos_nonneg. }
  revert mrs. induction p as [p IH|p IH|]; intros mrs H; cbn [SpecFloat.iter_pos]; [| |now apply shr_1_m].
  - assert (0 <= shr_m (shr_1 mrs)) as H1 by (rewrite shr_1_m by easy; apply (Hd _ 1%positive H)).
    rewrite IH by (rewrite IH by easy; now apply Hd). rewrite IH, shr_1_m by easy.
    rewrite !Z.div_div by lia. f_equal. rewrite (Pos2Z.inj_xI p).
    replace (2 * Z.pos p + 1) with (Z.succ (Z.pos p + Z.pos p)) by lia. rewrite Z.pow_succ_r, Z.pow_add_r by lia. lia.
  - rewrite IH by (rewrite IH by easy; now apply Hd). rewrite IH by easy.
    rewrite Z.div_div by lia. f_equal. rewrite (Pos2Z.inj_xO p), <- Z.pow_add_r by lia. f_equal. lia.
Qed.

Section Round.
Context (prec emax : Z) (Hprec : 1 <= prec).
Abbreviation fexp := (fexp prec emax).
Abbreviation emin := (emin prec emax).

Lemma shr_fexp_spec m e l mrs e' :
  0 <= m -> shr_fexp prec emax m e l = (mrs, e') ->
  let n := Z.max 0 (fexp (Zdigits2 m + e) - e) in shr_m mrs = m / 2 ^ n /\ e' = e + n.
Proof.
  intros Hm H. unfold shr_fexp in H.
  assert (shr_m (shr_record_of_loc m l) = m) as Hl by (destruct l as [|[| |]]; reflexivity).
  unfold shr in H. destruct (fexp (Zdigits2 m + e) - e) as [|p|p] eqn:E; cbn zeta; injection H as <- <-.
  - rewrite Hl, Z.div_1_r. split; lia.
  - rewrite iter_shr, Hl by (rewrite Hl; lia). split; [f_equal; f_equal|]; lia.
  - rewrite Hl. replace (Z.max 0 (Z.neg p)) with 0 by lia. rewrite Z.div_1_r. split; lia.
Qed.

(** What rounding does to a mantissa: it drops [n] bits, may add one to what is
    left, and then, when that is a power of two too large, drops one more. *)
Lemma round_aux_spec sx mx ex lx :
  0 <= mx ->
  let n := Z.max 0 (fexp (Zdigits2 mx + ex) - ex) in
  exists m k, (m = mx / 2 ^ n \/ m = mx / 2 ^ n + 1) /\ (n = 0 -> lx = loc_Exact -> m = mx) /\
    (k = 0 \/ (k = 1 /\ m = 2 ^ prec)) /\
    binary_round_aux prec emax sx mx ex lx =
      match m / 2 ^ k with
      | Z0 => S754_zero sx
      | Zpos p => if ex + n + k <=? emax - prec then S754_finite sx p (ex + n + k) else S754_infinity sx
      | Zneg _ => S754_nan
      end.
Proof.
  intros Hmx. cbn zeta. set (n := Z.max 0 _). unfold binary_round_aux.
  destruct (shr_fexp prec emax mx ex lx) as [mrs' e'] eqn:E1.
  destruct (shr_fexp_spec _ _ _ _ _ Hmx E1) as [Hm1 He1]. cbn zeta in Hm1, He1. fold n in Hm1, He1.
  assert (0 <= shr_m mrs') as Hp1 by (rewrite Hm1; apply Z.div_pos; [|apply Z.pow_pos_nonneg]; lia).
  set (m2 := round_nearest_even _ _).
  assert (m2 = shr_m mrs' \/ m2 = shr_m mrs' + 1) as Hm2.
  { subst m2. unfold round_nearest_even. destruct (loc_of_shr_record mrs') as [|[| |]]; [now left| |now left|now right].
    destruct (Z.even _); auto. }
  assert (n = 0 -> lx = loc_Exact -> m2 = mx) as Hexact.
  { intros Hn ->. unfold shr_fexp, shr in E1. fold (fexp (Zdigits2 mx + ex)) in E1. subst m2.
    destruct (fexp (Zdigits2 mx + ex) - ex) as [|p|p] eqn:E; [|exfalso; lia|]; injection E1 as <- <-; reflexivity. }
  destruct (shr_fexp prec emax m2 e' loc_Exact) as [mrs'' e''] eqn:E2.
  assert (0 <= m2) as Hp2 by lia.
  destruct (shr_fexp_spec _ _ _ _ _ Hp2 E2) as [Hm3 He3]. cbn zeta in Hm3, He3. set (n2 := Z.max 0 _) in Hm3, He3.
  exists m2, n2. split; [now rewrite <- Hm1|]. split; [easy|]. split; [|now rewrite <- Hm3, <- He1, <- He3].
  subst n2. rewrite He1. rewrite Hm1 in Hm2. clear -Hprec Hm2 Hp2 Hmx.
  pose proof (Zdigits2_lt mx Hmx) as HD. pose proof (Zdigits2_nonneg mx).
  assert (Zdigits2 mx <= n + prec /\ emin <= ex + n) as [Hn1 Hn2] by (subst n; unfold SpecFloat.fexp; lia).
  assert (mx / 2 ^ n < 2 ^ prec) as Hlt.
  { apply Z.div_lt_upper_bound; [apply Z.pow_pos_nonneg; lia|]. rewrite <- Z.pow_add_r by lia.
    eapply Z.lt_le_trans; [exact HD|]. apply Z.pow_le_mono_r; lia. }
  unfold SpecFloat.fexp. destruct (Z.lt_ge_cases m2 (2 ^ prec)) as [Hs|Hb].
  - pose proof (Zdigits2_le m2 prec Hp2 ltac:(lia) Hs). left. lia.
  - assert (m2 = 2 ^ prec) as Em by lia.
    assert (Zdigits2 m2 <= prec + 1) by (apply Zdigits2_le; [lia|lia|rewrite Em; apply Z.pow_lt_mono_r; lia]).
    destruct (Z.eq_dec (Z.max 0 (Z.max (Zdigits2 m2 + (ex + n) - prec) emin - (ex + n))) 0); [now left|].
    right. split; [lia|easy].
Qed.

(** [x] is zero or not finite, or its size is between [2^(lo-1)] and [2^hi]. *)
Definition sized (lo hi : Z) (x : spec_float) : Prop :=
  match x with S754_finite _ m e => lo <= Zpos (digits2_pos m) + e <= hi | _ => True end.

Lemma sized_round lo hi sx mx ex lx :
  0 <= mx -> lo <= Zdigits2 mx + ex <= hi -> emin <= hi -> sized lo (hi + 1) (binary_round_aux prec emax sx mx ex lx).
Proof.
  intros Hmx Hhi He. destruct (round_aux_spec sx mx ex lx Hmx) as (m & k & Hm & _ & Hk & ->). cbn zeta in *.
  set (n := Z.max 0 _) in *. pose proof (Zdigits2_nonneg mx). pose proof (Zdigits2_lt mx Hmx) as HD.
  destruct (m / 2 ^ k) as [|p|p] eqn:E; [easy| |easy]. destruct (_ <=? _); [|easy]. cbn [sized].
  set (w := Z.max 0 (Zdigits2 mx - n)).
  assert (0 <= mx / 2 ^ n < 2 ^ w) as Hup.
  { split; [apply Z.div_pos; [|apply Z.pow_pos_nonneg]; lia|].
    apply Z.div_lt_upper_bound; [apply Z.pow_pos_nonneg; lia|]. rewrite <- Z.pow_add_r by lia.
    eapply Z.lt_le_trans; [exact HD|]. apply Z.pow_le_mono_r; lia. }
  assert (0 <= m <= 2 ^ w) as Hm0 by lia. split.
  - enough (Zdigits2 mx - n <= Zpos (digits2_pos p) + k) by lia.
    destruct (Z.le_gt_cases (Zdigits2 mx - n) 0) as [|Hpos]; [lia|].
    assert (2 ^ (Zdigits2 mx - n - 1) <= m) as Hlow.
    { apply Z.le_trans with (mx / 2 ^ n); [|lia]. apply Z.div_le_lower_bound; [apply Z.pow_pos_nonneg; lia|].
      rewrite <- Z.pow_add_r by lia. replace (n + _) with (Zdigits2 mx - 1) by lia. apply Zdigits2_ge; lia. }
    assert (m < 2 ^ (Zpos (digits2_pos p) + k)) as Hmp.
    { rewrite Z.add_comm, Z.pow_add_r by lia. pose proof (digits2_pos_spec p) as [_ Hp].
      pose proof (Z_div_mod_eq_full m (2 ^ k)) as Hdm. rewrite E in Hdm.
      assert (0 < 2 ^ k) as Hk2 by (apply Z.pow_pos_nonneg; lia). pose proof (Z.mod_pos_bound m (2 ^ k) Hk2).
      assert (2 ^ k * (Zpos p + 1) <= 2 ^ k * 2 ^ Zpos (digits2_pos p)) by (apply Z.mul_le_mono_nonneg_l; lia). lia. }
    apply Z.lt_succ_r. destruct (Z.lt_ge_cases (Zdigits2 mx - n) (Z.succ (Zpos (digits2_pos p) + k))) as [|Hge]; [easy|].
    assert (2 ^ (Zpos (digits2_pos p) + k) <= 2 ^ (Zdigits2 mx - n - 1)) by (apply Z.pow_le_mono_r; lia). lia.
  - assert (Zdigits2 (m / 2 ^ k) <= w + 1 - k) as Hd.
    { apply Zdigits2_le; [apply Z.div_pos; [lia|apply Z.pow_pos_nonneg; lia]|lia|].
      apply Z.div_lt_upper_bound; [apply Z.pow_pos_nonneg; lia|]. rewrite <- Z.pow_add_r by lia.
      eapply Z.le_lt_trans; [apply Hm0|]. apply Z.pow_lt_mono_r; lia. }
    rewrite E in Hd. cbn [Zdigits2] in Hd. unfold SpecFloat.fexp in n. lia.
Qed.

Lemma sized_mul l1 h1 l2 h2 x y :
  sized l1 h1 x -> sized l2 h2 y -> emin <= h1 + h2 -> sized (l1 + l2 - 1) (h1 + h2 + 1) (SFmul prec emax x y).
Proof.
  destruct x as [| | |s1 m1 e1], y as [| | |s2 m2 e2]; cbn [sized SFmul]; try easy. intros H1 H2 He.
  apply sized_round; [easy| |easy].
  pose proof (digits2_pos_spec m1) as [A1 A2]. pose proof (digits2_pos_spec m2) as [B1 B2].
  assert (Zdigits2 (Zpos (m1 * m2)) <= Zpos (digits2_pos m1) + Zpos (digits2_pos m2)) as Hup.
  { apply Zdigits2_le; [easy|easy|]. rewrite Pos2Z.inj_mul, Z.pow_add_r by easy. apply Z.mul_lt_mono_nonneg; easy. }
  cut (Zpos (digits2_pos m1) + Zpos (digits2_pos m2) - 1 <= Zdigits2 (Zpos (m1 * m2))); [lia|].
  pose proof (Zdigits2_lt (Zpos (m1 * m2)) ltac:(easy)) as Hlt. apply Z.lt_succ_r.
  destruct (Z.lt_ge_cases (Zpos (digits2_pos m1) + Zpos (digits2_pos m2) - 1) (Z.succ (Zdigits2 (Zpos (m1 * m2))))) as [|Hge]; [easy|].
  assert (2 ^ Zdigits2 (Zpos (m1 * m2)) <= 2 ^ (Zpos (digits2_pos m1) - 1) * 2 ^ (Zpos (digits2_pos m2) - 1)) as Hle
    by (rewrite <- Z.pow_add_r by lia; apply Z.pow_le_mono_r; lia).
  rewrite Pos2Z.inj_mul in Hlt at 1.
  assert (2 ^ (Zpos (digits2_pos m1) - 1) * 2 ^ (Zpos (digits2_pos m2) - 1) <= Zpos m1 * Zpos m2)
    by (apply Z.mul_le_mono_nonneg; try easy; apply Z.pow_nonneg; lia). lia.
Qed.

Lemma div_core_spec m1 e1 m2 e2 :
  let e0 := Z.min (fexp (Zpos (digits2_pos m1) + e1 - (Zpos (digits2_pos m2) + e2))) (e1 - e2) in
  exists l, SFdiv_core_binary prec emax (Zpos m1) e1 (Zpos m2) e2 = (Zpos m1 * 2 ^ (e1 - e2 - e0) / Zpos m2, e0, l).
Proof.
  cbn zeta. unfold SFdiv_core_binary. cbn [Zdigits2]. set (e0 := Z.min _ _). set (m' := match e1 - e2 - e0 with Z0 => _ | _ => _ end).
  assert (m' = Zpos m1 * 2 ^ (e1 - e2 - e0)) as <-.
  { subst m'. assert (0 <= e1 - e2 - e0) as Hs by lia. destruct (e1 - e2 - e0) as [|s|s] eqn:Es; [lia| |lia].
    now rewrite Z.shiftl_mul_pow2. }
  unfold Z.div. destruct (Z.div_eucl m' (Zpos m2)) as [q r]. now eexists.
Qed.

Lemma quotient_digits m1 m2 s (d1 := Zpos (digits2_pos m1)) (d2 := Zpos (digits2_pos m2)) :
  0 <= s -> let q := Zpos m1 * 2 ^ s / Zpos m2 in
  0 <= q /\ Zdigits2 q <= Z.max 0 (d1 + s - d2 + 1) /\ (1 <= d1 + s - d2 -> d1 + s - d2 <= Zdigits2 q).
Proof.
  intros Hs q. pose proof (digits2_pos_spec m1) as [Ha1 Ha2]. pose proof (digits2_pos_spec m2) as [Hb1 Hb2].
  fold d1 in Ha1, Ha2. fold d2 in Hb1, Hb2. assert (1 <= d1 /\ 1 <= d2) by lia.
  assert (0 < 2 ^ s) as Hp by (apply Z.pow_pos_nonneg; lia).
  pose proof (Z_div_mod_eq_full (Zpos m1 * 2 ^ s) (Zpos m2)) as Hq.
  pose proof (Z.mod_pos_bound (Zpos m1 * 2 ^ s) (Zpos m2) ltac:(lia)) as Hr. fold q in Hq.
  assert (0 <= q) as Hq0 by (apply Z.div_pos; lia). split; [easy|]. split.
  - apply Zdigits2_le; [easy|lia|]. apply Z.mul_lt_mono_pos_r with (2 ^ (d2 - 1)); [apply Z.pow_pos_nonneg; lia|].
    rewrite <- Z.pow_add_r by lia. apply Z.lt_le_trans with (2 ^ (d1 + s)); [|apply Z.pow_le_mono_r; lia].
    rewrite Z.pow_add_r by lia. nia.
  - intros Hd. assert (2 ^ (d1 + s - d2 - 1) <= q) as Hle.
    { apply Z.div_le_lower_bound; [lia|]. apply Z.le_trans with (2 ^ d2 * 2 ^ (d1 + s - d2 - 1)).
      - apply Z.mul_le_mono_nonneg_r; [apply Z.pow_nonneg|]; lia.
      - rewrite <- Z.pow_add_r by lia. replace (d2 + (d1 + s - d2 - 1)) with (d1 - 1 + s) by lia.
        rewrite Z.pow_add_r by lia. apply Z.mul_le_mono_nonneg_r; lia. }
    pose proof (Zdigits2_lt q Hq0) as Hlt. apply Z.lt_succ_r.
    destruct (Z.lt_ge_cases (d1 + s - d2 - 1) (Zdigits2 q)) as [|Hge]; [lia|].
    assert (2 ^ Zdigits2 q <= 2 ^ (d1 + s - d2 - 1)) by (apply Z.pow_le_mono_r; lia). lia.
Qed.

Lemma sized_div l1 h1 l2 h2 x y :
  sized l1 h1 x -> sized l2 h2 y -> emin <= h1 - l2 -> sized (l1 - h2) (h1 - l2 + 2) (SFdiv prec emax x y).
Proof.
  destruct x as [| | |s1 m1 e1], y as [| | |s2 m2 e2]; cbn [sized SFdiv]; try easy. intros H1 H2 He.
  destruct (div_core_spec m1 e1 m2 e2) as [l ->]. set (e0 := Z.min _ _).
  destruct (quotient_digits m1 m2 (e1 - e2 - e0) ltac:(lia)) as (Hq & Hd & Hd2). cbn zeta in *.
  pose proof (Zdigits2_nonneg (Zpos m1 * 2 ^ (e1 - e2 - e0) / Zpos m2)).
  replace (h1 - l2 + 2) with (h1 - l2 + 1 + 1) by lia.
  apply sized_round; [easy|unfold SpecFloat.fexp in e0; lia|lia].
Qed.

(** A quotient that neither overflows nor loses bits below [emin] has a relative
    error of at most [2^(1-prec)]; everything in units of [2^e0]. *)
Lemma div_accuracy m1 e1 m2 e2 :
  let E := Zpos (digits2_pos m1) + e1 - (Zpos (digits2_pos m2) + e2) in
  emin <= E - prec -> emin <= e1 - e2 -> E + 2 <= emax ->
  exists m e e0, SFdiv prec emax (S754_finite false m1 e1) (S754_finite false m2 e2) = S754_finite false m e /\
    e0 <= e /\ e0 <= e1 - e2 /\ e0 <= E - prec /\
    Z.abs (Zpos m * 2 ^ (e - e0) * Zpos m2 - Zpos m1 * 2 ^ (e1 - e2 - e0)) * 2 ^ (prec - 1)
    <= Zpos m1 * 2 ^ (e1 - e2 - e0).
Proof.
  intros E Hlo Hmin Hhi. cbn [SFdiv xorb]. destruct (div_core_spec m1 e1 m2 e2) as [l ->].
  assert (fexp (Zpos (digits2_pos m1) + e1 - (Zpos (digits2_pos m2) + e2))
          = Zpos (digits2_pos m1) + e1 - (Zpos (digits2_pos m2) + e2) - prec) as -> by (unfold SpecFloat.fexp; lia).
  set (e0 := Z.min _ _). set (s := e1 - e2 - e0).
  destruct (quotient_digits m1 m2 s ltac:(lia)) as (Hq & Hd1 & Hd2). cbn zeta in *.
  set (d1 := Zpos (digits2_pos m1)) in *. set (d2 := Zpos (digits2_pos m2)) in *. set (A := Zpos m1 * 2 ^ s) in *.
  assert (fexp (Zdigits2 (A / Zpos m2) + e0) - e0 = Zdigits2 (A / Zpos m2) - prec) as Hf.
  { assert (E - e0 <= Zdigits2 (A / Zpos m2)) by lia. unfold SpecFloat.fexp. lia. }
  destruct (round_aux_spec false (A / Zpos m2) e0 l Hq) as (m & k & Hm & _ & Hk & ->). cbn zeta in *. rewrite Hf in *. clear Hf.
  rewrite Z.max_r in * by lia. set (q := A / Zpos m2) in *. set (n := Zdigits2 q - prec) in *.
  assert (2 ^ (n + (prec - 1)) <= q) as Hbig.
  { replace (n + (prec - 1)) with (Zdigits2 q - 1) by lia. apply Zdigits2_ge; lia. }
  assert (0 <= n) by lia. rewrite Z.pow_add_r in Hbig by lia.
  assert (0 < 2 ^ n) as Hn by (apply Z.pow_pos_nonneg; lia).
  assert (0 < 2 ^ (prec - 1)) as Hpp by (apply Z.pow_pos_nonneg; lia).
  pose proof (Z_div_mod_eq_full q (2 ^ n)) as Hqn. pose proof (Z.mod_pos_bound q (2 ^ n) Hn) as Hqr.
  pose proof (Z_div_mod_eq_full A (Zpos m2)) as HA. pose proof (Z.mod_pos_bound A (Zpos m2) ltac:(lia)) as HAr.
  fold q in HA. set (f := q / 2 ^ n) in *.
  assert (2 ^ (prec - 1) <= f) as Hf by (apply Z.div_le_lower_bound; lia).
  assert (0 < m / 2 ^ k /\ m / 2 ^ k * 2 ^ k = m) as [Hpos Hk'].
  { destruct Hk as [->|[-> ->]]; [rewrite Z.div_1_r; lia|]. replace prec with (Z.succ (prec - 1)) by lia.
    rewrite Z.pow_succ_r, Z.mul_comm, Z.pow_1_r, Z.div_mul by lia. lia. }
  destruct (m / 2 ^ k) as [|p|p] eqn:Ep; [easy| |easy].
  assert (k = 0 \/ k = 1) by lia. rewrite (proj2 (Z.leb_le _ _)) by lia.
  exists p, (e0 + n + k), e0. split; [easy|]. do 3 (split; [lia|]). fold s. fold A.
  replace (e0 + n + k - e0) with (k + n) by lia. rewrite Z.pow_add_r, Z.mul_assoc, Hk' by lia.
  assert (Zpos m2 * (2 ^ n * f) <= A /\ A < Zpos m2 * (2 ^ n * (f + 1))) as [Hlow Hup].
  { split; [apply Z.le_trans with (Zpos m2 * q)|apply Z.lt_le_trans with (Zpos m2 * (q + 1))];
      try (apply Z.mul_le_mono_nonneg_l); lia. }
  apply Z.le_trans with (Zpos m2 * (2 ^ n * 2 ^ (prec - 1))).
  - rewrite (Z.mul_assoc (Zpos m2)). apply Z.mul_le_mono_nonneg_r; [lia|]. destruct Hm as [->| ->]; lia.
  - eapply Z.le_trans; [|exact Hlow]. apply Z.mul_le_mono_nonneg_l; [lia|]. apply Z.mul_le_mono_nonneg_l; lia.
Qed.
End Round.

(** ** Lemmas: the texts *)

Lemma length_frac_digits d n : length (frac_digits d n) = d.
Proof. revert n. induction d as [|d IH]; intros n; [done|]. cbn [frac_digits]. rewrite length_app, IH. simpl. lia. Qed.

(** The digits are those of the number. *)
Lemma frac_digits_value d n :
  0 <= n -> Forall (fun c => is_digit c = true) (frac_digits d n) /\ digits_value (frac_digits d n) = n mod 10 ^ Z.of_nat d.
Proof.
  revert n. induction d as [|d IH]; intros n Hn; [by rewrite Z.mod_1_r|]. cbn [frac_digits].
  destruct (IH (n / 10) ltac:(apply Z.div_pos; lia)) as [H1 H2]. pose proof (Z.mod_pos_bound n 10 ltac:(lia)) as Hm.
  split; [apply Forall_app; split; [done|]; constructor; [unfold is_digit; apply andb_true_iff; split; apply Z.leb_le; lia|done]|].
  rewrite digits_value_app, H2. rewrite Nat2Z.inj_succ, Z.pow_succ_r by lia.
  rewrite Z.rem_mul_r by lia. lia.
Qed.

Lemma round_half_even_spec num den : 0 < den -> Z.abs (2 * (round_half_even num den * den - num)) <= den.
Proof.
  intros Hd. unfold round_half_even. pose proof (Z_div_mod_eq_full num den) as H1. pose proof (Z.mod_pos_bound num den Hd) as H2.
  destruct (Z.compare_spec (2 * (num mod den)) den); [destruct (Z.even _)| |]; nia.
Qed.

Lemma round_half_even_le num den b : 0 < den -> 0 <= num <= b * den -> 0 <= round_half_even num den <= b.
Proof.
  intros Hd Hn. pose proof (round_half_even_spec num den Hd) as H. set (r := round_half_even num den) in *. split; [nia|].
  destruct (Z.le_gt_cases r b) as [|Hgt]; [done|]. exfalso. assert ((b + 1) * den <= r * den) by (apply Z.mul_le_mono_nonneg_r; lia). lia.
Qed.

Lemma scaled_le d m e hi : 0 <= hi -> Zpos (digits2_pos m) + e <= hi -> 0 <= scaled d m e <= 2 ^ hi * 10 ^ Z.of_nat d.
Proof.
  intros H0 H. pose proof (digits2_pos_spec m) as [_ Hm]. assert (0 < 10 ^ Z.of_nat d) as Ht by (apply Z.pow_pos_nonneg; lia).
  unfold scaled. destruct (Z.leb_spec 0 e) as [He|He].
  - assert (0 < 2 ^ e) by (apply Z.pow_pos_nonneg; lia).
    assert (Zpos m * 2 ^ e <= 2 ^ hi) as Hle.
    { apply Z.le_trans with (2 ^ Zpos (digits2_pos m) * 2 ^ e); [apply Z.mul_le_mono_nonneg_r; lia|].
      rewrite <- Z.pow_add_r by lia. apply Z.pow_le_mono_r; lia. }
    split; [|apply Z.mul_le_mono_nonneg_r; lia]. apply Z.mul_nonneg_nonneg; [apply Z.mul_nonneg_nonneg|]; lia.
  - apply round_half_even_le; [apply Z.pow_pos_nonneg; lia|]. split; [apply Z.mul_nonneg_nonneg; lia|].
    rewrite <- Z.mul_assoc, (Z.mul_comm _ (2 ^ (- e))), Z.mul_assoc. apply Z.mul_le_mono_nonneg_r; [lia|].
    rewrite <- Z.pow_add_r by lia. apply Z.le_trans with (2 ^ Zpos (digits2_pos m)); [lia|]. apply Z.pow_le_mono_r; lia.
Qed.

(** The length of a number below a power of two. *)
Lemma print_fixed_length nan d lo hi k x :
  0 <= hi -> sized lo hi x -> 2 ^ hi < 10 ^ Z.of_nat k -> (3 <= k)%nat -> strlen nan <= 4 ->
  strlen (print_fixed nan d x) <= 2 + Z.of_nat k + Z.of_nat d.
Proof.
  intros Hhi Hb Hk Hk3 Hn. unfold strlen in *.
  assert (forall n, 0 <= n <= 2 ^ hi * 10 ^ Z.of_nat d -> Z.of_nat (length (fixed d n)) <= 1 + Z.of_nat k + Z.of_nat d) as Hf.
  { intros n H. unfold fixed. assert (0 < 10 ^ Z.of_nat d) by (apply Z.pow_pos_nonneg; lia).
    pose proof (decimal_length k (n / 10 ^ Z.of_nat d) ltac:(lia)) as Hd. unfold strlen in Hd. rewrite length_app.
    assert (0 <= n / 10 ^ Z.of_nat d <= 2 ^ hi).
    { split; [apply Z.div_pos; lia|]. apply Z.div_le_upper_bound; lia. }
    specialize (Hd ltac:(lia)). destruct (_ =? _)%nat; cbn [length]; rewrite ?length_frac_digits; lia. }
  assert (forall s, Z.of_nat (length (minus s)) <= 1) as Hs by (by intros []).
  destruct x as [s|s| |s m e]; cbn [print_fixed]; rewrite ?length_app.
  - pose proof (Hf 0 ltac:(split; [lia|apply Z.mul_nonneg_nonneg; apply Z.pow_nonneg; lia])). specialize (Hs s). lia.
  - specialize (Hs s). cbn [length str]. change (length (str "inf")) with 3%nat. lia.
  - lia.
  - cbn [sized] in Hb. pose proof (Hf _ (scaled_le d m e hi Hhi (proj2 Hb))). specialize (Hs s). lia.
Qed.

(** ** Lemmas: magnitudes of doubles *)

Lemma shl_align_spec m e e' :
  let '(m', e1) := shl_align m e e' in
  e1 = Z.min e e' /\ Zpos m' = Zpos m * 2 ^ (e - e1) /\ Zpos (digits2_pos m') + e1 = Zpos (digits2_pos m) + e.
Proof.
  unfold shl_align. assert (forall d, Zpos (Pos.iter xO m d) = Zpos m * 2 ^ Zpos d /\
    Zpos (digits2_pos (Pos.iter xO m d)) = Zpos (digits2_pos m) + Zpos d) as Hi.
  { intros d. induction d as [|d [IH1 IH2]] using Pos.peano_ind; [cbn; lia|]. rewrite Pos.iter_succ. cbn [digits2_pos].
    rewrite !Pos2Z.inj_succ, IH2, (Pos2Z.inj_xO (Pos.iter _ _ _)), IH1, Z.pow_succ_r by lia. lia. }
  destruct (e' - e) as [|d|d] eqn:E; [|split; [lia|]..].
  - split; [lia|]. rewrite Z.sub_diag. lia.
  - rewrite Z.sub_diag. lia.
  - destruct (Hi d) as [-> ->]. replace (e - e') with (Zpos d) by lia. lia.
Qed.

Lemma sized_normalize hi z e s : Z.abs z < 2 ^ (hi - e) -> e <= hi -> -1074 <= hi -> sized (e + 1) (hi + 1) (binary_normalize 53 1024 z e s).
Proof.
  intros Hz He Hhi.
  assert (forall p b, Zpos p < 2 ^ (hi - e) -> sized (e + 1) (hi + 1) (binary_round 53 1024 b p e)) as Hp.
  { intros p b Hp. unfold binary_round.
    pose proof (shl_align_spec p e (fexp 53 1024 (Zpos (digits2_pos p) + e))) as Ha. destruct (shl_align _ _ _) as [m' e1].
    destruct Ha as (-> & Hm & Hd).
    assert (Zpos (digits2_pos p) <= hi - e) by (apply (Zdigits2_le (Zpos p)); lia).
    apply sized_round; [lia|lia|cbn [Zdigits2]; lia|unfold emin; lia]. }
  destruct z as [|p|p]; cbn [binary_normalize]; [done| |]; apply Hp; lia.
Qed.

Lemma f64_of_Z_sized z k : 0 <= z < 2 ^ k -> 0 <= k -> sized 1 (k + 1) (f64_of_Z z).
Proof. intros H Hk. apply (sized_normalize k); rewrite ?Z.sub_0_r; lia. Qed.

(** The three fields of the bits. *)
Lemma f32_fields (s : bool) E M :
  0 <= E < 256 -> 0 <= M < 2 ^ 23 ->
  let bits := (if s then 2 ^ 31 else 0) + E * 2 ^ 23 + M in
  (2 ^ 31 <=? bits) = s /\ bits / 2 ^ 23 mod 256 = E /\ bits mod 2 ^ 23 = M.
Proof.
  intros HE HM bits. assert (bits = (E + (if s then 1 else 0) * 256) * 2 ^ 23 + M) as Hb by (subst bits; destruct s; lia).
  split; [subst bits; destruct s; lia|]. rewrite Hb. rewrite Z.div_add_l, (Z.div_small M), Z.add_0_r by lia.
  split; [by rewrite Z_mod_plus_full, Z.mod_small|]. rewrite Z.add_comm, Z_mod_plus_full. by apply Z.mod_small.
Qed.

(** The [float] that is sent is the one that is read. *)
Lemma f32_bits_roundtrip x : valid_binary 24 128 x = true -> x <> S754_nan -> f32_of_bits (f32_bits x) = x.
Proof.
  assert (forall (s : bool) E M, 0 <= E < 256 -> 0 <= M < 2 ^ 23 ->
    f32_of_bits ((if s then 2 ^ 31 else 0) + E * 2 ^ 23 + M) =
    if E =? 0 then match M with Zpos p => S754_finite s p (-149) | _ => S754_zero s end
    else if E =? 255 then if M =? 0 then S754_infinity s else S754_nan
    else match M + 2 ^ 23 with Zpos p => S754_finite s p (E - 150) | _ => S754_nan end) as Hf.
  { intros s E M HE HM. unfold f32_of_bits. by destruct (f32_fields s E M HE HM) as (-> & -> & ->). }
  destruct x as [s|s| |s m e]; intros Hv Hn; [|by rewrite <- (Z.add_0_r (f32_bits _)); apply (Hf s 255 0)|done|].
  { rewrite <- (Z.add_0_r (f32_bits _)). cbn [f32_bits]. rewrite <- (Z.add_0_r (if s then _ else _)). by apply (Hf s 0 0). }
  cbn [valid_binary] in Hv. apply andb_true_iff in Hv as [Hc%Z.eqb_eq He%Z.leb_le]. unfold fexp, emin in Hc.
  pose proof (digits2_pos_spec m) as [H1 H2]. set (d := Zpos (digits2_pos m)) in *. cbn [f32_bits].
  destruct (Z.ltb_spec (Zpos m) (2 ^ 23)) as [Hm|Hm].
  - assert (d <= 23) by (apply (Zdigits2_le (Zpos m)); lia). replace e with (-149) by lia.
    rewrite <- (Z.add_0_r (if s then _ else _)). by apply (Hf s 0 (Zpos m)).
  - assert (24 <= d) by (destruct (Z.le_gt_cases 24 d); [done|]; assert (2 ^ d <= 2 ^ 23) by (apply Z.pow_le_mono_r; lia); lia).
    assert (2 ^ d <= 2 ^ 24) by (apply Z.pow_le_mono_r; lia). rewrite Z.add_assoc, (Hf s (e + 150) (Zpos m - 2 ^ 23)) by lia.
    rewrite (proj2 (Z.eqb_neq _ 0)), (proj2 (Z.eqb_neq _ 255)) by lia.
    replace (Zpos m - 2 ^ 23 + 2 ^ 23) with (Zpos m) by lia. f_equal. lia.
Qed.

(** A [float] by its exponent field. *)
Lemma f32_of_bits_exponent bits E :
  0 <= bits -> 1 <= E -> bits / 2 ^ 23 mod 256 <= E \/ bits / 2 ^ 23 mod 256 = 255 -> sized (-148) (E - 126) (f32_of_bits bits).
Proof.
  intros H HE Hb. unfold f32_of_bits. pose proof (Z.mod_pos_bound bits (2 ^ 23) ltac:(lia)) as Hm.
  pose proof (Z.mod_pos_bound (bits / 2 ^ 23) 256 ltac:(lia)) as He.
  set (e := bits / 2 ^ 23 mod 256) in *. set (m := bits mod 2 ^ 23) in *.
  destruct (Z.eqb_spec e 0) as [E0|E0]; [|destruct (Z.eqb_spec e 255); [by destruct (m =? 0)|]].
  - destruct m as [|p|p] eqn:Ep; [done| |done]. cbn [sized].
    assert (Zpos (digits2_pos p) <= 23) by (apply (Zdigits2_le (Zpos p)); lia). lia.
  - destruct (m + 2 ^ 23) as [|p|p] eqn:Ep; [lia| |lia]. cbn [sized].
    assert (Zpos (digits2_pos p) <= 24) by (apply (Zdigits2_le (Zpos p)); lia). lia.
Qed.

Lemma f32_of_bits_sized bits : 0 <= bits -> sized (-148) 128 (f32_of_bits bits).
Proof.
  intros H. apply (f32_of_bits_exponent bits 254); [done|lia|].
  pose proof (Z.mod_pos_bound (bits / 2 ^ 23) 256 ltac:(lia)). lia.
Qed.

(** The bits up to those of 1.0 are the numbers from 0 to 1; the bound is 2. *)
Lemma f32_unit_sized bits : 0 <= bits <= 1065353216 -> sized (-148) 1 (f32_of_bits bits).
Proof.
  intros H. apply (f32_of_bits_exponent bits 127); [lia..|]. left.
  pose proof (Z.mod_le (bits / 2 ^ 23) 256 ltac:(apply Z.div_pos; lia) ltac:(lia)).
  assert (bits / 2 ^ 23 <= 127) by (apply Z.div_le_upper_bound; lia). lia.
Qed.

Lemma f64_of_f32_sized lo hi x : sized lo hi x -> -1074 <= hi -> exists l, sized l (hi + 1) (f64_of_f32 x).
Proof.
  destruct x as [s|s| |s m e]; try by exists 0. intros H Hhi. exists (e + 1). cbn [sized] in H. apply sized_normalize; [|lia|done].
  pose proof (digits2_pos_spec m) as [_ Hm].
  assert (2 ^ Zpos (digits2_pos m) <= 2 ^ (hi - e)) by (apply Z.pow_le_mono_r; lia). destruct s; cbn [cond_Zopp]; lia.
Qed.

Lemma sized_sub l1 l2 hi x y : sized l1 hi x -> sized l2 hi y -> -1074 <= hi -> exists l, sized l (hi + 2) (f64_sub x y).
Proof.
  assert (forall l s m e, sized l hi (S754_finite s m e) -> forall b, exists l', sized l' (hi + 2) (S754_finite b m e)) as Hw.
  { intros l s m e H b. exists l. cbn [sized] in *. lia. }
  destruct x as [sx|sx| |sx mx ex], y as [sy|sy| |sy my ey]; unfold f64_sub, SFsub;
    try (intros; solve [by exists 0|exists 0; by destruct sx, sy|eapply Hw; eassumption]).
  intros H1 H2 Hhi. cbn [sized] in H1, H2. exists (Z.min ex ey + 1).
  pose proof (shl_align_spec mx ex (Z.min ex ey)) as Ax. pose proof (shl_align_spec my ey (Z.min ex ey)) as Ay.
  destruct (shl_align mx ex _) as [m1 e1]. destruct (shl_align my ey _) as [m2 e2]. cbn [fst].
  destruct Ax as (E1 & _ & D1), Ay as (E2 & _ & D2).
  pose proof (digits2_pos_spec m1) as [_ B1]. pose proof (digits2_pos_spec m2) as [_ B2].
  assert (2 ^ Zpos (digits2_pos m1) <= 2 ^ (hi - Z.min ex ey)) by (apply Z.pow_le_mono_r; lia).
  assert (2 ^ Zpos (digits2_pos m2) <= 2 ^ (hi - Z.min ex ey)) by (apply Z.pow_le_mono_r; lia).
  replace (hi + 2) with (hi + 1 + 1) by lia. apply sized_normalize; [|lia..].
  replace (hi + 1 - Z.min ex ey) with (Z.succ (hi - Z.min ex ey)) by lia. rewrite Z.pow_succ_r by lia.
  destruct sx, sy; cbn [cond_Zopp]; lia.
Qed.

(** ** Lemmas: a quotient, as it is printed *)

Lemma f64_of_Z_exact z :
  0 < z < 2 ^ 53 ->
  exists m, f64_of_Z z = S754_finite false m (Zdigits2 z - 53) /\ Zpos m = z * 2 ^ (53 - Zdigits2 z) /\
    Zpos (digits2_pos m) = 53 /\ 1 <= Zdigits2 z <= 53.
Proof.
  intros Hz. destruct z as [|p|p]; [lia| |lia]. unfold f64_of_Z. cbn [binary_normalize Zdigits2].
  assert (Zpos (digits2_pos p) <= 53) as Hd by (apply (Zdigits2_le (Zpos p)); lia). unfold binary_round.
  pose proof (shl_align_spec p 0 (fexp 53 1024 (Zpos (digits2_pos p) + 0))) as Ha. destruct (shl_align _ _ _) as [m e].
  destruct Ha as (He & Hm & Hdm). assert (e = Zpos (digits2_pos p) - 53) as -> by (unfold fexp, emin in He; lia). clear He.
  replace (0 - (Zpos (digits2_pos p) - 53)) with (53 - Zpos (digits2_pos p)) in Hm by lia.
  exists m. split; [|split; [done|lia]].
  destruct (round_aux_spec 53 1024 ltac:(lia) false (Zpos m) (Zpos (digits2_pos p) - 53) loc_Exact) as (m2 & k & _ & Hx & Hk & ->); [lia|].
  cbn zeta in *. cbn [Zdigits2] in *.
  assert (Z.max 0 (fexp 53 1024 (Zpos (digits2_pos m) + (Zpos (digits2_pos p) - 53)) - (Zpos (digits2_pos p) - 53)) = 0) as E
    by (unfold fexp, emin; lia).
  rewrite E in *. rewrite (Hx eq_refl eq_refl) in *. clear Hx m2.
  pose proof (digits2_pos_spec m) as [_ Hm2]. replace (Zpos (digits2_pos m)) with 53 in Hm2 by lia.
  assert (k = 0) as -> by lia. rewrite Z.div_1_r, !Z.add_0_r. by rewrite (proj2 (Z.leb_le _ _)) by lia.
Qed.

Lemma f64_div_quotient b c :
  0 < b < 2 ^ 53 -> 0 < c < 2 ^ 53 ->
  exists m e e0, f64_div (f64_of_Z b) (f64_of_Z c) = S754_finite false m e /\ e0 <= e /\ e0 <= 0 /\
    Z.abs (Zpos m * 2 ^ (e - e0) * c - b * 2 ^ (- e0)) * 2 ^ 52 <= b * 2 ^ (- e0).
Proof.
  intros Hb Hc. destruct (f64_of_Z_exact b Hb) as (m1 & -> & Hm1 & Hd1 & Hr1).
  destruct (f64_of_Z_exact c Hc) as (m2 & -> & Hm2 & Hd2 & Hr2).
  destruct (div_accuracy 53 1024 ltac:(lia) m1 (Zdigits2 b - 53) m2 (Zdigits2 c - 53)) as (m & e & e0 & E & H1 & H2 & H3 & H4);
    [unfold emin; lia..|].
  exists m, e, e0. split; [exact E|]. split; [done|]. rewrite Hd1, Hd2 in H3. split; [lia|].
  replace (Zpos m1 * _) with (b * 2 ^ (- e0) * 2 ^ (53 - Zdigits2 c)) in H4.
  - rewrite Hm2 in H4. set (g := 2 ^ (53 - Zdigits2 c)) in *. assert (0 < g) as Hg by (apply Z.pow_pos_nonneg; lia).
    apply Z.mul_le_mono_pos_r with g; [done|]. eapply Z.le_trans; [|exact H4].
    rewrite <- Z.mul_assoc, (Z.mul_comm (2 ^ 52)), Z.mul_assoc. change (53 - 1) with 52. apply Z.mul_le_mono_nonneg_r; [lia|].
    rewrite <- (Z.abs_eq g) at 1 by lia. rewrite <- Z.abs_mul. apply Z.eq_le_incl. f_equal. ring.
  - rewrite Hm1, <- !Z.mul_assoc. f_equal. rewrite <- !Z.pow_add_r by lia. f_equal. lia.
Qed.

(** In units of [2^-1074], of which every double is a multiple. *)
Lemma print_quotient_pos b c d nan :
  0 < b < 2 ^ 53 -> 0 < c < 2 ^ 53 ->
  exists n, 0 <= n /\ print_fixed nan d (f64_div (f64_of_Z b) (f64_of_Z c)) = fixed d n /\
    Z.abs (n * c - b * 10 ^ Z.of_nat d) * 2 ^ 52 <= c * 2 ^ 51 + b * 10 ^ Z.of_nat d.
Proof.
  intros Hb Hc. destruct (f64_div_quotient b c Hb Hc) as (m & e & e0 & -> & He & He0 & H).
  set (T := 10 ^ Z.of_nat d). assert (0 < T) as HT by (apply Z.pow_pos_nonneg; lia).
  exists (scaled d m e). cbn [print_fixed minus app]. split; [|split; [done|]].
  { destruct (Z.le_gt_cases 0 (Zpos (digits2_pos m) + e)) as [Hp|Hp].
    - by apply (scaled_le d m e (Zpos (digits2_pos m) + e)).
    - by apply (scaled_le d m e 0); lia. }
  set (U := 2 ^ (- e0)) in *. assert (0 < U) as HU by (apply Z.pow_pos_nonneg; lia).
  (* the printed number is within half a unit of the double *)
  assert (2 * Z.abs (scaled d m e * U - Zpos m * 2 ^ (e - e0) * T) <= U) as Hr.
  { unfold scaled. fold T. destruct (Z.leb_spec 0 e) as [Hs|Hs].
    - replace (2 ^ (e - e0)) with (2 ^ e * U) by (subst U; rewrite <- Z.pow_add_r by lia; f_equal; lia).
      replace (_ - _) with 0 by ring. lia.
    - pose proof (round_half_even_spec (Zpos m * T) (2 ^ (- e)) ltac:(apply Z.pow_pos_nonneg; lia)) as Hh.
      set (r := round_half_even _ _) in *. set (v := 2 ^ (e - e0)). assert (0 < v) as Hv by (apply Z.pow_pos_nonneg; lia).
      replace U with (2 ^ (- e) * v) by (subst U v; rewrite <- Z.pow_add_r by lia; f_equal; lia).
      replace (_ - _) with ((r * 2 ^ (- e) - Zpos m * T) * v) by ring. rewrite Z.abs_mul, (Z.abs_eq v) by lia.
      rewrite Z.abs_mul, (Z.abs_eq 2) in Hh by lia. rewrite Z.mul_assoc. apply Z.mul_le_mono_nonneg_r; lia. }
  set (X := Zpos m * 2 ^ (e - e0)) in *. set (n := scaled d m e) in *.
  apply Z.mul_le_mono_pos_r with U; [done|].
  assert (Z.abs (n * c - b * T) * U <= c * Z.abs (n * U - X * T) + T * Z.abs (X * c - b * U)) as Htri.
  { rewrite <- (Z.abs_eq U) at 1 by lia. rewrite <- Z.abs_mul. rewrite <- (Z.abs_eq c) at 2 by lia. rewrite <- (Z.abs_eq T) at 3 by lia.
    rewrite <- !Z.abs_mul. replace ((n * c - b * T) * U) with (c * (n * U - X * T) + T * (X * c - b * U)) by ring. apply Z.abs_triangle. }
  set (A := Z.abs (n * U - X * T)) in *. set (B := Z.abs (X * c - b * U)) in *. set (D := Z.abs (n * c - b * T)) in *.
  assert (c * (2 * A) <= c * U) by (apply Z.mul_le_mono_nonneg_l; lia).
  assert (T * (B * 2 ^ 52) <= T * (b * U)) by (apply Z.mul_le_mono_nonneg_l; lia). lia.
Qed.

(** A quotient of whole numbers, printed with [d] decimals: no more than half a
    unit of the last one away, up to the precision of a double. *)
Lemma print_quotient b c d nan :
  0 <= b < 2 ^ 53 -> 0 < c < 2 ^ 53 ->
  exists n, 0 <= n /\ print_fixed nan d (f64_div (f64_of_Z b) (f64_of_Z c)) = fixed d n /\
    Z.abs (n * c - b * 10 ^ Z.of_nat d) * 2 ^ 52 <= c * 2 ^ 51 + b * 10 ^ Z.of_nat d.
Proof.
  intros Hb Hc. destruct (Z.eq_dec b 0) as [->|Hn]; [|by apply print_quotient_pos; [lia|]].
  destruct (f64_of_Z_exact c Hc) as (m2 & -> & _). exists 0. split; [done|]. split; [done|]. lia.
Qed.

(** Reading a printed number back. *)
Lemma fixed_reads d n :
  0 <= n -> exists whole frac, fixed d n = whole ++ (if (d =? 0)%nat then [] else 46 :: frac) /\
    whole <> [] /\ length frac = d /\ Forall (fun c => is_digit c = true) (whole ++ frac) /\
    digits_value whole * 10 ^ Z.of_nat d + digits_value frac = n.
Proof.
  intros Hn. assert (0 < 10 ^ Z.of_nat d) as HT by (apply Z.pow_pos_nonneg; lia).
  destruct (decimal_digits (n / 10 ^ Z.of_nat d) ltac:(apply Z.div_pos; lia)) as (H1 & H2 & H3).
  destruct (frac_digits_value d n Hn) as [H4 H5]. exists (decimal (n / 10 ^ Z.of_nat d)), (frac_digits d n).
  split; [done|]. split; [done|]. split; [apply length_frac_digits|]. split; [by apply Forall_app|].
  rewrite H2, H5. pose proof (Z_div_mod_eq_full n (10 ^ Z.of_nat d)). lia.
Qed.

Example prints : print_fixed [] 1 (f64_div (f64_of_Z 1250000) (f64_of_Z 1000000)) = str "1.2"
  /\ print_fixed [] 1 (f64_div (f64_of_Z 1350001) (f64_of_Z 1000000)) = str "1.4"
  /\ print_fixed [] 0 (f64_of_Z 12345678901234567890) = str "12345678901234567168".
Proof. vm_compute. done. Qed.
