(* ===== verification/Labels.v ===== *)
(** * What the windows say about a download ([src/gui/browser_popup.c], [src/gui/gui_nuklear.c])

    The numbers and texts the popup and the main window compute from the progress
    records: amounts, percentages, speed, time left, bars, the line under the name
    of a row, the storage line.  Floating point is that of Wire.v and Floats.v. *)

From Stdlib Require Import SpecFloat.
From S2P Require Import Prelude Path FileIo Finalize QueueManager Db Config Engine Scheduler Wire Commands Offers Ipc IpcClient OfferRpc Autostart Cli GuiClient GuiView GuiWindow Popup Floats.

(** ** Numbers *)

Definition f64_million : spec_float := f64_of_Z 1000000.
Definition f64_billion : spec_float := f64_of_Z 1000000000.

(** The conversion of a [float] to [nk_size] (64 bits): [None] where C leaves it
    undefined. *)
Definition to_size (x : spec_float) : option Z :=
  match x with
  | S754_zero _ => Some 0
  | S754_finite s m e =>
      let n := if 0 <=? e then Zpos m * 2 ^ e else Zpos m / 2 ^ (- e) in
      if (s && negb (n =? 0)) || (2 ^ 64 <=? n) then None else Some n
  | _ => None
  end.

Section Labels.

(** What [printf] writes for a NaN. *)
Context (nan : bytes).

(** ** The popup *)

Definition megabytes (n : Z) : bytes := print_fixed nan 1 (f64_div (f64_of_Z n) f64_million).

Definition percent (bits : Z) : bytes := print_fixed nan 0 (f64_mul (f64_of_f32 (f32_of_bits bits)) (f64_of_Z 100)).

Definition amount_text (p : IpcBrowserProgress) : bytes :=
  if p_total_bytes p =? 0 then megabytes (p_bytes_received p) ++ str " MB downloaded"
  else megabytes (p_bytes_received p) ++ str " MB of " ++ megabytes (p_total_bytes p) ++ str " MB ("
       ++ percent (p_progress p) ++ str "%)".

Definition speed_text (speed : spec_float) : bytes :=
  str "Speed: " ++ print_fixed nan 1 (f64_div speed f64_million) ++ str " MB/s".

Definition eta_text (done : bool) (speed : spec_float) (p : IpcBrowserProgress) : bytes :=
  if negb done && SFltb (S754_zero false) speed && (p_bytes_received p <? p_total_bytes p) then
    str "Time remaining: "
    ++ print_fixed nan 0 (f64_div (f64_of_Z (u64 (p_total_bytes p - p_bytes_received p))) speed) ++ str " sec"
  else str "Time remaining: unknown".

(** What [draw_progress] shows; [v_bar]: the thousandths of the bar. *)
Record ProgressView := mkView {
  v_title : bytes; v_name : bytes; v_amount : bytes; v_bar : option Z; v_speed : bytes; v_eta : bytes;
  v_line : bytes; v_buttons : list bytes; v_error : option bytes }.

Definition is_done (st : PopupState) : bool := streq (p_status (progress st)) (str "DONE").
Definition is_stopped (st : PopupState) : bool :=
  streq (p_status (progress st)) (str "ERROR") || streq (p_status (progress st)) (str "CANCELED").

Definition progress_view (st : PopupState) : ProgressView :=
  let p := progress st in
  let done := is_done st in
  mkView (if done then str "Download complete" else str "Downloading")
    (filename st)
    (strlcpy 128 (amount_text p))
    (option_map (Z.min 1000) (to_size (f32_mul (f32_of_bits (p_progress p)) (f32_of_Z 1000))))
    (strlcpy 80 (speed_text (speed_bps st)))
    (strlcpy 80 (eta_text done (speed_bps st) p))
    (if done then str "Download complete"
     else if is_stopped st then if bool_decide (p_error p <> []) then p_error p else p_status p
     else error st)
    (if done then [str "Open file"; str "Open folder"; str "Close"]
     else if is_stopped st then [str "Close"] else [str "Cancel download"; str "Close"])
    (if bool_decide (error st <> []) && done then Some (error st) else None).

(** ** The main window *)

(** The line under the name of a row. *)
Definition in_progress (row : GuiRow) : bool := can_pause (Some row) || is_status (Some row) (str "PAUSED").

Definition meta_text (row : GuiRow) : bytes :=
  if is_status (Some row) (str "DONE") then str "Completed"
  else if in_progress row then
    print_fixed nan 0 (f64_of_f32 (f32_mul (f32_of_bits (gr_progress row)) (f32_of_Z 100))) ++ str "%  /  "
    ++ (if is_status (Some row) (str "PAUSED") then str "Paused" else gr_dest_path row)
  else gr_status row ++ str "  /  " ++ gr_dest_path row.

Definition row_meta (row : GuiRow) : bytes := strlcpy (1024 + 32) (meta_text row).

(** The filled part of the bar, as a fraction; [None]: there is no bar, or
    nothing of it is filled. *)
Definition row_bar (row : GuiRow) : option spec_float :=
  let x := f32_of_bits (gr_progress row) in
  let pct := if SFltb x (S754_zero false) then S754_zero false
             else if SFltb (f32_of_Z 1) x then f32_of_Z 1 else x in
  if in_progress row && SFltb (S754_zero false) pct then Some pct else None.

(** The colours of the status and of the square with the extension. *)
Inductive Pill := GREEN | AMBER | RED | ACCENT.

Definition row_pill (row : GuiRow) : Pill :=
  if is_status (Some row) (str "DONE") then GREEN
  else if is_status (Some row) (str "PAUSED") then AMBER
  else if is_status (Some row) (str "ERROR") || is_status (Some row) (str "CANCELED") then RED
  else ACCENT.

Definition chip_color (ext : bytes) : Z * Z * Z :=
  let among l := existsb (fun e => streq ext (str e)) l in
  if among ["ZIP"; "GZ"; "7Z"; "TAR"]%string then (122, 95, 176)
  else if among ["MP4"; "MKV"; "WEBM"; "MP3"]%string then (192, 85, 63)
  else if among ["EXE"; "APPI"]%string then (63, 143, 111)
  else if among ["PNG"; "JPG"; "JPEG"]%string then (176, 135, 61)
  else (61, 127, 176).

(** The texts of the window around the rows. *)
Definition used_fraction (d : DiskSpace) : spec_float :=
  f64_sub (f64_of_Z 1) (f64_div (f64_of_Z (free_bytes d)) (f64_of_Z (total_bytes d))).

Definition used_text (d : DiskSpace) : bytes :=
  print_fixed nan 1 (f64_mul (used_fraction d) (f64_of_Z 100)) ++ str "% used  /  "
  ++ print_fixed nan 1 (f64_div (f64_of_Z (free_bytes d)) f64_billion) ++ str " GB free".

Definition storage_label (disk : option DiskSpace) : bytes :=
  match disk with Some d => strlcpy 80 (used_text d) | None => str "Storage usage unavailable" end.

Definition count_label (n : nat) : bytes := strlcpy 16 (print_int (Z.of_nat n)).
Definition total_label (visible : nat) : bytes := strlcpy 64 (print_int (Z.of_nat visible) ++ str " downloads").
Definition connection_label (connected : bool) : bytes := if connected then str "Connected" else str "Disconnected".

(** The fields of the dialog with the details. *)
Definition details_lines (ui : UiState) : list bytes :=
  if negb (ui_details_found ui) then [str "Loading details..."]
  else
    let o := ui_details ui in
    [str "ID " ++ decimal (ui_selected_id ui) ++ str "  |  Speed limit: " ++ decimal (speed_limit_bps o) ++ str " bytes/sec";
     str "Cookie: " ++ cookie o; str "Referrer: " ++ referrer o; str "Headers: " ++ extra_headers o;
     str "SHA-256: " ++ expected_sha256 o].

End Labels.

(** ** Lemmas *)

(** Lengths of literal texts as numbers, then [lia]. *)
Ltac text_lia :=
  rewrite ?strlen_app;
  repeat match goal with |- context [strlen (str ?s)] =>
    let n := eval vm_compute in (strlen (str s)) in change (strlen (str s)) with n end; lia.


(** The speeds the popup computes. *)
Definition sampled (x : spec_float) : Prop :=
  x = S754_zero false \/
  exists b ms, is_u64 b /\ is_u32 ms /\ x = f64_div (f64_of_Z b) (f64_div (f64_of_Z ms) (f64_of_Z 1000)).

Lemma sample_speed_sampled now p st v : sample_speed now p st = Some v -> sampled v.
Proof.
  unfold sample_speed. destruct (_ && _); [|done]. cbv zeta. destruct (SFleb _ _); [|done]. intros [= <-]. right.
  do 2 eexists. split; [apply u64_range|]. by split; [apply u32_range|].
Qed.

Lemma update_sampled now p st : sampled (speed_bps st) -> sampled (speed_bps (update_progress now p st)).
Proof.
  intros H. cbn [update_progress speed_bps]. destruct (sample_speed now p st) eqn:E; [|done]. by apply sample_speed_sampled in E.
Qed.

Lemma sized_const (l h : Z) (x : spec_float) :
  match x with S754_finite _ m e => (l <=? Zpos (digits2_pos m) + e) && (Zpos (digits2_pos m) + e <=? h) | _ => true end = true ->
  sized l h x.
Proof. destruct x; cbn [sized]; try done. intros H%andb_true_iff. lia. Qed.

Lemma f64_div_sized l1 h1 l2 h2 x y :
  sized l1 h1 x -> sized l2 h2 y -> -1074 <= h1 - l2 -> sized (l1 - h2) (h1 - l2 + 2) (f64_div x y).
Proof. intros. by apply sized_div. Qed.

Lemma f64_mul_sized l1 h1 l2 h2 x y :
  sized l1 h1 x -> sized l2 h2 y -> -1074 <= h1 + h2 -> sized (l1 + l2 - 1) (h1 + h2 + 1) (f64_mul x y).
Proof. intros. by apply sized_mul. Qed.

Lemma sampled_sized x : sampled x -> sized (-24) 76 x.
Proof.
  intros [->|(b & ms & Hb & Hms & ->)]; [done|].
  apply (f64_div_sized 1 65 (-9) 25); [by apply (f64_of_Z_sized b 64)| |lia].
  apply (f64_div_sized 1 33 10 10); [by apply (f64_of_Z_sized ms 32)|by apply sized_const; vm_compute|lia].
Qed.

Section Fit.
Context (nan : bytes) (Hnan : strlen nan <= 4).

Lemma print_sized d k lo hi x :
  sized lo hi x -> 0 <= hi -> 2 ^ hi < 10 ^ Z.of_nat k -> (3 <= k)%nat -> strlen (print_fixed nan d x) <= 2 + Z.of_nat k + Z.of_nat d.
Proof. intros. by eapply print_fixed_length. Qed.

Lemma megabytes_fit n : is_u64 n -> strlen (megabytes nan n) <= 18.
Proof.
  intros Hn. apply (print_sized 1 15 (1 - 20) (65 - 20 + 2)); [|lia|by vm_compute|lia].
  apply (f64_div_sized 1 65 20 20); [apply (f64_of_Z_sized n 64); [done|lia]|by apply sized_const; vm_compute|lia].
Qed.

Lemma percent_fit bits : is_u32 bits -> strlen (percent nan bits) <= 44.
Proof.
  intros Hb. destruct (f64_of_f32_sized _ _ _ (f32_of_bits_sized bits (proj1 Hb)) ltac:(lia)) as [l Hl].
  apply (print_sized 0 42 (l + 7 - 1) (128 + 1 + 7 + 1)); [|lia|by vm_compute|lia].
  by apply (f64_mul_sized l (128 + 1) 7 7); [|apply sized_const; vm_compute|lia].
Qed.

Lemma speed_fits x : sampled x -> strlen (speed_text nan x) < 80.
Proof.
  intros Hx. unfold speed_text. rewrite !strlen_app.
  assert (strlen (print_fixed nan 1 (f64_div x f64_million)) <= 21); [|text_lia].
  apply (print_sized 1 18 (-24 - 20) (76 - 20 + 2)); [|lia|by vm_compute|lia].
  apply (f64_div_sized (-24) 76 20 20); [by apply sampled_sized|by apply sized_const; vm_compute|lia].
Qed.

Lemma eta_fits done x p : sampled x -> strlen (eta_text nan done x p) < 80.
Proof.
  intros Hx. unfold eta_text. destruct (_ && _); [|text_lia]. rewrite !strlen_app.
  assert (strlen (print_fixed nan 0 (f64_div (f64_of_Z (u64 (p_total_bytes p - p_bytes_received p))) x)) <= 30); [|text_lia].
  apply (print_sized 0 28 (1 - 76) (65 + 24 + 2)); [|lia|by vm_compute|lia].
  apply (f64_div_sized 1 65 (-24) 76); [apply (f64_of_Z_sized _ 64); [apply u64_range|lia]|by apply sampled_sized|lia].
Qed.

Lemma amount_fits p :
  is_u64 (p_bytes_received p) -> is_u64 (p_total_bytes p) -> is_u32 (p_progress p) -> strlen (amount_text nan p) < 128.
Proof.
  intros H1 H2 H3. unfold amount_text. pose proof (megabytes_fit _ H1). pose proof (megabytes_fit _ H2).
  pose proof (percent_fit _ H3). destruct (_ =? 0); text_lia.
Qed.

(** Tenths of a megabyte, as printed. *)
Lemma megabytes_true n : 0 <= n < 2 ^ 53 -> exists k, 0 <= k /\ megabytes nan n = fixed 1 k /\ Z.abs (k * 100000 - n) <= 50002.
Proof.
  intros Hn. destruct (print_quotient n 1000000 1 nan Hn ltac:(lia)) as (k & Hk & E & H). exists k. split; [done|].
  split; [exact E|]. change (10 ^ Z.of_nat 1) with 10 in H. lia.
Qed.

Lemma used_fits d : is_u64 (free_bytes d) -> is_u64 (total_bytes d) -> strlen (used_text nan d) < 80.
Proof.
  intros H1 H2. unfold used_text, used_fraction.
  assert (sized 1 65 (f64_of_Z (free_bytes d))) as Hf by (apply (f64_of_Z_sized _ 64); [done|lia]).
  assert (sized 1 65 (f64_of_Z (total_bytes d))) as Ht by (apply (f64_of_Z_sized _ 64); [done|lia]).
  destruct (sized_sub 1 (1 - 65) 66 (f64_of_Z 1) (f64_div (f64_of_Z (free_bytes d)) (f64_of_Z (total_bytes d)))) as [l Hl].
  { by apply sized_const; vm_compute. } { by apply (f64_div_sized 1 65 1 65). } { lia. }
  pose proof (print_sized 1 23 (l + 7 - 1) (68 + 7 + 1) _ (f64_mul_sized l 68 7 7 _ (f64_of_Z 100) Hl
    ltac:(by apply sized_const; vm_compute) ltac:(lia)) ltac:(lia) ltac:(by vm_compute) ltac:(lia)).
  pose proof (print_sized 1 12 (1 - 30) (65 - 30 + 2) _ (f64_div_sized 1 65 30 30 _ f64_billion Hf
    ltac:(by apply sized_const; vm_compute) ltac:(lia)) ltac:(lia) ltac:(by vm_compute) ltac:(lia)). text_lia.
Qed.

Lemma row_percent_fits bits :
  0 <= bits <= 1065353216 -> strlen (print_fixed nan 0 (f64_of_f32 (f32_mul (f32_of_bits bits) (f32_of_Z 100)))) <= 6.
Proof.
  intros Hb. assert (sized (-148 + 7 - 1) (1 + 7 + 1) (f32_mul (f32_of_bits bits) (f32_of_Z 100))) as H.
  { apply sized_mul; [lia|by apply f32_unit_sized|by apply sized_const; vm_compute|unfold emin; lia]. }
  destruct (f64_of_f32_sized _ _ _ H ltac:(lia)) as [l Hl]. by apply (print_sized 0 4 l (1 + 7 + 1 + 1)); [|lia|vm_compute|lia].
Qed.

End Fit.

(** ** Theorems *)

(** C38. The popup tells the user the truth about the download, in full.
    After any progress record, from any state whose speed the popup computed
    itself: no text is cut off by its buffer, whatever the numbers of the record
    (all 64-bit counts, any [float], infinities and NaN included), and the new
    speed is again one that is computed from a record; and for files below 9
    petabytes the amounts are those of the record: each is printed as a whole
    number of tenths of a megabyte, which reads back as that number, and is off by
    half a tenth at most (and the two bytes a double may lose). *)
Theorem popup_labels_true nan now p st :
  strlen nan <= 4 -> sampled (speed_bps st) ->
  is_u64 (p_bytes_received p) -> is_u64 (p_total_bytes p) -> is_u32 (p_progress p) ->
  let st' := update_progress now p st in
  let v := progress_view nan st' in
  sampled (speed_bps st') /\
  v_amount v = amount_text nan p /\ v_speed v = speed_text nan (speed_bps st') /\
  v_eta v = eta_text nan (is_done st') (speed_bps st') p /\
  (forall n, n = p_bytes_received p \/ n = p_total_bytes p -> n < 2 ^ 53 ->
     exists whole tenths, megabytes nan n = whole ++ 46 :: tenths /\
       length tenths = 1%nat /\ Forall (fun c => is_digit c = true) (whole ++ tenths) /\
       Z.abs ((digits_value whole * 10 + digits_value tenths) * 100000 - n) <= 50002).
Proof.
  intros Hnan Hs H1 H2 H3 st' v. assert (sampled (speed_bps st')) as Hs' by by apply update_sampled.
  split; [done|]. subst v. cbn [progress_view v_amount v_speed v_eta].
  split; [apply strlcpy_id; by apply amount_fits|]. split; [apply strlcpy_id; by apply speed_fits|].
  split; [apply strlcpy_id; by apply eta_fits|]. intros n Hn Hlt.
  destruct (megabytes_true nan n) as (k & Hk & -> & Hb); [destruct Hn as [-> | ->]; split; try done; [apply H1|apply H2]|].
  destruct (fixed_reads 1 k Hk) as (w & f & E & _ & Hf & Hd & Hv). change (10 ^ Z.of_nat 1) with 10 in Hv. exists w, f. by rewrite Hv.
Qed.

(** The texts of the main window: the storage line is never cut off, and the
    line under a row is not while the daemon reports between 0 and 100 percent; the
    free space is printed to half a tenth of a gigabyte. *)
Theorem window_texts_fit nan disk row :
  strlen nan <= 4 -> is_u64 (free_bytes disk) -> is_u64 (total_bytes disk) ->
  0 <= gr_progress row <= 1065353216 -> strlen (gr_dest_path row) < 1024 -> strlen (gr_status row) < 16 ->
  storage_label nan (Some disk) = used_text nan disk /\ row_meta nan row = meta_text nan row /\
  (free_bytes disk < 2 ^ 53 ->
   exists k, 0 <= k /\ print_fixed nan 1 (f64_div (f64_of_Z (free_bytes disk)) f64_billion) = fixed 1 k /\
     Z.abs (k * 100000000 - free_bytes disk) <= 50000002).
Proof.
  intros Hnan H1 H2 H3 H4 H5. split; [apply strlcpy_id; by apply used_fits|]. split.
  - apply strlcpy_id. unfold meta_text. pose proof (row_percent_fits nan Hnan _ H3).
    destruct (is_status _ _); [text_lia|]. destruct (in_progress row); [destruct (is_status _ _)|]; text_lia.
  - intros Hlt. destruct (print_quotient (free_bytes disk) 1000000000 1 nan) as (k & Hk & E & H); [split; [apply H1|done]|lia|].
    exists k. split; [done|]. split; [exact E|]. change (10 ^ Z.of_nat 1) with 10 in H. lia.
Qed.

(** A download of 12.5 MB, watched for half a second. *)
Definition record_mb (received : Z) : IpcBrowserProgress :=
  mkProgress 3 received 12500000 (ratio_bits received 12500000) (str "ACTIVE") [] (str "/d/f.zip").

Definition watched_once : PopupState := update_progress 1000 (record_mb 1250000) (watching_popup record_conn).

Lemma popup_labels_true_witness :
  let v := progress_view (str "-nan") (update_progress 1500 (record_mb 4200000) watched_once) in
  v_amount v = str "4.2 MB of 12.5 MB (34%)" /\ v_speed v = str "Speed: 5.9 MB/s" /\
  v_eta v = str "Time remaining: 1 sec" /\ v_bar v = Some 336 /\
  exists whole tenths, megabytes (str "-nan") 4200000 = whole ++ 46 :: tenths /\
    Z.abs ((digits_value whole * 10 + digits_value tenths) * 100000 - 4200000) <= 50002.
Proof.
  assert (sampled (speed_bps watched_once)) as Hs by (left; vm_compute; reflexivity).
  assert (is_u64 4200000 /\ is_u64 12500000 /\ is_u32 (p_progress (record_mb 4200000))) as (H1 & H2 & H3)
    by (vm_compute; repeat split; discriminate).
  destruct (popup_labels_true (str "-nan") 1500 (record_mb 4200000) watched_once ltac:(vm_compute; discriminate) Hs H1 H2 H3)
    as (_ & Ea & Es & Ee & Hn). cbv zeta in *. rewrite Ea, Es, Ee.
  do 3 (split; [vm_compute; reflexivity|]).
  split; [vm_compute; reflexivity|].
  destruct (Hn 4200000 (or_introl eq_refl) ltac:(reflexivity)) as (w & t & E & _ & _ & Hb). exists w, t. by split.
Defined.

Definition stored_row (progress : Z) : GuiRow := mkGuiRow 1 (str "http://h/f") (str "/d/f.tar.gz") (str "ACTIVE") progress.

Lemma window_texts_fit_witness :
  storage_label (str "-nan") (Some (mkDisk 123456789012 500000000000)) = str "75.3% used  /  123.5 GB free" /\
  row_meta (str "-nan") (stored_row (ratio_bits 1 3)) = str "33%  /  /d/f.tar.gz".
Proof.
  destruct (window_texts_fit (str "-nan") (mkDisk 123456789012 500000000000) (stored_row (ratio_bits 1 3)))
    as (-> & -> & _); [vm_compute; repeat split; discriminate..|]. split; vm_compute; reflexivity.
Defined.

(** A progress that is not a number is printed as such, and the conversion of the
    bar to an integer is undefined in C, as for a negative one. *)
Example odd_progress :
  percent (str "nan") (255 * 2 ^ 23 + 1) = str "nan" /\
  v_bar (progress_view (str "nan") (update_progress 0 (mkProgress 3 0 1 (255 * 2 ^ 23 + 1) (str "ACTIVE") [] []) watched_once)) = None /\
  to_size (f32_mul (f32_of_bits (2 ^ 31 + 127 * 2 ^ 23)) (f32_of_Z 1000)) = None.
Proof. vm_compute. repeat split. Qed.

Example row_colors :
  row_bar (stored_row 0) = None /\ row_pill (stored_row 0) = ACCENT /\ chip_color (file_chip (str "a.tar.zip")) = (122, 95, 176) /\
  chip_color (file_chip (str "a")) = (61, 127, 176) /\ chip_color (file_chip (str "x.AppImage")) = (63, 143, 111).
Proof. vm_compute. repeat split. Qed.
