(* ===== verification/Launch.v ===== *)
(** * The entry point and the starting of other processes ([src/main.c], [src/platform/spawn.c])

    What [main] does with its arguments, the wait for a daemon that was started,
    and how the native host starts the popup and learns that it is there. *)

From S2P Require Import Prelude Path FileIo QueueManager Db Config Engine Scheduler Wire Commands Offers Ipc IpcClient OfferRpc Cli Popup.

(** ** main *)

(** What [main] does with its arguments. *)
Inductive main_action :=
| RunDaemon | RunAutostart (verb : bytes) | RunGui | RunCli (args : list bytes) | RunPopup (offer_id : Z)
| RunBrowser (args : list bytes) | Usage (status : Z).

Definition popup_offer (text : bytes) : option Z :=
  match strtoull text with                        (* strtoul: 64 bits as well *)
  | Some (id, []) => if (id =? 0) || (4294967295 <? id) then None else Some id
  | _ => None
  end.

Definition main_dispatch (argv : list bytes) : main_action :=
  match argv with
  | _ :: mode :: args =>
      if streq mode (str "daemon") then
        match args with
        | [] => RunDaemon
        | [verb] => if streq verb (str "enable") || streq verb (str "disable") || streq verb (str "status")
                    then RunAutostart verb else Usage 2
        | _ => Usage 2
        end
      else if streq mode (str "gui") || streq mode (str "ui") then RunGui
      else if streq mode (str "cli") then RunCli (mode :: args)
      else
        let browser := if streq mode (str "browser") then RunBrowser (mode :: args) else Usage 1 in
        match args with
        | [flag; text] =>
            if streq mode (str "browser-popup") && streq flag (str "--offer") then
              match popup_offer text with Some id => RunPopup id | None => Usage 1 end
            else browser
        | _ => browser
        end
  | _ => RunGui
  end.

(** The actions before which [main] makes sure the daemon runs. *)
Definition needs_daemon (a : main_action) : bool :=
  match a with RunGui | RunCli _ => true | _ => false end.

(** The probes after the daemon was spawned, one every tenth of a second. *)
Fixpoint wait_ready (probe : nat -> bool) (i left : nat) : bool :=
  match left with
  | O => false
  | S left' => if probe i then true else wait_ready probe (S i) left'
  end.

(** [probe 0] is the first call of [ipc_server_is_running]. *)
Definition ensure_daemon_running (probe : nat -> bool) (exe : bytes) (spawned : bool) : bool :=
  if probe O then true
  else if bool_decide (exe = []) then false
  else if negb spawned then false
  else wait_ready probe 1 50.

(** ** popup_reported *)

Inductive poll_result := PollReady (data : option Z) | PollTimeout | PollIntr | PollError.

(** [poll] is repeated after a signal; [PollReady]: what is read then. *)
Fixpoint wait_marker (polls : list poll_result) : bool :=
  match polls with
  | PollIntr :: polls' => wait_marker polls'
  | PollReady (Some c) :: _ => c =? 82                                  (* 'R' *)
  | _ => false
  end.

(** [status]: how the intermediate child ended. *)
Definition popup_reported (pipe_ok fork_ok : bool) (status : option Z) (polls : list poll_result) : bool :=
  if negb pipe_ok then false
  else if negb fork_ok then false
  else if negb (bool_decide (status = Some 0)) then false
  else wait_marker polls.

(** The arguments and the variable the popup is started with. *)
Definition popup_argv (exe : bytes) (offer_id : Z) : list bytes :=
  [exe; str "browser-popup"; str "--offer"; strlcpy 16 (decimal offer_id)].
Definition popup_ready_fd (fd : Z) : bytes := strlcpy 16 (decimal fd).

Lemma decimal_short n : 0 <= n < 2 ^ 32 -> strlcpy 16 (decimal n) = decimal n.
Proof.
  intros Hn. apply strlcpy_id. pose proof (decimal_length 10 n ltac:(lia) ltac:(zpow; lia)). lia.
Qed.

(** The popup the native host starts is the popup of that offer.  The
    arguments it is started with make [main] run the popup of exactly this offer
    id, for every id there is; the descriptor it is told for the "ready" signal
    is read back as that descriptor; and the host reports a popup exactly when
    the marker arrived, after any number of interrupted waits. *)
Theorem popup_handshake exe offer_id fd intr last :
  0 < offer_id < 2 ^ 32 -> 3 <= fd <= 1024 ->
  main_dispatch (popup_argv exe offer_id) = RunPopup offer_id /\
  report_popup_ready (Some (popup_ready_fd fd)) = Some fd /\
  (popup_reported true true (Some 0) (replicate intr PollIntr ++ [last]) = true <->
   last = PollReady (Some 82)).
Proof.
  intros Hid Hfd. split; [|split].
  - unfold popup_argv. rewrite decimal_short by lia. unfold main_dispatch.
    change (streq (str "browser-popup") (str "daemon")) with false.
    change (streq (str "browser-popup") (str "gui") || streq (str "browser-popup") (str "ui")) with false.
    change (streq (str "browser-popup") (str "cli")) with false. cbv iota.
    rewrite !streq_refl. cbn [andb]. pose proof (parse_id_decimal offer_id Hid) as Hp.
    unfold parse_id, parse_u64 in Hp. destruct (_ || _); [done|]. unfold popup_offer.
    destruct (strtoull (decimal offer_id)) as [[v [|]]|]; try done. destruct (_ || _); [done|]. by injection Hp as ->.
  - unfold popup_ready_fd. rewrite decimal_short by (zpow; lia). unfold report_popup_ready.
    rewrite strtol_decimal by (zpow; lia). rewrite bool_decide_eq_true_2 by done.
    rewrite (proj2 (Z.leb_le 3 fd)), (proj2 (Z.leb_le fd 1024)) by lia. done.
  - unfold popup_reported. cbn [negb]. rewrite bool_decide_eq_true_2 by done. cbn [negb].
    induction intr as [|intr IH]; [|exact IH]. cbn [replicate app wait_marker].
    destruct last as [[c|]| | |]; try done. rewrite Z.eqb_eq. split; [by intros ->|by intros [= ->]].
Qed.

Lemma popup_handshake_witness :
  main_dispatch (popup_argv (str "/usr/bin/cdm") 4294967295) = RunPopup 4294967295 /\
  report_popup_ready (Some (str "12")) = Some 12.
Proof.
  destruct (popup_handshake (str "/usr/bin/cdm") 4294967295 12 3 PollTimeout) as (H1 & H2 & _); [lia|lia|].
  split; [exact H1|exact H2].
Defined.

(** Once the daemon answers, within five seconds, the wait succeeds. *)
Lemma wait_ready_spec probe i n : wait_ready probe i n = true <-> exists k, (i <= k < i + n)%nat /\ probe k = true.
Proof.
  revert i. induction n as [|n IH]; intros i; cbn [wait_ready]; [split; [done|intros (k & ? & _); lia]|].
  destruct (probe i) eqn:E; [split; [|done]; intros _; exists i; split; [lia|done]|].
  rewrite IH. split; intros (k & Hk & Hp); exists k; (split; [|done]); [lia|].
  destruct (decide (k = i)) as [->|]; [congruence|lia].
Qed.

(** ** What the code does not do *)

(** strtoul takes a minus sign: this argument is offer 1. *)
Example negative_offer :
  main_dispatch [str "cdm"; str "browser-popup"; str "--offer"; str "-18446744073709551615"] = RunPopup 1.
Proof. vm_compute. reflexivity. Qed.
