(* ===== verification/Process.v ===== *)
(** * Processes: fork, exec, wait and pipes

    A function that forks is a tree of system calls, each with the continuation
    of its answer ([Prog]).  [sys_step] runs any number of processes that execute
    such trees, with the kernel's bookkeeping: sessions and process groups,
    descriptors, environments, exit statuses, pipes, programs that replaced a
    process; every call may fail and every process may be killed.  [always] is a
    predicate on one tree, computed by recursion on it, and [always_sound] turns
    it into an invariant of all the processes the tree creates; [moves] runs a
    given schedule.  The functions of the code are in Spawn.v. *)

From S2P Require Import Prelude.

(** ** System calls *)

(** How a process ended: [WIFEXITED] with its [WEXITSTATUS], or a signal. *)
Inductive wstatus := Exited (code : Z) | Signaled.

(** [Fork] answers a process id, 0 in the child, or -1; [PollIn] is
    [do ready = poll (..); while (ready < 0 && errno == EINTR)] with the answer
    and whether [POLLIN] is set; [Read1] reads one byte (answer and byte);
    [Exec] continues only when it failed. *)
Inductive Prog :=
| Ret (v : Z)
| Halt (code : Z)
| Fork (k : Z -> Prog)
| Setsid (k : Z -> Prog)
| Exec (path : bytes) (argv : list bytes) (k : Prog)
| Waitpid (pid : Z) (k : option wstatus -> Prog)
| Pipe (k : option (Z * Z) -> Prog)
| OpenNull (k : Z -> Prog)
| Dup2 (from to : Z) (k : Prog)
| Close (fd : Z) (k : Prog)
| Setenv (name value : bytes) (k : Prog)
| Access (path : bytes) (k : bool -> Prog)
| PollIn (fd : Z) (k : Z * bool -> Prog)
| Read1 (fd : Z) (k : Z * Z -> Prog).

Notation "x <- c ;; k" := (c (fun x => k)) (at level 100, c at next level, right associativity) : cdm_scope.
Notation "c ;;; k" := (c k) (at level 100, right associativity, only parsing) : cdm_scope.
#[local] Open Scope cdm_scope.

(** ** Processes *)

(** What a descriptor refers to; [Inherited]: an open file of the caller. *)
Inductive Target := PipeR (p : nat) | PipeW (p : nat) | DevNull | Inherited (n : Z).

#[export] Instance target_eq_dec : EqDecision Target.
Proof. solve_decision. Defined.

(** What fork copies. *)
Record Ctx := mkCtx {
  c_pgid : Z;
  c_sid : Z;
  c_fds : gmap Z Target;
  c_env : gmap bytes bytes;
}.

(** The program a process was replaced with, and the context it got. *)
Record Image := mkImage { i_path : bytes; i_argv : list bytes; i_ctx : Ctx }.

Inductive Run := Code (prog : Prog) | Returned (v : Z) | Replaced | Dead (st : wstatus).

(** [p_gen], [p_parent], [p_waited], [p_heard], [p_calls]: the generation below
    the caller, who forked it, what [waitpid] and [read] told it (a byte with its
    writer), how many calls it made. *)
Record Proc := mkProc {
  p_gen : nat;
  p_parent : Z;
  p_ctx : Ctx;
  p_children : list Z;
  p_waited : list (Z * wstatus);
  p_heard : list (Z * Z);
  p_calls : nat;
  p_image : option Image;
  p_run : Run;
}.

Definition set_run (r : Run) (p : Proc) : Proc :=
  mkProc p.(p_gen) p.(p_parent) p.(p_ctx) p.(p_children) p.(p_waited) p.(p_heard) p.(p_calls) p.(p_image) r.
Definition set_ctx (c : Ctx) (p : Proc) : Proc :=
  mkProc p.(p_gen) p.(p_parent) c p.(p_children) p.(p_waited) p.(p_heard) p.(p_calls) p.(p_image) p.(p_run).
Definition set_fds (f : gmap Z Target -> gmap Z Target) (p : Proc) : Proc :=
  set_ctx (mkCtx p.(p_ctx).(c_pgid) p.(p_ctx).(c_sid) (f p.(p_ctx).(c_fds)) p.(p_ctx).(c_env)) p.
Definition set_session (pid : Z) (p : Proc) : Proc :=
  set_ctx (mkCtx pid pid p.(p_ctx).(c_fds) p.(p_ctx).(c_env)) p.
Definition set_env (name value : bytes) (p : Proc) : Proc :=
  set_ctx (mkCtx p.(p_ctx).(c_pgid) p.(p_ctx).(c_sid) p.(p_ctx).(c_fds) (<[name := value]> p.(p_ctx).(c_env))) p.
Definition called (p : Proc) : Proc :=
  mkProc p.(p_gen) p.(p_parent) p.(p_ctx) p.(p_children) p.(p_waited) p.(p_heard) (S p.(p_calls)) p.(p_image) p.(p_run).
Definition add_child (c : Z) (p : Proc) : Proc :=
  mkProc p.(p_gen) p.(p_parent) p.(p_ctx) (p.(p_children) ++ [c]) p.(p_waited) p.(p_heard) p.(p_calls) p.(p_image) p.(p_run).
Definition add_waited (c : Z) (st : wstatus) (p : Proc) : Proc :=
  mkProc p.(p_gen) p.(p_parent) p.(p_ctx) p.(p_children) (p.(p_waited) ++ [(c, st)]) p.(p_heard) p.(p_calls) p.(p_image) p.(p_run).
Definition add_heard (w b : Z) (p : Proc) : Proc :=
  mkProc p.(p_gen) p.(p_parent) p.(p_ctx) p.(p_children) p.(p_waited) (p.(p_heard) ++ [(w, b)]) p.(p_calls) p.(p_image) p.(p_run).

(** The end of a process closes its descriptors. *)
Definition die (st : wstatus) (p : Proc) : Proc := set_run (Dead st) (set_fds (fun _ => ∅) p).

Definition replace (path : bytes) (argv : list bytes) (p : Proc) : Proc :=
  mkProc p.(p_gen) p.(p_parent) p.(p_ctx) p.(p_children) p.(p_waited) p.(p_heard) p.(p_calls)
    (Some (mkImage path argv p.(p_ctx))) Replaced.

Definition forked (pid : Z) (p : Proc) : Proc :=
  mkProc (S p.(p_gen)) pid p.(p_ctx) [] [] [] 0 None p.(p_run).

Definition dup2 (a b : Z) (fds : gmap Z Target) : gmap Z Target :=
  match fds !! a with Some t => <[b := t]> fds | None => fds end.

(** The usual soft limit on descriptors. *)
Definition fd_max : Z := 1024.

(** One call whose answer depends on the process alone: what remains of the code
    and the process after it.  Every call of the kernel that may fail may do so. *)
Inductive own_call (pid : Z) (p : Proc) : Prog -> Prog -> Proc -> Prop :=
| own_fork_fails k : own_call pid p (Fork k) (k (-1)) p
| own_setsid k :
    p.(p_ctx).(c_pgid) <> pid -> own_call pid p (Setsid k) (k pid) (set_session pid p)
| own_setsid_leader k :
    p.(p_ctx).(c_pgid) = pid -> own_call pid p (Setsid k) (k (-1)) p
| own_exec_fails path argv k : own_call pid p (Exec path argv k) k p
| own_pipe_fails k : own_call pid p (Pipe k) (k None) p
| own_open_fails k : own_call pid p (OpenNull k) (k (-1)) p
| own_open k fd :
    0 <= fd < fd_max -> p.(p_ctx).(c_fds) !! fd = None ->
    own_call pid p (OpenNull k) (k fd) (set_fds <[fd := DevNull]> p)
| own_dup2 a b k : own_call pid p (Dup2 a b k) k (set_fds (dup2 a b) p)
| own_close fd k : own_call pid p (Close fd k) k (set_fds (delete fd) p)
| own_setenv name value k : own_call pid p (Setenv name value k) k (set_env name value p)
| own_access path k there : own_call pid p (Access path k) (k there) p.

(** The processes, and what is in each pipe: bytes with their writer. *)
Record Sys := mkSys { procs : gmap Z Proc; pipes : gmap nat (list (Z * Z)) }.

Definition set_proc (pid : Z) (p : Proc) (s : Sys) : Sys := mkSys (<[pid := p]> s.(procs)) s.(pipes).
Definition set_pipe (id : nat) (l : list (Z * Z)) (s : Sys) : Sys := mkSys s.(procs) (<[id := l]> s.(pipes)).

(** Some process could still write to the pipe. *)
Definition has_writer (s : Sys) (id : nat) : Prop :=
  map_Exists (fun _ p => map_Exists (fun _ t => t = PipeW id) p.(p_ctx).(c_fds)) s.(procs).
#[export] Instance has_writer_dec s id : Decision (has_writer s id).
Proof. unfold has_writer. apply _. Defined.

(** A fresh process id names no process, group or session. *)
Definition fresh_pid (s : Sys) (c : Z) : Prop :=
  0 < c /\ s.(procs) !! c = None /\
  forall q p, s.(procs) !! q = Some p -> p.(p_ctx).(c_pgid) <> c /\ p.(p_ctx).(c_sid) <> c.

(** [Work]: a call is made or a replaced process does something of its own;
    [Noise]: a call that waits is interrupted or fails, or a process is killed. *)
Inductive kind := Work | Noise.

Inductive sys_step (s : Sys) : kind -> Sys -> Prop :=
| step_own pid p prog next p' :
    s.(procs) !! pid = Some p -> p.(p_run) = Code prog -> own_call pid p prog next p' ->
    sys_step s Work (set_proc pid (set_run (Code next) (called p')) s)
| step_fork pid p k c :
    s.(procs) !! pid = Some p -> p.(p_run) = Code (Fork k) -> fresh_pid s c ->
    sys_step s Work (set_proc c (set_run (Code (k 0)) (forked pid p))
                    (set_proc pid (set_run (Code (k c)) (called (add_child c p))) s))
| step_exec pid p path argv k :
    s.(procs) !! pid = Some p -> p.(p_run) = Code (Exec path argv k) ->
    sys_step s Work (set_proc pid (replace path argv p) s)
| step_wait pid p c k q st :
    s.(procs) !! pid = Some p -> p.(p_run) = Code (Waitpid c k) ->
    c ∈ p.(p_children) -> s.(procs) !! c = Some q -> q.(p_run) = Dead st ->
    sys_step s Work (set_proc pid (set_run (Code (k (Some st))) (called (add_waited c st p))) s)
| step_pipe pid p k id r w :
    s.(procs) !! pid = Some p -> p.(p_run) = Code (Pipe k) -> s.(pipes) !! id = None ->
    0 <= r < fd_max -> 0 <= w < fd_max -> r <> w -> p.(p_ctx).(c_fds) !! r = None -> p.(p_ctx).(c_fds) !! w = None ->
    sys_step s Work (set_pipe id [] (set_proc pid
      (set_run (Code (k (Some (r, w)))) (called (set_fds (fun f => <[w := PipeW id]> (<[r := PipeR id]> f)) p))) s))
| step_poll_in pid p fd k id x l :
    s.(procs) !! pid = Some p -> p.(p_run) = Code (PollIn fd k) ->
    p.(p_ctx).(c_fds) !! fd = Some (PipeR id) -> s.(pipes) !! id = Some (x :: l) ->
    sys_step s Work (set_proc pid (set_run (Code (k (1, true))) (called p)) s)
| step_poll_hup pid p fd k id :
    s.(procs) !! pid = Some p -> p.(p_run) = Code (PollIn fd k) ->
    p.(p_ctx).(c_fds) !! fd = Some (PipeR id) -> s.(pipes) !! id = Some [] -> ~ has_writer s id ->
    sys_step s Work (set_proc pid (set_run (Code (k (1, false))) (called p)) s)
| step_poll_timeout pid p fd k id :
    s.(procs) !! pid = Some p -> p.(p_run) = Code (PollIn fd k) ->
    p.(p_ctx).(c_fds) !! fd = Some (PipeR id) -> s.(pipes) !! id = Some [] -> has_writer s id ->
    sys_step s Work (set_proc pid (set_run (Code (k (0, false))) (called p)) s)
| step_poll_intr pid p fd k :
    s.(procs) !! pid = Some p -> p.(p_run) = Code (PollIn fd k) -> sys_step s Noise s
| step_wait_fails pid p c k :
    s.(procs) !! pid = Some p -> p.(p_run) = Code (Waitpid c k) ->
    sys_step s Noise (set_proc pid (set_run (Code (k None)) (called p)) s)
| step_poll_fails pid p fd k :
    s.(procs) !! pid = Some p -> p.(p_run) = Code (PollIn fd k) ->
    sys_step s Noise (set_proc pid (set_run (Code (k (-1, false))) (called p)) s)
| step_read_fails pid p fd k :
    s.(procs) !! pid = Some p -> p.(p_run) = Code (Read1 fd k) ->
    sys_step s Noise (set_proc pid (set_run (Code (k (-1, 0))) (called p)) s)
| step_read pid p fd k id wr b l :
    s.(procs) !! pid = Some p -> p.(p_run) = Code (Read1 fd k) ->
    p.(p_ctx).(c_fds) !! fd = Some (PipeR id) -> s.(pipes) !! id = Some ((wr, b) :: l) ->
    sys_step s Work (set_pipe id l (set_proc pid (set_run (Code (k (1, b))) (called (add_heard wr b p))) s))
| step_read_eof pid p fd k id :
    s.(procs) !! pid = Some p -> p.(p_run) = Code (Read1 fd k) ->
    p.(p_ctx).(c_fds) !! fd = Some (PipeR id) -> s.(pipes) !! id = Some [] -> ~ has_writer s id ->
    sys_step s Work (set_proc pid (set_run (Code (k (0, 0))) (called p)) s)
| step_return pid p v :
    s.(procs) !! pid = Some p -> p.(p_run) = Code (Ret v) ->
    sys_step s Work (set_proc pid (set_run (Returned v) p) s)
| step_exit pid p code :
    s.(procs) !! pid = Some p -> p.(p_run) = Code (Halt code) ->
    sys_step s Work (set_proc pid (die (Exited code) p) s)
| step_image_write pid p fd id b l :
    s.(procs) !! pid = Some p -> p.(p_run) = Replaced ->
    p.(p_ctx).(c_fds) !! fd = Some (PipeW id) -> s.(pipes) !! id = Some l ->
    sys_step s Work (set_pipe id (l ++ [(pid, b)]) s)
| step_image_close pid p fd :
    s.(procs) !! pid = Some p -> p.(p_run) = Replaced ->
    sys_step s Work (set_proc pid (set_fds (delete fd) p) s)
| step_image_exit pid p code :
    s.(procs) !! pid = Some p -> p.(p_run) = Replaced ->
    sys_step s Work (set_proc pid (die (Exited code) p) s)
| step_killed pid p :
    s.(procs) !! pid = Some p -> (forall st, p.(p_run) <> Dead st) -> (forall v, p.(p_run) <> Returned v) ->
    sys_step s Noise (set_proc pid (die Signaled p) s).

Definition sys_next (s s' : Sys) : Prop := exists kd, sys_step s kd s'.

(** The caller before its call, with no pipe of the model open. *)
Definition start_proc (c : Ctx) : Proc := mkProc 0 0 c [] [] [] 0 None (Returned 0).
Definition call (pid : Z) (c : Ctx) (prog : Prog) : Sys :=
  mkSys {[ pid := set_run (Code prog) (start_proc c) ]} ∅.
Definition caller_ctx (c : Ctx) : Prop :=
  map_Forall (fun _ t => exists n, t = Inherited n) c.(c_fds).

(** ** What holds of a process at every call *)

Section Always.
Context (P : Z -> Proc -> Prop).

(** [always pid prog p]: [P] holds of process [pid], in state [p] and with
    [prog] to run, and of all its descendants, whenever one has made a call. *)
Fixpoint always (pid : Z) (prog : Prog) (p : Proc) {struct prog} : Prop :=
  P pid (set_run (Code prog) p) /\
  match prog with
  | Ret v => P pid (set_run (Returned v) p)
  | Halt code => P pid (die (Exited code) p)
  | Fork k =>
      always pid (k (-1)) (called p) /\
      forall c, 0 < c -> c <> pid -> c <> p.(p_ctx).(c_pgid) -> c <> p.(p_ctx).(c_sid) ->
        always c (k 0) (forked pid p) /\ always pid (k c) (called (add_child c p))
  | Setsid k =>
      (p.(p_ctx).(c_pgid) <> pid -> always pid (k pid) (called (set_session pid p))) /\
      (p.(p_ctx).(c_pgid) = pid -> always pid (k (-1)) (called p))
  | Exec path argv k => P pid (replace path argv p) /\ always pid k (called p)
  | Waitpid c k =>
      always pid (k None) (called p) /\ forall st, always pid (k (Some st)) (called (add_waited c st p))
  | Pipe k =>
      always pid (k None) (called p) /\
      forall id r w, 0 <= r < fd_max -> 0 <= w < fd_max -> r <> w ->
        p.(p_ctx).(c_fds) !! r = None -> p.(p_ctx).(c_fds) !! w = None ->
        (forall fd t, p.(p_ctx).(c_fds) !! fd = Some t -> t <> PipeR id /\ t <> PipeW id) ->
        always pid (k (Some (r, w))) (called (set_fds (fun f => <[w := PipeW id]> (<[r := PipeR id]> f)) p))
  | OpenNull k =>
      always pid (k (-1)) (called p) /\
      forall fd, 0 <= fd < fd_max -> p.(p_ctx).(c_fds) !! fd = None ->
        always pid (k fd) (called (set_fds <[fd := DevNull]> p))
  | Dup2 a b k => always pid k (called (set_fds (dup2 a b) p))
  | Close fd k => always pid k (called (set_fds (delete fd) p))
  | Setenv name value k => always pid k (called (set_env name value p))
  | Access _ k => forall there, always pid (k there) (called p)
  | PollIn _ k =>
      always pid (k (-1, false)) (called p) /\ always pid (k (0, false)) (called p) /\
      always pid (k (1, false)) (called p) /\ always pid (k (1, true)) (called p)
  | Read1 _ k =>
      always pid (k (-1, 0)) (called p) /\ always pid (k (0, 0)) (called p) /\
      forall wr b, always pid (k (1, b)) (called (add_heard wr b p))
  end.

(** The same, one call at a time. *)
Lemma always_unfold pid prog p :
  (P pid (set_run (Code prog) p) /\
    match prog with
    | Ret v => P pid (set_run (Returned v) p)
    | Halt code => P pid (die (Exited code) p)
    | Fork k =>
        always pid (k (-1)) (called p) /\
        forall c, 0 < c -> c <> pid -> c <> p.(p_ctx).(c_pgid) -> c <> p.(p_ctx).(c_sid) ->
          always c (k 0) (forked pid p) /\ always pid (k c) (called (add_child c p))
    | Setsid k =>
        (p.(p_ctx).(c_pgid) <> pid -> always pid (k pid) (called (set_session pid p))) /\
        (p.(p_ctx).(c_pgid) = pid -> always pid (k (-1)) (called p))
    | Exec path argv k => P pid (replace path argv p) /\ always pid k (called p)
    | Waitpid c k =>
        always pid (k None) (called p) /\ forall st, always pid (k (Some st)) (called (add_waited c st p))
    | Pipe k =>
        always pid (k None) (called p) /\
        forall id r w, 0 <= r < fd_max -> 0 <= w < fd_max -> r <> w ->
          p.(p_ctx).(c_fds) !! r = None -> p.(p_ctx).(c_fds) !! w = None ->
          (forall fd t, p.(p_ctx).(c_fds) !! fd = Some t -> t <> PipeR id /\ t <> PipeW id) ->
          always pid (k (Some (r, w))) (called (set_fds (fun f => <[w := PipeW id]> (<[r := PipeR id]> f)) p))
    | OpenNull k =>
        always pid (k (-1)) (called p) /\
        forall fd, 0 <= fd < fd_max -> p.(p_ctx).(c_fds) !! fd = None ->
          always pid (k fd) (called (set_fds <[fd := DevNull]> p))
    | Dup2 a b k => always pid k (called (set_fds (dup2 a b) p))
    | Close fd k => always pid k (called (set_fds (delete fd) p))
    | Setenv name value k => always pid k (called (set_env name value p))
    | Access _ k => forall there, always pid (k there) (called p)
    | PollIn _ k =>
        always pid (k (-1, false)) (called p) /\ always pid (k (0, false)) (called p) /\
        always pid (k (1, false)) (called p) /\ always pid (k (1, true)) (called p)
    | Read1 _ k =>
        always pid (k (-1, 0)) (called p) /\ always pid (k (0, 0)) (called p) /\
        forall wr b, always pid (k (1, b)) (called (add_heard wr b p))
    end) -> always pid prog p.
Proof. by destruct prog. Qed.

(** What [P] must survive: a signal, and what a replaced process does. *)
Definition stable : Prop :=
  forall pid p, P pid p ->
    P pid (die Signaled p) /\
    (p.(p_run) = Replaced ->
     (forall st, P pid (die st p)) /\ forall fd, P pid (set_fds (delete fd) p)).

Lemma always_now pid prog p : always pid prog p -> P pid (set_run (Code prog) p).
Proof. destruct prog; intros H; apply H. Qed.

Lemma always_own pid prog p next p' :
  always pid prog p -> own_call pid (set_run (Code prog) p) prog next p' ->
  exists q, always pid next q /\ set_run (Code next) (called p') = set_run (Code next) q.
Proof.
  intros H Hc. inversion Hc; subst; destruct H as [_ H]; cbn in *;
    (eexists; split; [solve [exact (proj1 H)|apply H; auto|apply H|exact H]|reflexivity]).
Qed.
End Always.

(** ** The kernel's tables *)

(** What ties the records of the processes together, whatever they run. *)
Record Linked (c0 : Z) (s : Sys) : Prop := {
  lk_caller : exists p, s.(procs) !! c0 = Some p /\ p.(p_gen) = O;
  lk_root pid p : s.(procs) !! pid = Some p -> p.(p_gen) = O -> pid = c0;
  lk_up pid p : s.(procs) !! pid = Some p -> p.(p_gen) <> O ->
    exists q, s.(procs) !! p.(p_parent) = Some q /\ pid ∈ q.(p_children) /\ p.(p_gen) = S q.(p_gen);
  lk_down pid p c : s.(procs) !! pid = Some p -> c ∈ p.(p_children) ->
    exists q, s.(procs) !! c = Some q /\ q.(p_parent) = pid /\ q.(p_gen) = S p.(p_gen);
  lk_waited pid p c st : s.(procs) !! pid = Some p -> (c, st) ∈ p.(p_waited) ->
    c ∈ p.(p_children) /\ exists q, s.(procs) !! c = Some q /\ q.(p_run) = Dead st;
  lk_dead pid p st : s.(procs) !! pid = Some p -> p.(p_run) = Dead st -> p.(p_ctx).(c_fds) = ∅;
  lk_image pid p : s.(procs) !! pid = Some p -> p.(p_run) = Replaced -> is_Some p.(p_image);
  lk_heard pid p w b : s.(procs) !! pid = Some p -> (w, b) ∈ p.(p_heard) ->
    exists q, s.(procs) !! w = Some q /\ is_Some q.(p_image);
  lk_bytes id l w b : s.(pipes) !! id = Some l -> (w, b) ∈ l ->
    exists q, s.(procs) !! w = Some q /\ is_Some q.(p_image);
  lk_fds pid p fd t id : s.(procs) !! pid = Some p -> p.(p_ctx).(c_fds) !! fd = Some t ->
    t = PipeR id \/ t = PipeW id -> is_Some (s.(pipes) !! id);
}.

(** A process that is not dead becomes [p'] without a new child. *)
Record Evolves (s : Sys) (pid : Z) (p p' : Proc) : Prop := {
  ev_gen : p'.(p_gen) = p.(p_gen);
  ev_parent : p'.(p_parent) = p.(p_parent);
  ev_children : p'.(p_children) = p.(p_children);
  ev_alive st : p.(p_run) <> Dead st;
  ev_image : is_Some p.(p_image) -> is_Some p'.(p_image);
  ev_replaced : p'.(p_run) = Replaced -> is_Some p'.(p_image);
  ev_dead st : p'.(p_run) = Dead st -> p'.(p_ctx).(c_fds) = ∅;
  ev_waited c st : (c, st) ∈ p'.(p_waited) -> (c, st) ∈ p.(p_waited) \/
    (c ∈ p.(p_children) /\ exists q, s.(procs) !! c = Some q /\ q.(p_run) = Dead st);
  ev_heard w b : (w, b) ∈ p'.(p_heard) -> (w, b) ∈ p.(p_heard) \/
    exists q, s.(procs) !! w = Some q /\ is_Some q.(p_image);
  ev_fds fd t id : p'.(p_ctx).(c_fds) !! fd = Some t -> t = PipeR id \/ t = PipeW id -> is_Some (s.(pipes) !! id);
}.

(** Looking up a process after the update of one. *)
Lemma lookup_set_proc s pid p' q x :
  (set_proc pid p' s).(procs) !! q = Some x ->
  (q = pid /\ x = p') \/ (q <> pid /\ s.(procs) !! q = Some x).
Proof. cbn. rewrite lookup_insert_Some. intros [[-> ->]|[? ?]]; auto. Qed.

(** A process known before the update, after it. *)
Lemma find_set_proc s pid p p' q x :
  s.(procs) !! pid = Some p -> s.(procs) !! q = Some x ->
  exists y, (set_proc pid p' s).(procs) !! q = Some y /\ (q = pid /\ x = p /\ y = p' \/ q <> pid /\ y = x).
Proof.
  intros Hp Hq. cbn. destruct (decide (q = pid)) as [->|Hne].
  - exists p'. rewrite lookup_insert_eq. split; [done|]. left. split; [done|]. split; [congruence|done].
  - exists x. rewrite lookup_insert_ne by done. split; [done|]. by right.
Qed.

Lemma linked_evolves c0 s pid p p' :
  Linked c0 s -> s.(procs) !! pid = Some p -> Evolves s pid p p' -> Linked c0 (set_proc pid p' s).
Proof.
  intros L Hp E.
  assert (HI : forall w, (exists q, s.(procs) !! w = Some q /\ is_Some q.(p_image)) ->
            exists q, (set_proc pid p' s).(procs) !! w = Some q /\ is_Some q.(p_image)).
  { intros w (q & Hq & Hi). destruct (find_set_proc _ _ _ p' _ _ Hp Hq) as (y & Hy & [(-> & -> & ->)|(_ & ->)]);
      eexists; (split; [exact Hy|]); [by apply (ev_image _ _ _ _ E)|done]. }
  assert (HD : forall c st, (exists q, s.(procs) !! c = Some q /\ q.(p_run) = Dead st) ->
            exists q, (set_proc pid p' s).(procs) !! c = Some q /\ q.(p_run) = Dead st).
  { intros c st (q & Hq & Hd). destruct (find_set_proc _ _ _ p' _ _ Hp Hq) as (y & Hy & [(-> & -> & ->)|(_ & ->)]);
      [by destruct (ev_alive _ _ _ _ E st)|eauto]. }
  destruct E as [Eg Epar Ech _ _ Er Ed Ew Eh Ef]. constructor.
  - destruct (lk_caller _ _ L) as (q & Hq & Hg).
    destruct (find_set_proc _ _ _ p' _ _ Hp Hq) as (y & Hy & [(-> & -> & ->)|(_ & ->)]); eexists; (split; [exact Hy|congruence]).
  - intros q x [[-> ->]|[Hne Hq]]%lookup_set_proc; [rewrite Eg|]; eauto using lk_root.
  - intros q x Hq Hg.
    assert (exists y, s.(procs) !! q = Some y /\ p_gen y = p_gen x /\ p_parent y = p_parent x) as (y & Hy & Hyg & Hyp)
      by (apply lookup_set_proc in Hq as [[-> ->]|[Hne Hq]]; eauto).
    rewrite <- Hyg in Hg. destruct (lk_up _ _ L _ _ Hy Hg) as (z & Hz & Hin & Hgz). rewrite <- Hyp.
    destruct (find_set_proc _ _ _ p' _ _ Hp Hz) as (u & Hu & [(_ & -> & ->)|(_ & ->)]);
      eexists; (split; [exact Hu|]); [rewrite Ech, Eg|]; split; congruence.
  - intros q x c Hq Hc.
    assert (exists y, s.(procs) !! q = Some y /\ p_gen y = p_gen x /\ c ∈ p_children y) as (y & Hy & Hyg & Hyc).
    { apply lookup_set_proc in Hq as [[-> ->]|[Hne Hq]]; [|eauto]. exists p. rewrite <- Ech. auto. }
    destruct (lk_down _ _ L _ _ _ Hy Hyc) as (z & Hz & Hzp & Hzg).
    destruct (find_set_proc _ _ _ p' _ _ Hp Hz) as (u & Hu & [(_ & -> & ->)|(_ & ->)]);
      eexists; (split; [exact Hu|]); [rewrite Epar, Eg|]; split; congruence.
  - intros q x c st [[-> ->]|[Hne Hq]]%lookup_set_proc Hin.
    + rewrite Ech. destruct (Ew _ _ Hin) as [Hin'|[? ?]]; [|auto].
      destruct (lk_waited _ _ L _ _ _ _ Hp Hin'). auto.
    + destruct (lk_waited _ _ L _ _ _ _ Hq Hin). auto.
  - intros q x st [[-> ->]|[Hne Hq]]%lookup_set_proc; [eauto|]. eapply lk_dead; eauto.
  - intros q x [[-> ->]|[Hne Hq]]%lookup_set_proc; [eauto|]. eapply lk_image; eauto.
  - intros q x w b [[-> ->]|[Hne Hq]]%lookup_set_proc Hin; apply HI; [|by eapply lk_heard].
    destruct (Eh _ _ Hin); [by eapply lk_heard|done].
  - intros id l w b Hl Hin. apply HI. by eapply lk_bytes.
  - intros q x fd t id [[-> ->]|[Hne Hq]]%lookup_set_proc; [apply Ef|by apply (lk_fds _ _ L q)].
Qed.

Lemma linked_set_pipe c0 s id l :
  Linked c0 s ->
  (forall w b, (w, b) ∈ l -> exists q, s.(procs) !! w = Some q /\ is_Some q.(p_image)) ->
  Linked c0 (set_pipe id l s).
Proof.
  intros [L0 L1 L2 L3 L4 L5 L6 L7 L8 L9] Hl. constructor; cbn; [eauto..| |].
  - intros i l' w b. rewrite lookup_insert_Some. intros [[-> <-]|[_ Hi]]; eauto.
  - intros q x fd t i Hq Hf Ht. rewrite lookup_insert_is_Some. destruct (decide (id = i)); [by left|].
    right. split; [done|]. by eapply L9.
Qed.

(** Every descriptor of [p'] was one of [p], or is of no pipe. *)
Definition fds_within (p p' : Proc) : Prop :=
  forall fd t, p'.(p_ctx).(c_fds) !! fd = Some t ->
    t = DevNull \/ exists fd', p.(p_ctx).(c_fds) !! fd' = Some t.

Lemma evolves_code c0 s pid p prog next p' :
  Linked c0 s -> s.(procs) !! pid = Some p -> p.(p_run) = Code prog ->
  p'.(p_gen) = p.(p_gen) -> p'.(p_parent) = p.(p_parent) -> p'.(p_children) = p.(p_children) ->
  p'.(p_image) = p.(p_image) -> p'.(p_waited) = p.(p_waited) -> p'.(p_heard) = p.(p_heard) ->
  fds_within p p' -> Evolves s pid p (set_run (Code next) (called p')).
Proof.
  intros L Hp Hr Hg Hpa Hc Hi Hw Hh Hf. constructor; cbn; try congruence; auto.
  - intros c st. rewrite Hw. auto.
  - intros w b. rewrite Hh. auto.
  - intros fd t id Hl Ht. destruct (Hf _ _ Hl) as [->|[fd' Hl']]; [by destruct Ht|].
    by apply (lk_fds _ _ L pid p fd' t).
Qed.

Lemma own_call_frame pid p prog next p' :
  own_call pid p prog next p' ->
  p'.(p_gen) = p.(p_gen) /\ p'.(p_parent) = p.(p_parent) /\ p'.(p_children) = p.(p_children) /\
  p'.(p_image) = p.(p_image) /\ p'.(p_waited) = p.(p_waited) /\ p'.(p_heard) = p.(p_heard) /\ fds_within p p'.
Proof.
  intros H; destruct H; cbn; do 6 (split; [done|]); intros f t; cbn; eauto.
  - rewrite lookup_insert_Some. intros [[_ <-]|[_ ?]]; eauto.
  - unfold dup2. destruct (c_fds (p_ctx p) !! a) eqn:E; [|eauto].
    rewrite lookup_insert_Some. intros [[_ <-]|[_ ?]]; eauto.
  - rewrite lookup_delete_Some. intros [_ ?]. eauto.
Qed.

Section Sound.
Context (P : Z -> Proc -> Prop) (HP : stable P) (c0 : Z).

Definition proc_ok (pid : Z) (p : Proc) : Prop :=
  P pid p /\ forall prog, p.(p_run) = Code prog ->
    exists p0, always P pid prog p0 /\ p = set_run (Code prog) p0.

Record Sound (s : Sys) : Prop := {
  sd_linked : Linked c0 s;
  sd_procs pid p : s.(procs) !! pid = Some p -> proc_ok pid p;
}.

Lemma proc_ok_code pid prog q : always P pid prog q -> proc_ok pid (set_run (Code prog) q).
Proof. intros H. split; [by apply always_now|]. cbn. intros ? [= <-]. eauto. Qed.

Lemma proc_ok_done pid p : (forall prog, p.(p_run) <> Code prog) -> P pid p -> proc_ok pid p.
Proof. intros Hn H. split; [done|]. intros prog E. by destruct (Hn prog). Qed.

Lemma sound_update s pid p p' :
  Sound s -> s.(procs) !! pid = Some p -> Evolves s pid p p' -> proc_ok pid p' -> Sound (set_proc pid p' s).
Proof.
  intros [L Hs] Hp He Hok. split; [by eapply linked_evolves|].
  intros q x [[-> ->]|[_ Hq]]%lookup_set_proc; [done|eauto].
Qed.

(** The code of a process of a sound system, with [always]. *)
Lemma sound_code s pid p prog :
  Sound s -> s.(procs) !! pid = Some p -> p.(p_run) = Code prog ->
  exists p0, always P pid prog p0 /\ p = set_run (Code prog) p0.
Proof. intros [_ Hs] Hp. by apply (Hs _ _ Hp). Qed.

Lemma sound_own s pid p prog next p' :
  Sound s -> s.(procs) !! pid = Some p -> p.(p_run) = Code prog -> own_call pid p prog next p' ->
  Sound (set_proc pid (set_run (Code next) (called p')) s).
Proof.
  intros HS Hp Hr Hc. destruct (own_call_frame _ _ _ _ _ Hc) as (? & ? & ? & ? & ? & ? & ?).
  destruct (sound_code _ _ _ _ HS Hp Hr) as (p0 & Ha & ->).
  destruct (always_own _ _ _ _ _ _ Ha Hc) as (q & Hq & Eq).
  eapply sound_update; [done|done|by eapply evolves_code; eauto using sd_linked|].
  rewrite Eq. by apply proc_ok_code.
Qed.

(** A call whose answer comes from elsewhere, and which only changes what the
    process was told. *)
Lemma sound_told s pid p prog next (f : Proc -> Proc) :
  Sound s -> s.(procs) !! pid = Some p -> p.(p_run) = Code prog ->
  (forall p0, always P pid prog p0 -> always P pid next (called (f p0))) ->
  (forall p0 r r', set_run r (f (set_run r' p0)) = set_run r (f p0)) ->
  Evolves s pid p (set_run (Code next) (called (f p))) ->
  Sound (set_proc pid (set_run (Code next) (called (f p))) s).
Proof.
  intros HS Hp Hr Ha Hf He. destruct (sound_code _ _ _ _ HS Hp Hr) as (p0 & H0 & ->).
  eapply sound_update; [done..|].
  change (set_run (Code next) (called (f (set_run (Code prog) p0))))
    with (called (set_run (Code next) (f (set_run (Code prog) p0)))).
  rewrite Hf. apply (proc_ok_code pid next (called (f p0))). auto.
Qed.

Lemma sound_pipe s id l :
  Sound s -> (forall w b, (w, b) ∈ l -> exists q, s.(procs) !! w = Some q /\ is_Some q.(p_image)) ->
  Sound (set_pipe id l s).
Proof. intros [L Hs] Hl. split; [by apply linked_set_pipe|done]. Qed.
End Sound.

(** Both records a fork leaves. *)
Definition fork_sys (pid c : Z) (k : Z -> Prog) (p : Proc) (s : Sys) : Sys :=
  set_proc c (set_run (Code (k 0)) (forked pid p)) (set_proc pid (set_run (Code (k c)) (called (add_child c p))) s).

Lemma lookup_fork pid c k p s q x :
  (fork_sys pid c k p s).(procs) !! q = Some x ->
  (q = c /\ x = set_run (Code (k 0)) (forked pid p)) \/
  (q = pid /\ x = set_run (Code (k c)) (called (add_child c p))) \/
  (q <> c /\ q <> pid /\ s.(procs) !! q = Some x).
Proof.
  intros [[-> ->]|[Hc H]]%lookup_set_proc; [by left|].
  apply lookup_set_proc in H as [[-> ->]|[? ?]]; [by right; left|by right; right].
Qed.

(** A process known before, after a fork: the same but for the new child. *)
Lemma find_fork pid c k p s q x :
  s.(procs) !! pid = Some p -> s.(procs) !! c = None -> s.(procs) !! q = Some x ->
  exists y, (fork_sys pid c k p s).(procs) !! q = Some y /\
    p_gen y = p_gen x /\ p_parent y = p_parent x /\ p_image y = p_image x /\
    (forall d, d ∈ p_children x -> d ∈ p_children y) /\ (q = pid -> c ∈ p_children y) /\
    (q <> pid -> p_run y = p_run x).
Proof.
  intros Hp Hc Hq. assert (q <> c) by congruence. cbn. rewrite lookup_insert_ne by done.
  destruct (decide (q = pid)) as [->|Hne].
  - rewrite lookup_insert_eq. eexists. split; [done|]. rewrite Hp in Hq. injection Hq as ->. cbn.
    do 3 (split; [done|]). split; [intros d Hd; apply elem_of_app; by left|].
    split; [intros _; apply elem_of_app; right; by apply list_elem_of_singleton|done].
  - rewrite lookup_insert_ne by done. by exists x.
Qed.

Definition has_image (s : Sys) (w : Z) : Prop :=
  exists q, s.(procs) !! w = Some q /\ is_Some q.(p_image).

Lemma fork_image pid c k p s w :
  s.(procs) !! pid = Some p -> s.(procs) !! c = None -> has_image s w -> has_image (fork_sys pid c k p s) w.
Proof.
  intros Hp Hc (q & Hq & Hi). destruct (find_fork pid c k p s w q Hp Hc Hq) as (y & Hy & _ & _ & Ei & _).
  exists y. by rewrite Ei.
Qed.

Lemma fork_waited c0 s pid c k p q x d st :
  Linked c0 s -> s.(procs) !! pid = Some p -> s.(procs) !! c = None -> p.(p_run) = Code (Fork k) ->
  s.(procs) !! q = Some x -> (d, st) ∈ p_waited x ->
  d ∈ p_children x /\ exists y, (fork_sys pid c k p s).(procs) !! d = Some y /\ p_run y = Dead st.
Proof.
  intros L Hp Hc Hr Hq Hin. destruct (lk_waited _ _ L _ _ _ _ Hq Hin) as (Hd & y & Hy & Hrun).
  split; [done|]. destruct (find_fork pid c k p s d y Hp Hc Hy) as (z & Hz & _ & _ & _ & _ & _ & Hrz).
  exists z. split; [done|]. rewrite Hrz; [done|]. intros ->. congruence.
Qed.

Lemma linked_fork c0 s pid c k p :
  Linked c0 s -> s.(procs) !! pid = Some p -> p.(p_run) = Code (Fork k) -> fresh_pid s c ->
  Linked c0 (fork_sys pid c k p s).
Proof.
  intros L Hp Hr (_ & Hc & _).
  assert (HI : forall w, has_image s w -> has_image (fork_sys pid c k p s) w) by (intros w; by apply fork_image).
  assert (HW := fun q x d st => fork_waited c0 s pid c k p q x d st L Hp Hc Hr).
  constructor.
  - destruct (lk_caller _ _ L) as (q & Hq & Hg). destruct (find_fork pid c k p s c0 q Hp Hc Hq) as (y & Hy & Ey & _).
    exists y. split; [done|congruence].
  - intros q x [[-> ->]|[[-> ->]|(_ & _ & Hq)]]%lookup_fork; cbn; [done| |]; eauto using lk_root.
  - intros q x Hq Hg.
    assert (q = c /\ p_parent x = pid /\ p_gen x = S (p_gen p) \/
            exists y, s.(procs) !! q = Some y /\ p_gen y = p_gen x /\ p_parent y = p_parent x)
      as [(-> & -> & ->)|(y & Hy & Hyg & Hyp)]
      by (apply lookup_fork in Hq as [[-> ->]|[[-> ->]|(_ & _ & Hq)]]; eauto).
    + destruct (find_fork pid c k p s pid p Hp Hc Hp) as (z & Hz & Hzg & _ & _ & _ & Hin & _).
      exists z. rewrite Hzg. auto.
    + rewrite <- Hyg in Hg. destruct (lk_up _ _ L _ _ Hy Hg) as (u & Hu & Hin & Hug).
      destruct (find_fork pid c k p s _ u Hp Hc Hu) as (z & Hz & Hzg & _ & _ & Hzc & _).
      exists z. rewrite <- Hyp, Hzg, <- Hyg. auto.
  - intros q x d Hq Hd.
    assert (d = c /\ q = pid /\ p_gen x = p_gen p \/
            exists y, s.(procs) !! q = Some y /\ p_gen y = p_gen x /\ d ∈ p_children y)
      as [(-> & -> & ->)|(y & Hy & Hyg & Hyd)].
    { apply lookup_fork in Hq as [[-> ->]|[[-> ->]|(_ & _ & Hq)]]; cbn in Hd |- *;
        [by apply not_elem_of_nil in Hd| |eauto].
      apply elem_of_app in Hd as [Hd|Hd%list_elem_of_singleton]; eauto. }
    + eexists. cbn. rewrite lookup_insert_eq. done.
    + destruct (lk_down _ _ L _ _ _ Hy Hyd) as (u & Hu & Hup & Hug).
      destruct (find_fork pid c k p s _ u Hp Hc Hu) as (z & Hz & Hzg & Hzp & _).
      exists z. rewrite Hzp, Hzg, <- Hyg. auto.
  - intros q x d st [[-> ->]|[[-> ->]|(_ & _ & Hq)]]%lookup_fork; cbn; intros Hin; [by apply not_elem_of_nil in Hin| |by apply (HW _ _ _ _ Hq Hin)].
    destruct (HW _ _ _ _ Hp Hin). split; [apply elem_of_app; by left|done].
  - intros q x st [[-> ->]|[[-> ->]|(_ & _ & Hq)]]%lookup_fork; cbn; [done..|]. by eapply lk_dead.
  - intros q x [[-> ->]|[[-> ->]|(_ & _ & Hq)]]%lookup_fork; cbn; [done..|]. by eapply lk_image.
  - intros q x w b [[-> ->]|[[-> ->]|(_ & _ & Hq)]]%lookup_fork; cbn; intros Hin; [by apply not_elem_of_nil in Hin| |];
      apply HI; [by apply (lk_heard _ _ L _ _ _ _ Hp Hin)|by apply (lk_heard _ _ L _ _ _ _ Hq Hin)].
  - intros id l w b Hl Hin. apply HI. by apply (lk_bytes _ _ L _ _ _ _ Hl Hin).
  - intros q x fd t id [[-> ->]|[[-> ->]|(_ & _ & Hq)]]%lookup_fork; cbn; [by apply (lk_fds _ _ L pid p)..|].
    by apply (lk_fds _ _ L q x).
Qed.

Lemma caller_gen c0 s p : Linked c0 s -> s.(procs) !! c0 = Some p -> p.(p_gen) = O.
Proof. intros L Hp. destruct (lk_caller _ _ L) as (q & Hq & Hg). congruence. Qed.

(** A descriptor of no new pipe. *)
Lemma linked_new_pipe c0 s pid p id :
  Linked c0 s -> s.(procs) !! pid = Some p -> s.(pipes) !! id = None ->
  forall fd t, p.(p_ctx).(c_fds) !! fd = Some t -> t <> PipeR id /\ t <> PipeW id.
Proof.
  intros L Hp Hid fd t Ht. assert (~ is_Some (s.(pipes) !! id)) by (rewrite Hid; by intros [? ?]).
  split; intros ->; [destruct (lk_fds _ _ L _ _ _ _ id Hp Ht)|destruct (lk_fds _ _ L _ _ _ _ id Hp Ht)]; eauto; congruence.
Qed.

(** Adding a pipe to the table. *)
Lemma linked_more_pipes c0 s id : Linked c0 s -> Linked c0 (set_pipe id [] s).
Proof. intros L. apply linked_set_pipe; [done|]. by intros w b ?%not_elem_of_nil. Qed.

Lemma always_weaken (P Q : Z -> Proc -> Prop) pid prog p :
  (forall pid p, P pid p -> Q pid p) -> always P pid prog p -> always Q pid prog p.
Proof.
  intros HPQ. revert pid p. induction prog; intros pid' p [HP HC]; (split; [by apply HPQ|]); cbn in HC |- *;
    repeat match goal with H : _ /\ _ |- _ => destruct H | |- _ /\ _ => split end; intros; auto.
  match goal with H : forall c, _ -> _ |- _ => destruct (H c) as [? ?]; auto end.
Qed.

Lemma proc_ok_weaken (P Q : Z -> Proc -> Prop) pid p :
  (forall pid p, P pid p -> Q pid p) -> proc_ok P pid p -> proc_ok Q pid p.
Proof.
  intros HPQ [H Hc]. split; [by apply HPQ|]. intros prog E. destruct (Hc prog E) as (p0 & Ha & Ep).
  exists p0. split; [by eapply always_weaken|done].
Qed.

Section Soundness.
Context (P : Z -> Proc -> Prop) (HP : stable P) (c0 : Z).
Local Abbreviation Sound := (Sound P c0).

Lemma sound_fork s pid p k c :
  Sound s -> s.(procs) !! pid = Some p -> p.(p_run) = Code (Fork k) -> fresh_pid s c ->
  Sound (fork_sys pid c k p s).
Proof.
  intros HS Hp Hr Hc. destruct (sound_code _ _ _ _ _ _ HS Hp Hr) as (p0 & [_ [_ Ha]] & E).
  destruct HS as [L Hs]. split; [by apply linked_fork|].
  destruct Hc as (Hpos & Hnew & Hfree). destruct (Hfree _ _ Hp) as [Hg Hsid].
  destruct (Ha c) as [Hchild Hpar]; [done|congruence|by subst p; cbn in *; congruence..|]. subst p.
  intros q x [[-> ->]|[[-> ->]|(_ & _ & Hq)]]%lookup_fork; [| |by eauto].
  - by apply (proc_ok_code P c (k 0) (forked pid p0)).
  - by apply (proc_ok_code P pid (k c) (called (add_child c p0))).
Qed.

Lemma sound_new_pipe s pid p k id r w :
  Sound s -> s.(procs) !! pid = Some p -> p.(p_run) = Code (Pipe k) -> s.(pipes) !! id = None ->
  0 <= r < fd_max -> 0 <= w < fd_max -> r <> w -> p.(p_ctx).(c_fds) !! r = None -> p.(p_ctx).(c_fds) !! w = None ->
  Sound (set_pipe id [] (set_proc pid
    (set_run (Code (k (Some (r, w)))) (called (set_fds (fun f => <[w := PipeW id]> (<[r := PipeR id]> f)) p))) s)).
Proof.
  intros HS Hp Hr Hid H1 H2 H3 H4 H5. destruct (sound_code _ _ _ _ _ _ HS Hp Hr) as (p0 & [_ [_ Ha]] & ->).
  pose proof (linked_new_pipe _ _ _ _ _ (sd_linked _ _ _ HS) Hp Hid) as Hn.
  apply (sound_update P c0 (set_pipe id [] s) pid (set_run (Code (Pipe k)) p0)); [|done| |].
  - apply sound_pipe; [done|]. by intros w' b ?%not_elem_of_nil.
  - constructor; cbn; auto; try done.
    intros fd t i. rewrite !lookup_insert_Some. intros Hl Ht. apply lookup_insert_is_Some.
    destruct (decide (id = i)) as [|Hi]; [by left|]. right. split; [done|].
    destruct Hl as [[_ <-]|[_ [[_ <-]|[_ Hl]]]]; [destruct Ht; congruence..|].
    by apply (lk_fds _ _ (sd_linked _ _ _ HS) _ _ _ _ i Hp Hl).
  - apply (proc_ok_code P pid (k (Some (r, w)))
      (called (set_fds (fun f => <[w := PipeW id]> (<[r := PipeR id]> f)) p0))). by apply Ha.
Qed.

(** A signal, and what a replaced process does to itself. *)
Lemma sound_die s pid p st :
  Sound s -> s.(procs) !! pid = Some p -> (forall st, p.(p_run) <> Dead st) -> P pid (die st p) ->
  Sound (set_proc pid (die st p) s).
Proof.
  intros HS Hp Hn H. eapply sound_update; [done|done| |by apply proc_ok_done].
  constructor; cbn; auto; try done.
Qed.

Lemma sound_image_close s pid p fd :
  Sound s -> s.(procs) !! pid = Some p -> p.(p_run) = Replaced -> Sound (set_proc pid (set_fds (delete fd) p) s).
Proof.
  intros HS Hp Hr. pose proof (lk_image _ _ (sd_linked _ _ _ HS) _ _ Hp Hr).
  eapply sound_update; [done|done| |].
  - constructor; cbn; auto; try congruence. intros f t id. rewrite lookup_delete_Some. intros [_ Hf] Ht.
    by apply (lk_fds _ _ (sd_linked _ _ _ HS) _ _ _ _ id Hp Hf).
  - apply proc_ok_done; [cbn; congruence|]. destruct (sd_procs _ _ _ HS _ _ Hp) as [Hx _].
    exact (proj2 (proj2 (HP _ _ Hx) Hr) fd).
Qed.

Lemma sound_exec s pid p path argv k :
  Sound s -> s.(procs) !! pid = Some p -> p.(p_run) = Code (Exec path argv k) ->
  Sound (set_proc pid (replace path argv p) s).
Proof.
  intros HS Hp Hr. destruct (sound_code _ _ _ _ _ _ HS Hp Hr) as (p0 & [_ [Ha _]] & ->).
  eapply sound_update; [done|done| |apply proc_ok_done; done].
  constructor; cbn; auto; try done. intros fd t id Hl Ht.
  by apply (lk_fds _ _ (sd_linked _ _ _ HS) _ _ _ _ id Hp Hl).
Qed.

Lemma sound_return s pid p v :
  Sound s -> s.(procs) !! pid = Some p -> p.(p_run) = Code (Ret v) ->
  Sound (set_proc pid (set_run (Returned v) p) s).
Proof.
  intros HS Hp Hr. destruct (sound_code _ _ _ _ _ _ HS Hp Hr) as (p0 & [_ Ha] & ->).
  eapply sound_update; [done|done| |by apply proc_ok_done].
  constructor; cbn; auto; try done. intros fd t id Hl Ht.
  by apply (lk_fds _ _ (sd_linked _ _ _ HS) _ _ _ _ id Hp Hl).
Qed.

(** The answers from outside: of poll, of read, of waitpid. *)
Lemma evolves_told s pid p next p' :
  Sound s -> s.(procs) !! pid = Some p -> (forall st, p.(p_run) <> Dead st) ->
  p'.(p_gen) = p.(p_gen) -> p'.(p_parent) = p.(p_parent) -> p'.(p_children) = p.(p_children) ->
  p'.(p_image) = p.(p_image) -> p'.(p_ctx) = p.(p_ctx) ->
  (forall c st, (c, st) ∈ p'.(p_waited) -> (c, st) ∈ p.(p_waited) \/
     (c ∈ p.(p_children) /\ exists q, s.(procs) !! c = Some q /\ q.(p_run) = Dead st)) ->
  (forall w b, (w, b) ∈ p'.(p_heard) -> (w, b) ∈ p.(p_heard) \/ has_image s w) ->
  Evolves s pid p (set_run (Code next) (called p')).
Proof.
  intros HS Hp Hr Hg Hpa Hc Hi Hx Hw Hh. constructor; cbn; try congruence; auto.
  rewrite Hx. intros fd t id Hl Ht. by apply (lk_fds _ _ (sd_linked _ _ _ HS) _ _ _ _ id Hp Hl).
Qed.

(** A call that only tells the process something. *)
Lemma sound_answer s pid p prog next :
  Sound s -> s.(procs) !! pid = Some p -> p.(p_run) = Code prog ->
  (forall p0, always P pid prog p0 -> always P pid next (called p0)) ->
  Sound (set_proc pid (set_run (Code next) (called p)) s).
Proof.
  intros HS Hp Hr Ha. apply (sound_told P c0 s pid p prog next (fun q => q)); auto.
  apply evolves_told; auto. intros st. by rewrite Hr.
Qed.

Lemma sound_wait s pid p c k q st :
  Sound s -> s.(procs) !! pid = Some p -> p.(p_run) = Code (Waitpid c k) ->
  c ∈ p.(p_children) -> s.(procs) !! c = Some q -> q.(p_run) = Dead st ->
  Sound (set_proc pid (set_run (Code (k (Some st))) (called (add_waited c st p))) s).
Proof.
  intros HS Hp Hr Hc Hq Hd. apply (sound_told P c0 s pid p (Waitpid c k) (k (Some st)) (add_waited c st)); auto.
  - intros p0 [_ [_ Ha]]. apply Ha.
  - apply evolves_told; auto; [by rewrite Hr|]. cbn. intros d st' [?|Hin]%elem_of_app; [by left|].
    apply list_elem_of_singleton in Hin. injection Hin as -> ->. right. eauto.
Qed.

Lemma sound_read s pid p fd k id wr b l :
  Sound s -> s.(procs) !! pid = Some p -> p.(p_run) = Code (Read1 fd k) -> s.(pipes) !! id = Some ((wr, b) :: l) ->
  Sound (set_pipe id l (set_proc pid (set_run (Code (k (1, b))) (called (add_heard wr b p))) s)).
Proof.
  intros HS Hp Hr Hl.
  assert (Hb : forall w x, (w, x) ∈ (wr, b) :: l -> has_image s w)
    by (intros w x; apply (lk_bytes _ _ (sd_linked _ _ _ HS) _ _ w x Hl)).
  apply (sound_told P c0 (set_pipe id l s) pid p (Read1 fd k) (k (1, b)) (add_heard wr b)); auto.
  - apply sound_pipe; [done|]. intros w x Hin. apply (Hb w x). by right.
  - intros p0 [_ (_ & _ & Ha)]. apply Ha.
  - apply (evolves_told (set_pipe id l s)); auto; [|by rewrite Hr|].
    + apply sound_pipe; [done|]. intros w x Hin. apply (Hb w x). by right.
    + cbn. intros w x [?|Hin]%elem_of_app; [by left|]. apply list_elem_of_singleton in Hin.
      injection Hin as -> ->. right. apply (Hb wr b). by left.
Qed.

Lemma sound_step s kd s' : Sound s -> sys_step s kd s' -> Sound s'.
Proof.
  intros HS Hst; destruct Hst.
  - by eapply sound_own.
  - by apply sound_fork.
  - by eapply sound_exec.
  - by eapply sound_wait.
  - by apply sound_new_pipe.
  - eapply sound_answer; [done..|]. intros p0 [_ Ha]. apply Ha.
  - eapply sound_answer; [done..|]. intros p0 [_ Ha]. apply Ha.
  - eapply sound_answer; [done..|]. intros p0 [_ Ha]. apply Ha.
  - done.
  - eapply sound_answer; [done..|]. intros p0 [_ Ha]. apply Ha.
  - eapply sound_answer; [done..|]. intros p0 [_ Ha]. apply Ha.
  - eapply sound_answer; [done..|]. intros p0 [_ Ha]. apply Ha.
  - by eapply sound_read.
  - eapply sound_answer; [done..|]. intros p0 [_ Ha]. apply Ha.
  - by eapply sound_return.
  - apply sound_die; [done|done|by rewrite H0|].
    destruct (sound_code _ _ _ _ _ _ HS H H0) as (p0 & [_ Ha] & ->). exact Ha.
  - apply sound_pipe; [done|]. intros w x [Hin|Hin]%elem_of_app.
    + by apply (lk_bytes _ _ (sd_linked _ _ _ HS) _ _ w x H2).
    + apply list_elem_of_singleton in Hin. injection Hin as -> ->. exists p. split; [done|].
      by apply (lk_image _ _ (sd_linked _ _ _ HS) pid).
  - by apply sound_image_close.
  - apply sound_die; [done|done|by rewrite H0|]. destruct (sd_procs _ _ _ HS _ _ H) as [Hx _].
    destruct (HP _ _ Hx) as [_ Hi]. by apply Hi.
  - destruct (sd_procs _ _ _ HS _ _ H) as [Hx _]. apply sound_die; [done..|]. exact (proj1 (HP _ _ Hx)).
Qed.

(** What [always] says of the code holds of every process it ever has. *)
Theorem always_sound c prog s :
  caller_ctx c -> always P c0 prog (start_proc c) ->
  rtc sys_next (call c0 c prog) s -> Sound s.
Proof.
  intros Hc Ha. apply rtc_invariant; [intros a b HS [kd Hst]; by apply (sound_step a kd b)|].
  assert (Hl : forall pid p, (call c0 c prog).(procs) !! pid = Some p ->
            pid = c0 /\ p = set_run (Code prog) (start_proc c))
    by (intros pid p; cbn; rewrite lookup_singleton_Some; intros [<- <-]; done).
  split.
  - constructor; [eexists; split; [apply lookup_singleton_eq|done]|..]; try (intros pid p; intros); try (apply Hl in H as [-> ->]; cbn in *; try done).
    all: try (match goal with H : _ ∈ [] |- _ => by apply not_elem_of_nil in H end).
    { cbn in H. by rewrite lookup_empty in H. }
    destruct (Hc _ _ H0) as [n Hn]. cbn in Hn. destruct H1; congruence.
  - intros pid p [-> ->]%Hl. by apply (proc_ok_code P c0 prog (start_proc c)).
Qed.
End Soundness.

(** Calls that wait for another process. *)
Definition waits (prog : Prog) : bool :=
  match prog with Waitpid _ _ | PollIn _ _ | Read1 _ _ => true | _ => false end.

Definition not_waiting (p : Proc) : Prop := forall prog, p.(p_run) = Code prog -> waits prog = false.
Definition not_returned (p : Proc) : Prop := forall v, p.(p_run) <> Returned v.

(** ** The processes a function leaves *)

(** One process per generation, whatever predicate bounds the children. *)
Lemma one_per_generation c0 s a b pa pb :
  Linked c0 s ->
  (forall q p, s.(procs) !! q = Some p -> (p.(p_gen) <= 2)%nat /\ (p.(p_gen) <> 2%nat -> (length p.(p_children) <= 1)%nat)) ->
  s.(procs) !! a = Some pa -> s.(procs) !! b = Some pb -> p_gen pa = p_gen pb -> a = b.
Proof.
  intros L HB. assert (K : forall n a b pa pb, s.(procs) !! a = Some pa -> s.(procs) !! b = Some pb ->
    p_gen pa = n -> p_gen pb = n -> a = b); [|intros; by eapply (K (p_gen pb))].
  clear a b pa pb. induction n as [|n IH]; intros a b pa pb Ha Hb Ga Gb.
  - by rewrite (lk_root _ _ L _ _ Ha Ga), (lk_root _ _ L _ _ Hb Gb).
  - destruct (lk_up _ _ L _ _ Ha) as (qa & Hqa & Ia & Ea); [lia|].
    destruct (lk_up _ _ L _ _ Hb) as (qb & Hqb & Ib & Eb); [lia|].
    assert (p_parent pa = p_parent pb) as E by (apply (IH _ _ qa qb); auto; lia).
    rewrite E in Hqa. rewrite Hqa in Hqb. injection Hqb as <-.
    destruct (HB _ _ Ha) as [Hle _]. destruct (HB _ _ Hqa) as [_ Hl]. specialize (Hl ltac:(lia)).
    destruct (p_children qa) as [|d [|]]; [by apply not_elem_of_nil in Ia| |cbn in Hl; lia].
    apply list_elem_of_singleton in Ia, Ib. congruence.
Qed.

(** A call that does not wait can be made. *)
Lemma can_work s pid p prog :
  s.(procs) !! pid = Some p -> p.(p_run) = Code prog -> waits prog = false -> exists s', sys_step s Work s'.
Proof.
  intros Hp Hr Hw. destruct prog; try done;
    try (eexists; eapply step_own; [exact Hp|exact Hr|solve [apply (own_access _ _ _ _ true)|constructor]]).
  - eexists. by eapply step_return.
  - eexists. by eapply step_exit.
  - destruct (decide (c_pgid (p_ctx p) = pid)); eexists; (eapply step_own; [exact Hp|exact Hr|]);
      [by apply own_setsid_leader|by apply own_setsid].
Qed.

(** ** Reads that cannot block *)

(** In [prog] a byte is read only right after [PollIn] found data at that
    descriptor ([armed]: it just did). *)
Fixpoint polls_first (armed : option Z) (prog : Prog) {struct prog} : Prop :=
  match prog with
  | Ret _ | Halt _ => True
  | Fork k | Setsid k | OpenNull k => forall a, polls_first None (k a)
  | Exec _ _ k | Dup2 _ _ k | Close _ k | Setenv _ _ k => polls_first None k
  | Waitpid _ k => forall a, polls_first None (k a)
  | Pipe k => forall a, polls_first None (k a)
  | Access _ k => forall a, polls_first None (k a)
  | PollIn fd k =>
      (forall v, polls_first None (k (v, false))) /\ polls_first (Some fd) (k (1, true))
  | Read1 fd k => armed = Some fd /\ forall a, polls_first None (k a)
  end.

(** Only [c0] waits for others. *)
Definition only_waiter (c0 : Z) (s : Sys) : Prop :=
  forall q p prog, s.(procs) !! q = Some p -> p.(p_run) = Code prog -> q <> c0 -> waits prog = false.

(** [prog] polls before it reads, or it is the read after a poll and the data is still there. *)
Definition reads_data (s : Sys) (fds : gmap Z Target) (prog : Prog) : Prop :=
  polls_first None prog \/
  exists fd k id e l, prog = Read1 fd k /\ (forall a, polls_first None (k a)) /\ fds !! fd = Some (PipeR id) /\ s.(pipes) !! id = Some (e :: l).
Definition ready_reader (c0 : Z) (s : Sys) : Prop :=
  forall p prog, s.(procs) !! c0 = Some p -> p.(p_run) = Code prog -> reads_data s p.(p_ctx).(c_fds) prog.

Lemma polls_armed s fds fd id e l prog :
  polls_first (Some fd) prog -> fds !! fd = Some (PipeR id) -> s.(pipes) !! id = Some (e :: l) -> reads_data s fds prog.
Proof.
  intros H Hf Hi. destruct prog; try (by left). cbn in H. destruct H as [[= ->] H]. right. eauto 10.
Qed.

Lemma own_call_polls pid p prog next p' : own_call pid p prog next p' -> polls_first None prog -> polls_first None next.
Proof. intros Ho; destruct Ho; cbn; auto. Qed.

Lemma own_call_no_read pid p fd k next p' : ~ own_call pid p (Read1 fd k) next p'.
Proof. intros H. inversion H. Qed.

(** A step of [c0] itself: what its code is afterwards. *)
Lemma ready_self c0 s p' pp :
  (forall prog, p'.(p_run) = Code prog -> reads_data (mkSys s.(procs) pp) p'.(p_ctx).(c_fds) prog) ->
  ready_reader c0 (mkSys (<[c0 := p']> s.(procs)) pp).
Proof. intros H p prog. cbn. rewrite lookup_insert_eq. intros [= <-]. apply H. Qed.

(** A step of another process that takes nothing out of a pipe. *)
Lemma ready_other c0 s q p' pp :
  ready_reader c0 s -> q <> c0 ->
  (forall id e l, s.(pipes) !! id = Some (e :: l) -> exists e' l', pp !! id = Some (e' :: l')) ->
  ready_reader c0 (mkSys (<[q := p']> s.(procs)) pp).
Proof.
  intros HR Hq Hk p prog. cbn. rewrite lookup_insert_ne by done. intros Hp Hc.
  destruct (HR p prog Hp Hc) as [|(fd & k & id & e & l & ? & ? & ? & Hi)]; [by left|].
  destruct (Hk _ _ _ Hi) as (e' & l' & ?). right. eauto 10.
Qed.

Lemma ready_update c0 s q p' :
  ready_reader c0 s ->
  (q = c0 -> forall prog, p'.(p_run) = Code prog -> reads_data s p'.(p_ctx).(c_fds) prog) ->
  ready_reader c0 (set_proc q p' s).
Proof.
  intros HR Hs. destruct (decide (q = c0)) as [->|Hq].
  - apply ready_self. intros prog Hc. by apply Hs.
  - apply ready_other; eauto.
Qed.

Lemma ready_pipes c0 s pp :
  ready_reader c0 s ->
  (forall id e l, s.(pipes) !! id = Some (e :: l) -> exists e' l', pp !! id = Some (e' :: l')) ->
  ready_reader c0 (mkSys s.(procs) pp).
Proof.
  intros HR Hk p prog Hp Hc. destruct (HR p prog Hp Hc) as [|(fd & k & id & e & l & ? & ? & ? & Hi)]; [by left|].
  destruct (Hk _ _ _ Hi) as (e' & l' & ?). right. eauto 10.
Qed.

(** Every step keeps that. *)
Lemma ready_step c0 s kd s' :
  is_Some (s.(procs) !! c0) -> only_waiter c0 s -> ready_reader c0 s -> sys_step s kd s' -> ready_reader c0 s'.
Proof.
  intros Hex HO HR Hst.
  assert (HC : forall pid p prog, s.(procs) !! pid = Some p -> p.(p_run) = Code prog -> pid = c0 ->
            (forall fd k, prog <> Read1 fd k) -> polls_first None prog).
  { intros pid p prog Hp Hc -> Hn. destruct (HR p prog Hp Hc) as [|(fd & k & ? & ? & ? & -> & _)]; [done|by destruct (Hn fd k)]. }
  assert (HRd : forall pid p fd k, s.(procs) !! pid = Some p -> p.(p_run) = Code (Read1 fd k) ->
            pid = c0 /\ forall a, polls_first None (k a)).
  { intros pid p fd k Hp Hc. destruct (decide (pid = c0)) as [->|Hq]; [|by specialize (HO _ _ _ Hp Hc Hq)].
    split; [done|]. destruct (HR p _ Hp Hc) as [[? _]|(? & ? & ? & ? & ? & [= <- <-] & H & _)]; [done|apply H]. }
  assert (HP : forall id e l pp id' l', s.(pipes) !! id = Some (e :: l) -> pp = s.(pipes) ->
            (id = id' -> l' <> []) -> exists e' l0, (<[id' := l']> pp) !! id = Some (e' :: l0)).
  { intros id e l pp id' l' Hi -> Hne. rewrite lookup_insert. case_decide; [|eauto].
    destruct l'; [by destruct Hne|eauto]. }
  destruct Hst; try (apply ready_update; [done|]; intros Hq prog' Hc'; cbn in Hc'; try done; try (injection Hc' as <-)).
  - left. eapply own_call_polls; [done|]. eapply HC; eauto. intros fd k ->. by eapply own_call_no_read.
  - destruct H1 as (_ & H1 & _). apply (ready_update c0 (set_proc pid _ s)).
    + apply ready_update; [done|]. intros -> prog' [= <-]. left. by apply (HC _ _ _ H H0).
    + intros ->. destruct Hex as [? Hex]. congruence.
  - left. by apply (HC _ _ _ H H0 Hq).
  - apply (ready_pipes c0 (set_proc pid _ s)).
    + apply ready_update; [done|]. intros -> prog' [= <-]. left. by apply (HC _ _ _ H H0).
    + intros id' e l Hi. eapply HP; [exact Hi|done|]. intros ->. cbn in Hi. congruence.
  - eapply polls_armed; [|exact H1|exact H2]. apply (HC _ _ _ H H0 Hq). done.
  - left. by apply (HC _ _ _ H H0 Hq).
  - left. by apply (HC _ _ _ H H0 Hq).
  - done.
  - left. by apply (HC _ _ _ H H0 Hq).
  - left. by apply (HC _ _ _ H H0 Hq).
  - left. by apply (HRd _ _ _ _ H H0).
  - destruct (HRd _ _ _ _ H H0) as [-> Hk]. apply (ready_self c0 s). intros prog [= <-]. left. apply Hk.
  - left. by apply (HRd _ _ _ _ H H0).
  - apply ready_pipes; [done|]. intros id' e l' Hi. eapply HP; [exact Hi|done|]. intros _. by destruct l.
  - congruence.
Qed.

(** ** Runs *)

(** A move of one process: its next call, answered by [Go ans] (the id of the
    child or the descriptor where there is a choice, a failure when negative), or
    a byte the program of a replaced process writes. *)
Inductive move := Go (ans : Z) | Writes (fd b : Z).

Definition free_pid (s : Sys) (c : Z) : bool :=
  (0 <? c) && bool_decide (s.(procs) !! c = None) &&
  bool_decide (map_Forall (fun _ p => p.(p_ctx).(c_pgid) <> c /\ p.(p_ctx).(c_sid) <> c) s.(procs)).

Lemma free_pid_fresh s c : free_pid s c = true -> fresh_pid s c.
Proof. unfold free_pid. intros H. breflect. split; [done|]. split; [done|]. exact H0. Qed.

Definition own_move (pid : Z) (p : Proc) (prog : Prog) (ans : Z) : option (Prog * Proc) :=
  match prog with
  | Setsid k => if decide (p.(p_ctx).(c_pgid) = pid) then Some (k (-1), p) else Some (k pid, set_session pid p)
  | OpenNull k =>
      if (0 <=? ans) && (ans <? fd_max) && bool_decide (p.(p_ctx).(c_fds) !! ans = None)
      then Some (k ans, set_fds <[ans := DevNull]> p) else Some (k (-1), p)
  | Dup2 a b k => Some (k, set_fds (dup2 a b) p)
  | Close fd k => Some (k, set_fds (delete fd) p)
  | Setenv name value k => Some (k, set_env name value p)
  | Access _ k => Some (k (0 <=? ans), p)
  | Fork k => if ans <? 0 then Some (k (-1), p) else None
  | Pipe k => if ans <? 0 then Some (k None, p) else None
  | _ => None
  end.

Definition code_move (pid : Z) (p : Proc) (prog : Prog) (ans : Z) (s : Sys) : option Sys :=
  match prog with
  | Ret v => Some (set_proc pid (set_run (Returned v) p) s)
  | Halt code => Some (set_proc pid (die (Exited code) p) s)
  | Exec path argv _ => Some (set_proc pid (replace path argv p) s)
  | Fork k => if free_pid s ans then Some (fork_sys pid ans k p s) else None
  | Waitpid c k =>
      match s.(procs) !! c with
      | Some q =>
          match q.(p_run) with
          | Dead st => if bool_decide (c ∈ p.(p_children))
                       then Some (set_proc pid (set_run (Code (k (Some st))) (called (add_waited c st p))) s) else None
          | _ => None
          end
      | None => None
      end
  | Pipe k =>
      let id := Z.to_nat ans in let r := ans in let w := ans + 1 in
      if (0 <=? r) && (w <? fd_max) && bool_decide (s.(pipes) !! id = None) &&
         bool_decide (p.(p_ctx).(c_fds) !! r = None) && bool_decide (p.(p_ctx).(c_fds) !! w = None)
      then Some (set_pipe id [] (set_proc pid
             (set_run (Code (k (Some (r, w)))) (called (set_fds (fun f => <[w := PipeW id]> (<[r := PipeR id]> f)) p))) s))
      else None
  | PollIn fd k =>
      match p.(p_ctx).(c_fds) !! fd with
      | Some (PipeR id) =>
          match s.(pipes) !! id with
          | Some (_ :: _) => Some (set_proc pid (set_run (Code (k (1, true))) (called p)) s)
          | Some [] => if decide (has_writer s id)
                       then Some (set_proc pid (set_run (Code (k (0, false))) (called p)) s)
                       else Some (set_proc pid (set_run (Code (k (1, false))) (called p)) s)
          | None => None
          end
      | _ => None
      end
  | Read1 fd k =>
      match p.(p_ctx).(c_fds) !! fd with
      | Some (PipeR id) =>
          match s.(pipes) !! id with
          | Some ((wr, b) :: l) =>
              Some (set_pipe id l (set_proc pid (set_run (Code (k (1, b))) (called (add_heard wr b p))) s))
          | _ => None
          end
      | _ => None
      end
  | _ => None
  end.

Definition move_step (pid : Z) (m : move) (s : Sys) : option Sys :=
  match s.(procs) !! pid with
  | None => None
  | Some p =>
      match p.(p_run), m with
      | Code prog, Go ans =>
          match own_move pid p prog ans with
          | Some (next, p') => Some (set_proc pid (set_run (Code next) (called p')) s)
          | None => code_move pid p prog ans s
          end
      | Replaced, Go code => Some (set_proc pid (die (Exited code) p) s)
      | Replaced, Writes fd b =>
          match p.(p_ctx).(c_fds) !! fd with
          | Some (PipeW id) =>
              match s.(pipes) !! id with Some l => Some (set_pipe id (l ++ [(pid, b)]) s) | None => None end
          | _ => None
          end
      | _, _ => None
      end
  end.

Fixpoint moves (ms : list (Z * move)) (s : Sys) : option Sys :=
  match ms with
  | [] => Some s
  | (pid, m) :: ms' => match move_step pid m s with Some s' => moves ms' s' | None => None end
  end.

Lemma own_move_call pid p prog ans next p' : own_move pid p prog ans = Some (next, p') -> own_call pid p prog next p'.
Proof.
  unfold own_move. intros E. destruct prog; try done; repeat case_bool; try case_decide; try done;
    injection E as <- <-; breflect; constructor; auto; lia.
Qed.

Lemma code_move_next pid p prog ans s s' :
  s.(procs) !! pid = Some p -> p.(p_run) = Code prog -> code_move pid p prog ans s = Some s' -> sys_next s s'.
Proof.
  intros Hp Hr. unfold code_move. intros H. exists Work. destruct prog; try done.
  - injection H as <-. by apply step_return.
  - injection H as <-. by apply step_exit.
  - destruct (free_pid s ans) eqn:E; [|done]. injection H as <-. apply step_fork; [done..|by apply free_pid_fresh].
  - injection H as <-. by eapply step_exec.
  - destruct (procs s !! pid0) as [q|] eqn:Eq; [|done]. destruct (p_run q) eqn:Er; try done.
    case_bool; [|done]. injection H as <-. breflect. by eapply step_wait.
  - case_bool; [|done]. injection H as <-. breflect. apply step_pipe; auto; lia.
  - destruct (c_fds (p_ctx p) !! fd) as [[]|] eqn:Ef; try done. destruct (pipes s !! p0) as [[|e l]|] eqn:El; [| |done].
    + destruct (decide (has_writer s p0)); injection H as <-; [by eapply step_poll_timeout|by eapply step_poll_hup].
    + injection H as <-. by eapply step_poll_in.
  - destruct (c_fds (p_ctx p) !! fd) as [[]|] eqn:Ef; try done. destruct (pipes s !! p0) as [[|[wr b] l]|] eqn:El; try done.
    injection H as <-. by eapply step_read.
Qed.

Lemma move_next pid m s s' : move_step pid m s = Some s' -> sys_next s s'.
Proof.
  unfold move_step. destruct (procs s !! pid) as [p|] eqn:Hp; [|done].
  destruct (p_run p) as [prog| | |] eqn:Hr; [| | |by destruct m]; destruct m as [ans|fd b]; try done.
  - destruct (own_move pid p prog ans) as [[next p']|] eqn:E; [|by apply code_move_next].
    intros [= <-]. exists Work. apply (step_own s pid p prog next p'); [done..|by apply own_move_call in E].
  - intros [= <-]. exists Work. by apply step_image_exit.
  - destruct (c_fds (p_ctx p) !! fd) as [[]|] eqn:Ef; try done. destruct (pipes s !! p0) as [l|] eqn:El; [|done].
    intros [= <-]. exists Work. by eapply step_image_write.
Qed.

Lemma moves_reach ms s s' : moves ms s = Some s' -> rtc sys_next s s'.
Proof.
  revert s. induction ms as [|[pid m] ms IH]; intros s; cbn; [intros [= ->]; apply rtc_refl|].
  destruct (move_step pid m s) as [s1|] eqn:E; [|done]. intros H. eapply rtc_l; [by eapply move_next|by apply IH].
Qed.
