(* ===== verification/Spawn.v ===== *)
(** * Starting other processes ([src/platform/spawn.c], [src/platform/open_path.c], [daemonize] of [src/daemon/daemon.c])

    The functions as trees of system calls (Process.v), what each promises of
    every process it creates, in every interleaving, and runs of them. *)

From S2P Require Import Prelude Path FileIo QueueManager Db Config Engine Scheduler Wire Commands Offers Ipc IpcClient OfferRpc Cli Popup Launch Process.
#[local] Open Scope cdm_scope.

(** ** The functions *)

(** [waitpid] answered, [WIFEXITED] and [WEXITSTATUS == 0]. *)
Definition exited_ok (status : option wstatus) : bool :=
  match status with Some (Exited code) => code =? 0 | _ => false end.

Definition get_self_exe_path (buf_size : Z) (link : option bytes) : bytes :=
  match link with
  | None => []
  | Some target => take (Z.to_nat (buf_size - 1)) target
  end.

(** The block that four functions repeat. *)
Definition redirect_stdio (next : Prog) : Prog :=
  devnull <- OpenNull ;;
  if 0 <=? devnull then
    Dup2 devnull 0 ;;; Dup2 devnull 1 ;;; Dup2 devnull 2 ;;;
    if 2 <? devnull then Close devnull ;;; next else next
  else next.

Definition daemon_argv (exe : bytes) : list bytes := [exe; str "daemon"].

Definition spawn_daemon_detached (exe : bytes) : Prog :=
  pid <- Fork ;;
  if pid <? 0 then Ret (-1)
  else if pid =? 0 then
    _ <- Setsid ;;
    pid2 <- Fork ;;
    if pid2 =? 0 then Exec exe (daemon_argv exe) ;;; Halt 127
    else Halt 0
  else
    _ <- Waitpid pid ;;
    Ret 0.

Definition ready_fd_name : bytes := str "CDM_BROWSER_READY_FD".

(** The wait of the caller: poll, read, close, compare. *)
Definition finish_popup (fd ready marker : Z) : Prog :=
  Close fd ;;;
  Ret (if (ready =? 1) && (marker =? 82) then 0 else -1).     (* 'R' *)
Definition await_marker (fd : Z) : Prog :=
  ready <- PollIn fd ;;
  if (0 <? fst ready) && snd ready then
    got <- Read1 fd ;;
    finish_popup fd (fst got) (if fst got =? 1 then snd got else 0)
  else finish_popup fd (fst ready) 0.

Definition spawn_browser_popup_detached (exe : bytes) (offer_id : Z) : Prog :=
  ready_pipe <- Pipe ;;
  match ready_pipe with
  | None => Ret (-1)
  | Some (r, w) =>
      pid <- Fork ;;
      if pid <? 0 then Close r ;;; Close w ;;; Ret (-1)
      else if pid =? 0 then
        Close r ;;;
        sid <- Setsid ;;
        if sid <? 0 then Halt 127 else
        child <- Fork ;;
        if child <? 0 then Halt 127
        else if child =? 0 then
          Setenv ready_fd_name (popup_ready_fd w) ;;;
          redirect_stdio (Exec exe (popup_argv exe offer_id) ;;; Halt 127)
        else Close w ;;; Halt 0
      else
        Close w ;;;
        status <- Waitpid pid ;;
        if exited_ok status then await_marker r else Close r ;;; Ret (-1)
  end.

(** [execlp]: the name is looked up in PATH. *)
Definition open_argv (path : bytes) : list bytes := [str "xdg-open"; path].

Definition platform_open_path (path : option bytes) : Prog :=
  match path with
  | None | Some [] => Ret (-1)
  | Some path =>
      there <- Access path ;;
      if negb there then Ret (-1) else
      pid <- Fork ;;
      if pid <? 0 then Ret (-1)
      else if pid =? 0 then
        sid <- Setsid ;;
        if sid <? 0 then Halt 127 else
        child <- Fork ;;
        if child <? 0 then Halt 127
        else if child =? 0 then redirect_stdio (Exec (str "xdg-open") (open_argv path) ;;; Halt 127)
        else Halt 0
      else
        status <- Waitpid pid ;;
        if exited_ok status then Ret 0 else Ret (-1)
  end.

(** [Ret]: the process that goes on as the daemon. *)
Definition daemonize : Prog :=
  pid <- Fork ;;
  if pid <? 0 then Halt 1
  else if 0 <? pid then Halt 0
  else
    _ <- Setsid ;;
    pid <- Fork ;;
    if pid <? 0 then Halt 1
    else if 0 <? pid then Halt 0
    else redirect_stdio (Ret 0).

(** ** What the functions start *)

(** Process [pid] runs [(path, argv)] in a session that is not the caller's and
    that it does not lead: no terminal can become its own. *)
Definition started (x : Ctx) (path : bytes) (argv : list bytes) (pid : Z) (im : Image) : Prop :=
  im.(i_path) = path /\ im.(i_argv) = argv /\
  im.(i_ctx).(c_sid) <> x.(c_sid) /\ im.(i_ctx).(c_sid) <> pid.

Section Detach.
Context (x : Ctx) (path : bytes) (argv : list bytes).
Context (img : Ctx -> Prop) (caller : Proc -> Prop) (sure : Prop).

(** A function that forks twice and execs in the second generation: what holds
    of the caller ([0]), of its child ([1]) and of the child of that ([2]) at
    every call.  [img], [caller]: what more holds of the program that was
    started and of the caller; [sure]: the child reports a failed fork. *)
Definition detaches (pid : Z) (p : Proc) : Prop :=
  (p.(p_calls) <= 20)%nat /\
  match p.(p_gen) with
  | O => (length p.(p_children) <= 1)%nat /\ p.(p_image) = None /\ p.(p_run) <> Replaced /\
         (forall v, p.(p_run) = Returned v -> p.(p_ctx) = x /\ (v = 0 /\ p.(p_children) <> [] \/ v = -1)) /\
         (forall c k, p.(p_run) = Code (Waitpid c k) -> c ∈ p.(p_children)) /\ caller p
  | 1%nat => (length p.(p_children) <= 1)%nat /\ p.(p_image) = None /\ p.(p_run) <> Replaced /\
         not_returned p /\ not_waiting p /\ (sure -> p.(p_run) = Dead (Exited 0) -> p.(p_children) <> [])
  | 2%nat => p.(p_children) = [] /\ not_returned p /\ not_waiting p /\
         (forall im, p.(p_image) = Some im -> started x path argv pid im /\ img im.(i_ctx))
  | _ => False
  end.

Lemma stable_detaches : (forall p, caller p -> caller (die Signaled p)) -> stable detaches.
Proof.
  intros Hc pid p [Hn H]. unfold detaches. split; [|intros Hrep]; cbn.
  - split; [done|]. destruct (p_gen p) as [|[|[|]]]; [| | |done].
    + destruct H as (? & ? & _ & _ & _ & ?). split_and!; try done. by apply Hc.
    + destruct H as (? & ? & _). split_and!; done.
    + destruct H as (? & _ & _ & ?). split_and!; done.
  - destruct (p_gen p) as [|[|[|]]]; [by destruct H as (_ & _ & [] & _)..| |done].
    destruct H as (? & ? & ? & ?). split; intros; split; try done.
Qed.
End Detach.

Lemma detaches_sure x path argv img caller (a b : Prop) :
  (b -> a) -> forall pid p, detaches x path argv img caller a pid p -> detaches x path argv img caller b pid p.
Proof.
  intros Hab pid p [Hn H]. split; [done|]. destruct (p_gen p) as [|[|[|]]]; try done.
  destruct H as (? & ? & ? & ? & ? & H). split_and!; auto.
Qed.

(** The descriptor a call looks for data at. *)
Definition listens (prog : Prog) : option Z :=
  match prog with PollIn fd _ | Read1 fd _ => Some fd | _ => None end.
Definition no_listening (p : Proc) : Prop := forall prog, p.(p_run) = Code prog -> listens prog = None.

(** Running a tree symbolically: every call, every answer, and what [detaches]
    asks there. *)
Create HintDb cdm_proc.
Ltac sym_tests :=
  repeat match goal with
  | b : bool |- _ => destruct b
  | st : wstatus |- _ => destruct st; cbn
  | |- context [?a <? ?b] => destruct (Z.ltb_spec a b); try lia
  | |- context [?a =? ?b] => destruct (Z.eqb_spec a b); try lia
  | |- context [?a <=? ?b] => destruct (Z.leb_spec a b); try lia
  end.
Ltac sym_proc :=
  cbn [called add_child set_fds set_ctx set_session set_env add_waited add_heard forked start_proc set_run die replace
       p_gen p_parent p_ctx p_children p_waited p_heard p_calls p_image p_run c_pgid c_sid c_fds c_env
       exited_ok negb andb fst snd].
Ltac sym_run :=
  repeat (sym_proc; split_and?; intros; split_and?; sym_tests; sym_proc;
          lazymatch goal with |- always _ _ _ _ => apply always_unfold; cbv beta iota | _ => idtac end).
Ltac sym_eqs :=
  repeat match goal with
  | H : Code _ = Code ?prog |- _ => first [is_var prog; injection H as H; subst prog|injection H as H]
  | H : Waitpid _ _ = Waitpid _ _ |- _ => injection H as ? _; subst
  | H : Code _ = Returned _ |- _ => discriminate
  | H : Returned _ = Returned _ |- _ => injection H as ?; subst
  | H : Dead _ = Dead _ |- _ => injection H as ?; subst
  | H : Exited _ = Exited _ |- _ => injection H as ?; subst
  | H : Some _ = Some _ |- _ => injection H as ?; subst
  | H : listens _ = _ |- _ => progress cbn [listens] in H
  end; try discriminate; cbn [waits listens i_path i_argv i_ctx c_fds c_env c_sid c_pgid].
Ltac sym_leaf :=
  unfold detaches, not_returned, not_waiting, no_listening, started; cbn; split_and!;
  intros; try done; try discriminate; sym_eqs; split_and?; try done; try lia; try (apply list_elem_of_singleton; done); eauto with cdm_proc.

#[local] Arguments str : simpl never.
#[local] Arguments popup_ready_fd : simpl never.
#[local] Arguments popup_argv : simpl never.
#[local] Arguments open_argv : simpl never.
#[local] Arguments daemon_argv : simpl never.
#[local] Arguments ready_fd_name : simpl never.

Lemma always_spawn_daemon c0 x exe :
  0 < c0 ->
  always (detaches x exe (daemon_argv exe) (fun c => c.(c_fds) = x.(c_fds)) no_listening False) c0
    (spawn_daemon_detached exe) (start_proc x).
Proof. intros H0. unfold spawn_daemon_detached, start_proc. sym_run; sym_leaf. Qed.

(** The descriptors after [redirect_stdio], [n] being the one of [/dev/null]. *)
Abbreviation null_fds n fds := (dup2 n%Z 2 (dup2 n%Z 1 (dup2 n%Z 0 (<[n%Z := DevNull]> fds)))).

Lemma dup2_null n fd fds : fds !! n = Some DevNull -> dup2 n fd fds = <[fd := DevNull]> fds.
Proof. intros H. unfold dup2. by rewrite H. Qed.

Lemma null_fds_eq n fds :
  null_fds n fds = <[2 := DevNull]> (<[1 := DevNull]> (<[0 := DevNull]> (<[n := DevNull]> fds))).
Proof.
  assert (K : forall fd m, m !! n = Some DevNull -> <[fd := DevNull]> m !! n = Some DevNull)
    by (intros fd m Hm; rewrite lookup_insert; by case_decide).
  pose proof (lookup_insert_eq fds n DevNull) as H0.
  rewrite (dup2_null n 0) by done. apply (K 0) in H0. rewrite (dup2_null n 1) by done.
  apply (K 1) in H0. by rewrite (dup2_null n 2).
Qed.

Lemma null_fds_std n fds fd : 0 <= fd <= 2 -> null_fds n fds !! fd = Some DevNull.
Proof.
  intros H. rewrite null_fds_eq, !lookup_insert. repeat case_decide; done || lia.
Qed.

Lemma null_fds_other n fds fd : 2 < fd -> fd <> n -> null_fds n fds !! fd = fds !! fd.
Proof. intros H Hn. rewrite null_fds_eq. by rewrite !lookup_insert_ne by lia. Qed.

(** The standard streams lead nowhere, or are the caller's. *)
Definition stdio_null (x c : Ctx) : Prop :=
  (forall fd, 0 <= fd <= 2 -> c.(c_fds) !! fd = Some DevNull) \/
  (forall fd, 0 <= fd <= 2 -> c.(c_fds) !! fd = x.(c_fds) !! fd).

Lemma stdio_same x pg sd env : stdio_null x (mkCtx pg sd x.(c_fds) env).
Proof. by right. Qed.

Lemma stdio_kept x pg sd env fds n :
  2 < n -> stdio_null x (mkCtx pg sd (delete n (null_fds n fds)) env).
Proof. intros Hn. left. intros fd H. cbn. rewrite lookup_delete_ne by lia. by apply null_fds_std. Qed.

Lemma stdio_low x pg sd env fds n : stdio_null x (mkCtx pg sd (null_fds n fds) env).
Proof. left. intros fd. apply null_fds_std. Qed.
#[local] Hint Resolve stdio_same stdio_kept stdio_low : cdm_proc.

(** The caller of [platform_open_path]: it returns 0 after a child that exited with 0. *)
Definition opener_caller (p : Proc) : Prop :=
  no_listening p /\ (p.(p_run) = Returned 0 -> exists c, p.(p_waited) = [(c, Exited 0)]).

Lemma always_open_path c0 x path :
  0 < c0 ->
  always (detaches x (str "xdg-open") (open_argv path) (stdio_null x) opener_caller True) c0
    (platform_open_path (Some path)) (start_proc x).
Proof.
  intros H0. unfold platform_open_path, start_proc, redirect_stdio. destruct path as [|ch path];
    sym_run; sym_leaf; unfold opener_caller, no_listening; cbn; split_and?; intros; try done; sym_eqs; try done; subst; eauto.
Qed.

(** The popup: its streams, its descriptor of the pipe and where it is told that. *)
Definition popup_ctx (x c : Ctx) : Prop :=
  stdio_null x c /\
  exists w id, 3 <= w < fd_max /\ c.(c_fds) !! w = Some (PipeW id) /\
    c.(c_env) !! ready_fd_name = Some (popup_ready_fd w) /\
    forall fd, c.(c_fds) !! fd <> Some (PipeR id).


(** The caller of [spawn_browser_popup_detached]: what it knows when it returns 0, and while it
    waits for the marker. *)
Definition popup_caller (p : Proc) : Prop :=
  (p.(p_run) = Returned 0 -> exists c g, p.(p_children) = [c] /\ p.(p_waited) = [(c, Exited 0)] /\ p.(p_heard) = [(g, 82)]) /\
  (forall prog fd, p.(p_run) = Code prog -> listens prog = Some fd ->
     (exists c id, p.(p_children) = [c] /\ p.(p_waited) = [(c, Exited 0)] /\ p.(p_ctx).(c_fds) !! fd = Some (PipeR id)) /\
     forall fd' i, p.(p_ctx).(c_fds) !! fd' <> Some (PipeW i)).

Section PopupFds.
Context (x : Ctx) (id : nat) (r w : Z).
Context (Hstd : forall fd, 0 <= fd <= 2 -> is_Some (x.(c_fds) !! fd)) (Hx : caller_ctx x).
Context (Hr : 0 <= r < fd_max) (Hw : 0 <= w < fd_max) (Hrw : r <> w).
Context (Hfr : x.(c_fds) !! r = None) (Hfw : x.(c_fds) !! w = None).
Abbreviation piped := (<[w := PipeW id]> (<[r := PipeR id]> x.(c_fds))).

Lemma fresh_fd_3 fd : 0 <= fd -> x.(c_fds) !! fd = None -> 3 <= fd.
Proof. intros H Hn. destruct (decide (3 <= fd)); [done|]. destruct (Hstd fd ltac:(lia)). congruence. Qed.

Lemma ctx_closed : mkCtx x.(c_pgid) x.(c_sid) (delete w (delete r piped)) x.(c_env) = x.
Proof.
  rewrite delete_insert_ne by done. rewrite !delete_insert_id; [by destruct x|done|].
  by rewrite delete_insert_id.
Qed.

Lemma ctx_closed' : mkCtx x.(c_pgid) x.(c_sid) (delete r (delete w piped)) x.(c_env) = x.
Proof. rewrite delete_delete. apply ctx_closed. Qed.

(** Once the caller closed the writing end, it can only read. *)
Lemma reader_only :
  delete w piped !! r = Some (PipeR id) /\ forall fd i, delete w piped !! fd <> Some (PipeW i).
Proof.
  split.
  - by rewrite lookup_delete_ne, lookup_insert_ne, lookup_insert_eq.
  - intros fd i. rewrite lookup_delete_Some, !lookup_insert_Some. intros [Hn [[? _]|[_ [[_ ?]|[_ H]]]]]; [done..|].
    destruct (Hx _ _ H) as [n Hi]. done.
Qed.

(** What the process that runs the popup has: the writing end. *)
Lemma writer_only :
  3 <= w < fd_max /\ delete r piped !! w = Some (PipeW id) /\ forall fd i, delete r piped !! fd <> Some (PipeR i).
Proof.
  split; [pose proof (fresh_fd_3 w ltac:(lia) Hfw); lia|]. split.
  - by rewrite lookup_delete_ne, lookup_insert_eq.
  - intros fd i. rewrite lookup_delete_Some, !lookup_insert_Some. intros [Hn [[_ ?]|[_ [[? _]|[_ H]]]]]; [done..|].
    destruct (Hx _ _ H) as [n Hi]. done.
Qed.

Lemma popup_ctx_kept sd env : popup_ctx x (mkCtx sd sd (delete r piped) (<[ready_fd_name := popup_ready_fd w]> env)).
Proof.
  destruct writer_only as (H3 & Hpw & Hno). split.
  - right. intros fd H. cbn. pose proof (fresh_fd_3 r ltac:(lia) Hfr).
    by rewrite lookup_delete_ne, !lookup_insert_ne by lia.
  - exists w, id. cbn. rewrite lookup_insert_eq. auto.
Qed.

Lemma null_fds_pipe n :
  0 <= n -> delete r piped !! n = None -> null_fds n (delete r piped) !! w = Some (PipeW id) /\
  forall fd i, null_fds n (delete r piped) !! fd <> Some (PipeR i).
Proof.
  intros Hn Hnone. destruct writer_only as (H3 & Hpw & Hno). split.
  - rewrite null_fds_other; [done|lia|congruence].
  - intros fd i. rewrite null_fds_eq, !lookup_insert_Some.
    intros [[_ ?]|[_ [[_ ?]|[_ [[_ ?]|[_ [[_ ?]|[_ H]]]]]]]]; try done. by apply (Hno fd i).
Qed.

Lemma popup_ctx_low n sd env :
  0 <= n -> delete r piped !! n = None ->
  popup_ctx x (mkCtx sd sd (null_fds n (delete r piped)) (<[ready_fd_name := popup_ready_fd w]> env)).
Proof.
  intros Hn Hnone. destruct (null_fds_pipe n Hn Hnone) as [Hpw Hno]. destruct writer_only as (H3 & _).
  split; [apply stdio_low|]. exists w, id. cbn. rewrite lookup_insert_eq. auto.
Qed.

Lemma popup_ctx_high n sd env :
  2 < n -> delete r piped !! n = None ->
  popup_ctx x (mkCtx sd sd (delete n (null_fds n (delete r piped))) (<[ready_fd_name := popup_ready_fd w]> env)).
Proof.
  intros Hn Hnone. destruct (null_fds_pipe n ltac:(lia) Hnone) as [Hpw Hno]. destruct writer_only as (H3 & Hd & _).
  split; [by apply stdio_kept|]. exists w, id. cbn. rewrite lookup_insert_eq, lookup_delete_ne by congruence.
  do 3 (split; [done|]). intros fd. rewrite lookup_delete_Some. intros [_ H]. by apply (Hno fd id).
Qed.
End PopupFds.
#[local] Hint Resolve ctx_closed ctx_closed' popup_ctx_kept popup_ctx_low popup_ctx_high : cdm_proc.
#[local] Hint Extern 1 (2 < _) => lia : cdm_proc.

Lemma always_spawn_popup c0 x exe offer_id :
  0 < c0 -> caller_ctx x -> (forall fd, 0 <= fd <= 2 -> is_Some (x.(c_fds) !! fd)) ->
  always (detaches x exe (popup_argv exe offer_id) (popup_ctx x) popup_caller True) c0
    (spawn_browser_popup_detached exe offer_id) (start_proc x).
Proof.
  intros H0 Hx Hstd. unfold spawn_browser_popup_detached, start_proc, redirect_stdio, await_marker, finish_popup.
  sym_run; (sym_leaf; unfold popup_caller; cbn; split_and?; intros; try done; try discriminate; sym_eqs; try done; subst; eauto 6 with cdm_proc;
    match goal with |- context [delete ?w (<[_ := PipeW ?id]> (<[?r := _]> _)) !! _] =>
      destruct (reader_only x id r w) as [HR HW]; auto; (split; [by exists c, id|done]) end).
Qed.

(** Who goes on after [daemonize]. *)
Definition daemonizes (x : Ctx) (pid : Z) (p : Proc) : Prop :=
  (p.(p_calls) <= 20)%nat /\ p.(p_image) = None /\ p.(p_run) <> Replaced /\ not_waiting p /\
  match p.(p_gen) with
  | O | 1%nat => (length p.(p_children) <= 1)%nat /\ not_returned p /\
      forall n, p.(p_run) = Dead (Exited n) -> n = 0 /\ p.(p_children) <> [] \/ n = 1 /\ p.(p_children) = []
  | 2%nat => p.(p_children) = [] /\ (forall n, p.(p_run) <> Dead (Exited n)) /\
      forall v, p.(p_run) = Returned v ->
        p.(p_ctx).(c_sid) <> x.(c_sid) /\ p.(p_ctx).(c_sid) <> pid /\ stdio_null x p.(p_ctx) /\
        forall fd t, 2 < fd -> x.(c_fds) !! fd = Some t -> p.(p_ctx).(c_fds) !! fd = Some t
  | _ => False
  end.

Lemma stable_daemonizes x : stable (daemonizes x).
Proof.
  intros pid p (Hn & Hi & Hr & Hw & H). split; [|done]. unfold daemonizes, not_waiting, not_returned; cbn.
  split_and!; try done. destruct (p_gen p) as [|[|[|]]]; try done; destruct H as (? & ? & ?); split_and!; done.
Qed.

Lemma fds_kept_low x n fd t :
  x.(c_fds) !! n = None -> 2 < fd -> x.(c_fds) !! fd = Some t -> null_fds n x.(c_fds) !! fd = Some t.
Proof. intros Hn Hfd Ht. rewrite null_fds_other; [done|done|congruence]. Qed.

Lemma fds_kept_high x n fd t :
  x.(c_fds) !! n = None -> 2 < fd -> x.(c_fds) !! fd = Some t -> delete n (null_fds n x.(c_fds)) !! fd = Some t.
Proof. intros Hn Hfd Ht. rewrite lookup_delete_ne; [by apply fds_kept_low|congruence]. Qed.
#[local] Hint Resolve fds_kept_low fds_kept_high : cdm_proc.

Lemma always_daemonize c0 x : 0 < c0 -> always (daemonizes x) c0 daemonize (start_proc x).
Proof.
  intros H0. unfold daemonize, start_proc, redirect_stdio.
  sym_run; unfold daemonizes; sym_leaf.
Qed.

Section Family.
Context (x : Ctx) (path : bytes) (argv : list bytes).
Context (img : Ctx -> Prop) (caller : Proc -> Prop) (sure : Prop).
Context (c0 : Z) (s : Sys) (HS : Sound (detaches x path argv img caller sure) c0 s).
Let L : Linked c0 s := sd_linked _ _ _ HS.

Lemma family_spec pid p : s.(procs) !! pid = Some p -> detaches x path argv img caller sure pid p.
Proof. intros Hp. apply (sd_procs _ _ _ HS _ _ Hp). Qed.

Lemma family_bound q p :
  s.(procs) !! q = Some p -> (p.(p_gen) <= 2)%nat /\ (p.(p_gen) <> 2%nat -> (length p.(p_children) <= 1)%nat).
Proof.
  intros Hp. destruct (family_spec _ _ Hp) as [_ H]. destruct (p_gen p) as [|[|[|]]]; [| | |done].
  - split; [lia|]. intros _. apply H.
  - split; [lia|]. intros _. apply H.
  - split; [lia|done].
Qed.

Lemma family_one a b pa pb :
  s.(procs) !! a = Some pa -> s.(procs) !! b = Some pb -> p_gen pa = p_gen pb -> a = b.
Proof. intros Ha Hb. by apply (one_per_generation c0 s a b pa pb L family_bound). Qed.

Lemma family_image pid p im :
  s.(procs) !! pid = Some p -> p.(p_image) = Some im ->
  p.(p_gen) = 2%nat /\ started x path argv pid im /\ img im.(i_ctx).
Proof.
  intros Hp Hi. destruct (family_spec _ _ Hp) as [_ H]. destruct (p_gen p) as [|[|[|]]]; [| | |done].
  - destruct H as (_ & H & _). congruence.
  - destruct H as (_ & H & _). congruence.
  - split; [done|]. by apply H.
Qed.

(** The caller's record. *)
Lemma family_caller p :
  s.(procs) !! c0 = Some p -> detaches x path argv img caller sure c0 p /\ caller p.
Proof.
  intros Hp. pose proof (caller_gen _ _ _ L Hp) as Hg. pose proof (family_spec _ _ Hp) as H. split; [done|]. destruct H as [_ H]. rewrite Hg in H. apply H.
Qed.

(** A child that exited with 0 had forked. *)
Lemma family_grandchild p c :
  s.(procs) !! c0 = Some p -> (c, Exited 0) ∈ p.(p_waited) -> sure ->
  exists g q, s.(procs) !! g = Some q /\ p_gen q = 2%nat.
Proof.
  intros Hp Hw Hs. destruct (lk_waited _ _ L _ _ _ _ Hp Hw) as [Hin (q & Hq & Hd)].
  destruct (lk_down _ _ L _ _ _ Hp Hin) as (q' & Hq' & _ & Hg). rewrite Hq in Hq'. injection Hq' as <-.
  rewrite (caller_gen _ _ _ L Hp) in Hg. destruct (family_spec _ _ Hq) as [_ H]. rewrite Hg in H.
  destruct H as (_ & _ & _ & _ & _ & H). specialize (H Hs Hd). destruct (p_children q) as [|g l] eqn:El; [done|].
  destruct (lk_down _ _ L c q g Hq) as (r & Hr & _ & Hgr); [rewrite El; by left|]. exists g, r. rewrite Hgr, Hg. done.
Qed.

(** A child that was waited for and is not over can move. *)
Lemma child_works p c :
  s.(procs) !! c0 = Some p -> c ∈ p.(p_children) ->
  (exists q st, s.(procs) !! c = Some q /\ q.(p_run) = Dead st) \/ exists s', sys_step s Work s'.
Proof.
  intros Hp Hc. destruct (lk_down _ _ L _ _ _ Hp Hc) as (q & Hq & _ & Eg). rewrite (caller_gen _ _ _ L Hp) in Eg.
  destruct (family_spec _ _ Hq) as [_ H]. rewrite Eg in H. destruct H as (_ & _ & Hrep & Hret & Hw & _).
  destruct (p_run q) as [prog|v| |st] eqn:Er; [|by destruct (Hret v)|done|left; eauto].
  right. apply (can_work s c q prog); auto.
Qed.

(** Nobody else waits. *)
Lemma family_only_waiter : only_waiter c0 s.
Proof.
  intros q p prog Hp Hr Hq. destruct (family_spec _ _ Hp) as [_ H]. destruct (p_gen p) as [|[|[|]]] eqn:Eg; [| | |done].
  - destruct Hq. by apply (lk_root _ _ L _ _ Hp).
  - destruct H as (_ & _ & _ & _ & Hw & _). by apply Hw.
  - destruct H as (_ & _ & Hw & _). by apply Hw.
Qed.

(** While the caller's code is not over, some process can move. *)
Lemma family_progress p prog :
  ready_reader c0 s -> s.(procs) !! c0 = Some p -> p.(p_run) = Code prog ->
  (forall fd, listens prog = Some fd -> exists id, p.(p_ctx).(c_fds) !! fd = Some (PipeR id)) ->
  exists s', sys_step s Work s'.
Proof.
  intros HR Hp Hr Hl. pose proof (caller_gen _ _ _ L Hp) as Hg. destruct (waits prog) eqn:Hw; [|by apply (can_work s c0 p prog)].
  destruct prog; try done.
  - destruct (family_spec _ _ Hp) as [_ H]. rewrite Hg in H. destruct H as (_ & _ & _ & _ & Hc & _).
    specialize (Hc _ _ Hr). destruct (child_works p pid Hp Hc) as [(q & st & Hq & Hd)|]; [|done].
    eexists. exact (step_wait s c0 p pid k q st Hp Hr Hc Hq Hd).
  - destruct (Hl _ eq_refl) as [id Hf].
    destruct (lk_fds _ _ L _ _ _ _ id Hp Hf) as [[|e l] Hi]; [by left| |].
    + destruct (decide (has_writer s id)) as [Hh|Hh]; eexists;
        [exact (step_poll_timeout s c0 p fd k id Hp Hr Hf Hi Hh)|exact (step_poll_hup s c0 p fd k id Hp Hr Hf Hi Hh)].
    + eexists. exact (step_poll_in s c0 p fd k id e l Hp Hr Hf Hi).
  - destruct (HR p _ Hp Hr) as [[? _]|(fd' & k' & id & [wr b] & l & [= <- <-] & _ & Hf & Hi)]; [done|].
    eexists. exact (step_read s c0 p fd k id wr b l Hp Hr Hf Hi).
Qed.
End Family.

(** The functions that start a program, and the program each starts. *)
Inductive starts : Prog -> bytes -> list bytes -> Prop :=
| starts_daemon exe : starts (spawn_daemon_detached exe) exe (daemon_argv exe)
| starts_popup exe offer_id : starts (spawn_browser_popup_detached exe offer_id) exe (popup_argv exe offer_id)
| starts_opener path : starts (platform_open_path (Some path)) (str "xdg-open") (open_argv path).

(** What a caller needs: an id, its standard streams, no pipe of this model. *)
Record Caller (c0 : Z) (x : Ctx) : Prop := {
  cl_pid : 0 < c0;
  cl_ctx : caller_ctx x;
  cl_std fd : 0 <= fd <= 2 -> is_Some (x.(c_fds) !! fd);
}.

Lemma popup_caller_dies p : popup_caller p -> popup_caller (die Signaled p).
Proof. intros _. by split. Qed.

Lemma popup_sound c0 x exe offer_id s :
  Caller c0 x -> rtc sys_next (call c0 x (spawn_browser_popup_detached exe offer_id)) s ->
  Sound (detaches x exe (popup_argv exe offer_id) (popup_ctx x) popup_caller True) c0 s.
Proof.
  intros [H0 Hx Hstd] Hr. eapply always_sound; [by apply stable_detaches, popup_caller_dies|exact Hx| |exact Hr].
  by apply always_spawn_popup.
Qed.

(** The functions that look at the status of the child they waited for. *)
Definition checks_child (prog : Prog) : Prop := forall exe, prog <> spawn_daemon_detached exe.

Lemma starts_sound c0 x prog path argv s :
  Caller c0 x -> starts prog path argv -> rtc sys_next (call c0 x prog) s ->
  exists img caller, Sound (detaches x path argv img caller (checks_child prog)) c0 s /\
    (forall p prog' fd, caller p -> p.(p_run) = Code prog' -> listens prog' = Some fd ->
      exists id, p.(p_ctx).(c_fds) !! fd = Some (PipeR id)) /\
    (forall p, checks_child prog -> caller p -> p.(p_run) = Returned 0 -> exists c, (c, Exited 0) ∈ p.(p_waited)).
Proof.
  intros HC Hst Hr. destruct Hst as [exe|exe offer_id|path].
  - exists (fun c => c.(c_fds) = x.(c_fds)), no_listening. split_and!.
    + eapply always_sound; [apply stable_detaches; done|apply HC| |exact Hr].
      eapply always_weaken; [|by apply always_spawn_daemon, HC]. apply detaches_sure. intros H. by destruct (H exe).
    + intros p prog' fd Hn Hc Hl. by rewrite (Hn _ Hc) in Hl.
    + intros p H. by destruct (H exe).
  - exists (popup_ctx x), popup_caller. split_and!.
    + destruct (popup_sound _ _ _ _ _ HC Hr) as [L HP]. split; [done|]. intros pid p Hp.
      eapply proc_ok_weaken; [|by apply HP]. by apply detaches_sure.
    + intros p prog' fd [_ Hn] Hc Hl. destruct (Hn _ _ Hc Hl) as [(_ & id & _ & _ & Hf) _]. by exists id.
    + intros p _ [H _] Hv. destruct (H Hv) as (c & _ & _ & -> & _). exists c. by left.
  - exists (stdio_null x), opener_caller. split_and!.
    + eapply always_sound; [apply stable_detaches; by split|apply HC| |exact Hr].
      eapply always_weaken; [|by apply always_open_path, HC]. by apply detaches_sure.
    + intros p prog' fd [Hn _] Hc Hl. by rewrite (Hn _ Hc) in Hl.
    + intros p _ [_ H] Hv. destruct (H Hv) as [c ->]. exists c. by left.
Qed.

(** All of them read only after a poll that found data. *)
Lemma starts_polls prog path argv : starts prog path argv -> polls_first None prog.
Proof.
  intros H; destruct H; cbn; unfold redirect_stdio, await_marker, finish_popup; try (destruct path);
    repeat (cbn; match goal with
            | |- True => exact I
            | |- _ /\ _ => split
            | |- forall _, _ => intros ?
            | |- context [match ?a with None => _ | Some _ => _ end] => destruct a as [[]|]
            | |- context [_ && false] => rewrite andb_false_r
            | |- context [if ?c then _ else _] => destruct c
            | |- context [polls_first ?a (if ?c then _ else _)] => destruct c
            end); done.
Qed.

Lemma starts_ready c0 x prog path argv s :
  Caller c0 x -> starts prog path argv -> rtc sys_next (call c0 x prog) s -> ready_reader c0 s.
Proof.
  intros HC Hst Hr. revert Hr.
  cut (rtc sys_next (call c0 x prog) s -> ready_reader c0 s /\ rtc sys_next (call c0 x prog) s); [intros H Hr; by apply H|].
  apply (rtc_invariant sys_next (fun s => ready_reader c0 s /\ rtc sys_next (call c0 x prog) s)).
  - intros a b [HR Ha] [kd Hs]. split; [|by eapply rtc_r; [exact Ha|exists kd]].
    destruct (starts_sound _ _ _ _ _ _ HC Hst Ha) as (img & caller & HS & _).
    apply (ready_step c0 a kd b); [|by eapply family_only_waiter|done..].
    destruct (lk_caller _ _ (sd_linked _ _ _ HS)) as (p & Hp & _). by exists p.
  - split; [|apply rtc_refl]. intros p prog'. cbn. rewrite lookup_singleton_Some. intros [_ <-] [= <-].
    left. by apply (starts_polls _ _ _ Hst).
Qed.

(** C11. Starting another program (the daemon, the popup of an offer, the program
    that opens a file) never goes wrong in the ways double forking can, however
    the processes are interleaved, whatever calls fail and whoever is killed: at
    most one process is ever replaced, by exactly the program and the arguments
    asked for, in a session that is not the caller's and that it does not lead;
    there is at most one process of each of three generations, and each makes at
    most twenty calls; the caller gets 0 or -1, keeps its descriptors, its
    environment and its session, and is never stuck: until it returns, some
    process can make a step - also at the one blocking read of the popup's
    handshake, which is only made when the poll before it found a byte, and that
    byte is still there.  Where the code looks at the status of its child, 0
    also means that the process that was to run the program was created. *)
Theorem spawn_detached c0 x prog path argv s :
  Caller c0 x -> starts prog path argv -> rtc sys_next (call c0 x prog) s ->
  (forall a b pa pb, s.(procs) !! a = Some pa -> s.(procs) !! b = Some pb -> p_gen pa = p_gen pb -> a = b) /\
  (forall a p, s.(procs) !! a = Some p -> (p_gen p <= 2)%nat /\ (p_calls p <= 20)%nat) /\
  (forall a p im, s.(procs) !! a = Some p -> p_image p = Some im -> p_gen p = 2%nat /\ started x path argv a im) /\
  (forall p, s.(procs) !! c0 = Some p ->
     (forall v, p_run p = Returned v -> p_ctx p = x /\ (v = 0 /\ p_children p <> [] \/ v = -1)) /\
     (checks_child prog -> p_run p = Returned 0 -> exists g q, s.(procs) !! g = Some q /\ p_gen q = 2%nat) /\
     (forall prog', p_run p = Code prog' -> exists s', sys_step s Work s') /\
     (forall fd k, p_run p = Code (Read1 fd k) -> exists id e l,
        c_fds (p_ctx p) !! fd = Some (PipeR id) /\ s.(pipes) !! id = Some (e :: l))).
Proof.
  intros HC Hst Hr. destruct (starts_sound _ _ _ _ _ _ HC Hst Hr) as (img & caller & HS & Hl & Hz).
  pose proof (starts_ready _ _ _ _ _ _ HC Hst Hr) as HR. split; [|split; [|split]].
  - intros a b pa pb. by apply (family_one _ _ _ _ _ _ _ _ HS).
  - intros a p Ha. split; [by apply (family_bound _ _ _ _ _ _ _ _ HS a)|apply (family_spec _ _ _ _ _ _ _ _ HS a p Ha)].
  - intros a p im Ha Hi. destruct (family_image _ _ _ _ _ _ _ _ HS a p im Ha Hi) as (? & ? & _). done.
  - intros p Hp. destruct (family_caller _ _ _ _ _ _ _ _ HS p Hp) as [Hd Hc].
    pose proof (caller_gen _ _ _ (sd_linked _ _ _ HS) Hp) as Hg. split; [|split; [|split]].
    + intros v Hv. destruct Hd as [_ Hd]. rewrite Hg in Hd. by apply Hd.
    + intros Hck Hv. destruct (Hz p Hck Hc Hv) as [c Hin]. by apply (family_grandchild _ _ _ _ _ _ _ _ HS p c).
    + intros prog' Hcode. eapply family_progress; [exact HS|exact HR|exact Hp|exact Hcode|].
      intros fd. by apply (Hl p).
    + intros fd k Hcode. destruct (HR p _ Hp Hcode) as [[? _]|(fd' & k' & id & e & l & [= <- <-] & _ & Hf & Hi)]; [done|eauto].
Qed.

(** C23. The native host is told that the popup of an offer is there exactly
    by that popup.  When [spawn_browser_popup_detached] returns 0, its child was
    reaped with status 0, and a process runs (or ran) cdm with arguments that make
    [main] run the popup of this very offer, with its standard streams on
    [/dev/null] or the caller's, with the writing end of the pipe at the descriptor
    that the popup reads from its environment and no reading end, and it was this
    process that wrote the 'R'.  While the caller waits for the byte, only that
    process can hold a writing end, so that the wait ends with it. *)
Theorem popup_spawned c0 x exe offer_id s p :
  Caller c0 x -> 0 < offer_id < 2 ^ 32 ->
  rtc sys_next (call c0 x (spawn_browser_popup_detached exe offer_id)) s -> s.(procs) !! c0 = Some p ->
  (p_run p = Returned 0 -> exists c g q im w id,
     p_children p = [c] /\ p_waited p = [(c, Exited 0)] /\ p_heard p = [(g, 82)] /\
     s.(procs) !! g = Some q /\ p_image q = Some im /\ i_path im = exe /\
     main_dispatch (i_argv im) = RunPopup offer_id /\
     report_popup_ready (c_env (i_ctx im) !! ready_fd_name) = Some w /\
     c_fds (i_ctx im) !! w = Some (PipeW id) /\ (forall fd, c_fds (i_ctx im) !! fd <> Some (PipeR id)) /\
     stdio_null x (i_ctx im)) /\
  (forall prog fd, p_run p = Code prog -> listens prog = Some fd ->
     forall a q fd' id, s.(procs) !! a = Some q -> c_fds (p_ctx q) !! fd' = Some (PipeW id) ->
       p_gen q = 2%nat /\ forall st, p_run q <> Dead st).
Proof.
  intros HC Hid Hr Hp. pose proof (popup_sound _ _ _ _ _ HC Hr) as HS.
  destruct (family_caller _ _ _ _ _ _ _ _ HS p Hp) as [_ [Hret Hlis]].
  pose proof (sd_linked _ _ _ HS) as L. split.
  - intros Hv. destruct (Hret Hv) as (c & g & Hch & Hw & Hh).
    destruct (lk_heard _ _ L c0 p g 82 Hp) as (q & Hq & im & Him); [rewrite Hh; by apply list_elem_of_singleton|].
    destruct (family_image _ _ _ _ _ _ _ _ HS g q im Hq Him) as (_ & (Hpath & Hargv & _) & Hstd & w & id & Hw3 & Hf & He & Hno).
    exists c, g, q, im, w, id. rewrite Hargv, He. split_and!; try done.
    + apply (popup_handshake exe offer_id w 0 PollError); unfold fd_max in *; [done|lia].
    + apply (popup_handshake exe offer_id w 0 PollError); unfold fd_max in *; [done|lia].
  - intros prog fd Hc Hl a q fd' id Ha Hf. destruct (Hlis _ _ Hc Hl) as [(c & _ & Hch & Hw & _) Hno].
    destruct (lk_waited _ _ L c0 p c (Exited 0) Hp) as [Hin (qc & Hqc & Hd)]; [rewrite Hw; by apply list_elem_of_singleton|].
    destruct (lk_down _ _ L _ _ _ Hp Hin) as (qc' & Hqc' & _ & Hgc). rewrite Hqc in Hqc'. injection Hqc' as <-.
    pose proof (caller_gen _ _ _ L Hp) as Hg. destruct (family_bound _ _ _ _ _ _ _ _ HS a q Ha) as [Hle _]. split.
    + destruct (p_gen q) as [|[|[|]]] eqn:Eg; [| |done|lia].
      * rewrite (lk_root _ _ L _ _ Ha Eg) in Ha. rewrite Hp in Ha. injection Ha as <-. by apply Hno in Hf.
      * assert (a = c) as -> by (apply (family_one _ _ _ _ _ _ _ _ HS a c q qc); auto; congruence).
        rewrite Hqc in Ha. injection Ha as <-. by rewrite (lk_dead _ _ L _ _ _ Hqc Hd) in Hf.
    + intros st Hst. by rewrite (lk_dead _ _ L _ _ _ Ha Hst) in Hf.
Qed.

(** After [daemonize] at most one process goes on, the grandchild of the
    one that called it: in a session that is not the caller's and that it does not
    lead, with its standard streams on [/dev/null] (or untouched when that cannot
    be opened) and every other descriptor it had, the daemon lock among them.  The
    other two leave with status 0 exactly when they forked and 1 when not. *)
Theorem daemonize_detaches c0 x s :
  0 < c0 -> caller_ctx x -> rtc sys_next (call c0 x daemonize) s ->
  (forall a b pa pb, s.(procs) !! a = Some pa -> s.(procs) !! b = Some pb -> p_gen pa = p_gen pb -> a = b) /\
  forall a p, s.(procs) !! a = Some p ->
    p_image p = None /\
    (forall v, p_run p = Returned v -> p_gen p = 2%nat /\
       c_sid (p_ctx p) <> c_sid x /\ c_sid (p_ctx p) <> a /\ stdio_null x (p_ctx p) /\
       forall fd t, 2 < fd -> c_fds x !! fd = Some t -> c_fds (p_ctx p) !! fd = Some t) /\
    (forall n, p_run p = Dead (Exited n) ->
       n = 0 /\ (exists c q, s.(procs) !! c = Some q /\ p_parent q = a /\ p_gen q = S (p_gen p)) \/
       n = 1 /\ p_children p = []) /\
    (forall prog, p_run p = Code prog -> exists s', sys_step s Work s').
Proof.
  intros H0 Hx Hr. assert (HS : Sound (daemonizes x) c0 s)
    by (eapply always_sound; [apply stable_daemonizes|exact Hx|by apply always_daemonize|exact Hr]).
  pose proof (sd_linked _ _ _ HS) as L.
  assert (HD : forall q p, s.(procs) !! q = Some p -> daemonizes x q p) by (intros q p Hq; apply (sd_procs _ _ _ HS _ _ Hq)).
  split.
  - intros a b pa pb. apply (one_per_generation c0 s a b pa pb L). intros q p Hq.
    destruct (HD _ _ Hq) as (_ & _ & _ & _ & H). destruct (p_gen p) as [|[|[|]]]; [| | |done]; (split; [lia|]); try done; intros _; apply H.
  - intros a p Ha. destruct (HD _ _ Ha) as (_ & Hi & _ & Hw & H). split; [done|].
    split; [|split; [|intros prog Hc; by apply (can_work s a p prog), Hw]].
    + intros v Hv. destruct (p_gen p) as [|[|[|]]]; [by destruct H as (_ & H & _); destruct (H v)..| |done].
      split; [done|]. by apply (proj2 (proj2 H) v).
    + intros n Hn. destruct (p_gen p) as [|[|[|]]] eqn:Eg; [| |by destruct H as (_ & H & _); destruct (H n)|done].
      all: destruct H as (_ & _ & H); destruct (H _ Hn) as [[-> Hc]|?]; [left|by right].
      all: split; [done|]; destruct (p_children p) as [|c l] eqn:El; [done|].
      all: destruct (lk_down _ _ L a p c Ha) as (q & Hq & Hpq & Hgq); [rewrite El; by left|]; rewrite Eg in Hgq; eauto.
Qed.

(** ** Concrete runs *)

Definition shell_ctx : Ctx :=
  mkCtx 50 40 (<[0 := Inherited 0]> (<[1 := Inherited 1]> (<[2 := Inherited 2]> (<[9 := Inherited 9]> ∅)))) ∅.

Lemma shell_caller : Caller 100 shell_ctx.
Proof.
  split; [done| |].
  - intros fd t. cbn. rewrite !lookup_insert_Some, lookup_empty.
    intros [[_ <-]|[_ [[_ <-]|[_ [[_ <-]|[_ [[_ <-]|[_ ?]]]]]]]]; eauto. done.
  - intros fd H. cbn. rewrite !lookup_insert. repeat case_decide; eauto; lia.
Qed.

Definition run_of (s : option Sys) (pid : Z) : option Run :=
  match s with Some s => p_run <$> s.(procs) !! pid | None => None end.
Definition has_returned (s : option Sys) (pid v : Z) : bool :=
  match run_of s pid with Some (Returned v') => v' =? v | _ => false end.
(** The popup starts and reports itself before the caller looks. *)
Definition popup_moves : list (Z * move) :=
  [(100, Go 5); (100, Go 101); (101, Go 0); (101, Go 0); (100, Go 0); (101, Go 102)] ++
  replicate 7 (102, Go 3) ++ [(101, Go 0); (101, Go 0); (100, Go 0); (102, Writes 6 82)] ++ replicate 4 (100, Go 0).

Definition popup_run : option Sys := moves popup_moves (call 100 shell_ctx (spawn_browser_popup_detached (str "/usr/bin/cdm") 7)).

(** The daemon is running when [spawn_daemon_detached] returns. *)
Definition daemon_moves : list (Z * move) :=
  [(100, Go 101); (101, Go 0); (101, Go 102); (102, Go 0); (101, Go 0); (100, Go 0); (100, Go 0)].
Definition daemon_run : option Sys := moves daemon_moves (call 100 shell_ctx (spawn_daemon_detached (str "/usr/bin/cdm"))).

Definition daemonize_moves : list (Z * move) :=
  [(100, Go 101); (100, Go 0); (101, Go 0); (101, Go 102); (101, Go 0)] ++ replicate 6 (102, Go 3).
Definition daemonize_run : option Sys := moves daemonize_moves (call 100 shell_ctx daemonize).

Lemma spawn_detached_witness :
  exists s p im, daemon_run = Some s /\ s.(procs) !! 102 = Some p /\ p_image p = Some im /\
    started shell_ctx (str "/usr/bin/cdm") [str "/usr/bin/cdm"; str "daemon"] 102 im.
Proof.
  assert (exists s p im, daemon_run = Some s /\ s.(procs) !! 102 = Some p /\ p_image p = Some im) as (s & p & im & Hs & Hp & Hi)
    by (vm_compute; eauto 8).
  exists s, p, im. split; [exact Hs|]. split; [exact Hp|]. split; [exact Hi|].
  destruct (spawn_detached 100 shell_ctx _ _ _ s shell_caller (starts_daemon (str "/usr/bin/cdm")) (moves_reach _ _ _ Hs))
    as (_ & _ & H & _).
  exact (proj2 (H 102 p im Hp Hi)).
Defined.

Lemma popup_spawned_witness :
  exists s p, popup_run = Some s /\ s.(procs) !! 100 = Some p /\ p_run p = Returned 0 /\
    exists c g, p_children p = [c] /\ p_heard p = [(g, 82)].
Proof.
  assert (exists s p, popup_run = Some s /\ s.(procs) !! 100 = Some p /\ p_run p = Returned 0) as (s & p & Hs & Hp & Hv)
    by (vm_compute; eauto 8).
  exists s, p. split; [exact Hs|]. split; [exact Hp|]. split; [exact Hv|].
  destruct (popup_spawned 100 shell_ctx (str "/usr/bin/cdm") 7 s p shell_caller ltac:(lia) (moves_reach _ _ _ Hs) Hp)
    as [(c & g & _ & _ & _ & _ & Hc & _ & Hh & _) _]; [exact Hv|].
  exists c, g. split; [exact Hc|exact Hh].
Defined.

Lemma daemonize_detaches_witness :
  exists s p, daemonize_run = Some s /\ s.(procs) !! 102 = Some p /\ p_run p = Returned 0 /\
    p_gen p = 2%nat /\ c_fds (p_ctx p) !! 9 = Some (Inherited 9).
Proof.
  assert (exists s p, daemonize_run = Some s /\ s.(procs) !! 102 = Some p /\ p_run p = Returned 0) as (s & p & Hs & Hp & Hv)
    by (vm_compute; eauto 8).
  exists s, p. split; [exact Hs|]. split; [exact Hp|]. split; [exact Hv|].
  destruct (daemonize_detaches 100 shell_ctx s ltac:(lia) (cl_ctx _ _ shell_caller) (moves_reach _ _ _ Hs)) as [_ H].
  destruct (H 102 p Hp) as (_ & Hret & _). destruct (Hret 0 Hv) as (Hg & _ & _ & _ & Hk).
  split; [exact Hg|]. apply (Hk 9); [lia|reflexivity].
Defined.

(** ** What the code does not do *)

(** The second fork fails: 0 is returned, and no process of the daemon is left. *)
Example daemon_not_started :
  let s := moves [(100, Go 101); (101, Go 0); (101, Go (-1)); (101, Go 0); (100, Go 0); (100, Go 0)]
             (call 100 shell_ctx (spawn_daemon_detached (str "/usr/bin/cdm"))) in
  has_returned s 100 0 = true /\ run_of s 101 = Some (Dead (Exited 0)) /\
  (match s with Some s => size s.(procs) | None => O end) = 2%nat.
Proof. vm_compute. done. Qed.

(** A path that does not fit is cut, and the prefix is taken for the program. *)
Example exe_path_cut : get_self_exe_path 8 (Some (str "/opt/cdm/cdm")) = str "/opt/cd".
Proof. reflexivity. Qed.
