(* ===== verification/DataDir.v ===== *)
(** * The data directory ([get_data_dir] of [src/daemon/daemon.c])

    Where the database and the log are, and the migration of the directory of
    the program's former name. *)

From S2P Require Import Prelude Path FileIo.

(** ** get_data_dir *)

(** [old] or a path below it, renamed. *)
Definition below (dir p : bytes) : bool := bool_decide (p = dir) || strprefix (dir ++ [CH_SLASH]) p.
Definition moved (old new p : bytes) : bytes := if below old p then new ++ drop (length old) p else p.
Definition rename_tree (old new : bytes) (fs : filesystem) : filesystem :=
  list_to_map (map (fun x : bytes * node => (moved old new x.1, x.2)) (map_to_list fs)).

(** On the first call: the directory, whether the old one was migrated. *)
Definition get_data_dir (env : IoEnv) (rename_ok : bool) (env_home : option bytes) (fs : filesystem)
    : bytes * bool * filesystem :=
  let home := default (str "/tmp") env_home in
  let path := strlcpy 1024 (home ++ str "/.local/share/cdm") in
  let old_path := strlcpy 1024 (home ++ str "/.local/share/downloadmgr") in
  let '(migrated, fs) :=
    if access_ok env fs old_path && negb (access_ok env fs path) then
      let '(ok, fs) := file_ensure_directory env fs (strlcpy 1024 (home ++ str "/.local/share")) in
      if ok && rename_ok then (true, rename_tree old_path path fs) else (false, fs)
    else (false, fs) in
  (path, migrated, snd (file_ensure_directory env fs path)).

(** ** Lemmas *)

Lemma below_spec dir p : below dir p = true <-> p = dir \/ exists t, p = dir ++ CH_SLASH :: t.
Proof.
  unfold below. rewrite orb_true_iff, bool_decide_eq_true, strprefix_spec.
  split; (intros [->|[t ->]]; [by left|right; exists t; by rewrite <- app_assoc]).
Qed.

Lemma below_moved old new p : below old p = true -> below new (moved old new p) = true.
Proof.
  intros H. unfold moved. rewrite H. apply below_spec in H as [->|[t ->]]; apply below_spec.
  - left. by rewrite drop_all, app_nil_r.
  - right. exists t. by rewrite drop_app_length.
Qed.

Lemma moved_inj old new p q :
  below new p = false -> below new q = false -> moved old new p = moved old new q -> p = q.
Proof.
  intros Hp Hq E. destruct (below old p) eqn:Bp, (below old q) eqn:Bq.
  - unfold moved in E. rewrite Bp, Bq in E. apply app_inv_head in E.
    apply below_spec in Bp as [->|[t ->]], Bq as [->|[t' ->]]; rewrite ?drop_all, ?drop_app_length in E; congruence.
  - pose proof (below_moved old new p Bp) as H. rewrite E in H. unfold moved in H. by rewrite Bq, Hq in H.
  - pose proof (below_moved old new q Bq) as H. rewrite <- E in H. unfold moved in H. by rewrite Bp, Hp in H.
  - unfold moved in E. by rewrite Bp, Bq in E.
Qed.

(** Nothing is at the new place yet. *)
Definition vacant (dir : bytes) (fs : filesystem) : Prop := forall p n, fs !! p = Some n -> below dir p = false.

Lemma rename_tree_lookup old new fs p n :
  vacant new fs -> fs !! p = Some n -> rename_tree old new fs !! moved old new p = Some n.
Proof.
  intros Hv Hp. unfold rename_tree. apply elem_of_list_to_map_1.
  - rewrite <- list_fmap_compose. apply NoDup_fmap_2_strong; [|apply NoDup_map_to_list].
    intros [x nx] [y ny] Hx%elem_of_map_to_list Hy%elem_of_map_to_list E. cbn in E.
    assert (x = y) as -> by (eapply moved_inj; [by eapply Hv|by eapply Hv|exact E]). congruence.
  - apply (list_elem_of_fmap_2 (fun x : bytes * node => (moved old new x.1, x.2)) _ (p, n)).
    by apply elem_of_map_to_list.
Qed.

Lemma rename_tree_only old new fs p n :
  rename_tree old new fs !! p = Some n -> exists q, fs !! q = Some n /\ p = moved old new q.
Proof.
  intros H%elem_of_list_to_map_2. apply list_elem_of_fmap in H as ([q n'] & E & Hq%elem_of_map_to_list).
  injection E as -> ->. by exists q.
Qed.

(** A directory is made with its parents: only prefixes of it are new. *)
Lemma mkdir_adds env fs p q :
  snd (mkdir env fs p) !! q = fs !! q \/ (fs !! q = None /\ snd (mkdir env fs p) !! q = Some NDir /\ q = p).
Proof.
  unfold mkdir. destruct (fs !! p) eqn:E; [by left|]. destruct (env_deny env p); [by left|].
  destruct (parent_is_dir fs p); [|by left]. cbn [snd]. destruct (decide (q = p)) as [->|Hne].
  - right. by rewrite lookup_insert_eq.
  - left. by rewrite lookup_insert_ne.
Qed.

Definition only_adds_prefixes (path : bytes) (fs fs' : filesystem) : Prop :=
  forall q, fs' !! q = fs !! q \/ (fs !! q = None /\ fs' !! q = Some NDir /\ exists t, path = q ++ t).

Lemma adds_prefixes_trans path a b c :
  only_adds_prefixes path a b -> only_adds_prefixes path b c -> only_adds_prefixes path a c.
Proof.
  intros H1 H2 q. destruct (H2 q) as [E|(E & E' & Hp)].
  - rewrite E. apply H1.
  - destruct (H1 q) as [E1|(E1 & E1' & _)]; [|congruence]. right. by rewrite <- E1.
Qed.

Lemma mkdir_loop_adds env fs done_ rest :
  only_adds_prefixes (done_ ++ rest) fs (snd (mkdir_loop env fs done_ rest)).
Proof.
  revert fs done_. induction rest as [|c rest IH]; intros fs done_; cbn [mkdir_loop]; [by intros q; left|].
  destruct (c =? CH_SLASH).
  - pose proof (mkdir_adds env fs done_) as Hm. destruct (mkdir env fs done_) as [e fs1]. cbn [snd] in Hm.
    assert (only_adds_prefixes (done_ ++ c :: rest) fs fs1) as H1.
    { intros q. destruct (Hm q) as [?|(? & ? & ->)]; [by left|right]. split; [done|]. split; [done|]. by eexists. }
    case_decide; [|exact H1]. eapply adds_prefixes_trans; [exact H1|].
    replace (done_ ++ c :: rest) with ((done_ ++ [c]) ++ rest) by (by rewrite <- app_assoc). apply IH.
  - replace (done_ ++ c :: rest) with ((done_ ++ [c]) ++ rest) by (by rewrite <- app_assoc). apply IH.
Qed.

Lemma ensure_directory_adds env fs path :
  strlen path < 1024 -> only_adds_prefixes path fs (snd (file_ensure_directory env fs path)).
Proof.
  intros Hl. unfold file_ensure_directory. case_decide; [by intros q; left|]. rewrite strlcpy_id by done.
  pose proof (mkdir_loop_adds env fs (take 1 path) (drop 1 path)) as H1. rewrite take_drop in H1.
  destruct (mkdir_loop _ _ _ _) as [[] fs1]; [|exact H1]. cbn [snd] in H1.
  pose proof (mkdir_adds env fs1 path) as H2. destruct (mkdir env fs1 path) as [e fs2]. cbn [snd] in *.
  eapply adds_prefixes_trans; [exact H1|]. intros q. destruct (H2 q) as [?|(? & ? & ->)]; [by left|right].
  split; [done|]. split; [done|]. exists []. by rewrite app_nil_r.
Qed.

Lemma adds_prefixes_some path fs fs' p n : only_adds_prefixes path fs fs' -> fs !! p = Some n -> fs' !! p = Some n.
Proof. intros H Hp. destruct (H p) as [E|(E & _)]; congruence. Qed.

Lemma adds_prefixes_dirs path fs fs' : only_adds_prefixes path fs fs' -> only_adds_dirs fs fs'.
Proof. intros H p. destruct (H p) as [?|(? & ? & _)]; auto. Qed.

Section DataDir.

Context (home : bytes).
Definition old_dir : bytes := home ++ str "/.local/share/downloadmgr".
Definition new_dir : bytes := home ++ str "/.local/share/cdm".

Lemma dirs_apart p : below old_dir p = true -> below new_dir p = false.
Proof.
  intros Ho. apply not_true_iff_false. intros Hn.
  apply below_spec in Ho as [->|[t ->]], Hn as [E|[t' E]]; unfold old_dir, new_dir in E;
    rewrite <- ?app_assoc in E; apply app_inv_head in E; discriminate E.
Qed.

Lemma old_not_prefix p t : below old_dir p = true -> new_dir <> p ++ t.
Proof.
  intros Ho E. apply below_spec in Ho as [->|[t' ->]]; unfold old_dir, new_dir in E;
    rewrite <- !app_assoc in E; apply app_inv_head in E; discriminate E.
Qed.

(** Migrating the data directory moves everything and loses nothing.  When
    it migrates (the old directory is there, the new one is not, the rename
    works), every file is afterwards at its place with its content, those below
    the old directory at the same place below the new one, and nothing is left
    of the old directory.  Otherwise no file is touched: at most directories
    are made. *)
Theorem data_dir_migrated env rename_ok fs :
  strlen home < 900 ->
  let '(path, migrated, fs') := get_data_dir env rename_ok (Some home) fs in
  path = new_dir /\
  (if migrated then
     access_ok (env) fs old_dir = true /\ access_ok (env) fs new_dir = false /\
     (vacant new_dir fs ->
        (forall p n, fs !! p = Some n -> fs' !! moved old_dir new_dir p = Some n) /\
        (forall p, below old_dir p = true -> fs' !! p = None))
   else only_adds_dirs fs fs').
Proof.
  intros Hl. unfold get_data_dir. cbv zeta. change (default (str "/tmp") (Some home)) with home.
  rewrite (strlcpy_id 1024 (home ++ str "/.local/share/cdm")) by (rewrite strlen_app; change (strlen (str _)) with 17; lia).
  rewrite (strlcpy_id 1024 (home ++ str "/.local/share/downloadmgr")) by (rewrite strlen_app; change (strlen (str _)) with 25; lia).
  rewrite (strlcpy_id 1024 (home ++ str "/.local/share")) by (rewrite strlen_app; change (strlen (str _)) with 13; lia).
  fold old_dir new_dir. set (parent := home ++ str "/.local/share").
  assert (strlen parent < 1024) as Hpl by (unfold parent; rewrite strlen_app; change (strlen (str _)) with 13; lia).
  assert (strlen new_dir < 1024) as Hnl by (unfold new_dir; rewrite strlen_app; change (strlen (str _)) with 17; lia).
  destruct (access_ok (env) fs old_dir) eqn:Ao, (access_ok (env) fs new_dir) eqn:An; cbn [andb negb];
    try (split; [done|]; by eapply adds_prefixes_dirs, ensure_directory_adds).
  pose proof (ensure_directory_adds (env) fs parent Hpl) as H1.
  destruct (file_ensure_directory (env) fs parent) as [ok fs1]. cbn [snd] in H1.
  destruct (ok && rename_ok).
  - split; [done|]. split; [done|]. split; [done|]. intros Hv.
    assert (vacant new_dir fs1) as Hv1.
    { intros p n Hp. destruct (H1 p) as [E|(_ & _ & t & Ht)]; [rewrite E in Hp; by eapply Hv|].
      apply not_true_iff_false. intros [-> | [t' ->]]%below_spec; apply (f_equal length) in Ht;
        unfold parent, new_dir in Ht; rewrite !length_app in Ht; simpl in Ht; lia. }
    pose proof (ensure_directory_adds (env) (rename_tree old_dir new_dir fs1) new_dir Hnl) as H2. split.
    + intros p n Hp. eapply adds_prefixes_some; [exact H2|]. apply rename_tree_lookup; [done|].
      by eapply adds_prefixes_some.
    + intros p Hp. destruct (H2 p) as [->|(E & _ & t & Ht)]; [|by destruct (old_not_prefix p t Hp)].
      destruct (rename_tree old_dir new_dir fs1 !! p) as [n|] eqn:E; [|done].
      apply rename_tree_only in E as (q & Hq & ->). exfalso.
      destruct (below old_dir q) eqn:Bq.
      * pose proof (dirs_apart _ Hp) as H. by rewrite below_moved in H.
      * unfold moved in Hp. rewrite Bq in Hp. by rewrite Bq in Hp.
  - split; [done|]. eapply only_adds_dirs_trans; [by eapply adds_prefixes_dirs|].
    by eapply adds_prefixes_dirs, ensure_directory_adds.
Qed.

End DataDir.

Definition old_home : filesystem :=
  <[str "/h" := NDir]> (<[str "/h/.local" := NDir]> (<[str "/h/.local/share" := NDir]>
    (<[str "/h/.local/share/downloadmgr" := NDir]>
      (<[str "/h/.local/share/downloadmgr/downloads.db" := NReg (reg_pwrite empty_reg 0 [1; 2; 3])]> ∅)))).

Lemma data_dir_migrated_witness :
  let '(path, migrated, fs') := get_data_dir permissive true (Some (str "/h")) old_home in
  path = str "/h/.local/share/cdm" /\ migrated = true /\
  fs' !! str "/h/.local/share/cdm/downloads.db" = Some (NReg (reg_pwrite empty_reg 0 [1; 2; 3])) /\
  fs' !! str "/h/.local/share/downloadmgr/downloads.db" = None.
Proof.
  pose proof (data_dir_migrated (str "/h") permissive true old_home ltac:(vm_compute; reflexivity)) as H.
  assert (snd (fst (get_data_dir permissive true (Some (str "/h")) old_home)) = true) as Hm by (vm_compute; reflexivity).
  destruct (get_data_dir permissive true (Some (str "/h")) old_home) as [[path migrated] fs']. cbn [fst snd] in Hm. subst migrated.
  destruct H as (Hp & _ & _ & H). split; [exact Hp|]. split; [reflexivity|].
  assert (vacant (new_dir (str "/h")) old_home) as Hv.
  { intros p n Hin. apply elem_of_map_to_list in Hin. revert Hin. vm_compute (map_to_list old_home).
    rewrite !elem_of_cons, elem_of_nil. intros [E|[E|[E|[E|[E|[]]]]]]; injection E as -> _; reflexivity. }
  destruct (H Hv) as [H1 H2]. split; [|by apply H2].
  exact (H1 (str "/h/.local/share/downloadmgr/downloads.db") _ eq_refl).
Defined.
