(* ===== verification/OneDaemon.v ===== *)
(** * One daemon per user ([src/platform/ipc_socket.c], [src/daemon/daemon.c])

    Where the socket and the lock are, the lock of the daemon, the probes, the
    listening socket, and the steps of [run_daemon] before and after its loop.
    Several processes share one machine: its files, its file locks and its
    sockets; the steps of different processes interleave freely. *)

From S2P Require Import Prelude Path FileIo Cli DataDir.

(** ** Paths *)

Definition join_path (out_size : Z) (base suffix : bytes) : option bytes :=
  if out_size <? strlen base + strlen suffix + 1 then None else Some (base ++ suffix).

Inductive IpcBaseKind := IPC_BASE_RUNTIME | IPC_BASE_HOME | IPC_BASE_TMP.

#[global] Instance base_kind_eq_dec : EqDecision IpcBaseKind.
Proof. solve_decision. Defined.

(** The environment of a process: [XDG_RUNTIME_DIR], [HOME], the user. *)
Record ProcEnv := mkProcEnv { pe_runtime : option bytes; pe_home : option bytes; pe_uid : Z }.

Definition is_absolute (v : option bytes) : option bytes :=
  match v with Some d => if bool_decide (head d = Some CH_SLASH) then Some d else None | None => None end.

(** The directory the socket and the lock share. *)
Definition get_ipc_base (size : Z) (e : ProcEnv) : option (bytes * IpcBaseKind) :=
  match is_absolute (pe_runtime e) with
  | Some runtime_dir => if strlen runtime_dir <? size then Some (runtime_dir, IPC_BASE_RUNTIME) else None
  | None =>
      match is_absolute (pe_home e) with
      | Some home => base ← join_path size home (str "/.local/share"); Some (base, IPC_BASE_HOME)
      | None => if 4 <? size then Some (str "/tmp", IPC_BASE_TMP) else None
      end
  end.

(** The path, and the static buffer [cached_path], which stays empty when the
    name does not fit. *)
Definition get_socket_path (out_size : Z) (cached : bytes) (e : ProcEnv) : bytes * bytes :=
  if negb (bool_decide (cached = [])) then (strlcpy out_size cached, cached)
  else
    match get_ipc_base 1024 e with
    | None => ([], cached)
    | Some (base, kind) =>
        let path :=
          match kind with
          | IPC_BASE_RUNTIME => default [] (join_path 1024 base (str "/cdm.sock"))
          | IPC_BASE_HOME => default [] (join_path 1024 base (str "/cdm/ipc.sock"))
          | IPC_BASE_TMP => strlcpy 1024 (base ++ str "/cdm_" ++ decimal (pe_uid e) ++ str ".sock")
          end in
        (strlcpy out_size path, path)
    end.

(** What every call in a process gives. *)
Definition socket_path (e : ProcEnv) : bytes := fst (get_socket_path 1024 [] e).

Definition SUN_PATH : Z := 108.

(** ** The machine *)

(** [m_socks]: the sockets in the file system with the process that listens,
    [None] when it is gone; [m_locks]: who holds the lock on a file. *)
Record Machine := mkMachine {
  m_fs : filesystem; m_locks : gmap bytes Z; m_socks : gmap bytes (option Z) }.

Definition set_locks (l : gmap bytes Z) (m : Machine) : Machine := mkMachine (m_fs m) l (m_socks m).
Definition set_socks (s : gmap bytes (option Z)) (m : Machine) : Machine := mkMachine (m_fs m) (m_locks m) s.
Definition set_fs (fs : filesystem) (m : Machine) : Machine := mkMachine fs (m_locks m) (m_socks m).

(** What the system calls of one step answer, where the machine does not
    decide it. *)
Record Oracle := mkOracle {
  or_io : IoEnv;
  or_owned : bool;      (* the lock file is the user's *)
  or_flock : bool;      (* flock works (apart from a lock that is held) *)
  or_chmod : bool;
  or_socket : bool;     (* socket, and connect to a listener, work *)
  or_peer : bool;       (* the credentials of the listener can be read and are the user's *)
  or_alive : bool;      (* kill (pid, 0) does not say ESRCH *)
  or_rename : bool;     (* rename of the old data directory *)
  or_db : bool;         (* db_init *)
  or_bind : bool;
  or_listen : bool;     (* fchmod and listen *)
}.

(** [open (path, O_CREAT | O_RDWR | O_NOFOLLOW)] and the test for a regular file. *)
Definition open_lock (env : IoEnv) (fs : filesystem) (path : bytes) : option filesystem :=
  match fs !! path with
  | Some (NReg _) => if env_deny env path then None else Some fs
  | Some _ => None
  | None =>
      if env_deny env path || negb (parent_is_dir fs path) then None
      else Some (<[path := NReg empty_reg]> fs)
  end.

Definition lock_path (e : ProcEnv) : option bytes :=
  match get_ipc_base 1024 e with
  | None => None
  | Some (base, IPC_BASE_TMP) => Some (strlcpy 1024 (base ++ str "/cdm_" ++ decimal (pe_uid e) ++ str ".lock"))
  | Some (base, _) => join_path 1024 base (str "/cdm.lock")
  end.

(** [ipc_daemon_lock_acquire] in process [p]: 0 with the lock, 1 when another
    process has it, -1. *)
Definition ipc_daemon_lock_acquire (o : Oracle) (e : ProcEnv) (p : Z) (m : Machine) : Z * Machine :=
  match get_ipc_base 1024 e with
  | None => (-1, m)
  | Some (base, kind) =>
      let '(ok, fs) := if bool_decide (kind = IPC_BASE_HOME) then file_ensure_directory (or_io o) (m_fs m) base
                       else (true, m_fs m) in
      let m := set_fs fs m in
      if negb ok then (-1, m)
      else
        match lock_path e with
        | None => (-1, m)
        | Some path =>
            match open_lock (or_io o) (m_fs m) path with
            | None => (-1, m)
            | Some fs =>
                let m := set_fs fs m in
                if negb (or_owned o) then (-1, m)
                else
                  match m_locks m !! path with
                  | Some _ => (1, m)
                  | None =>
                      if negb (or_flock o) then (-1, m)
                      else if negb (or_chmod o) then (-1, m)
                      else (0, set_locks (<[path := p]> (m_locks m)) m)
                  end
            end
        end
  end.

Inductive connected := ConnTo (p : Z) | NoListener | ConnFailed.

(** [connect_daemon_socket]: [NoListener] for ENOENT and ECONNREFUSED. *)
Definition connect_daemon_socket (o : Oracle) (e : ProcEnv) (m : Machine) : connected :=
  if negb (or_socket o) then ConnFailed
  else
    let path := socket_path e in
    if (strlen path =? 0) || (SUN_PATH <=? strlen path) then ConnFailed
    else
      match m_socks m !! path with
      | Some (Some p) => ConnTo p
      | _ => NoListener
      end.

Definition ipc_server_is_running (o : Oracle) (e : ProcEnv) (m : Machine) : bool :=
  match connect_daemon_socket o e m with ConnTo _ => true | _ => false end.

(** 1 with the process, 0, or -1. *)
Definition ipc_server_get_pid (o : Oracle) (e : ProcEnv) (m : Machine) : Z * Z :=
  match connect_daemon_socket o e m with
  | ConnFailed => (-1, 0)
  | NoListener => (0, 0)
  | ConnTo p => if negb (or_peer o) then (-1, 0) else if negb (or_alive o) then (0, 0) else (1, p)
  end.

(** The address the server binds and clients connect to: cut to fit. *)
Definition sock_addr (e : ProcEnv) : bytes := strlcpy SUN_PATH (socket_path e).

Definition unlink_socket (env : IoEnv) (path : bytes) (m : Machine) : Machine :=
  mkMachine (unlink env (m_fs m) path) (m_locks m) (delete path (m_socks m)).

Definition ipc_server_start (o : Oracle) (e : ProcEnv) (p : Z) (m : Machine) : bool * Machine :=
  if ipc_server_is_running o e m then (false, m)
  else
    let m := unlink_socket (or_io o) (socket_path e) m in
    if negb (or_socket o) then (false, m)
    else if negb (or_bind o) || bool_decide (is_Some (m_socks m !! sock_addr e)) then (false, m)
    else if negb (or_listen o) then (false, unlink_socket (or_io o) (socket_path e) (set_socks (<[sock_addr e := None]> (m_socks m)) m))
    else (true, set_socks (<[sock_addr e := Some p]> (m_socks m)) m).

(** The listener of [p] is closed: the name stays. *)
Definition close_listener (p : Z) (m : Machine) : Machine :=
  set_socks ((fun l => if bool_decide (l = Some p) then None else l) <$> m_socks m) m.

(** The part of [ipc_server_stop] that others see. *)
Definition stop_listening (env : IoEnv) (e : ProcEnv) (p : Z) (m : Machine) : Machine :=
  unlink_socket env (socket_path e) (close_listener p m).

Definition ipc_client_connect (o : Oracle) (e : ProcEnv) (m : Machine) : option Z :=
  if negb (or_socket o) then None
  else match m_socks m !! sock_addr e with Some (Some p) => Some p | _ => None end.

(** The lock goes with its descriptor. *)
Definition release_lock (p : Z) (m : Machine) : Machine :=
  set_locks (filter (fun x : bytes * Z => x.2 <> p) (m_locks m)) m.

(** ** run_daemon *)

(** Where a process is.  [PhDb] and [PhServing]: the database is open. *)
Inductive daemon_pc :=
| PhStart | PhProbe | PhInit | PhCheck | PhOpen | PhDb | PhServing | PhExit (status : Z).

Definition leave (status p : Z) (m : Machine) : daemon_pc * Machine := (PhExit status, release_lock p m).

(** The next step of [run_daemon] in process [p]. *)
Definition daemon_next (o : Oracle) (e : ProcEnv) (p : Z) (pc : daemon_pc) (m : Machine) : daemon_pc * Machine :=
  match pc with
  | PhStart =>
      let '(r, m) := ipc_daemon_lock_acquire o e p m in
      if r =? 0 then (PhProbe, m) else (PhExit 1, m)
  | PhProbe =>
      let '(probe, _) := ipc_server_get_pid o e m in
      if probe =? 0 then (PhInit, m) else leave 1 p m
  | PhInit =>                                    (* daemonize, log_init, config_init *)
      let '(_, _, fs) := get_data_dir (or_io o) (or_rename o) (pe_home e) (m_fs m) in (PhCheck, set_fs fs m)
  | PhCheck => if ipc_server_is_running o e m then leave 1 p m else (PhOpen, m)
  | PhOpen => if or_db o then (PhDb, m) else leave 1 p m
  | PhDb =>
      let '(ok, m) := ipc_server_start o e p m in
      if ok then (PhServing, m) else leave 1 p m
  | PhServing => (PhServing, m)                  (* the loop: Daemon.v, Ipc.v *)
  | PhExit s => (PhExit s, m)
  end.

(** A shutdown request ends the loop. *)
Definition daemon_shutdown (env : IoEnv) (e : ProcEnv) (p : Z) (m : Machine) : daemon_pc * Machine :=
  leave 0 p (stop_listening env e p m).

(** The kernel cleans up after a process that dies. *)
Definition daemon_killed (p : Z) (m : Machine) : daemon_pc * Machine := leave (-1) p (close_listener p m).

(** ** Processes on one machine *)

Abbreviation procs := (gmap Z (ProcEnv * daemon_pc)).

(** A process starts the daemon, makes a step, is shut down or killed; clients
    and others change files, but nobody else touches sockets and locks. *)
Inductive machine_step : procs * Machine -> procs * Machine -> Prop :=
| mc_spawn p e ps m : ps !! p = None -> machine_step (ps, m) (<[p := (e, PhStart)]> ps, m)
| mc_step o p e pc ps m :
    ps !! p = Some (e, pc) ->
    machine_step (ps, m) (<[p := (e, fst (daemon_next o e p pc m))]> ps, snd (daemon_next o e p pc m))
| mc_shutdown env p e ps m :
    ps !! p = Some (e, PhServing) ->
    machine_step (ps, m) (<[p := (e, fst (daemon_shutdown env e p m))]> ps, snd (daemon_shutdown env e p m))
| mc_killed p e pc ps m :
    ps !! p = Some (e, pc) -> (forall s, pc <> PhExit s) ->
    machine_step (ps, m) (<[p := (e, fst (daemon_killed p m))]> ps, snd (daemon_killed p m))
| mc_files fs ps m : machine_step (ps, m) (ps, set_fs fs m).

(** Between the lock and its release. *)
Definition holding (pc : daemon_pc) : bool :=
  match pc with PhStart | PhExit _ => false | _ => true end.

Definition db_open (pc : daemon_pc) : bool := match pc with PhDb | PhServing => true | _ => false end.

(** *** Sockets and locks have the same directory *)

Definition short (e : ProcEnv) : Prop := socket_path e <> [] /\ strlen (socket_path e) < SUN_PATH.

Lemma short_addr e : short e -> sock_addr e = socket_path e.
Proof. intros [_ H]. by apply strlcpy_id. Qed.

(** The base directory with its kind, when there is a proper socket path. *)
Lemma socket_path_base e :
  socket_path e <> [] ->
  exists base kind, get_ipc_base 1024 e = Some (base, kind) /\
    socket_path e = strlcpy 1024 (match kind with
      | IPC_BASE_RUNTIME => default [] (join_path 1024 base (str "/cdm.sock"))
      | IPC_BASE_HOME => default [] (join_path 1024 base (str "/cdm/ipc.sock"))
      | IPC_BASE_TMP => strlcpy 1024 (base ++ str "/cdm_" ++ decimal (pe_uid e) ++ str ".sock") end).
Proof.
  unfold socket_path, get_socket_path. rewrite bool_decide_eq_true_2 by done. cbn [negb].
  destruct (get_ipc_base 1024 e) as [[base kind]|]; [|done]. intros _. by exists base, kind.
Qed.

Lemma strlcpy_uncut n s : strlen (strlcpy n s) < n - 1 -> strlcpy n s = s.
Proof. intros H. apply strlcpy_id. unfold strlcpy, strlen in *. rewrite length_take in H. lia. Qed.

Definition socket_suffix (e : ProcEnv) (kind : IpcBaseKind) : bytes :=
  match kind with
  | IPC_BASE_RUNTIME => str "/cdm.sock"
  | IPC_BASE_HOME => str "/cdm/ipc.sock"
  | IPC_BASE_TMP => str "/cdm_" ++ decimal (pe_uid e) ++ str ".sock"
  end.

Definition lock_suffix (e : ProcEnv) (kind : IpcBaseKind) : bytes :=
  match kind with
  | IPC_BASE_TMP => str "/cdm_" ++ decimal (pe_uid e) ++ str ".lock"
  | _ => str "/cdm.lock"
  end.

(** A short socket path is the base and a name; the lock is next to it. *)
Lemma short_paths e :
  short e ->
  exists base kind, (kind = IPC_BASE_TMP -> base = str "/tmp") /\
    socket_path e = base ++ socket_suffix e kind /\ lock_path e = Some (base ++ lock_suffix e kind).
Proof.
  intros [Hne Hl]. destruct (socket_path_base e Hne) as (base & kind & Hb & Hs). exists base, kind.
  assert (kind = IPC_BASE_TMP -> base = str "/tmp") as Htmp.
  { intros ->. revert Hb. unfold get_ipc_base. destruct (is_absolute (pe_runtime e)); [by case_bool|].
    destruct (is_absolute (pe_home e)); [by destruct (join_path _ _ _)|]. by intros [= <-]. }
  split; [done|]. unfold SUN_PATH in Hl. rewrite Hs in Hne, Hl. pose proof (strlcpy_uncut _ _ (Z.lt_trans _ 108 1023 Hl eq_refl)) as E.
  rewrite E in Hs, Hne, Hl. unfold lock_path. rewrite Hb.
  assert (forall suf, base ++ suf <> [] -> strlen (base ++ suf) < 108 -> strlen suf >= 9 ->
    join_path 1024 base (str "/cdm.lock") = Some (base ++ str "/cdm.lock")) as Hlock.
  { intros suf _ Hsl Hg. rewrite strlen_app in Hsl. unfold join_path. change (strlen (str "/cdm.lock")) with 9.
    by rewrite (proj2 (Z.ltb_ge _ _)) by lia. }
  destruct kind; cbn [socket_suffix lock_suffix].
  - unfold join_path at 1 in Hs. unfold join_path in Hne, Hl. destruct (1024 <? _); [done|]. cbn [default] in *.
    split; [done|]. apply (Hlock (str "/cdm.sock")); done.
  - unfold join_path at 1 in Hs. unfold join_path in Hne, Hl. destruct (1024 <? _); [done|]. cbn [default] in *.
    split; [done|]. apply (Hlock (str "/cdm/ipc.sock")); done.
  - pose proof (strlcpy_uncut _ _ (Z.lt_trans _ 108 1023 Hl eq_refl)) as E2. rewrite E2 in Hs, Hl. split; [done|].
    f_equal. apply strlcpy_id. rewrite !strlen_app in *. change (strlen (str ".lock")) with 5.
    change (strlen (str ".sock")) with 5 in Hl. lia.
Qed.

(** The character before ".sock" tells the kinds apart. *)
Definition mark (s : bytes) : option Z := reverse s !! 5%nat.

Lemma mark_app a b : (5 < length b)%nat -> mark (a ++ b) = mark b.
Proof. intros H. unfold mark. rewrite reverse_app. apply lookup_app_l. rewrite length_reverse. lia. Qed.

Lemma decimal_last n : exists ds d, decimal n = ds ++ [d] /\ is_digit d = true.
Proof.
  assert (exists m, 0 <= m /\ decimal n = decimal m) as (m & Hm & ->).
  { exists (Z.max 0 n). split; [lia|]. unfold decimal. do 2 f_equal. lia. }
  destruct (decimal_digits m Hm) as (Hd & _ & Hne).
  destruct (decimal m) as [|d ds _] using rev_ind; [done|]. exists ds, d. split; [done|].
  by apply Forall_app in Hd as [_ Hd%Forall_inv].
Qed.

Lemma mark_tmp a n : exists d, mark (a ++ str "/cdm_" ++ decimal n ++ str ".sock") = Some d /\ is_digit d = true.
Proof.
  destruct (decimal_last n) as (ds & d & -> & Hd). exists d. split; [|done].
  replace (a ++ str "/cdm_" ++ (ds ++ [d]) ++ str ".sock") with ((a ++ str "/cdm_" ++ ds) ++ ([d] ++ str ".sock"))
    by (by rewrite <- !app_assoc). rewrite mark_app by (simpl; lia). reflexivity.
Qed.

Lemma mark_suffix base e kind :
  match kind with
  | IPC_BASE_RUNTIME => mark (base ++ socket_suffix e kind) = Some 109
  | IPC_BASE_HOME => mark (base ++ socket_suffix e kind) = Some 99
  | IPC_BASE_TMP => exists d, mark (base ++ socket_suffix e kind) = Some d /\ is_digit d = true
  end.
Proof.
  destruct kind; cbn [socket_suffix]; [rewrite mark_app by (simpl; lia); reflexivity| |apply mark_tmp].
  rewrite mark_app by (simpl; lia); reflexivity.
Qed.

Lemma same_socket_same_lock e1 e2 :
  short e1 -> short e2 -> socket_path e1 = socket_path e2 -> lock_path e1 = lock_path e2 /\ is_Some (lock_path e1).
Proof.
  intros H1 H2 Heq. destruct (short_paths e1 H1) as (b1 & k1 & T1 & S1 & ->).
  destruct (short_paths e2 H2) as (b2 & k2 & T2 & S2 & ->). split; [|by eexists].
  rewrite S1, S2 in Heq. pose proof (mark_suffix b1 e1 k1) as M1. pose proof (mark_suffix b2 e2 k2) as M2.
  rewrite <- Heq in M2. f_equal.
  destruct k1, k2; try (rewrite M1 in M2; done);
    try (destruct M2 as (d & M2 & Hd); rewrite M1 in M2; injection M2 as <-; done);
    try (destruct M1 as (d & M1 & Hd); rewrite M1 in M2; injection M2 as ->; done).
  - cbn [socket_suffix lock_suffix] in *. by apply app_inv_tail in Heq as ->.
  - cbn [socket_suffix lock_suffix] in *. by apply app_inv_tail in Heq as ->.
  - rewrite (T1 eq_refl), (T2 eq_refl) in *. cbn [socket_suffix lock_suffix] in *.
    do 2 apply app_inv_head in Heq. by apply app_inv_tail in Heq as ->.
Qed.

(** *** The invariant *)

(** After the first probe the socket path is known to be usable. *)
Definition probed (pc : daemon_pc) : bool :=
  match pc with PhInit | PhCheck | PhOpen | PhDb | PhServing => true | _ => false end.

Record machine_inv (ps : procs) (m : Machine) : Prop := {
  mi_lock : forall p e pc, ps !! p = Some (e, pc) -> holding pc = true ->
    exists l, lock_path e = Some l /\ m_locks m !! l = Some p;
  mi_holder : forall l p, m_locks m !! l = Some p ->
    exists e pc, ps !! p = Some (e, pc) /\ holding pc = true /\ lock_path e = Some l;
  mi_short : forall p e pc, ps !! p = Some (e, pc) -> probed pc = true -> short e;
  mi_listener : forall s p, m_socks m !! s = Some (Some p) ->
    exists e, ps !! p = Some (e, PhServing) /\ socket_path e = s;
  mi_serving : forall p e, ps !! p = Some (e, PhServing) -> m_socks m !! socket_path e = Some (Some p);
}.

(** One process moves and the sockets stay. *)
Lemma inv_move ps m p e pc pc' :
  machine_inv ps m -> ps !! p = Some (e, pc) -> holding pc' = holding pc ->
  (probed pc' = true -> short e) -> pc <> PhServing -> pc' <> PhServing ->
  forall fs, machine_inv (<[p := (e, pc')]> ps) (set_fs fs m).
Proof.
  intros [Hl Hh Hs Hli Hse] Hp Hhold Hshort Hns Hns' fs. split; cbn [set_fs m_locks m_socks].
  - intros q e' pc0. destruct (decide (q = p)) as [->|Hne].
    + rewrite lookup_insert_eq. intros [= <- <-] Hq. rewrite Hhold in Hq. eauto.
    + rewrite lookup_insert_ne by done. eauto.
  - intros l q Hq. destruct (Hh l q Hq) as (e' & pc0 & E & Hq' & Hlp). destruct (decide (q = p)) as [->|Hne].
    + exists e, pc'. rewrite lookup_insert_eq. rewrite Hp in E. injection E as <- <-. by rewrite Hhold.
    + exists e', pc0. by rewrite lookup_insert_ne.
  - intros q e' pc0. destruct (decide (q = p)) as [->|Hne].
    + rewrite lookup_insert_eq. by intros [= <- <-].
    + rewrite lookup_insert_ne by done. apply Hs.
  - intros s q Hq. destruct (Hli s q Hq) as (e' & E & Es). exists e'. destruct (decide (q = p)) as [->|Hne].
    + rewrite Hp in E. by injection E as _ E.
    + by rewrite lookup_insert_ne.
  - intros q e'. destruct (decide (q = p)) as [->|Hne].
    + rewrite lookup_insert_eq. by intros [= <- E].
    + rewrite lookup_insert_ne by done. apply Hse.
Qed.

Lemma set_fs_same m : set_fs (m_fs m) m = m.
Proof. by destruct m. Qed.

(** A process takes a free lock. *)
Lemma inv_acquire ps m p e l fs :
  machine_inv ps m -> ps !! p = Some (e, PhStart) -> lock_path e = Some l -> m_locks m !! l = None ->
  machine_inv (<[p := (e, PhProbe)]> ps) (set_locks (<[l := p]> (m_locks m)) (set_fs fs m)).
Proof.
  intros [Hl Hh Hs Hli Hse] Hp Hlp Hfree. split; cbn [set_fs set_locks m_locks m_socks].
  - intros q e' pc0. destruct (decide (q = p)) as [->|Hne].
    + rewrite lookup_insert_eq. intros [= <- <-] _. exists l. by rewrite lookup_insert_eq.
    + rewrite lookup_insert_ne by done. intros E Hq. destruct (Hl q e' pc0 E Hq) as (l' & El & Hl').
      exists l'. split; [done|]. rewrite lookup_insert_ne; [done|]. by intros <-; rewrite Hfree in Hl'.
  - intros l' q. destruct (decide (l' = l)) as [->|Hne].
    + rewrite lookup_insert_eq. intros [= <-]. exists e, PhProbe. by rewrite lookup_insert_eq.
    + rewrite lookup_insert_ne by done. intros Hq. destruct (Hh l' q Hq) as (e' & pc0 & E & Hq' & Hlp').
      exists e', pc0. rewrite lookup_insert_ne; [done|]. intros <-. rewrite Hp in E. injection E as <- <-. done.
  - intros q e' pc0. destruct (decide (q = p)) as [->|Hne].
    + rewrite lookup_insert_eq. by intros [= <- <-].
    + rewrite lookup_insert_ne by done. apply Hs.
  - intros s q Hq. destruct (Hli s q Hq) as (e' & E & Es). exists e'. split; [|done].
    rewrite lookup_insert_ne; [done|]. intros <-. rewrite Hp in E. by injection E.
  - intros q e'. destruct (decide (q = p)) as [->|Hne].
    + rewrite lookup_insert_eq. by intros [= <- E].
    + rewrite lookup_insert_ne by done. apply Hse.
Qed.

(** Two processes with the same lock are one. *)
Lemma inv_exclusive ps m p q e1 pc1 e2 pc2 :
  machine_inv ps m -> ps !! p = Some (e1, pc1) -> ps !! q = Some (e2, pc2) -> holding pc1 = true -> holding pc2 = true ->
  lock_path e1 = lock_path e2 -> p = q.
Proof.
  intros Hinv H1 H2 Hh1 Hh2 Hl. destruct (mi_lock _ _ Hinv _ _ _ H1 Hh1) as (l1 & E1 & L1).
  destruct (mi_lock _ _ Hinv _ _ _ H2 Hh2) as (l2 & E2 & L2). congruence.
Qed.

Lemma inv_same_socket ps m p q e1 pc1 e2 pc2 :
  machine_inv ps m -> ps !! p = Some (e1, pc1) -> ps !! q = Some (e2, pc2) -> probed pc1 = true -> probed pc2 = true ->
  socket_path e1 = socket_path e2 -> p = q.
Proof.
  intros Hinv H1 H2 P1 P2 Hs. destruct (same_socket_same_lock e1 e2) as [Hl _];
    [by eapply mi_short|by eapply mi_short|done|].
  eapply (inv_exclusive ps m p q); [done|exact H1|exact H2|by destruct pc1|by destruct pc2|done].
Qed.

(** A process lets go of everything. *)
Lemma inv_leave ps m m' p e pc status :
  machine_inv ps m -> ps !! p = Some (e, pc) ->
  m_locks m' = m_locks m ->
  (forall s q, m_socks m' !! s = Some (Some q) -> q <> p /\ m_socks m !! s = Some (Some q)) ->
  (forall q e', q <> p -> ps !! q = Some (e', PhServing) -> m_socks m' !! socket_path e' = Some (Some q)) ->
  machine_inv (<[p := (e, PhExit status)]> ps) (release_lock p m').
Proof.
  intros [Hl Hh Hs Hli Hse] Hp El Hsub Hkeep. split; cbn [release_lock set_locks m_locks m_socks]; rewrite ?El.
  - intros q e' pc0. destruct (decide (q = p)) as [->|Hne]; [rewrite lookup_insert_eq; by intros [= <- <-]|].
    rewrite lookup_insert_ne by done. intros E Hq. destruct (Hl q e' pc0 E Hq) as (l' & El' & Hl').
    exists l'. split; [done|]. by apply map_lookup_filter_Some.
  - intros l q [Hq Hne]%map_lookup_filter_Some. destruct (Hh l q Hq) as (e' & pc0 & E & Hr). exists e', pc0.
    by rewrite lookup_insert_ne.
  - intros q e' pc0. destruct (decide (q = p)) as [->|Hne]; [rewrite lookup_insert_eq; by intros [= <- <-]|].
    rewrite lookup_insert_ne by done. apply Hs.
  - intros s q Hq. destruct (Hsub s q Hq) as [Hne Hq']. destruct (Hli s q Hq') as (e' & E & Es). exists e'.
    by rewrite lookup_insert_ne.
  - intros q e'. destruct (decide (q = p)) as [->|Hne]; [rewrite lookup_insert_eq; by intros [= <- E]|].
    rewrite lookup_insert_ne by done. by apply Hkeep.
Qed.

Lemma close_listener_lookup p m s q :
  m_socks (close_listener p m) !! s = Some (Some q) <-> q <> p /\ m_socks m !! s = Some (Some q).
Proof.
  unfold close_listener. cbn [set_socks m_socks]. rewrite lookup_fmap. destruct (m_socks m !! s) as [[r|]|]; cbn [fmap option_fmap option_map].
  - case_bool_decide as Hb; split; [done| |intros [= ->]; split; congruence|intros [_ [= ->]]; done].
    intros [Hn [= ->]]. congruence.
  - rewrite bool_decide_eq_false_2 by done. split; [done|by intros [_ ?]].
  - split; [done|by intros [_ ?]].
Qed.

(** Leaving before serving. *)
Lemma inv_leave_early ps m p e pc status :
  machine_inv ps m -> ps !! p = Some (e, pc) -> pc <> PhServing ->
  machine_inv (<[p := (e, PhExit status)]> ps) (release_lock p m).
Proof.
  intros Hinv Hp Hns. eapply (inv_leave ps m m); [done|exact Hp|done| |by intros; apply Hinv].
  intros s q Hq. split; [|done]. intros ->. destruct (mi_listener _ _ Hinv _ _ Hq) as (e' & E & _).
  rewrite Hp in E. by injection E as _ ->.
Qed.

Lemma inv_killed ps m p e pc status :
  machine_inv ps m -> ps !! p = Some (e, pc) ->
  machine_inv (<[p := (e, PhExit status)]> ps) (release_lock p (close_listener p m)).
Proof.
  intros Hinv Hp. eapply (inv_leave ps m); [done|exact Hp|done|by intros s q ?%close_listener_lookup|].
  intros q e' Hne Hq. apply close_listener_lookup. split; [done|]. by apply Hinv.
Qed.

Lemma inv_shutdown env ps m p e status :
  machine_inv ps m -> ps !! p = Some (e, PhServing) ->
  machine_inv (<[p := (e, PhExit status)]> ps) (release_lock p (stop_listening env e p m)).
Proof.
  intros Hinv Hp. eapply (inv_leave ps m); [done|exact Hp|done| |].
  - intros s q Hq. apply close_listener_lookup. unfold stop_listening in Hq. cbn [unlink_socket m_socks] in Hq.
    by apply lookup_delete_Some in Hq as [_ ?].
  - intros q e' Hne Hq. unfold stop_listening. cbn [unlink_socket m_socks]. rewrite lookup_delete_ne.
    + apply close_listener_lookup. split; [done|]. by apply Hinv.
    + intros Hs. apply Hne. symmetry. by eapply (inv_same_socket ps m p q).
Qed.

(** What [ipc_server_start] does to the sockets. *)
Lemma server_start_cases o e p m :
  short e ->
  let '(ok, m') := ipc_server_start o e p m in
  m_locks m' = m_locks m /\
  ((ok = true /\ m_socks m' = <[socket_path e := Some p]> (m_socks m)) \/
   (ok = false /\ (m' = m \/ m_socks m' = delete (socket_path e) (m_socks m)))).
Proof.
  intros He. unfold ipc_server_start. rewrite (short_addr e He). destruct (ipc_server_is_running _ _ _); [by auto|].
  destruct (or_socket o); cbn [negb]; [|by auto]. destruct (negb (or_bind o) || _) eqn:Eb; [by auto|].
  destruct (or_listen o); cbn [negb unlink_socket set_socks m_locks m_socks]; split; try done.
  - left. split; [done|]. by rewrite insert_delete_eq.
  - right. split; [done|]. right. apply map_eq. intros s. destruct (decide (s = socket_path e)) as [->|Hne].
    + by rewrite !lookup_delete_eq.
    + by rewrite !lookup_delete_ne, lookup_insert_ne, lookup_delete_ne.
Qed.

Lemma inv_not_listener ps m p e pc s q :
  machine_inv ps m -> ps !! p = Some (e, pc) -> pc <> PhServing -> m_socks m !! s = Some (Some q) -> q <> p.
Proof.
  intros Hinv Hp Hns Hq ->. destruct (mi_listener _ _ Hinv _ _ Hq) as (e' & E & _).
  rewrite Hp in E. by injection E as _ ->.
Qed.

Lemma inv_serve ps m m' p e :
  machine_inv ps m -> ps !! p = Some (e, PhDb) -> m_locks m' = m_locks m ->
  m_socks m' = <[socket_path e := Some p]> (m_socks m) ->
  machine_inv (<[p := (e, PhServing)]> ps) m'.
Proof.
  intros Hinv Hp El Es. pose proof Hinv as [Hl Hh Hs Hli Hse]. split; rewrite ?El, ?Es.
  - intros q e' pc0. destruct (decide (q = p)) as [->|Hne].
    + rewrite lookup_insert_eq. intros [= <- <-] _. by apply (Hl p e PhDb).
    + rewrite lookup_insert_ne by done. apply Hl.
  - intros l q Hq. destruct (Hh l q Hq) as (e' & pc0 & E & Hr). destruct (decide (q = p)) as [->|Hne].
    + exists e, PhServing. rewrite lookup_insert_eq. rewrite Hp in E. injection E as <- <-. split; [done|]. by split; [|apply Hr].
    + exists e', pc0. by rewrite lookup_insert_ne.
  - intros q e' pc0. destruct (decide (q = p)) as [->|Hne].
    + rewrite lookup_insert_eq. intros [= <- <-] _. by apply (Hs p e PhDb).
    + rewrite lookup_insert_ne by done. apply Hs.
  - intros s q. destruct (decide (s = socket_path e)) as [->|Hne].
    + rewrite lookup_insert_eq. intros [= <-]. exists e. by rewrite lookup_insert_eq.
    + rewrite lookup_insert_ne by done. intros Hq. destruct (Hli s q Hq) as (e' & E & E'). exists e'.
      rewrite lookup_insert_ne; [done|]. intros <-. rewrite Hp in E. by injection E.
  - intros q e'. destruct (decide (q = p)) as [->|Hne].
    + rewrite lookup_insert_eq. intros [= <-]. by rewrite lookup_insert_eq.
    + rewrite lookup_insert_ne by done. intros E. rewrite lookup_insert_ne; [by apply Hse|].
      intros Hsp. apply Hne. symmetry. by eapply (inv_same_socket ps m p q).
Qed.

Lemma lock_acquire_cases o e p m :
  let '(r, m') := ipc_daemon_lock_acquire o e p m in
  m_socks m' = m_socks m /\
  ((r = 0 /\ exists l, lock_path e = Some l /\ m_locks m !! l = None /\ m' = set_locks (<[l := p]> (m_locks m)) (set_fs (m_fs m') m)) \/
   (r <> 0 /\ m' = set_fs (m_fs m') m)).
Proof.
  unfold ipc_daemon_lock_acquire. destruct (get_ipc_base 1024 e) as [[base kind]|]; [|split; [done|]; right; by destruct m].
  destruct (if bool_decide _ then _ else _) as [ok fs1]. destruct (negb ok); [by auto|].
  destruct (lock_path e) as [l|]; [|by auto]. destruct (open_lock _ _ _) as [fs2|]; [|by auto].
  cbn [set_fs m_locks]. destruct (negb (or_owned o)); [by auto|]. destruct (m_locks m !! l) eqn:El; [by auto|].
  destruct (negb (or_flock o)); [by auto|]. destruct (negb (or_chmod o)); [by auto|].
  split; [done|]. left. split; [done|]. by exists l.
Qed.

Lemma probe_short o e m : fst (ipc_server_get_pid o e m) = 0 -> short e.
Proof.
  unfold ipc_server_get_pid, connect_daemon_socket. destruct (negb (or_socket o)); [done|].
  destruct (_ || _) eqn:Eb; [done|]. intros _. apply orb_false_iff in Eb as [H1%Z.eqb_neq H2%Z.leb_gt].
  split; [|done]. intros E. by rewrite E in H1.
Qed.

Lemma daemon_next_inv o ps m p e pc :
  machine_inv ps m -> ps !! p = Some (e, pc) ->
  machine_inv (<[p := (e, fst (daemon_next o e p pc m))]> ps) (snd (daemon_next o e p pc m)).
Proof.
  intros Hinv Hp. destruct pc; cbn [daemon_next].
  - pose proof (lock_acquire_cases o e p m) as H. destruct (ipc_daemon_lock_acquire _ _ _ _) as [r m'].
    destruct H as [_ [(-> & l & Hl & Hf & ->)|[Hr ->]]].
    + by apply inv_acquire.
    + rewrite (proj2 (Z.eqb_neq r 0)) by done. by eapply inv_move.
  - pose proof (probe_short o e m) as Hsh. destruct (ipc_server_get_pid o e m) as [r q]. cbn [fst] in Hsh.
    destruct (Z.eqb_spec r 0) as [E|E]; [|by eapply inv_leave_early].
    rewrite <- (set_fs_same m). eapply inv_move; try done. auto.
  - destruct (get_data_dir _ _ _ _) as [[? ?] fs]. eapply inv_move; try done. intros _. by eapply mi_short.
  - destruct (ipc_server_is_running o e m); [by eapply inv_leave_early|].
    rewrite <- (set_fs_same m). eapply inv_move; try done. intros _. by eapply mi_short.
  - destruct (or_db o); [|by eapply inv_leave_early].
    rewrite <- (set_fs_same m). eapply inv_move; try done. intros _. by eapply mi_short.
  - assert (short e) as He by (by eapply mi_short). pose proof (server_start_cases o e p m He) as H.
    destruct (ipc_server_start o e p m) as [ok m']. destruct H as [El [[-> Es]|[-> [->|Es]]]].
    + by eapply inv_serve.
    + by eapply inv_leave_early.
    + eapply (inv_leave ps m m'); [done|exact Hp|done| |]; rewrite Es.
      * intros s q [_ Hq]%lookup_delete_Some. split; [by eapply inv_not_listener|done].
      * intros q e' Hne Hq. rewrite lookup_delete_ne; [by apply Hinv|].
        intros Hsp. apply Hne. symmetry. by eapply (inv_same_socket ps m p q).
  - cbn [fst snd]. by rewrite insert_id.
  - cbn [fst snd]. by rewrite insert_id.
Qed.

Lemma machine_step_inv a b : machine_inv a.1 a.2 -> machine_step a b -> machine_inv b.1 b.2.
Proof.
  intros Hinv Hs. destruct Hs as [p e ps m Hp|o p e pc ps m Hp|env p e ps m Hp|p e pc ps m Hp _|fs ps m];
    cbn [fst snd] in *.
  - destruct Hinv as [Hl Hh Hs Hli Hse].
    assert (forall q, is_Some (ps !! q) -> q <> p) as Hne by (intros q [x Hx] ->; congruence).
    split.
    + intros q e' pc. destruct (decide (q = p)) as [->|]; [rewrite lookup_insert_eq; by intros [= <- <-]|].
      rewrite lookup_insert_ne by done. apply Hl.
    + intros l q Hq. destruct (Hh l q Hq) as (e' & pc & E & Hr). exists e', pc.
      rewrite lookup_insert_ne; [done|]. apply not_eq_sym, Hne. by eexists.
    + intros q e' pc. destruct (decide (q = p)) as [->|]; [rewrite lookup_insert_eq; by intros [= <- <-]|].
      rewrite lookup_insert_ne by done. apply Hs.
    + intros s q Hq. destruct (Hli s q Hq) as (e' & E & Es). exists e'.
      rewrite lookup_insert_ne; [done|]. apply not_eq_sym, Hne. by eexists.
    + intros q e'. destruct (decide (q = p)) as [->|]; [rewrite lookup_insert_eq; by intros [= <- E]|].
      rewrite lookup_insert_ne by done. apply Hse.
  - by apply daemon_next_inv.
  - by apply inv_shutdown.
  - by eapply inv_killed.
  - by destruct Hinv; split.
Qed.

Definition fresh_machine (fs : filesystem) (stale : gmap bytes (option Z)) : Machine := mkMachine fs ∅ stale.

Lemma fresh_inv fs stale : (forall s q, stale !! s <> Some (Some q)) -> machine_inv ∅ (fresh_machine fs stale).
Proof.
  intros Hst. split; cbn [fresh_machine m_locks m_socks]; try (by intros *; rewrite lookup_empty).
  intros s q Hq. by destruct (Hst s q).
Qed.

(** ** Properties *)

(** C10. There is one daemon, and clients find it.  On a machine where any
    number of processes start the daemon, are shut down or killed at any moment,
    with all steps interleaved and whatever the system calls answer, and which
    may begin with sockets left by a crash: two processes with the same lock
    file are never both past the lock, so that of all daemons a user starts in
    one environment at most one has the database open; the socket of a daemon
    that serves is its own, so that every client with this socket path that can
    connect reaches it; and a client never reaches anything but a daemon that
    serves. *)
Theorem one_daemon fs stale ps m :
  (forall s q, stale !! s <> Some (Some q)) ->
  rtc machine_step (∅, fresh_machine fs stale) (ps, m) ->
  (forall p q e1 pc1 e2 pc2, ps !! p = Some (e1, pc1) -> ps !! q = Some (e2, pc2) -> holding pc1 = true ->
     holding pc2 = true -> lock_path e1 = lock_path e2 -> p = q) /\
  (forall p q e pc1 pc2, ps !! p = Some (e, pc1) -> ps !! q = Some (e, pc2) -> db_open pc1 = true ->
     db_open pc2 = true -> p = q) /\
  (forall p e o e', ps !! p = Some (e, PhServing) -> socket_path e' = socket_path e -> or_socket o = true ->
     ipc_client_connect o e' m = Some p /\ ipc_server_is_running o e' m = true) /\
  (forall o e p, ipc_client_connect o e m = Some p -> exists e', ps !! p = Some (e', PhServing)).
Proof.
  intros Hst Hr. assert (machine_inv ps m) as Hinv.
  { apply (rtc_invariant machine_step (fun x => machine_inv x.1 x.2) _ _) in Hr; [exact Hr| |by apply fresh_inv].
    intros a b. apply machine_step_inv. }
  split; [by intros; eapply inv_exclusive|]. split; [|split].
  - intros p q e pc1 pc2 H1 H2 D1 D2. eapply (inv_exclusive ps m p q); [done|exact H1|exact H2|by destruct pc1|by destruct pc2|done].
  - intros p e o e' Hp Hs Ho. pose proof (mi_serving _ _ Hinv _ _ Hp) as Hsock.
    assert (short e) as He by (by eapply mi_short).
    assert (short e') as He' by (unfold short in *; by rewrite Hs). split.
    + unfold ipc_client_connect. by rewrite Ho, (short_addr e' He'), Hs, Hsock.
    + unfold ipc_server_is_running, connect_daemon_socket. rewrite Ho. cbn [negb]. rewrite Hs, Hsock.
      destruct He as [Hne Hl]. rewrite (proj2 (Z.leb_gt _ _)) by done.
      destruct (Z.eqb_spec (strlen (socket_path e)) 0) as [E|]; [|done].
      destruct (socket_path e); [done|]. unfold strlen in E. simpl in E. lia.
  - intros o e p. unfold ipc_client_connect. destruct (negb (or_socket o)); [done|].
    destruct (m_socks m !! sock_addr e) as [[q|]|] eqn:E; try done. intros [= <-].
    destruct (mi_listener _ _ Hinv _ _ E) as (e' & Hq & _). by exists e'.
Qed.

(** Schedules: the process that moves next, when all calls work. *)
Definition fine : Oracle := mkOracle permissive true true true true true true true true true true.

Fixpoint run_schedule (l : list Z) (x : procs * Machine) : procs * Machine :=
  match l with
  | [] => x
  | p :: l' =>
      match x.1 !! p with
      | Some (e, pc) =>
          run_schedule l' (<[p := (e, fst (daemon_next fine e p pc x.2))]> x.1, snd (daemon_next fine e p pc x.2))
      | None => run_schedule l' x
      end
  end.

Lemma run_schedule_steps l x : rtc machine_step x (run_schedule l x).
Proof.
  revert x. induction l as [|p l IH]; intros [ps m]; [apply rtc_refl|]. cbn [run_schedule fst snd].
  destruct (ps !! p) as [[e pc]|] eqn:E; [|apply IH]. eapply rtc_l; [by apply (mc_step fine)|apply IH].
Qed.

(** Two processes of one user race; a socket of a crashed daemon is left. *)
Definition user_env : ProcEnv := mkProcEnv (Some (str "/run/u")) (Some (str "/h")) 1000.
Definition start_fs : filesystem := <[str "/run/u" := NDir]> (<[str "/h" := NDir]> (<[str "/" := NDir]> ∅)).
Definition start_stale : gmap bytes (option Z) := {[str "/run/u/cdm.sock" := None]}.
Definition two_started : procs * Machine :=
  (<[11 := (user_env, PhStart)]> (<[10 := (user_env, PhStart)]> ∅), fresh_machine start_fs start_stale).
Definition raced : procs * Machine := run_schedule [10; 10; 11; 10; 10; 10; 10] two_started.

Lemma one_daemon_witness :
  raced.1 !! 10 = Some (user_env, PhServing) /\ raced.1 !! 11 = Some (user_env, PhExit 1) /\
  ipc_client_connect fine user_env raced.2 = Some 10.
Proof.
  assert (raced.1 !! 10 = Some (user_env, PhServing)) as E by (vm_compute; reflexivity).
  split; [exact E|]. split; [vm_compute; reflexivity|].
  assert (rtc machine_step (∅, fresh_machine start_fs start_stale) (raced.1, raced.2)) as Hr.
  { rewrite <- surjective_pairing. eapply rtc_l; [apply (mc_spawn 10 user_env); reflexivity|].
    eapply rtc_l; [apply (mc_spawn 11 user_env); reflexivity|]. apply run_schedule_steps. }
  assert (forall s q, start_stale !! s <> Some (Some q)) as Hst
    by (intros s q Hs; unfold start_stale in Hs; apply lookup_singleton_Some in Hs as [_ ?]; discriminate).
  exact (proj1 (proj1 (proj2 (proj2 (one_daemon start_fs start_stale raced.1 raced.2 Hst Hr)))
    10 user_env fine user_env E eq_refl eq_refl)).
Defined.

(** ** What the code does not do *)

(** The lock follows XDG_RUNTIME_DIR, the data directory follows HOME: a daemon
    started without the variable (by cron, say) and one started with it run side
    by side on the same database. *)
Example two_daemons_one_database :
  let cron_env := mkProcEnv None (Some (str "/h")) 1000 in
  let x := run_schedule [10; 10; 10; 10; 10; 10; 11; 11; 11; 11; 11; 11]
    (<[11 := (cron_env, PhStart)]> (<[10 := (user_env, PhStart)]> ∅), fresh_machine start_fs ∅) in
  x.1 !! 10 = Some (user_env, PhServing) /\ x.1 !! 11 = Some (cron_env, PhServing) /\
  fst (get_data_dir permissive true (pe_home user_env) ∅) = fst (get_data_dir permissive true (pe_home cron_env) ∅).
Proof. vm_compute. done. Qed.

(** A socket path of 108 bytes or more: clients connect to a name that was cut,
    the probe calls it an error, and no daemon starts. *)
Example long_socket_path :
  let e := mkProcEnv (Some (CH_SLASH :: repeat 97 100)) (Some (str "/h")) 1000 in
  let dir := CH_SLASH :: repeat 97 100 in
  let x := run_schedule [10; 10] (<[10 := (e, PhStart)]> ∅, fresh_machine (<[dir := NDir]> (<[str "/" := NDir]> ∅)) ∅) in
  strlen (socket_path e) = 110 /\ x.1 !! 10 = Some (e, PhExit 1) /\ sock_addr e <> socket_path e.
Proof. vm_compute. repeat split. discriminate. Qed.
