(* ===== verification/BrowserInstall.v ===== *)
(** * Registering the native messaging host ([src/native_host/browser_install.c])

    [cdm browser install|uninstall]: the manifest that tells a browser which
    program to start for the extension.  cJSON, the environment and the outcome
    of the writes are parameters. *)

From S2P Require Import Prelude Path FileIo QueueManager Db Config Engine Scheduler Wire Commands.

Definition HOST_NAME : bytes := str "org.cdm.browser".
Definition CHROME : bytes := str "--chrome".
Definition CHROMIUM : bytes := str "--chromium".
Definition FIREFOX : bytes := str "--firefox".

Definition manifest_dir (browser : bytes) : option bytes :=
  if streq browser CHROME then Some (str "/.config/google-chrome/NativeMessagingHosts")
  else if streq browser CHROMIUM then Some (str "/.config/chromium/NativeMessagingHosts")
  else if streq browser FIREFOX then Some (str "/.mozilla/native-messaging-hosts")
  else None.

(** 32 letters from a to p. *)
Definition valid_chromium_id (id : bytes) : bool :=
  (strlen id =? 32) && forallb (fun c => (97 <=? c) && (c <=? 112)) id.

(** The members of the manifest. *)
Inductive manifest_value := MString (s : bytes) | MArray (l : list bytes).
Abbreviation manifest := (list (bytes * manifest_value)).

Definition manifest_members (host_path browser id : bytes) : manifest :=
  [(str "name", MString HOST_NAME);
   (str "description", MString (str "Core Download Manager browser host"));
   (str "path", MString host_path);
   (str "type", MString (str "stdio"));
   if streq browser FIREFOX then (str "allowed_extensions", MArray [id])
   else (str "allowed_origins", MArray [strlcpy 80 (str "chrome-extension://" ++ id ++ str "/")])].

(** The manifest as a parsed object. *)
Definition manifest_object (ms : manifest) : json_object := fun key =>
  m ← list_find (fun m => fst m = key) ms;
  Some (match snd (snd m) with MString s => JString s | MArray _ => JOther end).

Section Install.

Context (env : IoEnv).
(** [getenv ("HOME")]; the link of the own executable, empty when it cannot be
    read; [access (p, X_OK)]; whether the temporary file can be written and
    synced. *)
Context (home : option bytes) (exe : bytes) (x_ok : bytes -> bool) (write_ok : bool).
(** cJSON. *)
Context (json_print : manifest -> bytes) (json_parse : bytes -> option json_object).

Definition get_manifest_path (browser : bytes) (capacity : Z) (create_directory : bool) (fs : filesystem)
    : option bytes * filesystem :=
  match manifest_dir browser, home with
  | Some suffix, Some h =>
      if negb (bool_decide (head h = Some CH_SLASH)) then (None, fs)
      else
        let dir := h ++ suffix in
        if 1024 <=? strlen dir then (None, fs)
        else
          let '(made, fs) := if create_directory then file_ensure_directory env fs dir else (true, fs) in
          if negb made then (None, fs)
          else
            let out := dir ++ CH_SLASH :: HOST_NAME ++ str ".json" in
            (if strlen out <? capacity then Some out else None, fs)
  | _, _ => (None, fs)
  end.

(** [get_self_exe_path] cuts what does not fit. *)
Definition get_host_path (capacity : Z) : option bytes :=
  let out := strlcpy capacity exe in
  match strrchr out CH_SLASH with
  | None => None
  | Some i =>
      if negb (streq (drop (S i) out) (str "cdm")) then None
      else if capacity <? Z.of_nat (S i) + strlen (str "cdm_native_host") + 1 then None
      else
        let host := take (S i) out ++ str "cdm_native_host" in
        if x_ok host then Some host else None
  end.

(** [mkstemp] and [rename] in the directory of [path]. *)
Definition write_manifest (path host_path browser id : bytes) (fs : filesystem) : bool * filesystem :=
  let json := json_print (manifest_members host_path browser id) in
  if 1200 <=? strlen path + strlen (str ".tmp.XXXXXX") then (false, fs)
  else if negb (parent_is_dir fs path) || env_deny env path || negb write_ok then (false, fs)
  else if bool_decide (fs !! path = Some NDir) then (false, fs)
  else (true, <[path := NReg (reg_pwrite empty_reg 0 (json ++ [CH_NL]))]> fs).

(** [fopen] follows links; of a directory nothing is read. *)
Definition read_manifest (path : bytes) (fs : filesystem) : option bytes :=
  match stat env fs path with
  | inr (NReg f) =>
      let contents := take (Z.to_nat 8191) (reg_content f) in
      Some (match strchr contents CH_NUL with Some i => take i contents | None => contents end)
  | inr NDir => Some []
  | _ => None
  end.

Definition ours (root : json_object) : bool :=
  match root (str "name"), root (str "path") with
  | Some (JString name), Some (JString host) =>
      streq name HOST_NAME &&
      match strrchr host CH_SLASH with
      | Some i => streq (drop (S i) host) (str "cdm_native_host")
      | None => false
      end
  | _, _ => false
  end.

Definition is_our_manifest (path : bytes) (fs : filesystem) : bool :=
  match read_manifest path fs with
  | None => false
  | Some contents => match json_parse contents with Some root => ours root | None => false end
  end.

Definition install_manifest (browser id : bytes) (fs : filesystem) : Z * filesystem :=
  match get_manifest_path browser 1200 true fs with
  | (None, fs) => (1, fs)
  | (Some manifest, fs) =>
      match get_host_path 1024 with
      | None => (1, fs)
      | Some host_path =>
          let '(ok, fs) := write_manifest manifest host_path browser id fs in
          (if ok then 0 else 1, fs)
      end
  end.

Definition uninstall_manifest (browser : bytes) (fs : filesystem) : Z * filesystem :=
  match get_manifest_path browser 1200 false fs with
  | (None, fs) => (1, fs)
  | (Some manifest, fs) =>
      if negb (access_ok env fs manifest) then (0, fs)
      else if negb (is_our_manifest manifest fs) then (1, fs)
      else if env_deny env manifest then (1, fs)
      else (0, unlink env fs manifest)
  end.

(** The exit status; [argv] with the name of the program first. *)
Definition browser_install_main (argv : list bytes) (fs : filesystem) : Z * filesystem :=
  match argv with
  | _ :: verb :: browser :: rest =>
      match manifest_dir browser with
      | None => (1, fs)
      | Some _ =>
          if streq verb (str "install") then
            match rest with
            | [flag; id] =>
                if negb (streq flag (str "--id")) then (1, fs)
                else if (if streq browser FIREFOX then streq id (str "browser@cdm.local") else valid_chromium_id id)
                then install_manifest browser id fs
                else (1, fs)
            | _ => (1, fs)
            end
          else if streq verb (str "uninstall") then
            match rest with [] => uninstall_manifest browser fs | _ => (1, fs) end
          else (1, fs)
      end
  | _ => (1, fs)
  end.

(** ** Lemmas *)

Definition manifest_path (browser : bytes) : option bytes :=
  match manifest_dir browser, home with
  | Some suffix, Some h => Some (h ++ suffix ++ CH_SLASH :: HOST_NAME ++ str ".json")
  | _, _ => None
  end.

Lemma get_manifest_path_spec browser create fs p fs' :
  get_manifest_path browser 1200 create fs = (p, fs') ->
  only_adds_dirs fs fs' /\ (create = false -> fs' = fs) /\
  (forall out, p = Some out -> manifest_path browser = Some out /\
     forall fs2, get_manifest_path browser 1200 false fs2 = (Some out, fs2)).
Proof.
  unfold get_manifest_path, manifest_path. destruct (manifest_dir browser) as [suffix|];
    [|intros [= <- <-]; split; [apply only_adds_dirs_refl|done]].
  destruct home as [h|]; [|intros [= <- <-]; split; [apply only_adds_dirs_refl|done]].
  destruct (negb (bool_decide (head h = _))); [intros [= <- <-]; split; [apply only_adds_dirs_refl|done]|]. cbv zeta.
  destruct (1024 <=? _); [intros [= <- <-]; split; [apply only_adds_dirs_refl|done]|].
  set (out := (h ++ suffix) ++ _).
  assert (only_adds_dirs fs (snd (if create then file_ensure_directory env fs (h ++ suffix) else (true, fs)))) as Hd.
  { destruct create; [apply ensure_directory_only_adds|apply only_adds_dirs_refl]. }
  destruct (if create then _ else _) as [made fs1] eqn:Em. cbn [snd] in Hd.
  assert (create = false -> fs1 = fs) as Hc by (intros ->; by injection Em).
  destruct (negb made); [by intros [= <- <-]|]. intros [= <- <-]. split; [done|]. split; [done|].
  intros o. destruct (strlen out <? 1200); [|done]. intros [= <-]. unfold out. rewrite <- app_assoc. done.
Qed.

Lemma get_host_path_spec host :
  get_host_path 1024 = Some host ->
  x_ok host = true /\ exists dir, host = dir ++ str "/cdm_native_host" /\ strlcpy 1024 exe = dir ++ str "/cdm".
Proof.
  unfold get_host_path. destruct (strrchr _ _) as [i|] eqn:E; [|done]. destruct (streq _ _) eqn:Es; [|done].
  cbn [negb]. destruct (1024 <? _); [done|]. cbv zeta. destruct (x_ok _) eqn:Ex; [|done]. intros [= <-].
  split; [done|]. apply streq_true in Es. apply strrchr_Some in E as [Hi _]. set (out := strlcpy 1024 exe) in *.
  assert (take (S i) out = take i out ++ [CH_SLASH]) as Ht by (by apply take_S_r).
  exists (take i out). split; [by rewrite Ht, <- app_assoc|].
  rewrite <- (take_drop (S i) out) at 1. by rewrite Es, Ht, <- app_assoc.
Qed.

(** cJSON on the manifest of this host: printed text that fits the buffer it is
    read into, and parses to what was printed. *)
Definition json_faithful (ms : manifest) : Prop :=
  let t := json_print ms ++ [CH_NL] in
  cstring t /\ strlen t < 8192 /\ json_parse t = Some (manifest_object ms).

Lemma strrchr_app s t c i : strrchr t c = Some i -> strrchr (s ++ t) c = Some (length s + i)%nat.
Proof. intros H. induction s as [|x s IH]; [done|]. cbn [app strrchr length]. by rewrite IH. Qed.

Lemma manifest_is_ours dir browser id path fs :
  let ms := manifest_members (dir ++ str "/cdm_native_host") browser id in
  json_faithful ms -> env_deny env path = false ->
  fs !! path = Some (NReg (reg_pwrite empty_reg 0 (json_print ms ++ [CH_NL]))) ->
  access_ok env fs path = true /\ read_manifest path fs = Some (json_print ms ++ [CH_NL]) /\
  is_our_manifest path fs = true.
Proof.
  cbv zeta. set (ms := manifest_members _ browser id). intros (Hc & Hl & Hp) Hd Hf.
  assert (stat env fs path = inr (NReg (reg_pwrite empty_reg 0 (json_print ms ++ [CH_NL])))) as Hst.
  { unfold stat. generalize 40%nat. intros n. destruct n; cbn [stat_from]; unfold lstat; by rewrite Hd, Hf. }
  split; [unfold access_ok; by rewrite Hst|].
  assert (read_manifest path fs = Some (json_print ms ++ [CH_NL])) as Hr.
  { unfold read_manifest. rewrite Hst, content_of_written. rewrite take_ge by (unfold strlen in Hl; lia).
    assert (strchr (json_print ms ++ [CH_NL]) CH_NUL = None) as ->; [|done].
    apply strchr_None. intros Hin. unfold cstring in Hc. rewrite Forall_forall in Hc. specialize (Hc _ Hin). lia. }
  split; [done|]. unfold is_our_manifest. rewrite Hr, Hp. unfold ours. change (manifest_object ms (str "name")) with (Some (JString HOST_NAME)).
  change (manifest_object ms (str "path")) with (Some (JString (dir ++ str "/cdm_native_host"))). cbv iota.
  rewrite streq_refl, (strrchr_app dir (str "/cdm_native_host") CH_SLASH 0) by reflexivity. cbn [andb].
  rewrite Nat.add_0_r. apply streq_true. change (str "/cdm_native_host") with ([CH_SLASH] ++ str "cdm_native_host").
  rewrite app_assoc. apply drop_app_length'. rewrite length_app. simpl. lia.
Qed.

Lemma install_cases browser id fs fs' :
  install_manifest browser id fs = (0, fs') ->
  exists path dir fs1, manifest_path browser = Some path /\ only_adds_dirs fs fs1 /\
    (forall fs2, get_manifest_path browser 1200 false fs2 = (Some path, fs2)) /\ env_deny env path = false /\
    strlcpy 1024 exe = dir ++ str "/cdm" /\ x_ok (dir ++ str "/cdm_native_host") = true /\
    fs' = <[path := NReg (reg_pwrite empty_reg 0
                            (json_print (manifest_members (dir ++ str "/cdm_native_host") browser id) ++ [CH_NL]))]> fs1.
Proof.
  unfold install_manifest. destruct (get_manifest_path browser 1200 true fs) as [[path|] fs1] eqn:Ep; [|done].
  destruct (get_manifest_path_spec _ _ _ _ _ Ep) as (Hd & _ & Hp). destruct (Hp _ eq_refl) as [Hmp Hagain].
  destruct (get_host_path 1024) as [host|] eqn:Eh; [|done].
  destruct (get_host_path_spec _ Eh) as (Hx & dir & -> & He). unfold write_manifest. cbv zeta.
  destruct (1200 <=? _); [done|]. destruct (env_deny env path) eqn:Ed; [by rewrite orb_true_r|].
  destruct (_ || _ || _); [done|]. case_bool_decide; [done|]. intros [= <-].
  exists path, dir, fs1. done.
Qed.

Lemma uninstall_cases browser fs :
  let fs' := snd (uninstall_manifest browser fs) in
  fs' = fs \/ exists path, is_our_manifest path fs = true /\ manifest_path browser = Some path /\ fs' = unlink env fs path.
Proof.
  cbv zeta. unfold uninstall_manifest.
  destruct (get_manifest_path browser 1200 false fs) as [[path|] fs1] eqn:Ep;
    destruct (get_manifest_path_spec _ _ _ _ _ Ep) as (_ & -> & Hp); [|done|by left|done].
  destruct (negb (access_ok _ _ _)); [by left|]. destruct (is_our_manifest path fs) eqn:Eo; [|by left]. cbn [negb].
  destruct (env_deny env path); [by left|]. right. exists path. split; [done|]. split; [by apply (Hp path)|done].
Qed.

(** ** Properties *)

(** Installing and uninstalling.  An [install] that succeeds has written,
    at the place where the browser looks, one manifest that names the host next
    to the running executable, which is executable, and the extension given;
    besides it only directories are new.  [uninstall] then recognises and
    removes that manifest and nothing else.  And whatever it is called with, a
    command other than [install] changes nothing, unless it is an uninstall of a
    manifest that is this program's own. *)
Theorem browser_install_effect cmd browser id fs argv :
  strlen exe < 1024 ->
  (forall dir, exe = dir ++ str "/cdm" ->
     json_faithful (manifest_members (dir ++ str "/cdm_native_host") browser id)) ->
  (let '(status, fs1) := browser_install_main [cmd; str "install"; browser; str "--id"; id] fs in
   status = 0 ->
   exists path dir, manifest_path browser = Some path /\ exe = dir ++ str "/cdm" /\
     x_ok (dir ++ str "/cdm_native_host") = true /\
     read_manifest path fs1 = Some (json_print (manifest_members (dir ++ str "/cdm_native_host") browser id) ++ [CH_NL]) /\
     (forall p, p <> path -> fs1 !! p = fs !! p \/ (fs !! p = None /\ fs1 !! p = Some NDir)) /\
     browser_install_main [cmd; str "uninstall"; browser] fs1 = (0, delete path fs1)) /\
  (nth 1 argv [] <> str "install" ->
   let fs2 := snd (browser_install_main argv fs) in
   fs2 = fs \/ exists path, is_our_manifest path fs = true /\ manifest_path (nth 2 argv []) = Some path /\
                 fs2 = unlink env fs path).
Proof.
  intros Hexe Hj. split.
  - destruct (browser_install_main _ fs) as [status fs1] eqn:E. intros ->. unfold browser_install_main in E |- *.
    destruct (manifest_dir browser) as [suffix|] eqn:Eb; [|done].
    rewrite !streq_refl in E. cbn [negb] in E. destruct (if streq browser FIREFOX then _ else _); [|done].
    destruct (install_cases browser id fs fs1 E) as (path & dir & fs0 & Hmp & Hd & Hagain & Hdeny & He & Hx & Hfs).
    rewrite strlcpy_id in He by done.
    assert (fs1 !! path = Some (NReg (reg_pwrite empty_reg 0
      (json_print (manifest_members (dir ++ str "/cdm_native_host") browser id) ++ [CH_NL])))) as Hfile
      by (by rewrite Hfs, lookup_insert_eq).
    destruct (manifest_is_ours dir browser id path fs1 (Hj dir He) Hdeny Hfile) as (Ha & Hr & Ho).
    exists path, dir. split; [done|]. split; [done|]. split; [done|]. split; [done|]. split.
    + intros p Hne. rewrite Hfs, lookup_insert_ne by done. apply Hd.
    + change (streq (str "uninstall") (str "install")) with false. rewrite streq_refl. cbv iota.
      unfold uninstall_manifest. rewrite Hagain, Ha, Ho, Hdeny. cbn [negb]. unfold unlink. by rewrite Hfile, Hdeny.
  - intros Hverb. cbv zeta. destruct argv as [|a [|verb [|browser' rest]]]; try by left. cbn [nth] in *.
    unfold browser_install_main. destruct (manifest_dir browser') as [suffix|]; [|by left].
    rewrite (proj2 (streq_false verb (str "install"))) by done. destruct (streq verb (str "uninstall")); [|by left].
    destruct rest; [|by left]. apply uninstall_cases.
Qed.

End Install.

(** A home directory with a browser profile. *)
Definition inst_fs : filesystem :=
  <[str "/" := NDir]> (<[str "/h" := NDir]> (<[str "/h/.mozilla" := NDir]> ∅)).
Definition inst_print (ms : manifest) : bytes := str "{manifest}".
Definition inst_parse (t : bytes) : option json_object :=
  if streq t (str "{manifest}" ++ [CH_NL])
  then Some (manifest_object (manifest_members (str "/opt/cdm_native_host") FIREFOX (str "browser@cdm.local"))) else None.

Definition inst_main (argv : list bytes) (fs : filesystem) : Z * filesystem :=
  browser_install_main permissive (Some (str "/h")) (str "/opt/cdm") (fun _ => true) true inst_print inst_parse argv fs.

Definition inst_argv : list bytes := [str "browser"; str "install"; FIREFOX; str "--id"; str "browser@cdm.local"].

Lemma browser_install_effect_witness :
  let fs1 := snd (inst_main inst_argv inst_fs) in
  fst (inst_main inst_argv inst_fs) = 0 /\
  inst_main [str "browser"; str "uninstall"; FIREFOX] fs1 =
    (0, delete (str "/h/.mozilla/native-messaging-hosts/org.cdm.browser.json") fs1).
Proof.
  cbv zeta. assert (fst (inst_main inst_argv inst_fs) = 0) as E by (vm_compute; reflexivity). split; [exact E|].
  assert (forall dir, str "/opt/cdm" = dir ++ str "/cdm" -> json_faithful inst_print inst_parse
    (manifest_members (dir ++ str "/cdm_native_host") FIREFOX (str "browser@cdm.local"))) as Hj.
  { intros dir Hd. change (str "/opt/cdm") with (str "/opt" ++ str "/cdm") in Hd. apply app_inv_tail in Hd. subst dir.
    split; [|split; vm_compute; reflexivity]. apply (bool_decide_unpack _). vm_compute. exact I. }
  destruct (browser_install_effect permissive (Some (str "/h")) (str "/opt/cdm") (fun _ => true) true inst_print inst_parse
    (str "browser") FIREFOX (str "browser@cdm.local") inst_fs [] ltac:(vm_compute; reflexivity) Hj) as [H _].
  change (browser_install_main _ _ _ _ _ _ _ [_; _; _; _; _] inst_fs) with (inst_main inst_argv inst_fs) in H.
  destruct (inst_main inst_argv inst_fs) as [status fs1] eqn:Em. cbn [fst snd] in *.
  destruct (H E) as (path & dir & Hp & _ & _ & _ & _ & Hun).
  assert (path = str "/h/.mozilla/native-messaging-hosts/org.cdm.browser.json") as ->
    by (revert Hp; vm_compute; intros Hp; injection Hp as <-; reflexivity).
  exact Hun.
Defined.

(** ** What the code does not do *)

(** The executable is recognised by its name: a renamed binary cannot install. *)
Example renamed_binary_refused :
  get_host_path (str "/opt/cdm-1.2") (fun _ => true) 1024 = None /\
  get_host_path (str "/opt/cdm") (fun _ => true) 1024 = Some (str "/opt/cdm_native_host").
Proof. vm_compute. done. Qed.

(** A manifest of more than 8191 bytes is cut when it is read; such a file is
    refused even when it is ours. *)
Example long_manifest_cut :
  option_map strlen (read_manifest permissive (str "/m") {[str "/m" := NReg (reg_pwrite empty_reg 0 (repeat 32 (Z.to_nat 9000)))]})
    = Some 8191.
Proof. vm_compute. reflexivity. Qed.
