(* ===== verification/CurlClient.v ===== *)
(** * Requests to the HTTP server ([src/platform/curl_client.c], [run_one_segment])

    The options a request sets in libcurl, the headers of a download split into
    lines, and the probe of a URL: what [curl_client_head] makes of the answer.
    libcurl itself is a parameter: the header lines it passes to the callback,
    its result, the status and the length it reports. *)

From S2P Require Import Prelude Path Segmenter FileIo Finalize QueueManager Pool Db Engine Config Scheduler Wire Commands Offers Ipc IpcClient OfferRpc Autostart Cli.

(** ** Extra headers *)

(** [strtok_r (buf, "\n", ...)]. *)
Definition tokens (s : bytes) : list bytes := filter (fun p => p <> []) (pieces CH_NL [] s).

Definition strip_cr (line : bytes) : bytes :=
  if bool_decide (last line = Some CH_CR) then take (length line - 1) line else line.

Definition curl_client_build_headers (extra_headers : bytes) : list bytes :=
  if bool_decide (extra_headers = []) then []
  else filter (fun l => l <> []) (map strip_cr (tokens (strlcpy 4096 extra_headers))).

(** ** The options of a request *)

Record CurlOptions := mkCurl {
  co_cookie : option bytes; co_referer : option bytes; co_headers : list bytes }.

Definition nonempty (s : bytes) : option bytes := if bool_decide (s = []) then None else Some s.

(** [RequestContext] of a download, and what a request makes of it. *)
Definition set_options (request : option RequestOptions) : CurlOptions :=
  match request with
  | None => mkCurl None None []
  | Some r => mkCurl (nonempty (cookie r)) (nonempty (referrer r)) (curl_client_build_headers (extra_headers r))
  end.

(** The text of CURLOPT_RANGE of a worker. *)
Definition range_header (w : Worker) : option bytes :=
  match request_range w with
  | None => None
  | Some (a, b) => Some (strlcpy 128 (decimal a ++ [45] ++ decimal b))
  end.

(** CURLOPT_MAX_RECV_SPEED_LARGE, through [curl_off_t]. *)
Definition max_recv_speed (speed_limit_bps : Z) : option Z :=
  if 0 <? speed_limit_bps then Some (i64 speed_limit_bps) else None.

(** ** curl_client_head *)

(** [strncasecmp (data, s, n) == 0] for [n] up to the length of both. *)
Definition same_prefix (n : nat) (data s : bytes) : bool :=
  bool_decide (map lower (take n data) = map lower (take n s)).

Definition head_header_callback (data : bytes) (info : FileInfo) : FileInfo :=
  if (19 <=? strlen data) && same_prefix 19 data (str "Accept-Ranges: bytes")
  then mkInfo (fi_total_size info) true else info.

(** What libcurl reports: every header line of every response on the way, its
    result, the last status, the content length (-1: unknown). *)
Record CurlAnswer := mkAnswer {
  ca_lines : list bytes; ca_ok : bool; ca_status : Z; ca_length : Z }.

(** [None] for -1; the file information is left as it stands then. *)
Definition curl_client_head (answer : option CurlAnswer) : option FileInfo :=
  match answer with
  | None => None
  | Some a =>
      let out := fold_left (fun info line => head_header_callback line info) (ca_lines a) (mkInfo 0 false) in
      if ca_ok a && (200 <=? ca_status a) && (ca_status a <? 300) then
        Some (mkInfo (if 0 <? ca_length a then u64 (ca_length a) else 0) (fi_supports_ranges out))
      else None
  end.

(** ** Lemmas *)






(** The options of a download survive the trip through JSON. *)












(** The digits of a range, read by the server. *)
Lemma digits_stop ds c rest :
  Forall (fun c => is_digit c = true) ds -> is_digit c = false -> digits (ds ++ c :: rest) = (ds, c :: rest).
Proof. intros H Hc. induction H as [|d ds Hd _ IH]; cbn [app digits]; [by rewrite Hc|]. by rewrite Hd, IH. Qed.

(** RFC 9110: first-pos "-" last-pos. *)
Definition parse_range (text : bytes) : option (Z * Z) :=
  let '(a, r) := digits text in
  match r with
  | 45 :: r' => let '(b, r'') := digits r' in
      if bool_decide (a = [] \/ b = [] \/ r'' <> []) then None else Some (digits_value a, digits_value b)
  | _ => None
  end.

Lemma range_parsed a b : 0 <= a -> 0 <= b -> parse_range (decimal a ++ [45] ++ decimal b) = Some (a, b).
Proof.
  intros Ha Hb. destruct (decimal_digits a Ha) as (A1 & A2 & A3), (decimal_digits b Hb) as (B1 & B2 & B3).
  unfold parse_range. cbn [app]. rewrite digits_stop by done. rewrite digits_all by done.
  rewrite bool_decide_eq_false_2 by (intros [?|[?|?]]; done). by rewrite A2, B2.
Qed.


(** ** Properties *)


(** A header line that switches ranges on. *)
Definition ranges_line (line : bytes) : Prop :=
  19 <= strlen line /\ map lower (take 19 line) = str "accept-ranges: byte".

Lemma ranges_fold ls info :
  fi_supports_ranges (fold_left (fun info line => head_header_callback line info) ls info) = true <->
  fi_supports_ranges info = true \/ Exists ranges_line ls.
Proof.
  revert info. induction ls as [|l ls IH]; intros info; cbn [fold_left].
  - rewrite Exists_nil. tauto.
  - rewrite IH, Exists_cons. unfold head_header_callback, same_prefix, ranges_line at 2.
    change (map lower (take 19 (str "Accept-Ranges: bytes"))) with (str "accept-ranges: byte").
    destruct (Z.leb_spec 19 (strlen l)) as [H19|H19]; cbn [andb]; [|intuition lia].
    case_bool_decide as Hb; cbn [fi_supports_ranges]; tauto.
Qed.

(** The probe of a URL.  [curl_client_head] gives a file only when the
    transfer succeeded with a 2xx status; the size is the content length the
    server stated, 0 when it stated none, and is in the range the engine needs
    ([head_ok]); ranges are used exactly when some header line of some response
    starts, in any case of letters, with "Accept-Ranges: byte". *)
Theorem curl_client_head_spec a info :
  - 2 ^ 63 <= ca_length a < 2 ^ 63 ->
  curl_client_head (Some a) = Some info ->
  ca_ok a = true /\ 200 <= ca_status a < 300 /\
  fi_total_size info = Z.max 0 (ca_length a) /\ head_ok (Some info) /\
  (fi_supports_ranges info = true <->
   exists line, line ∈ ca_lines a /\ 19 <= strlen line /\ map lower (take 19 line) = str "accept-ranges: byte").
Proof.
  intros Hl. unfold curl_client_head. cbv zeta. destruct (ca_ok a); [|done].
  destruct (Z.leb_spec 200 (ca_status a)); [|done]. destruct (Z.ltb_spec (ca_status a) 300); [|done].
  cbn [andb]. intros [= <-]. cbn [fi_total_size fi_supports_ranges].
  assert ((if 0 <? ca_length a then u64 (ca_length a) else 0) = Z.max 0 (ca_length a)) as Hsz.
  { destruct (Z.ltb_spec 0 (ca_length a)); [rewrite u64_small by zlia|]; lia. }
  split; [done|]. split; [lia|]. split; [exact Hsz|]. split.
  - intros i [= <-]. cbn [fi_total_size]. rewrite Hsz. lia.
  - rewrite ranges_fold, Exists_exists. split; [by intros [?|(l & ? & ? & ?)]; [|exists l]|].
    intros (l & ? & ?). right. by exists l.
Qed.

(** A worker asks for the bytes it will write.  The text of the Range
    header, as an HTTP server reads it, is the position at which the worker
    writes and the last byte of its range; the buffer it is printed into is
    large enough for any 64-bit range. *)
Theorem range_header_asks w :
  is_u64 (rg_end (w_range w)) ->
  (range_header w ≫= parse_range) = request_range w /\
  (rg_whole_file (w_range w) = true <-> range_header w = None).
Proof.
  intros He. unfold range_header, request_range. destruct (rg_whole_file (w_range w)); [done|].
  assert (is_u64 (intended_write_offset w)) as Hi by (unfold intended_write_offset; apply u64_range).
  unfold is_u in He, Hi. split; [|done]. cbn [mbind option_bind].
  rewrite strlcpy_id; [apply range_parsed; lia|]. rewrite !strlen_app.
  pose proof (decimal_length 20 _ ltac:(lia) ltac:(split; [apply He|]; zlia)).
  pose proof (decimal_length 20 _ ltac:(lia) ltac:(split; [apply Hi|]; zlia)). change (strlen [45]) with 1. lia.
Qed.

(** ** Witnesses and examples *)

Definition curl_pairs : list option_pair :=
  [(str "--header", str "X-A: 1"); (str "--cookie", str "a=b"); (str "--header", str "X-B: two words")].



(** The same options when the array is still what it was. *)
Example headers_survive :
  exists ro, add_request_options (fun s => s) (parse_add_options (flatten curl_pairs)) = Some ro /\
    co_headers (set_options (Some (options_of_object (object_of (option_members ro))))) = [str "X-A: 1"; str "X-B: two words"].
Proof. eexists. split; vm_compute; reflexivity. Qed.

Definition head_answer : CurlAnswer :=
  mkAnswer [str "HTTP/1.1 200 OK"; str "accept-ranges: Bytes"; str "Content-Length: 1000"] true 200 1000.

Lemma curl_client_head_spec_witness :
  curl_client_head (Some head_answer) = Some (mkInfo 1000 true) /\ head_ok (Some (mkInfo 1000 true)).
Proof.
  assert (curl_client_head (Some head_answer) = Some (mkInfo 1000 true)) as E by (vm_compute; reflexivity).
  split; [exact E|].
  exact (proj1 (proj2 (proj2 (proj2 (curl_client_head_spec head_answer _ ltac:(simpl; lia) E))))).
Defined.

(** ** What the code does not do *)

(** The comparison takes 19 of the 20 characters, does not know that the space
    is optional, and is not reset between the responses of a redirect. *)
Example ranges_misread :
  let ranges ls := option_map fi_supports_ranges (curl_client_head (Some (mkAnswer ls true 200 1000))) in
  ranges [str "Accept-Ranges: byteless"] = Some true /\
  ranges [str "Accept-Ranges:bytes"] = Some false /\
  ranges [str "HTTP/1.1 302 Found"; str "Accept-Ranges: bytes"; str "HTTP/1.1 200 OK"; str "Accept-Ranges: none"] = Some true.
Proof. vm_compute. done. Qed.

(** A limit of 2^63 or more becomes a negative number for libcurl; a limit of
    1 or 1024 bytes per second is also the speed below which the transfer counts
    as stalled. *)
Example limit_edges :
  max_recv_speed (2 ^ 63) = Some (- 2 ^ 63) /\ low_speed_limit 1024 = 1024 /\ low_speed_limit 1 = 1.
Proof. vm_compute. done. Qed.
