(* ===== verification/NativeHost.v ===== *)
(** * The native messaging host ([src/native_host/main_host.c])

    The process a browser starts to talk to cdm: frames of JSON on standard
    input and output, a table of the offers it watches, and a poll that reports
    their changes.  Standard output is the sequence of messages sent; a message
    is printed by cJSON, a parameter.  The requests to the daemon are those of
    IpcClient.v on the connections the kernel gives. *)

From S2P Require Import Prelude Path FileIo QueueManager Db Config Engine Scheduler Wire Commands Offers Ipc IpcClient Cli.

#[local] Open Scope wire_scope.

(** ** Frames *)

Definition NATIVE_MAX_MESSAGE : Z := 1048576.

Definition native_frame (json : bytes) : bytes := le 4 (u32 (strlen json)) ++ json.

Inductive frame_result := FrameEof | FrameMalformed | FrameText (json rest : bytes).

(** [input] is all that comes before the end of the input; [malloc_ok]: there
    is room for the text. *)
Definition native_read (malloc_ok : bool) (input : bytes) : frame_result :=
  if (length input <? 4)%nat then if bool_decide (input = []) then FrameEof else FrameMalformed
  else
    let len := unle (take 4 input) in
    if (len =? 0) || (NATIVE_MAX_MESSAGE <? len) then FrameMalformed
    else if negb malloc_ok then FrameMalformed
    else
      let json := take (Z.to_nat len) (drop 4 input) in
      if strlen json <? len then FrameMalformed
      else if bool_decide (CH_NUL ∈ json) then FrameMalformed
      else FrameText json (drop (Z.to_nat len) (drop 4 input)).

(** ** Messages *)

Inductive host_message :=
| MsgError (request_id text : bytes)
| MsgRegistered (offer : IpcBrowserOffer)
| MsgState (offer : IpcBrowserOffer) (progress : option IpcBrowserProgress).

Definition state_name (st : IpcBrowserOfferState) : bytes :=
  match st with
  | IPC_BROWSER_WAITING => str "waiting"
  | IPC_BROWSER_CONFIRMED => str "confirmed"
  | IPC_BROWSER_DISMISSED => str "dismissed"
  end.

Definition reported_name (offer : IpcBrowserOffer) (progress : option IpcBrowserProgress) : bytes :=
  match progress with
  | None => state_name (o_state offer)
  | Some p =>
      if streq (p_status p) (str "DONE") then str "complete"
      else if streq (p_status p) (str "ERROR") then str "error"
      else if streq (p_status p) (str "CANCELED") then str "error"
      else if streq (p_status p) (str "ACTIVE") then str "started"
      else state_name (o_state offer)
  end.

Section Host.

(** cJSON; [float_value] is the number made from the bits of a float. *)
Context (json_parse : bytes -> option json_object) (json_print : list (bytes * json_value) -> bytes).
Context (float_value : Z -> json_value).

Definition message_members (m : host_message) : list (bytes * json_value) :=
  match m with
  | MsgError request_id text =>
      [(str "type", JString (str "error")); (str "request_id", JString request_id); (str "error", JString text)]
  | MsgRegistered offer =>
      [(str "type", JString (str "offer_registered")); (str "request_id", JString (o_request_id offer));
       (str "offer_id", JNumber (o_offer_id offer) 1)]
  | MsgState offer progress =>
      [(str "type", JString (str "offer_state")); (str "request_id", JString (o_request_id offer));
       (str "state", JString (reported_name offer progress)); (str "offer_id", JNumber (o_offer_id offer) 1);
       (str "download_id", JNumber (o_download_id offer) 1)] ++
      match progress with
      | None => []
      | Some p =>
          [(str "progress", float_value (p_progress p)); (str "bytes_received", JNumber (p_bytes_received p) 1);
           (str "total_bytes", JNumber (p_total_bytes p) 1)] ++
          (if bool_decide (p_error p = []) then [] else [(str "error", JString (p_error p))])
      end
  end.

Definition message_text (m : host_message) : bytes := json_print (message_members m).

(** ** State *)

Record HostOffer := mkHostOffer {
  h_offer : IpcBrowserOffer;
  h_reported_state : IpcBrowserOfferState;
  h_reported_bytes : Z;
  h_reported_status : bytes;   (* char[24] *)
}.

Definition no_host_offer : HostOffer := mkHostOffer no_offer IPC_BROWSER_WAITING 0 [].

Definition HOST_MAX_OFFERS : nat := 64.

(** [hs_dials] is what the next attempts to connect give; [hs_popups] the offers
    a popup was started for. *)
Record HostState := mkHost {
  hs_offers : list HostOffer;
  hs_sent : list host_message;
  hs_dials : list (option Conn);
  hs_popups : list Z;
}.

Definition host_start (dials : list (option Conn)) : HostState :=
  mkHost (replicate HOST_MAX_OFFERS no_host_offer) [] dials [].

Definition with_host_offers (l : list HostOffer) (h : HostState) : HostState :=
  mkHost l (hs_sent h) (hs_dials h) (hs_popups h).

Definition set_slot (i : nat) (s : HostOffer) (h : HostState) : HostState :=
  with_host_offers (<[i := s]> (hs_offers h)) h.

Definition tracked (s : HostOffer) : bool := negb (o_offer_id (h_offer s) =? 0).

Definition host_dial (h : HostState) : option Conn * HostState :=
  (match hs_dials h with c :: _ => c | [] => None end,
   mkHost (hs_offers h) (hs_sent h) (drop 1 (hs_dials h)) (hs_popups h)).

(** Whether standard output takes one more message after these. *)
Context (write_ok : list host_message -> bool).

(** What a failed write leaves in the pipe is not modelled: the host ends. *)
Definition native_send (m : host_message) (h : HostState) : bool * HostState :=
  if (strlen (message_text m) <=? NATIVE_MAX_MESSAGE) && write_ok (hs_sent h) then
    (true, mkHost (hs_offers h) (hs_sent h ++ [m]) (hs_dials h) (hs_popups h))
  else (false, h).

Definition send_error (request_id text : bytes) : HostState -> bool * HostState :=
  native_send (MsgError request_id text).

(** ** Parsing an offer of the extension *)

Definition copy_field (root : json_object) (name : bytes) (capacity : Z) (required : bool) : option bytes :=
  match root name with
  | None => if required then None else Some []
  | Some (JString s) =>
      if (required && bool_decide (s = [])) || (capacity <=? strlen s) then None else Some s
  | Some _ => None
  end.

Definition parse_offer (root : json_object) : option IpcBrowserOffer :=
  match root (str "type") with
  | Some (JString t) =>
      if negb (streq t (str "download_offer")) then None
      else
        request_id ← copy_field root (str "request_id") 128 true;
        url ← copy_field root (str "url") 2048 true;
        filename ← copy_field root (str "filename") 512 false;
        mime ← copy_field root (str "mime") 128 false;
        referrer ← copy_field root (str "referrer") 2048 false;
        total ← json_total root;
        Some (mkOffer 0 0 total IPC_BROWSER_WAITING request_id url filename mime referrer)
  | _ => None
  end.

(** ** The daemon *)

(** The path of cdm next to the host's own. *)
Definition cdm_executable (self : bytes) (x_ok : bytes -> bool) : option bytes :=
  let dir := match strrchr self CH_SLASH with Some i => take (S i) self | None => [] end in
  let base := drop (length dir) self in
  if negb (streq base (str "cdm_native_host")) then None
  else let out := dir ++ str "cdm" in if x_ok out then Some out else None.

(** [running k]: the answer of probe [k]. *)
Definition ensure_daemon_running (self : bytes) (x_ok : bytes -> bool) (spawned : bool) (running : nat -> bool)
    : bool :=
  if running O then true
  else
    match cdm_executable self x_ok with
    | Some _ => spawned && existsb running (seq 1 50)
    | None => false
    end.

Definition find_offer_slot (request_id : bytes) (l : list HostOffer) : option nat :=
  match list_find (fun s => tracked s = true /\ o_request_id (h_offer s) = request_id) l with
  | Some (i, _) => Some i
  | None => fst <$> list_find (fun s => tracked s = false) l
  end.

(** ** handle_message *)

(** The executable and the daemon at this moment; the popup could be started. *)
Context (self : bytes) (x_ok : bytes -> bool) (spawned : bool) (running : nat -> bool) (popup_ok : bool).

Definition launch_popup (request_id : bytes) (offer_id : Z) (h : HostState) : bool * HostState :=
  match cdm_executable self x_ok with
  | None => send_error request_id (str "cannot locate cdm popup binary") h
  | Some _ =>
      if popup_ok then (true, mkHost (hs_offers h) (hs_sent h) (hs_dials h) (hs_popups h ++ [offer_id]))
      else send_error request_id (str "could not launch cdm popup") h
  end.

Definition register_offer (request_id : bytes) (i : nat) (registered : IpcBrowserOffer) (h : HostState) : bool * HostState :=
  let old := nth i (hs_offers h) no_host_offer in
  let launch := negb (o_offer_id (h_offer old) =? o_offer_id registered)
                && bool_decide (o_state registered = IPC_BROWSER_WAITING) in
  let '(ok, h) := native_send (MsgRegistered registered)
                    (set_slot i (mkHostOffer registered (o_state registered) 0 []) h) in
  if negb ok then (false, h)
  else if launch then launch_popup request_id (o_offer_id registered) h
  else (true, h).

Definition handle_offer (offered : IpcBrowserOffer) (h : HostState) : bool * HostState :=
  match find_offer_slot (o_request_id offered) (hs_offers h) with
  | None => send_error (o_request_id offered) (str "too many pending downloads") h
  | Some i =>
      if negb (ensure_daemon_running self x_ok spawned running) then
        send_error (o_request_id offered) (str "cdm daemon could not start") h
      else
        let '(daemon, h) := host_dial h in
        match daemon with
        | None => send_error (o_request_id offered) (str "cdm daemon is unavailable") h
        | Some c =>
            match fst (ipc_browser_offer json_print offered c) with
            | None => send_error (o_request_id offered) (str "daemon rejected download offer") h
            | Some registered => register_offer (o_request_id offered) i registered h
            end
        end
  end.

Definition host_handle_message (json : bytes) (h : HostState) : bool * HostState :=
  match json_parse json with
  | None => send_error [] (str "invalid JSON") h
  | Some root =>
      match parse_offer root with
      | None =>
          send_error (match root (str "request_id") with Some (JString s) => s | _ => [] end)
            (str "invalid or unsupported download offer") h
      | Some offered => handle_offer offered h
      end
  end.

(** ** poll_offers *)

(** What the host learns of a watched offer: gone, the daemon gone, or its
    present state with the progress of its download when that could be had. *)
Inductive answer := AnsExpired | AnsDisconnected | AnsOffer (current : IpcBrowserOffer) (progress : option IpcBrowserProgress).

Definition wants_progress (current : IpcBrowserOffer) : bool :=
  bool_decide (o_state current = IPC_BROWSER_CONFIRMED) && negb (o_download_id current =? 0).

Definition ask_offer (id : Z) (c : Conn) (h : HostState) : answer * Conn * HostState :=
  let '(current, c) := ipc_browser_get_offer id c in
  match current with
  | None => (AnsExpired, c, h)
  | Some current =>
      if wants_progress current then
        let '(sock, h) := host_dial h in
        (AnsOffer current match sock with
                          | Some p => fst (ipc_browser_subscribe_progress (o_download_id current) p)
                          | None => None
                          end, c, h)
      else (AnsOffer current None, c, h)
  end.

Definition terminal_status (status : bytes) : bool :=
  streq status (str "DONE") || streq status (str "CANCELED") || streq status (str "ERROR").

Definition progress_changed (s : HostOffer) (p : IpcBrowserProgress) : bool :=
  negb (p_bytes_received p =? h_reported_bytes s) || negb (streq (p_status p) (h_reported_status s)).

(** The messages the answer makes the host send, in order. *)
Definition relay_messages (s : HostOffer) (a : answer) : list host_message :=
  match a with
  | AnsExpired => [MsgError (o_request_id (h_offer s)) (str "download offer expired")]
  | AnsDisconnected => [MsgError (o_request_id (h_offer s)) (str "cdm daemon disconnected")]
  | AnsOffer current progress =>
      (if decide (o_state current = h_reported_state s) then [] else [MsgState current None]) ++
      match progress with
      | Some p => if progress_changed s p then [MsgState current (Some p)] else []
      | None => []
      end
  end.

(** The slot afterwards. *)
Definition relay_slot (s : HostOffer) (a : answer) : HostOffer :=
  match a with
  | AnsExpired | AnsDisconnected => no_host_offer
  | AnsOffer current progress =>
      let s := mkHostOffer current (o_state current) (h_reported_bytes s) (h_reported_status s) in
      if decide (o_state current = IPC_BROWSER_DISMISSED) then no_host_offer
      else
        match progress with
        | Some p =>
            if terminal_status (p_status p) then no_host_offer
            else if progress_changed s p then
              mkHostOffer current (o_state current) (p_bytes_received p) (strlcpy 24 (p_status p))
            else s
        | None => s
        end
  end.

(** [ok] is the result of the last message sent. *)
Fixpoint send_all (ms : list host_message) (ok : bool) (h : HostState) : bool * HostState :=
  match ms with
  | [] => (ok, h)
  | m :: ms' => let '(ok, h) := native_send m h in send_all ms' ok h
  end.

Definition poll_slot (i : nat) (c : Conn) (h : HostState) : bool * Conn * HostState :=
  let s := nth i (hs_offers h) no_host_offer in
  if negb (tracked s) then (true, c, h)
  else
    let '(a, c, h) := ask_offer (o_offer_id (h_offer s)) c h in
    let '(ok, h) := send_all (relay_messages s a) true h in
    (ok, c, set_slot i (relay_slot s a) h).

(** [for (i = 0; i < HOST_MAX_OFFERS && ok; i++)]. *)
Fixpoint host_poll_loop (n i : nat) (c : Conn) (h : HostState) : bool * HostState :=
  match n with
  | O => (true, h)
  | S n' => let '(ok, c, h) := poll_slot i c h in if ok then host_poll_loop n' (S i) c h else (false, h)
  end.

Fixpoint disconnect_loop (n i : nat) (notified : bool) (h : HostState) : bool * HostState :=
  match n with
  | O => (notified, h)
  | S n' =>
      let s := nth i (hs_offers h) no_host_offer in
      if tracked s then
        let '(ok, h) := send_error (o_request_id (h_offer s)) (str "cdm daemon disconnected") h in
        disconnect_loop n' (S i) (ok && notified) (set_slot i no_host_offer h)
      else disconnect_loop n' (S i) notified h
  end.

Definition poll_offers (h : HostState) : bool * HostState :=
  if negb (existsb tracked (hs_offers h)) then (true, h)
  else
    let '(daemon, h) := host_dial h in
    match daemon with
    | None => disconnect_loop HOST_MAX_OFFERS 0 true h
    | Some c => host_poll_loop HOST_MAX_OFFERS 0 c h
    end.

(** One round of [main]; [ready] is what [select] says of the input.  The exit
    status when the host ends, and the input left. *)
Definition host_round (malloc_ok ready : bool) (input : bytes) (h : HostState) : option Z * bytes * HostState :=
  let poll input h := let '(ok, h) := poll_offers h in (if ok then None else Some 1, input, h) in
  if negb ready then poll input h
  else
    match native_read malloc_ok input with
    | FrameEof => (Some 0, [], h)
    | FrameMalformed => (Some 1, [], h)
    | FrameText json input =>
        let '(ok, h) := host_handle_message json h in
        if ok then poll input h else (Some 1, input, h)
    end.

End Host.

(** ** Lemmas *)

(** *** Frames *)

Definition frame_ok (json : bytes) : Prop := 0 < strlen json <= NATIVE_MAX_MESSAGE /\ CH_NUL ∉ json.

(** Reading until the end: the texts, and how the input ended. *)
Fixpoint read_all (fuel : nat) (input : bytes) : list bytes * frame_result :=
  match fuel with
  | O => ([], FrameMalformed)
  | S fuel' =>
      match native_read true input with
      | FrameText json rest => let '(l, r) := read_all fuel' rest in (json :: l, r)
      | r => ([], r)
      end
  end.

Lemma le4_length v : length (le 4 v) = 4%nat.
Proof. exact (length_le 4 v). Qed.

Lemma le4_value v : 0 <= v < 2 ^ 32 -> unle (le 4 v) = v.
Proof. exact (unle_le 4 v). Qed.

Lemma frame_length json : length (native_frame json) = (4 + length json)%nat.
Proof. unfold native_frame. by rewrite length_app, le4_length. Qed.

Lemma frame_size json : frame_ok json -> u32 (strlen json) = strlen json.
Proof. intros [H _]. unfold NATIVE_MAX_MESSAGE in H. apply wrap_small. zlia. Qed.

Lemma native_read_frame json rest : frame_ok json -> native_read true (native_frame json ++ rest) = FrameText json rest.
Proof.
  intros Hok. pose proof (frame_size json Hok) as Hs. destruct Hok as [Hlen Hnul].
  unfold native_read. assert ((length (native_frame json ++ rest) <? 4)%nat = false) as ->.
  { apply Nat.ltb_ge. rewrite length_app, frame_length. lia. }
  unfold native_frame. rewrite <- app_assoc, take_app_length', drop_app_length' by (by rewrite le4_length).
  rewrite Hs, le4_value by (unfold NATIVE_MAX_MESSAGE in Hlen; zlia). cbv zeta.
  rewrite (proj2 (Z.eqb_neq _ _)), (proj2 (Z.ltb_ge _ _)) by lia. cbn [orb negb].
  unfold strlen. rewrite Nat2Z.id, take_app_length, drop_app_length, Z.ltb_irrefl.
  by rewrite bool_decide_false.
Qed.

Lemma native_read_cut json k :
  frame_ok json -> (k < length (native_frame json))%nat ->
  native_read true (take k (native_frame json)) = if decide (k = 0%nat) then FrameEof else FrameMalformed.
Proof.
  intros Hok Hk. pose proof (frame_size json Hok) as Hs. destruct Hok as [Hlen _]. rewrite frame_length in Hk.
  unfold native_read. rewrite length_take, frame_length, Nat.min_l by lia.
  destruct (Nat.ltb_spec k 4).
  - case_decide as H0; [by subst|]. rewrite bool_decide_false; [done|].
    intros E%(f_equal length). rewrite length_take, frame_length in E. simpl in E. lia.
  - rewrite decide_False by lia. unfold native_frame. rewrite take_app, le4_length.
    rewrite take_app_length', drop_app_length' by (rewrite length_take, le4_length; lia).
    rewrite (take_ge (le _ _)) by (rewrite le4_length; lia).
    rewrite Hs, le4_value by (unfold NATIVE_MAX_MESSAGE in Hlen; zlia). cbv zeta.
    rewrite (proj2 (Z.eqb_neq _ _)), (proj2 (Z.ltb_ge _ (strlen json))) by lia. cbn [orb negb].
    rewrite (proj2 (Z.ltb_lt _ _)); [done|]. unfold strlen. rewrite !length_take. lia.
Qed.

Lemma read_all_frames jsons tail fuel :
  Forall frame_ok jsons -> (length jsons < fuel)%nat ->
  (forall json rest, native_read true tail <> FrameText json rest) ->
  read_all fuel (concat (map native_frame jsons) ++ tail) = (jsons, native_read true tail).
Proof.
  intros Hok Hf Ht. revert fuel Hf. induction Hok as [|json jsons Hj _ IH]; intros [|fuel] Hf; simpl in Hf; try lia.
  - cbn [read_all map concat app]. destruct (native_read true tail) as [| |json rest] eqn:E; [done|done|]. by destruct (Ht json rest).
  - cbn [read_all map concat]. rewrite <- app_assoc, native_read_frame by done. by rewrite IH by lia.
Qed.

(** *** Relaying *)

(** What the extension was last told of a request. *)
Abbreviation heard := (IpcBrowserOfferState * Z * bytes)%type.

Definition view (s : HostOffer) : heard := (h_reported_state s, h_reported_bytes s, h_reported_status s).

Definition hear (v : heard) (m : host_message) : heard :=
  match m with
  | MsgState o None => (o_state o, snd (fst v), snd v)
  | MsgState o (Some p) => (o_state o, p_bytes_received p, strlcpy 24 (p_status p))
  | _ => v
  end.

(** Each message says something the extension has not heard. *)
Fixpoint news (v : heard) (ms : list host_message) : Prop :=
  match ms with
  | [] => True
  | m :: ms' =>
      match m with
      | MsgState o None => o_state o <> fst (fst v)
      | MsgState o (Some p) => p_bytes_received p <> snd (fst v) \/ p_status p <> snd v
      | _ => True
      end /\ news (hear v m) ms'
  end.

(** The last word on a request. *)
Definition final (m : host_message) : Prop :=
  match m with
  | MsgError _ _ => True
  | MsgRegistered _ => False
  | MsgState o None => o_state o = IPC_BROWSER_DISMISSED
  | MsgState o (Some p) => terminal_status (p_status p) = true
  end.

(** The texts of a message are no longer than the fields of the structures they
    come from; numbers may be any. *)
Definition message_fits (m : host_message) : Prop :=
  match m with
  | MsgError request_id text => strlen request_id <= 128 /\ strlen text <= 64
  | MsgRegistered o => strlen (o_request_id o) <= 128
  | MsgState o progress =>
      strlen (o_request_id o) <= 128 /\ match progress with Some p => strlen (p_error p) <= 256 | None => True end
  end.

(** A slot as [register_offer] makes it of an offer that is not dismissed, and as
    polling keeps it. *)
Record slot_ok (s : HostOffer) : Prop := {
  so_state : tracked s = true -> h_reported_state s = o_state (h_offer s) /\ h_reported_state s <> IPC_BROWSER_DISMISSED;
  so_status : terminal_status (h_reported_status s) = false;
  so_fits : strlen (o_request_id (h_offer s)) <= 128;
}.

Lemma registered_slot_ok o :
  o_state o <> IPC_BROWSER_DISMISSED -> strlen (o_request_id o) <= 128 -> slot_ok (mkHostOffer o (o_state o) 0 []).
Proof. intros Hs Hf. by split. Qed.

Definition answer_ok (a : answer) : Prop :=
  match a with
  | AnsOffer o p =>
      o_offer_id o <> 0 /\ (is_Some p -> wants_progress o = true) /\ strlen (o_request_id o) <= 128 /\
      forall x, p = Some x -> strlen (p_error x) <= 256
  | _ => True
  end.

Lemma terminal_cut status : terminal_status status = false -> terminal_status (strlcpy 24 status) = false.
Proof.
  intros H. destruct (decide (strlen status < 24)) as [Hs|Hs]; [by rewrite strlcpy_id|].
  assert (length (strlcpy 24 status) = 23%nat) as Hl.
  { unfold strlcpy. rewrite length_take. unfold strlen in Hs. change (Z.to_nat (24 - 1)) with 23%nat. lia. }
  unfold terminal_status, streq. by rewrite !bool_decide_false by (intros E; rewrite E in Hl; discriminate Hl).
Qed.

Lemma no_host_ok : slot_ok no_host_offer.
Proof. by split. Qed.

(** One answer: the slot stays well-formed; what was said is new; while the slot
    is kept, the extension has heard its state; when it is dropped, the last
    message was final. *)
Record relayed (s : HostOffer) (ms : list host_message) (s' : HostOffer) : Prop := {
  re_ok : slot_ok s';
  re_news : news (view s) ms;
  re_fits : Forall message_fits ms;
  re_heard : tracked s' = true -> fold_left hear ms (view s) = view s';
  re_final : tracked s' = false -> exists m, last ms = Some m /\ final m;
}.

Lemma relay_offer s o p :
  tracked s = true -> slot_ok s -> answer_ok (AnsOffer o p) ->
  relayed s (relay_messages s (AnsOffer o p)) (relay_slot s (AnsOffer o p)).
Proof.
  intros Ht [Hst Hstatus _] (Hid & Hp & Hrid & Herr). specialize (Hst Ht) as [_ Hnd]. unfold relay_messages, relay_slot.
  set (m1 := if decide (o_state o = h_reported_state s) then [] else [MsgState o None]).
  assert (news (view s) m1 /\ fold_left hear m1 (view s) = (o_state o, h_reported_bytes s, h_reported_status s)) as [N1 F1].
  { subst m1. case_decide as E; [|done]. split; [done|]. simpl. by rewrite E. }
  assert (forall b st, tracked (mkHostOffer o (o_state o) b st) = true) as Htr.
  { intros b st. unfold tracked. simpl. by rewrite (proj2 (Z.eqb_neq _ _) Hid). }
  assert (Forall message_fits m1) as M1 by (subst m1; case_decide; repeat constructor; done).
  destruct (decide (o_state o = IPC_BROWSER_DISMISSED)) as [Ed|Ed].
  - assert (p = None) as ->.
    { destruct p as [p|]; [|done]. specialize (Hp ltac:(by eexists)). unfold wants_progress in Hp.
      rewrite Ed in Hp. by rewrite bool_decide_false in Hp. }
    rewrite app_nil_r. split; [apply no_host_ok|done|done|done|]. intros _. exists (MsgState o None). subst m1.
    rewrite decide_False by congruence. done.
  - destruct p as [p|]; [|rewrite app_nil_r; split; [by split|done|done|done|by rewrite Htr]].
    set (m2 := if progress_changed s p then [MsgState o (Some p)] else []).
    assert (Forall message_fits (m1 ++ m2)) as M2.
    { apply Forall_app. split; [done|]. subst m2. destruct (progress_changed s p); repeat constructor; [done|by apply Herr]. }
    assert (news (view s) (m1 ++ m2)) as N2.
    { subst m2. destruct (progress_changed s p) eqn:Ec; [|by rewrite app_nil_r].
      assert (p_bytes_received p <> h_reported_bytes s \/ p_status p <> h_reported_status s) as Hc.
      { unfold progress_changed in Ec. apply orb_true_iff in Ec as [E|E]; apply negb_true_iff in E;
          [left; by apply Z.eqb_neq|right; by apply streq_false]. }
      subst m1. case_decide; simpl; tauto. }
    destruct (terminal_status (p_status p)) eqn:Et.
    + split; [apply no_host_ok|done|done|done|]. intros _. exists (MsgState o (Some p)). subst m2.
      assert (progress_changed s p = true) as ->; [|by rewrite last_snoc].
      unfold progress_changed. apply orb_true_iff. right. apply negb_true_iff, streq_false. intros E. congruence.
    + subst m2. change (progress_changed (mkHostOffer o (o_state o) (h_reported_bytes s) (h_reported_status s)) p)
        with (progress_changed s p).
      destruct (progress_changed s p).
      * split; [|done|done| |by rewrite Htr].
        -- split; [done| |done]. by apply terminal_cut.
        -- intros _. by rewrite fold_left_app, F1.
      * rewrite app_nil_r in *. split; [by split|done|done|done|by rewrite Htr].
Qed.

Lemma relay_spec s a :
  tracked s = true -> slot_ok s -> answer_ok a -> relayed s (relay_messages s a) (relay_slot s a).
Proof.
  intros Ht Hs Ha. destruct a as [| |o p]; [| |by apply relay_offer];
    (split; [apply no_host_ok|done|by repeat constructor; [apply Hs|]|done|]); intros _; eexists; (split; [reflexivity|exact I]).
Qed.

(** *** The whole table *)

Lemma list_insert_middle {A} (l1 l2 : list A) x y : <[length l1 := x]> (l1 ++ y :: l2) = l1 ++ x :: l2.
Proof. induction l1 as [|z l1 IH]; [done|]. simpl. by f_equal. Qed.

Definition slot_result (s : HostOffer) (ms : list host_message) (s' : HostOffer) : Prop :=
  if tracked s then relayed s ms s' else ms = [] /\ s' = s.

Section Poll.

Context (json_print : list (bytes * json_value) -> bytes) (float_value : Z -> json_value).
Context (write_ok : list host_message -> bool).

(** Every write to standard output succeeds, and a message of short texts prints
    to at most one MiB. *)
Definition output_works : Prop :=
  (forall sent, write_ok sent = true) /\
  (forall m, message_fits m -> strlen (message_text json_print float_value m) <= NATIVE_MAX_MESSAGE).

Context (Hout : output_works).

Abbreviation poll := (poll_offers json_print float_value write_ok).

Definition say (ms : list host_message) (h : HostState) : HostState :=
  mkHost (hs_offers h) (hs_sent h ++ ms) (hs_dials h) (hs_popups h).

Lemma native_send_ok m h : message_fits m -> native_send json_print float_value write_ok m h = (true, say [m] h).
Proof.
  intros Hm. destruct Hout as [Hw Hs]. unfold native_send. by rewrite (proj2 (Z.leb_le _ _) (Hs m Hm)), Hw.
Qed.

Lemma send_all_ok ms h : Forall message_fits ms -> send_all json_print float_value write_ok ms true h = (true, say ms h).
Proof.
  intros Hms. revert h. induction Hms as [|m ms Hm _ IH]; intros h; cbn [send_all].
  - unfold say. rewrite app_nil_r. by destruct h.
  - rewrite native_send_ok, IH by done. unfold say. cbn [hs_offers hs_sent hs_dials hs_popups]. by rewrite <- app_assoc.
Qed.

Lemma length_cstr b : (length (cstr b) <= length b)%nat.
Proof. unfold cstr. destruct (strchr b CH_NUL); [rewrite length_take|]; lia. Qed.

Lemma split_fields_short sizes bs : Forall2 (fun n f => (length f <= n)%nat) sizes (split_fields sizes bs).
Proof.
  revert bs. induction sizes as [|n sizes IH]; intros bs; cbn [split_fields]; constructor; [rewrite length_take; lia|apply IH].
Qed.

Lemma cstr_short n f : (length f <= n)%nat -> strlen (cstr f) <= Z.of_nat n.
Proof. intros H. unfold strlen. pose proof (length_cstr f). lia. Qed.

(** What is read has the sizes of the structures. *)
Lemma decoded_request_id bs : strlen (o_request_id (decode_offer bs)) <= 128.
Proof.
  unfold decode_offer. pose proof (split_fields_short offer_sizes bs) as H.
  destruct (split_fields offer_sizes bs) as [|? [|? [|? [|? [|rid [|? [|? [|? [|? [|? [|]]]]]]]]]]]; try (unfold strlen; simpl; lia).
  unfold offer_sizes in H. do 4 (apply Forall2_cons in H as [_ H]). apply Forall2_cons in H as [H _].
  cbn [o_request_id]. by apply (cstr_short 128).
Qed.

Lemma decoded_error bs : strlen (p_error (decode_progress bs)) <= 256.
Proof.
  unfold decode_progress. pose proof (split_fields_short progress_sizes bs) as H.
  destruct (split_fields progress_sizes bs) as [|? [|? [|? [|? [|? [|? [|err [|? [|? [|]]]]]]]]]]; try (unfold strlen; simpl; lia).
  unfold progress_sizes in H. do 6 (apply Forall2_cons in H as [_ H]). apply Forall2_cons in H as [H _].
  cbn [p_error]. by apply (cstr_short 256).
Qed.

Lemma get_offer_id id c o c' :
  ipc_browser_get_offer id c = (Some o, c') -> o_offer_id o <> 0 /\ strlen (o_request_id o) <= 128.
Proof.
  unfold ipc_browser_get_offer. destruct (id =? 0); [done|]. unfold wbind.
  destruct (browser_write_request _ _ c) as [[u|] c1]; [|done]. unfold read_offer, wbind.
  destruct (ipc_read_exact _ c1) as [[bs|] c2]; [|done].
  destruct (Z.eqb_spec (o_offer_id (decode_offer bs)) 0); [done|]. intros [= <- _]. split; [done|apply decoded_request_id].
Qed.

Lemma subscribed_error id c p : fst (ipc_browser_subscribe_progress id c) = Some p -> strlen (p_error p) <= 256.
Proof.
  unfold ipc_browser_subscribe_progress. destruct (id =? 0); [done|]. unfold wbind.
  destruct (browser_write_request _ _ c) as [[u|] c1]; [|done]. destruct (ipc_read_exact _ c1) as [[bs|] c2]; [|done].
  repeat case_match; try done; intros [= <-]; apply decoded_error.
Qed.

(** The rest of the state, apart from the connections. *)
Definition same_table (h h' : HostState) : Prop :=
  hs_offers h' = hs_offers h /\ hs_sent h' = hs_sent h /\ hs_popups h' = hs_popups h.

Lemma ask_offer_spec id c h a c' h' : ask_offer id c h = (a, c', h') -> answer_ok a /\ same_table h h'.
Proof.
  unfold ask_offer. destruct (ipc_browser_get_offer id c) as [[o|] c1] eqn:E; [|by intros [= <- _ <-]].
  destruct (get_offer_id _ _ _ _ E) as [Hid Hrid]. destruct (wants_progress o) eqn:Ew.
  - unfold host_dial. intros [= <- _ <-]. split; [|by repeat split]. split_and!; [done|done|done|].
    intros x Hx. destruct (match hs_dials h with c :: _ => c | [] => None end) as [pc|]; [|done]. by apply subscribed_error in Hx.
  - intros [= <- _ <-]. split; [|by repeat split]. split_and!; [done|by intros [? ?]|done|done].
Qed.

Lemma poll_slot_spec pre s post c h :
  hs_offers h = pre ++ s :: post -> slot_ok s ->
  exists c' h' ms s', poll_slot json_print float_value write_ok (length pre) c h = (true, c', h') /\
    slot_result s ms s' /\ hs_offers h' = pre ++ s' :: post /\ hs_sent h' = hs_sent h ++ ms /\
    hs_popups h' = hs_popups h.
Proof.
  intros Eo Hs. unfold poll_slot. rewrite Eo, nth_middle. unfold slot_result. destruct (tracked s) eqn:Et; cbn [negb].
  - destruct (ask_offer (o_offer_id (h_offer s)) c h) as [[a c1] h1] eqn:Ea.
    destruct (ask_offer_spec _ _ _ _ _ _ Ea) as [Ha (E1 & E2 & E3)].
    rewrite send_all_ok by (apply (re_fits _ _ _ (relay_spec s a Et Hs Ha))).
    eexists _, _, (relay_messages s a), (relay_slot s a). split; [reflexivity|].
    split; [by apply relay_spec|]. unfold set_slot, with_host_offers, say. cbn [hs_offers hs_sent hs_popups].
    rewrite E1, E2, Eo. split; [|done]. by rewrite list_insert_middle.
  - exists c, h, [], s. rewrite app_nil_r. by repeat split.
Qed.

Lemma host_poll_loop_spec post : forall pre c h,
  hs_offers h = pre ++ post -> Forall slot_ok post ->
  exists h' mss post', host_poll_loop json_print float_value write_ok (length post) (length pre) c h = (true, h') /\
    Forall3 slot_result post mss post' /\ hs_offers h' = pre ++ post' /\
    hs_sent h' = hs_sent h ++ concat mss /\ hs_popups h' = hs_popups h.
Proof.
  induction post as [|s post IH]; intros pre c h Eo Hok.
  - exists h, [], []. cbn [concat]. rewrite !app_nil_r in *. repeat split; [constructor|done].
  - apply Forall_cons in Hok as [Hs Hok]. cbn [length host_poll_loop].
    destruct (poll_slot_spec pre s post c h Eo Hs) as (c1 & h1 & ms & s' & -> & Hr & E1 & E2 & E3).
    destruct (IH (pre ++ [s']) c1 h1) as (h' & mss & post' & Ep & Hf & F1 & F2 & F3); [by rewrite <- app_assoc|done|].
    rewrite length_app, Nat.add_1_r in Ep. rewrite Ep. exists h', (ms :: mss), (s' :: post').
    split; [done|]. split; [by constructor|]. rewrite <- app_assoc in F1. split; [done|].
    split; [|congruence]. rewrite F2, E2. simpl. by rewrite app_assoc.
Qed.

Lemma disconnect_loop_spec post : forall pre h,
  hs_offers h = pre ++ post -> Forall slot_ok post ->
  exists h' mss post',
    disconnect_loop json_print float_value write_ok (length post) (length pre) true h = (true, h') /\
    Forall3 slot_result post mss post' /\ hs_offers h' = pre ++ post' /\
    hs_sent h' = hs_sent h ++ concat mss /\ hs_popups h' = hs_popups h.
Proof.
  induction post as [|s post IH]; intros pre h Eo Hok.
  - exists h, [], []. cbn [concat]. rewrite !app_nil_r in *. repeat split; [constructor|done].
  - apply Forall_cons in Hok as [Hs Hok]. cbn [length disconnect_loop]. rewrite Eo, nth_middle.
    destruct (tracked s) eqn:Et.
    + unfold send_error. rewrite native_send_ok by (split; [apply Hs|done]). cbn [andb].
      set (h1 := set_slot (length pre) no_host_offer _).
      destruct (IH (pre ++ [no_host_offer]) h1) as (h' & mss & post' & Ep & Hf & F1 & F2 & F3); [|done|].
      { subst h1. unfold set_slot, with_host_offers, say. cbn [hs_offers]. by rewrite Eo, list_insert_middle, <- app_assoc. }
      rewrite length_app, Nat.add_1_r in Ep. rewrite Ep.
      exists h', (relay_messages s AnsDisconnected :: mss), (no_host_offer :: post'). split; [done|].
      split; [constructor; [|done]; unfold slot_result; rewrite Et; by apply (relay_spec s AnsDisconnected)|].
      rewrite <- app_assoc in F1. split; [done|]. split; [|done]. rewrite F2. simpl. by rewrite <- app_assoc.
    + destruct (IH (pre ++ [s]) h) as (h' & mss & post' & Ep & Hf & F1 & F2 & F3); [by rewrite <- app_assoc|done|].
      rewrite length_app, Nat.add_1_r in Ep. rewrite Ep. exists h', ([] :: mss), (s :: post'). split; [done|].
      split; [constructor; [|done]; unfold slot_result; by rewrite Et|]. rewrite <- app_assoc in F1. done.
Qed.

Lemma untracked_results l :
  existsb tracked l = false -> Forall3 slot_result l (replicate (length l) []) l.
Proof.
  induction l as [|s l IH]; [constructor|]. simpl. intros [E1 E2]%orb_false_iff. constructor; [|by apply IH].
  unfold slot_result. by rewrite E1.
Qed.

End Poll.

(** ** Properties *)

(** Native messaging frames.  A stream of frames, each of a text of at most
    one MiB without NUL, is read back as exactly these texts; when the stream is
    cut inside a frame, the texts before it are read and the host sees a
    malformed frame, never a shorter text; cut between frames it sees the end. *)
Theorem native_stream_roundtrip jsons json k fuel :
  Forall frame_ok jsons -> frame_ok json -> (k < length (native_frame json))%nat -> (length jsons < fuel)%nat ->
  read_all fuel (concat (map native_frame jsons) ++ take k (native_frame json)) =
    (jsons, if decide (k = 0%nat) then FrameEof else FrameMalformed).
Proof.
  intros Hok Hj Hk Hf. rewrite read_all_frames; [by rewrite native_read_cut|done|done|].
  intros j rest. rewrite native_read_cut by done. by case_decide.
Qed.

(** C36. The host keeps the extension informed.  Suppose that every write to standard output
    succeeds, that a message whose texts have the sizes of the wire structures (128 bytes of
    request id, 256 of error) prints to at most one MiB, and that each watched offer was not
    dismissed when it was registered ([slot_ok], which polling preserves; an offer that the
    extension registers again after the user dismissed it violates it, and is dropped without
    a word).  Then one poll of the 64 slots sends, for each watched offer and whatever the
    daemon answers, only messages that say something new; while the offer stays watched the
    last thing the extension heard is its present state and progress; and an offer is dropped
    only after a final message (dismissed, complete, error, expired, or the daemon gone).
    Nothing is sent for the others, and no popup is started. *)
Theorem poll_offers_informs json_print float_value write_ok h :
  output_works json_print float_value write_ok ->
  length (hs_offers h) = HOST_MAX_OFFERS -> Forall slot_ok (hs_offers h) ->
  exists h' mss, poll_offers json_print float_value write_ok h = (true, h') /\
    hs_sent h' = hs_sent h ++ concat mss /\ hs_popups h' = hs_popups h /\
    Forall slot_ok (hs_offers h') /\ Forall3 slot_result (hs_offers h) mss (hs_offers h').
Proof.
  intros Hout Hlen Hok.
  assert (exists h' mss, poll_offers json_print float_value write_ok h = (true, h') /\
    hs_sent h' = hs_sent h ++ concat mss /\ hs_popups h' = hs_popups h /\
    Forall3 slot_result (hs_offers h) mss (hs_offers h')) as (h' & mss & E & E1 & E2 & Hf).
  { unfold poll_offers. destruct (existsb tracked (hs_offers h)) eqn:Et; cbn [negb].
    - unfold host_dial. set (h1 := mkHost (hs_offers h) _ _ _).
      assert (hs_offers h1 = [] ++ hs_offers h) as Eo by done.
      destruct (match hs_dials h with c :: _ => c | [] => None end) as [c|].
      + destruct (host_poll_loop_spec json_print float_value write_ok Hout (hs_offers h) [] c h1 Eo Hok)
          as (h' & mss & post' & Ep & Hf & F1 & F2 & F3). rewrite Hlen in Ep. exists h', mss. by rewrite F1.
      + destruct (disconnect_loop_spec json_print float_value write_ok Hout (hs_offers h) [] h1 Eo Hok)
          as (h' & mss & post' & Ep & Hf & F1 & F2 & F3). rewrite Hlen in Ep. exists h', mss. by rewrite F1.
    - exists h, (replicate (length (hs_offers h)) []). split; [done|]. split; [|split; [done|by apply untracked_results]].
      clear Hlen. induction (length (hs_offers h)) as [|n IH]; [by rewrite app_nil_r|exact IH]. }
  exists h', mss. split; [done|]. split; [done|]. split; [done|]. split; [|done].
  clear E E1 E2 Hlen. induction Hf as [|s ms s' l k l' Hr _ IH]; [constructor|].
  apply Forall_cons in Hok as [Hs Hok]. constructor; [|by apply IH]. unfold slot_result in Hr.
  destruct (tracked s); [apply Hr|by destruct Hr as [_ ->]].
Qed.

(** ** Witnesses and examples *)

Lemma native_stream_roundtrip_witness :
  read_all 3 (native_frame (str "{}") ++ native_frame (str "[1]") ++ take 5 (native_frame (str "{}"))) =
    ([str "{}"; str "[1]"], FrameMalformed).
Proof.
  assert (forall s, (strlen s <=? NATIVE_MAX_MESSAGE) = true -> (0 <? strlen s) = true ->
            bool_decide (CH_NUL ∈ s) = false -> frame_ok s) as Hb.
  { intros s H1%Z.leb_le H2%Z.ltb_lt H3%bool_decide_eq_false. by split. }
  assert (frame_ok (str "{}")) as H1 by (apply Hb; vm_compute; reflexivity).
  assert (frame_ok (str "[1]")) as H2 by (apply Hb; vm_compute; reflexivity).
  pose proof (native_stream_roundtrip [str "{}"; str "[1]"] (str "{}") 5 3
                (Forall_cons_2 _ _ _ H1 (Forall_cons_2 _ _ _ H2 (Forall_nil_2 _))) H1 ltac:(by apply Nat.ltb_lt) ltac:(simpl; lia)) as H.
  cbn [map concat] in H. rewrite app_nil_r, <- !app_assoc in H. exact H.
Defined.

(** An offer the user has confirmed, whose download is complete. *)
Definition watched : IpcBrowserOffer :=
  mkOffer 77 0 9 IPC_BROWSER_WAITING (str "r1") (str "http://h/f") (str "f") [] [].
Definition confirmed_offer : IpcBrowserOffer :=
  mkOffer 77 5 9 IPC_BROWSER_CONFIRMED (str "r1") (str "http://h/f") (str "f") [] [].
Definition done_progress : IpcBrowserProgress := mkProgress 5 9 9 0 (str "DONE") [] (str "/d/f").

Definition watching (dials : list (option Conn)) : HostState :=
  set_slot 3 (mkHostOffer watched IPC_BROWSER_WAITING 0 []) (host_start dials).

Definition host_dials : list (option Conn) :=
  [Some (mkConn [RData (take 100 (encode_offer confirmed_offer)); REintr; RData (drop 100 (encode_offer confirmed_offer))] [] []);
   Some (mkConn [RBlock; RData (encode_progress done_progress)] [] [])].

(** A printer of objects: numbers as nineteen digits at most. *)
Definition print_value (v : json_value) : bytes :=
  match v with
  | JString s => [34] ++ s ++ [34]
  | JNumber n _ => decimal (Z.max 0 (Z.min n (10 ^ 19 - 1)))
  | JOther => str "null"
  end.
Definition print_member (m : bytes * json_value) : bytes := [34] ++ fst m ++ [34; 58] ++ print_value (snd m).
Fixpoint print_members (members : list (bytes * json_value)) : bytes :=
  match members with
  | [] => []
  | [m] => print_member m
  | m :: rest => print_member m ++ [44] ++ print_members rest
  end.
Definition demo_print (members : list (bytes * json_value)) : bytes := [123] ++ print_members members ++ [125].
Definition demo_float (bits : Z) : json_value := JNumber bits 1.

Definition value_fits (v : json_value) : Prop := match v with JString s => strlen s <= 256 | _ => True end.

Lemma print_member_short m : strlen (fst m) <= 32 -> value_fits (snd m) -> strlen (print_member m) <= 300.
Proof.
  destruct m as [k v]. cbn [fst snd]. intros Hk Hv. unfold print_member. cbn [fst snd]. rewrite !strlen_app.
  assert (strlen (print_value v) <= 260) as H.
  { destruct v as [s|n d|]; cbn [print_value value_fits] in *; [rewrite !strlen_app; unfold strlen in *; simpl in *; lia| |by vm_compute].
    pose proof (decimal_length 19 (Z.max 0 (Z.min n (10 ^ 19 - 1))) ltac:(lia) ltac:(zpow; lia)). lia. }
  unfold strlen in *. simpl. lia.
Qed.

Lemma print_members_short ms :
  Forall (fun m => strlen (fst m) <= 32 /\ value_fits (snd m)) ms -> strlen (print_members ms) <= 301 * Z.of_nat (length ms).
Proof.
  induction 1 as [|m ms [Hk Hv] _ IH]; [done|]. pose proof (print_member_short m Hk Hv) as Hm.
  destruct ms as [|m' ms]; [cbn [print_members length]; lia|].
  change (print_members (m :: m' :: ms)) with (print_member m ++ [44] ++ print_members (m' :: ms)).
  rewrite !strlen_app. cbn [length] in *. change (strlen [44]) with 1. lia.
Qed.

Lemma demo_output_works : output_works demo_print demo_float (fun _ => true).
Proof.
  split; [done|]. intros m Hm. unfold message_text, demo_print. rewrite !strlen_app.
  set (ms := message_members demo_float m).
  assert (Forall (fun m => strlen (fst m) <= 32 /\ value_fits (snd m)) ms /\ (length ms <= 9)%nat) as [Hs Hn].
  { subst ms. destruct m as [r t|o|o [p|]]; cbn [message_members message_fits demo_float app] in *;
      try (case_bool_decide; cbn [app]);
      (split; [repeat (apply Forall_cons; split; [split; [by vm_compute|cbn [snd value_fits]; first [exact I|lia|
         (unfold reported_name, state_name; repeat case_match; by vm_compute)|by vm_compute]]|]); apply Forall_nil|cbn [length]; lia]). all: exact I. }
  pose proof (print_members_short ms Hs). unfold NATIVE_MAX_MESSAGE. change (strlen [123]) with 1. change (strlen [125]) with 1. lia.
Qed.

Abbreviation demo_poll := (poll_offers demo_print demo_float (fun _ => true)).

Lemma poll_offers_informs_witness :
  exists h', demo_poll (watching host_dials) = (true, h') /\
    hs_sent h' = [MsgState confirmed_offer None; MsgState confirmed_offer (Some done_progress)] /\
    Forall slot_ok (hs_offers h').
Proof.
  assert (Forall slot_ok (hs_offers (watching host_dials))) as Hok.
  { cbn. repeat (apply Forall_cons_2; [split; [done|reflexivity|vm_compute; discriminate]|]). apply Forall_nil_2. }
  destruct (poll_offers_informs demo_print demo_float (fun _ => true) (watching host_dials)
              demo_output_works ltac:(reflexivity) Hok) as (h' & mss & E & Es & _ & Hok' & _).
  exists h'. split; [exact E|]. split; [|exact Hok'].
  assert (hs_sent (snd (demo_poll (watching host_dials))) =
            [MsgState confirmed_offer None; MsgState confirmed_offer (Some done_progress)]) as Ec
    by (vm_compute; reflexivity).
  by rewrite E in Ec.
Defined.

(** An extension that repeats an offer the user has dismissed is told that it is
    registered; the next poll drops it without a word. *)
Example repeated_dismissed_offer_dropped :
  let dismissed := set_offer_state IPC_BROWSER_DISMISSED watched in
  let dial := Some (mkConn [RData (encode_offer dismissed)] [] []) in
  let '(ok, h) := register_offer demo_print demo_float (fun _ => true) (str "/b/cdm_native_host")
                    (fun _ => true) true (str "r1") 0 dismissed (host_start [dial]) in
  let '(ok', h') := demo_poll h in
  ok = true /\ ok' = true /\ hs_sent h' = [MsgRegistered dismissed] /\ nth 0 (hs_offers h') no_host_offer = no_host_offer.
Proof. vm_compute. done. Qed.
